(* ===== verification/_CoqProject ===== *)
-Q . S2P
Prelude.v
Memory.v
StringC.v
Spinlock.v
Mmu.v
Kalloc.v
Block.v
Bio.v
Log.v
Blk.v
Fs.v
FsBlocks.v
FsInode.v
FsFile.v
FsDir.v
FsProps.v
Vm.v
VmTable.v
VmMap.v
VmUser.v
VmGrow.v
VmKernel.v
VmCopy.v
VmProps.v
Pipe.v
File.v
Proc.v
ProcInv.v
ProcStep.v
ProcProps.v
Syscall.v
Sysfile.v
SysfileProps.v
Exec.v
Trap.v
Net.v
NetProps.v
Kbd.v
Console.v
ConsoleProps.v
Grep.v
Ide.v
Umalloc.v
Sh.v
ShProps.v
Mkfs.v
MkfsProps.v
Ulib.v
ShRun.v
ShRunProps.v
Uprog.v
Devices.v
Tables.v
Loader.v
