(* ===== verification/Prelude.v ===== *)
(** * xv6-UEFI: a verification library for this repository

    The repository is an x86 teaching kernel (xv6) that boots from UEFI, with
    a small network stack, a graphical console and the usual user programs.
    The library models the kernel's own logic as executable functions on
    explicit states and proves what makes each part correct.  File and
    function names below are those of src/xv6.

    ** How the program is put together

    Pages of memory come from kalloc.c; vm.c builds page tables out of them.
    memide.c is the disk (ide.c when it is a real drive), bio.c caches its
    blocks, log.c makes groups of block
    writes atomic, fs.c builds inodes, directories and paths on that, file.c
    counts open files, pipe.c connects two of them.  proc.c runs processes on
    all processors with the locks of spinlock.c and sleeplock.c; trap.c and
    syscall.c bring user programs into the kernel, where sysfile.c, sysproc.c
    and exec.c serve them.  console.c, kbd.c, uart.c, graphic.c and font.c are
    the terminal; eth.c, arp.c, ipv4.c, icmp.c, tcp.c, http.c, i8254.c and
    pci.c are the network.  mp_uefi.c finds the processors in a table of the
    firmware; lapic.c, ioapic.c and picirq.c program the interrupts.  mkfs.c
    builds the disk image on the host.  Of the user programs sh.c and grep.c
    carry logic of their own; they use ulib.c, printf.c and umalloc.c.

    ** Conventions

    Integers keep their C width by an explicit wrap ([u8], [u16], [u32],
    [i32]); memory is a function from addresses to bytes ([Memory]).  Kernel
    code is a function in the state monad [M]: it returns, or stops in a
    panic, a fault, a sleep, a spin or for lack of fuel ([stop]).  C arrays
    of structs are functions of the index ([fupd]).  The body between
    acquire and release of a spin lock is one atomic step; Spinlock justifies
    this.  A call that sleeps ends its segment with the channel ([Slept]), or
    with an explicit result that says where it resumes (Pipe, Proc, Console).
    [safe E m s Q] states that [m] returns with [Q] or stops in a way [E]
    allows and in no other, so that no theorem holds because code never
    returns.

    Fuel appears where a loop is not structural: freerange and the page loops
    of vm.c have one unit per page of the range, readi and writei one per
    block, directory scans one per entry, path walks one per path byte, kill
    line one per character; the theorems about these loops prove that they
    return, so the fuel is enough.

    ** Files and what they show

    - Prelude, Memory: machine integers, the monad and its laws, lists, step
      sequences, bytes and words.  StringC: string.c, memmove as a
      simultaneous copy, memset, strncpy and the comparisons.
    - Spinlock: spinlock.c and mycpu of proc.c on one processor, refined to a
      set of held locks; the accesses of many processors interleaved, with
      mutual exclusion and unreachable panics.
    - Mmu, Kalloc: mmu.h and memlayout.h; kalloc.c with the free list in the
      free pages.  [PageAllocator] is the interface the page-table code and
      the network code are proved against, and Kalloc discharges it: no page
      is handed out twice.
    - Block, Bio: memide.c, sleeplock.c and bio.c: the LRU list and the
      coherence of cached blocks.  Log: log.c: commits are atomic under power
      loss between any two disk writes, recovery may itself be interrupted,
      and the space begin_op reserves is one block short.  Blk: the interface
      of logged blocks the file system uses, discharged by the log.
    - Fs (definitions), FsBlocks, FsInode, FsFile, FsDir, FsProps: fs.c:
      block allocation, the inode cache, reading and writing files through
      direct and indirect blocks, directories and names.
    - Vm (definitions), VmTable, VmMap, VmUser, VmGrow, VmKernel, VmCopy,
      VmProps: vm.c: [ptab] ties a page directory in memory to the mapping it
      stands for; mapping, growing, copying and freeing address spaces,
      with every page accounted for.
    - Pipe, File: pipe.c: bytes in order over counter wrap-around, no lost
      wakeup; file.c: reference counts.
    - Proc (definitions), ProcInv, ProcStep, ProcProps: proc.c as a transition
      system of critical sections on all processors ([sys_step]): a process
      runs on one processor at most, pids are unique, wait misses no exit,
      the checks of sched pass, a scheduler round is fair.
    - Syscall, Sysfile, SysfileProps, Exec, Trap: syscall.c, sysfile.c,
      exec.c, sysproc.c and trap.c over all of the above: arguments stay in
      the process, descriptors are counted, exec replaces the image or
      nothing, unexpected traps kill or panic, sleep counts over wrap-around.
    - Net (definitions), NetProps: the network: the checksum is the
      ones'-complement sum, an echo request is answered by a packet that
      verifies, the ARP table finds what it was given.
    - Kbd, Console (definitions), ConsoleProps: kbdgetc stays within its
      tables; drawing stays in the frame buffer, printed numbers read back,
      the input ring is a line editor.
    - Ide: ide.c with the drive behind its ports: requests of any callers are
      served one at a time in the order they were made and none is forgotten.
    - Grep: grep.c: the matcher decides the expressions, and the line loop
      prints the lines that match.
    - Umalloc: umalloc.c: the ring of free blocks; blocks handed out are
      disjoint, malloc and free return, freed memory is joined again.
    - Sh (definitions), ShProps: the parser of sh.c with its pointers into
      the line: it accepts exactly the sentences of the grammar and builds
      their trees.  ShRun (definitions), ShRunProps: running the trees and
      the loop of main: every program starts with the descriptors the line
      asks for and no other, whichever calls the kernel refuses.
    - Ulib: ulib.c and printf.c: strings in memory, gets stays in its buffer,
      printed numbers are read back by atoi.  Uprog: wc.c, cat.c, echo.c and
      the names of ls.c: counts and copies do not depend on how reads cut a
      file up.
    - Devices: mp_uefi.c, lapic.c, ioapic.c, picirq.c, and what uart.c and
      graphic.c do at boot: the scan of the firmware's table finds the
      processors, every interrupt is masked until it is enabled, the date is
      read consistently.  Tables: the descriptors of mmu.h, seginit and
      tvinit: user programs enter the kernel by a system call only.
    - Loader: relocate.c of MyLoaderPkg: the segments of the kernel file are
      put in place with the bytes of the file, inside the pages allocated.
    - Mkfs (definitions), MkfsProps: mkfs.c: the image it builds has a
      superblock, an empty log, an exact bitmap, a root directory and files
      with their bytes, and is what the theorems of Log and Fs start from.

    ** Parameters

    Code outside the sources is an argument: the end of the kernel image, the
    device switch below fs.c, the interrupt handlers of devices in trap.c,
    the network card's answer to an EEPROM request, the glyph table, the
    values that the local APIC and the clock show, the firmware services of the
    loader, the entry points of the generated vectors.S, and for user programs which
    system calls are refused and what their reads return.  Card registers
    read back what was written to them.  Each theorem with a
    hypothesis has a witness at a concrete state.

    ** Not modelled

    The order of the calls in main.c and the start of the other processors;
    mp.c, which the build leaves out in favour of mp_uefi.c; the user programs that
    are short sequences of system calls (init, ls, rm, mkdir, ln, kill) and
    the test programs (usertests, stressfs, forktest); stat of ulib.c; the
    rest of the UEFI loader, which calls firmware services for files, graphics
    and the memory map; stack switching in
    swtch.S, whose effect is the explicit resumption of Proc; generated
    assembly and binary images.  Printing for diagnosis (procdump, panic
    output, cprintf calls) is left out of the functions that do it. *)
From stdpp Require Import base numbers list gmap strings.
Open Scope Z_scope.

#[global] Arguments Z.eqb : simpl never.
#[global] Arguments Z.ltb : simpl never.
#[global] Arguments Z.leb : simpl never.
#[global] Arguments Z.add : simpl never.
#[global] Arguments Z.sub : simpl never.
#[global] Arguments Z.mul : simpl never.
#[global] Arguments Z.div : simpl never.
#[global] Arguments Z.modulo : simpl never.
#[global] Arguments Z.pow : simpl never.
#[global] Arguments Z.land : simpl never.
#[global] Arguments Z.lor : simpl never.
#[global] Arguments Z.shiftl : simpl never.
#[global] Arguments Z.testbit : simpl never.
#[global] Arguments Z.shiftr : simpl never.
#[global] Arguments Z.of_nat : simpl never.
#[global] Arguments Z.to_nat : simpl never.

(** ** Machine integers

    A C integer of width [w] is a [Z] kept in range by an explicit wrap.
    [u8], [u16] and [u32] are [uchar], [ushort] and [uint] of types.h;
    [i32] is [int], [i16] is [short], two's complement. *)

Definition u8 (z : Z) : Z := z mod 256.
Definition u16 (z : Z) : Z := z mod 65536.
Definition u32 (z : Z) : Z := z mod 4294967296.
Definition i16 (z : Z) : Z := (z + 32768) mod 65536 - 32768.
Definition i32 (z : Z) : Z := (z + 2147483648) mod 4294967296 - 2147483648.

Definition is_u8 (z : Z) : Prop := 0 <= z < 256.
Definition is_u16 (z : Z) : Prop := 0 <= z < 65536.
Definition is_u32 (z : Z) : Prop := 0 <= z < 4294967296.
Definition is_i32 (z : Z) : Prop := -2147483648 <= z < 2147483648.

Declare Scope cint_scope.
Delimit Scope cint_scope with cint.
Notation "x +u y" := (u32 (x + y)) (at level 50, left associativity) : cint_scope.
Notation "x -u y" := (u32 (x - y)) (at level 50, left associativity) : cint_scope.
Open Scope cint_scope.

(** [lia] with the wraps unfolded and [mod]/[/] turned into equations. *)
Ltac word :=
  unfold u8, u16, u32, i16, i32, is_u8, is_u16, is_u32, is_i32 in *;
  Z.div_mod_to_equations; lia.

(** Case split on the boolean comparisons of the code. *)
Ltac zcases :=
  repeat match goal with
  | |- context [ (?a =? ?b)%Z ] => destruct (Z.eqb_spec a b)
  | |- context [ (?a <? ?b)%Z ] => destruct (Z.ltb_spec a b)
  | |- context [ (?a <=? ?b)%Z ] => destruct (Z.leb_spec a b)
  | H : context [ (?a =? ?b)%Z ] |- _ => destruct (Z.eqb_spec a b)
  | H : context [ (?a <? ?b)%Z ] |- _ => destruct (Z.ltb_spec a b)
  | H : context [ (?a <=? ?b)%Z ] |- _ => destruct (Z.leb_spec a b)
  end.

(** ** Outcomes and the state monad of kernel code

    A kernel function either returns, or the path it was on ends: [panic]
    stops the machine, an access through a null or unmapped pointer faults,
    [sleep] gives the processor away on a channel, a spin loop waits for
    another processor, or the model's fuel is exhausted. *)

Inductive stop :=
| Panicked (msg : string)
| Faulted (why : string)
| Slept (chan : Z)
| Spinning
| NoFuel.

Inductive outcome (S A : Type) :=
| Ret (a : A) (s : S)
| Stop (e : stop) (s : S).
Arguments Ret {S A} a s.
Arguments Stop {S A} e s.

Definition M (S A : Type) : Type := S -> outcome S A.

Definition ret {S A} (a : A) : M S A := fun s => Ret a s.
Definition bind {S A B} (m : M S A) (k : A -> M S B) : M S B := fun s =>
  match m s with
  | Ret a s' => k a s'
  | Stop e s' => Stop e s'
  end.
Definition stop_with {S A} (e : stop) : M S A := fun s => Stop e s.
Definition panic {S A} (msg : string) : M S A := stop_with (Panicked msg).
Definition gets {S A} (f : S -> A) : M S A := fun s => Ret (f s) s.
Definition modify {S} (f : S -> S) : M S unit := fun s => Ret tt (f s).
Definition when {S} (b : bool) (m : M S unit) : M S unit :=
  if b then m else ret tt.

(** Runs a computation on a component [T] of a larger state [S]. *)
Definition zoom {S T A} (get : S -> T) (put : T -> S -> S) (m : M T A) : M S A :=
  fun s =>
    match m (get s) with
    | Ret a t => Ret a (put t s)
    | Stop e t => Stop e (put t s)
    end.

Declare Scope kernel_scope.
Delimit Scope kernel_scope with kernel.
Notation "'let!' x ':=' m 'in' k" := (bind m (fun x => k))
  (at level 10, x pattern, m at level 100, k at level 200)
  : kernel_scope.
Notation "m ;; k" := (bind m (fun _ => k))
  (at level 100, k at level 200, right associativity) : kernel_scope.
Open Scope kernel_scope.

(** [for (i = 0; i < length l; i++) f(l[i])] *)
Fixpoint mfor {S X} (l : list X) (f : X -> M S unit) : M S unit :=
  match l with
  | [] => ret tt
  | x :: l' => f x ;; mfor l' f
  end.

(** The indices [first, first+1, ..., first+n-1] of a C array loop. *)
Definition indices (first : Z) (n : nat) : list Z := seqZ first (Z.of_nat n).

(** A total-correctness triple: from every state satisfying [P] the code
    returns, and the result and final state satisfy [Q]. *)
Definition triple {S A} (P : S -> Prop) (m : M S A) (Q : A -> S -> Prop) : Prop :=
  forall s, P s -> exists a s', m s = Ret a s' /\ Q a s'.

Create HintDb kernel.

Section monad_laws.
Context {S : Type}.

Lemma bind_ret_l {A B} (a : A) (k : A -> M S B) s : bind (ret a) k s = k a s.
Proof. reflexivity. Qed.

Lemma bind_gets {A B} (f : S -> A) (k : A -> M S B) s : bind (gets f) k s = k (f s) s.
Proof. reflexivity. Qed.

Lemma bind_modify {B} (f : S -> S) (k : unit -> M S B) s :
  bind (modify f) k s = k tt (f s).
Proof. reflexivity. Qed.

Lemma bind_assoc {A B C} (m : M S A) (f : A -> M S B) (g : B -> M S C) s :
  bind (bind m f) g s = bind m (fun a => bind (f a) g) s.
Proof. unfold bind. by destruct (m s). Qed.

Lemma bind_Ret {A B} (m : M S A) (k : A -> M S B) s b s'' :
  bind m k s = Ret b s'' <->
  exists a s', m s = Ret a s' /\ k a s' = Ret b s''.
Proof.
  unfold bind. destruct (m s) as [a s'|e s'] eqn:E; split.
  - eauto.
  - intros (?&?&[= -> ->]&?); done.
  - intros [=].
  - intros (?&?&[=]&_).
Qed.

Lemma bind_run {A B} (m : M S A) (k : A -> M S B) s a s' :
  m s = Ret a s' -> bind m k s = k a s'.
Proof. unfold bind. by intros ->. Qed.

Lemma bind_stop {A B} (m : M S A) (k : A -> M S B) s e s' :
  m s = Stop e s' -> bind m k s = Stop e s'.
Proof. unfold bind. by intros ->. Qed.

Lemma triple_ret {A} (P : S -> Prop) (a : A) (Q : A -> S -> Prop) :
  (forall s, P s -> Q a s) -> triple P (ret a) Q.
Proof. intros H s HP. eexists _, _. split; [done|auto]. Qed.

Lemma triple_bind {A B} (P : S -> Prop) (m : M S A) (k : A -> M S B) R Q :
  triple P m R -> (forall a, triple (R a) (k a) Q) -> triple P (bind m k) Q.
Proof.
  intros Hm Hk s HP. destruct (Hm s HP) as (a&s'&E&HR).
  destruct (Hk a s' HR) as (b&s''&E'&HQ).
  exists b, s''. split; [|done]. by rewrite (bind_run _ _ _ _ _ E).
Qed.

Lemma triple_conseq {A} (P P' : S -> Prop) (m : M S A) (Q Q' : A -> S -> Prop) :
  triple P m Q -> (forall s, P' s -> P s) -> (forall a s, Q a s -> Q' a s) ->
  triple P' m Q'.
Proof. intros Hm HP HQ s Hs. destruct (Hm s (HP s Hs)) as (a&s'&?&?). eauto. Qed.

(** A loop whose body preserves an invariant preserves it. *)
Lemma mfor_triple {X} (I : S -> Prop) (l : list X) (f : X -> M S unit) :
  (forall x, x ∈ l -> triple I (f x) (fun _ => I)) ->
  triple I (mfor l f) (fun _ => I).
Proof.
  induction l as [|x l IH]; intros Hf; simpl.
  - by apply triple_ret.
  - apply triple_bind with (fun _ => I).
    + apply Hf. left.
    + intros _. apply IH. intros y Hy. apply Hf. by right.
Qed.
End monad_laws.

(** Splits every monadic hypothesis into its calls. *)
Ltac inv_ret :=
  repeat match goal with
  | H : bind _ _ _ = Ret _ _ |- _ =>
      apply bind_Ret in H as (?&?&?&H)
  | H : ret _ _ = Ret _ _ |- _ => injection H as <- <-
  | H : gets _ _ = Ret _ _ |- _ => injection H as <- <-
  | H : modify _ _ = Ret _ _ |- _ => injection H as <- <-
  | H : panic _ _ = Ret _ _ |- _ => discriminate H
  | H : stop_with _ _ = Ret _ _ |- _ => discriminate H
  end.

(** Runs the head of a monadic goal: reads and writes of the state reduce,
    a call reduces by the equation given. *)
Ltac mred :=
  repeat first [ rewrite bind_assoc | rewrite bind_gets | rewrite bind_modify
               | rewrite bind_ret_l ].
Ltac mcall H := mred; (erewrite bind_run; [|solve [eapply H; eauto]]).

(** ** Integer lemmas shared by the components *)

Lemma u32_small z : is_u32 z -> u32 z = z.
Proof. intros. unfold u32. apply Z.mod_small, H. Qed.
Lemma u16_small z : is_u16 z -> u16 z = z.
Proof. intros. unfold u16. apply Z.mod_small, H. Qed.
Lemma u8_small z : is_u8 z -> u8 z = z.
Proof. intros. unfold u8. apply Z.mod_small, H. Qed.
Lemma i32_small z : is_i32 z -> i32 z = z.
Proof. intros. word. Qed.
Lemma u32_range z : is_u32 (u32 z).
Proof. word. Qed.
Lemma u16_range z : is_u16 (u16 z).
Proof. word. Qed.
Lemma u8_range z : is_u8 (u8 z).
Proof. word. Qed.
#[export] Hint Resolve u32_range u16_range u8_range : kernel.

Lemma u32_idemp z : u32 (u32 z) = u32 z.
Proof. apply u32_small, u32_range. Qed.
Lemma u32_add_l a b : u32 (u32 a + b) = u32 (a + b).
Proof. unfold u32. apply Zplus_mod_idemp_l. Qed.
Lemma u32_add_r a b : u32 (a + u32 b) = u32 (a + b).
Proof. unfold u32. apply Zplus_mod_idemp_r. Qed.
Lemma u32_sub_l a b : u32 (u32 a - b) = u32 (a - b).
Proof. unfold u32. apply Zminus_mod_idemp_l. Qed.
Lemma u32_sub_r a b : u32 (a - u32 b) = u32 (a - b).
Proof. unfold u32. apply Zminus_mod_idemp_r. Qed.

(** The low [k] bits of [a] as a bit mask. *)
Lemma land_mask a k : 0 <= k -> Z.land a (2 ^ k - 1) = a mod 2 ^ k.
Proof.
  intros. rewrite <- Z.land_ones by lia. f_equal. rewrite Z.ones_equiv. lia.
Qed.

(** Clearing the low [k] bits. *)
Lemma land_lnot_mask a k :
  0 <= k -> Z.land a (Z.lnot (2 ^ k - 1)) = a - a mod 2 ^ k.
Proof.
  intros. replace (2 ^ k - 1) with (Z.ones k) by (rewrite Z.ones_equiv; lia).
  rewrite <- Z.ldiff_land. rewrite Z.ldiff_ones_r by lia.
  rewrite Z.shiftl_mul_pow2, Z.shiftr_div_pow2 by lia.
  rewrite Z.mod_eq by lia. lia.
Qed.

(** Or-ing into bits that are clear is addition. *)
Lemma lor_disjoint a b : Z.land a b = 0 -> Z.lor a b = a + b.
Proof. intros H. rewrite <- Z.lxor_lor by done. symmetry. by apply Z.add_nocarry_lxor. Qed.

Lemma land_low_high a b k :
  0 <= k -> a mod 2 ^ k = 0 -> 0 <= b < 2 ^ k -> Z.land a b = 0.
Proof.
  intros Hk Ha Hb. apply Z.bits_inj'. intros n Hn.
  rewrite Z.land_spec, Z.bits_0.
  destruct (Z.lt_ge_cases n k).
  - replace (Z.testbit a n) with false; [done|].
    rewrite <- (Z.mod_pow2_bits_low a k n) by lia. by rewrite Ha, Z.bits_0.
  - replace (Z.testbit b n) with false; [by rewrite andb_false_r|].
    rewrite <- (Z.mod_small b (2 ^ k)) by lia. by rewrite Z.mod_pow2_bits_high by lia.
Qed.

(** ** List lemmas *)

(** The element at a C index, or [d] outside the array. *)
Definition nthZ {A} (d : A) (l : list A) (i : Z) : A :=
  if i <? 0 then d else nth (Z.to_nat i) l d.

Definition updZ {A} (l : list A) (i : Z) (x : A) : list A :=
  if i <? 0 then l else <[Z.to_nat i := x]> l.

Section listz.
Context {A : Type} (d : A).

Lemma length_updZ (l : list A) i x : length (updZ l i x) = length l.
Proof. unfold updZ. zcases; [done|]. apply length_insert. Qed.

Lemma nthZ_lookup (l : list A) i x :
  0 <= i -> l !! Z.to_nat i = Some x -> nthZ d l i = x.
Proof. intros Hi Hl. unfold nthZ. zcases; [lia|]. by apply nth_lookup_Some with (d := d) in Hl. Qed.

Lemma lookup_nthZ (l : list A) i :
  0 <= i < Z.of_nat (length l) -> l !! Z.to_nat i = Some (nthZ d l i).
Proof.
  intros Hi. destruct (lookup_lt_is_Some_2 l (Z.to_nat i)) as [x Hx]; [lia|].
  rewrite Hx. f_equal. symmetry. by apply nthZ_lookup; [lia|].
Qed.

Lemma nthZ_updZ_eq (l : list A) i x :
  0 <= i < Z.of_nat (length l) -> nthZ d (updZ l i x) i = x.
Proof.
  intros Hi. apply nthZ_lookup; [lia|]. unfold updZ. zcases; [lia|].
  apply list_lookup_insert_eq. lia.
Qed.

Lemma nthZ_updZ_ne (l : list A) i j x : i <> j -> nthZ d (updZ l i x) j = nthZ d l j.
Proof.
  intros Hij. unfold nthZ, updZ. zcases; [done..|].
  rewrite !nth_lookup. by rewrite list_lookup_insert_ne by lia.
Qed.
End listz.

(** C arrays of structs and disks, as total functions of the index. *)
Definition fupd {A} (f : Z -> A) (i : Z) (x : A) : Z -> A :=
  fun j => if j =? i then x else f j.

Lemma fupd_eq {A} (f : Z -> A) i x : fupd f i x i = x.
Proof. unfold fupd. by rewrite Z.eqb_refl. Qed.
Lemma fupd_ne {A} (f : Z -> A) i j x : j <> i -> fupd f i x j = f j.
Proof. intros. unfold fupd. zcases; [lia|done]. Qed.
Lemma fupd_at {A} (f : Z -> A) i j x : fupd f i x j = if j =? i then x else f j.
Proof. done. Qed.

(** Total modulo the stops allowed by [E]: the code returns with [Q], or it
    ends in one of the named stops; it never ends otherwise. *)
Definition safe {S A} (E : stop -> Prop) (m : M S A) (s : S) (Q : A -> S -> Prop) : Prop :=
  match m s with
  | Ret a s' => Q a s'
  | Stop e _ => E e
  end.

Section safe_laws.
Context {S : Type} (E : stop -> Prop).

Lemma safe_ret {A} (a : A) (s : S) Q : Q a s -> safe E (ret a) s Q.
Proof. done. Qed.

Lemma safe_bind {A B} (m : M S A) (k : A -> M S B) s Q R :
  safe E m s R -> (forall a s', R a s' -> safe E (k a) s' Q) -> safe E (bind m k) s Q.
Proof. unfold safe, bind. destruct (m s); [|done]. intros HR Hk. by apply Hk. Qed.

Lemma safe_gets {A B} (f : S -> A) (k : A -> M S B) s Q :
  safe E (k (f s)) s Q -> safe E (bind (gets f) k) s Q.
Proof. done. Qed.

Lemma safe_modify {B} (f : S -> S) (k : unit -> M S B) s Q :
  safe E (k tt) (f s) Q -> safe E (bind (modify f) k) s Q.
Proof. done. Qed.

Lemma safe_conseq {A} (m : M S A) s (Q Q' : A -> S -> Prop) :
  safe E m s Q -> (forall a s', Q a s' -> Q' a s') -> safe E m s Q'.
Proof. unfold safe. destruct (m s); auto. Qed.

Lemma safe_run {A} (m : M S A) s a s' (Q : A -> S -> Prop) :
  m s = Ret a s' -> Q a s' -> safe E m s Q.
Proof. unfold safe. by intros ->. Qed.

(** A loop that carries an invariant over the index. *)
Lemma safe_mfor {X} (I : list X -> S -> Prop) (l : list X) (f : X -> M S unit) s :
  I l s ->
  (forall x l' s', I (x :: l') s' -> safe E (f x) s' (fun _ => I l')) ->
  safe E (mfor l f) s (fun _ => I []).
Proof.
  intros HI Hf. revert s HI. induction l as [|x l IH]; intros s HI; simpl.
  - by apply safe_ret.
  - eapply safe_bind; [by apply Hf|]. intros [] s'. apply IH.
Qed.
End safe_laws.

(** Sequences of steps, for the state machines. *)
Inductive star {A} (R : A -> A -> Prop) : A -> A -> Prop :=
| star_refl a : star R a a
| star_snoc a b c : star R a b -> R b c -> star R a c.
#[export] Hint Constructors star : kernel.

Lemma star_invariant {A} (R : A -> A -> Prop) (I : A -> Prop) a b :
  (forall x y, I x -> R x y -> I y) -> star R a b -> I a -> I b.
Proof. intros HI Hab Ia. induction Hab; eauto. Qed.

Lemma star_trans {A} (R : A -> A -> Prop) a b c : star R a b -> star R b c -> star R a c.
Proof. intros Hab Hbc. induction Hbc; eauto with kernel. Qed.
