(* ===== verification/Memory.v ===== *)
(** * Byte-addressed memory

    The C code addresses one flat memory.  [mem] gives the byte at every
    address; [load16]/[load32]/[store16]/[store32] are the little-endian
    accesses of x86.  Two memories are equivalent when they hold the same
    bytes; loads respect that equivalence. *)
From stdpp Require Import base numbers list.
From S2P Require Import Prelude.
Open Scope Z_scope.

Definition mem := Z -> Z.

Definition mem_wf (m : mem) : Prop := forall a, is_u8 (m a).

(** [*(uchar* )a = v] *)
Definition store8 (m : mem) (a v : Z) : mem := fun x => if x =? a then u8 v else m x.

(** The [n] bytes of [v], lowest first, and back. *)
Fixpoint le_bytes (n : nat) (v : Z) : list Z :=
  match n with
  | O => []
  | S n' => u8 v :: le_bytes n' (v / 256)
  end.

Fixpoint le_val (l : list Z) : Z :=
  match l with
  | [] => 0
  | b :: l' => b + 256 * le_val l'
  end.

Definition load_bytes (m : mem) (a : Z) (n : nat) : list Z := map m (indices a n).

Fixpoint store_bytes (m : mem) (a : Z) (l : list Z) : mem :=
  match l with
  | [] => m
  | b :: l' => store_bytes (store8 m a b) (a + 1) l'
  end.

Definition load16 (m : mem) (a : Z) : Z := le_val (load_bytes m a 2).
Definition load32 (m : mem) (a : Z) : Z := le_val (load_bytes m a 4).
Definition store16 (m : mem) (a v : Z) : mem := store_bytes m a (le_bytes 2 v).
Definition store32 (m : mem) (a v : Z) : mem := store_bytes m a (le_bytes 4 v).

(** Bytes [a, a+n) hold [c]; the rest is unchanged. *)
Definition fill (m : mem) (a n c : Z) : mem :=
  fun x => if (a <=? x) && (x <? a + n) then u8 c else m x.

(** Bytes [d, d+n) hold what [s, s+n) held in [m]. *)
Definition copied (m : mem) (d s n : Z) : mem :=
  fun x => if (d <=? x) && (x <? d + n) then m (s + (x - d)) else m x.

#[export] Instance mem_equiv : Equiv mem := fun m1 m2 => forall a, m1 a = m2 a.
#[export] Instance mem_equivalence : Equivalence (≡@{mem}).
Proof.
  split.
  - by intros m a.
  - by intros m1 m2 H a.
  - intros m1 m2 m3 H1 H2 a. by rewrite H1, H2.
Qed.

#[export] Instance store8_proper : Proper ((≡) ==> (=) ==> (=) ==> (≡)) store8.
Proof. intros m1 m2 H a ? <- v ? <- x. unfold store8. by rewrite H. Qed.

#[export] Instance load_bytes_proper : Proper ((≡) ==> (=) ==> (=) ==> (=)) load_bytes.
Proof.
  intros m1 m2 H a ? <- n ? <-. unfold load_bytes. apply map_ext. intros x. apply H.
Qed.

#[export] Instance load32_proper : Proper ((≡) ==> (=) ==> (=)) load32.
Proof. intros m1 m2 H a ? <-. unfold load32. by rewrite H. Qed.

#[export] Instance load16_proper : Proper ((≡) ==> (=) ==> (=)) load16.
Proof. intros m1 m2 H a ? <-. unfold load16. by rewrite H. Qed.

#[export] Instance store_bytes_proper : Proper ((≡) ==> (=) ==> (=) ==> (≡)) store_bytes.
Proof.
  intros m1 m2 H a ? <- l ? <-. revert m1 m2 H a.
  induction l as [|b l IH]; intros m1 m2 H a; simpl; [done|].
  apply IH. by apply store8_proper.
Qed.

(** ** Bytes of a word *)

Lemma length_le_bytes n v : length (le_bytes n v) = n.
Proof. revert v. induction n; intros v; simpl; [done|]. by rewrite IHn. Qed.

Lemma le_val_bytes n v : le_val (le_bytes n v) = v mod 256 ^ Z.of_nat n.
Proof.
  revert v. induction n as [|n IH]; intros v; simpl le_bytes; simpl le_val.
  - by rewrite Z.mod_1_r.
  - rewrite IH, Nat2Z.inj_succ, Z.pow_succ_r by lia.
    rewrite Z.rem_mul_r by lia. unfold u8. lia.
Qed.

Lemma le_val_range l : Forall is_u8 l -> 0 <= le_val l < 256 ^ Z.of_nat (length l).
Proof.
  induction 1 as [|b l Hb _ IH]; simpl length; simpl le_val; [lia|].
  rewrite Nat2Z.inj_succ, Z.pow_succ_r by lia. unfold is_u8 in Hb. nia.
Qed.

Lemma le_bytes_u8 n v : Forall is_u8 (le_bytes n v).
Proof. revert v. induction n; intros v; simpl; constructor; auto with kernel. Qed.

Lemma le_bytes_val l : Forall is_u8 l -> le_bytes (length l) (le_val l) = l.
Proof.
  induction 1 as [|b l Hb _ IH]; simpl; [done|]. unfold is_u8 in Hb.
  f_equal.
  - unfold u8. rewrite (Z.mul_comm 256), Z.mod_add by lia. by apply Z.mod_small.
  - rewrite (Z.mul_comm 256), Z.div_add, (Z.div_small b) by lia. done.
Qed.

(** ** Loads and stores *)

Lemma store8_eq m a v : store8 m a v a = u8 v.
Proof. unfold store8. by rewrite Z.eqb_refl. Qed.

Lemma store8_ne m a v x : x <> a -> store8 m a v x = m x.
Proof. intros. unfold store8. zcases; [lia|done]. Qed.

Lemma store8_wf m a v : mem_wf m -> mem_wf (store8 m a v).
Proof. intros H x. unfold store8. zcases; auto with kernel. Qed.

Lemma store_bytes_wf m a l : mem_wf m -> mem_wf (store_bytes m a l).
Proof. revert m a. induction l; intros m a' H; simpl; auto using store8_wf. Qed.

(** What a run of byte stores leaves at [x]. *)
Lemma store_bytes_at m a l x :
  store_bytes m a l x =
  if (a <=? x) && (x <? a + Z.of_nat (length l)) then u8 (nthZ 0 l (x - a)) else m x.
Proof.
  revert m a. induction l as [|b l IH]; intros m a.
  - simpl. zcases; [lia|done..].
  - simpl store_bytes. rewrite IH. simpl length. unfold store8, nthZ.
    zcases; try lia; simpl; try done.
    all: try (replace (Z.to_nat (x - a)) with (S (Z.to_nat (x - (a + 1)))) by lia; done).
    subst. by rewrite Z.sub_diag.
Qed.

Lemma store_bytes_other m a l x :
  x < a \/ a + Z.of_nat (length l) <= x -> store_bytes m a l x = m x.
Proof. intros. rewrite store_bytes_at. zcases; [lia|done..]. Qed.

Lemma indices_cons a n : indices a (S n) = a :: indices (a + 1) n.
Proof.
  unfold indices. rewrite seqZ_cons by lia. f_equal. f_equal; lia.
Qed.

Lemma load_bytes_S m a n : load_bytes m a (S n) = m a :: load_bytes m (a + 1) n.
Proof. unfold load_bytes. by rewrite indices_cons. Qed.

Lemma length_load_bytes m a n : length (load_bytes m a n) = n.
Proof. unfold load_bytes, indices. rewrite length_map, length_seqZ. lia. Qed.

Lemma load_bytes_ext m1 m2 a n :
  (forall x, a <= x < a + Z.of_nat n -> m1 x = m2 x) ->
  load_bytes m1 a n = load_bytes m2 a n.
Proof.
  revert a. induction n as [|n IH]; intros a H; [done|].
  rewrite !load_bytes_S. rewrite (H a) by lia. f_equal. apply IH. intros. apply H. lia.
Qed.

Lemma load_bytes_u8 m a n : mem_wf m -> Forall is_u8 (load_bytes m a n).
Proof.
  intros H. revert a. induction n as [|n IH]; intros a; [constructor|].
  rewrite load_bytes_S. constructor; auto.
Qed.

Lemma load_store_bytes m a l :
  Forall is_u8 l -> load_bytes (store_bytes m a l) a (length l) = l.
Proof.
  intros H. revert m a. induction H as [|b l Hb Hl IH]; intros m a; [done|].
  simpl length. rewrite load_bytes_S. simpl store_bytes. rewrite IH.
  rewrite store_bytes_other by lia. by rewrite store8_eq, u8_small.
Qed.

Lemma load_store_bytes_ne m a l b n :
  b + Z.of_nat n <= a \/ a + Z.of_nat (length l) <= b ->
  load_bytes (store_bytes m a l) b n = load_bytes m b n.
Proof. intros. apply load_bytes_ext. intros. apply store_bytes_other. lia. Qed.

Lemma load32_range m a : mem_wf m -> is_u32 (load32 m a).
Proof.
  intros H. pose proof (le_val_range _ (load_bytes_u8 m a 4 H)) as Hr.
  rewrite length_load_bytes in Hr. exact Hr.
Qed.

Lemma load16_range m a : mem_wf m -> is_u16 (load16 m a).
Proof.
  intros H. pose proof (le_val_range _ (load_bytes_u8 m a 2 H)) as Hr.
  rewrite length_load_bytes in Hr. exact Hr.
Qed.

Lemma load_store32_eq m a v : load32 (store32 m a v) a = u32 v.
Proof.
  unfold load32, store32. rewrite <- (length_le_bytes 4 v) at 2.
  rewrite load_store_bytes by apply le_bytes_u8. apply le_val_bytes.
Qed.

Lemma load_store16_eq m a v : load16 (store16 m a v) a = u16 v.
Proof.
  unfold load16, store16. rewrite <- (length_le_bytes 2 v) at 2.
  rewrite load_store_bytes by apply le_bytes_u8. apply le_val_bytes.
Qed.

Lemma load_store32_ne m a v b :
  b + 4 <= a \/ a + 4 <= b -> load32 (store32 m a v) b = load32 m b.
Proof.
  intros. unfold load32, store32. rewrite load_store_bytes_ne; [done|].
  rewrite length_le_bytes. lia.
Qed.

Lemma store32_other m a v x : x < a \/ a + 4 <= x -> store32 m a v x = m x.
Proof. intros. unfold store32. apply store_bytes_other. rewrite length_le_bytes. lia. Qed.

Lemma store32_wf m a v : mem_wf m -> mem_wf (store32 m a v).
Proof. apply store_bytes_wf. Qed.

Lemma load32_ext m1 m2 a :
  (forall x, a <= x < a + 4 -> m1 x = m2 x) -> load32 m1 a = load32 m2 a.
Proof. intros. unfold load32. f_equal. apply load_bytes_ext. intros. apply H. lia. Qed.

Lemma zero_mem_wf : mem_wf (fun _ => 0).
Proof. intros a. word. Qed.

(** ** Filled and copied ranges *)

Lemma fill_in m a n c x : a <= x < a + n -> fill m a n c x = u8 c.
Proof. intros. unfold fill. zcases; [done|lia..]. Qed.
Lemma fill_out m a n c x : x < a \/ a + n <= x -> fill m a n c x = m x.
Proof. intros. unfold fill. zcases; [lia|done..]. Qed.
Lemma fill_wf m a n c : mem_wf m -> mem_wf (fill m a n c).
Proof. intros H x. unfold fill. zcases; simpl; auto with kernel. Qed.
Lemma load32_fill_out m a n c b :
  b + 4 <= a \/ a + n <= b -> load32 (fill m a n c) b = load32 m b.
Proof. intros. apply load32_ext. intros. apply fill_out. lia. Qed.
Lemma load32_fill_zero m a n b : a <= b -> b + 4 <= a + n -> load32 (fill m a n 0) b = 0.
Proof.
  intros. unfold load32. rewrite !load_bytes_S.
  rewrite !fill_in by lia. reflexivity.
Qed.

Lemma copied_in m d s n x : d <= x < d + n -> copied m d s n x = m (s + (x - d)).
Proof. intros. unfold copied. zcases; [done|lia..]. Qed.
Lemma copied_out m d s n x : x < d \/ d + n <= x -> copied m d s n x = m x.
Proof. intros. unfold copied. zcases; [lia|done..]. Qed.
Lemma copied_wf m d s n : mem_wf m -> mem_wf (copied m d s n).
Proof. intros H x. unfold copied. zcases; simpl; auto. Qed.
#[export] Hint Resolve store8_wf store32_wf store_bytes_wf fill_wf copied_wf : kernel.
