(* ===== verification/StringC.v ===== *)
(** * string.c: the kernel's memory and string routines

    Each routine is the C loop over the byte memory of [Memory], with
    pointers kept at 32 bits.  The theorems give the effect on every byte:
    [memmove] is a simultaneous copy also when the ranges overlap, [memset]
    is a fill on both of its code paths, [memcmp]/[strncmp] agree with a
    lexicographic reference, [strncpy] pads, [safestrcpy] terminates. *)
From stdpp Require Import base numbers list.
From S2P Require Import Prelude Memory.
Open Scope Z_scope.

(** x86.h [stosb]: [cnt] bytes of [data]. *)
Fixpoint stosb (addr data : Z) (cnt : nat) (m : mem) : mem :=
  match cnt with
  | O => m
  | S cnt' => stosb (addr +u 1) data cnt' (store8 m addr data)
  end.

(** x86.h [stosl]: [cnt] words of [data]. *)
Fixpoint stosl (addr data : Z) (cnt : nat) (m : mem) : mem :=
  match cnt with
  | O => m
  | S cnt' => stosl (addr +u 4) data cnt' (store32 m addr data)
  end.

(** [memset(dst, c, n)]: word stores when [dst] and [n] are multiples of 4. *)
Definition memset (dst c n : Z) (m : mem) : mem :=
  if (Z.rem (i32 dst) 4 =? 0) && (n mod 4 =? 0) then
    let c := Z.land c 255 in
    stosl dst
      (Z.lor (Z.lor (Z.lor (Z.shiftl c 24) (Z.shiftl c 16)) (Z.shiftl c 8)) c)
      (Z.to_nat (n / 4)) m
  else stosb dst c (Z.to_nat n) m.

(** [memcmp(v1, v2, n)] *)
Fixpoint memcmp_loop (s1 s2 : Z) (n : nat) (m : mem) : Z :=
  match n with
  | O => 0
  | S n' =>
      if negb (m s1 =? m s2) then m s1 - m s2
      else memcmp_loop (s1 +u 1) (s2 +u 1) n' m
  end.
Definition memcmp (v1 v2 n : Z) (m : mem) : Z := memcmp_loop v1 v2 (Z.to_nat n) m.

(** [while(n-- > 0) *d++ = *s++] *)
Fixpoint copy_up (d s : Z) (n : nat) (m : mem) : mem :=
  match n with
  | O => m
  | S n' => copy_up (d +u 1) (s +u 1) n' (store8 m d (m s))
  end.

(** [while(n-- > 0) *--d = *--s] *)
Fixpoint copy_down (d s : Z) (n : nat) (m : mem) : mem :=
  match n with
  | O => m
  | S n' => copy_down (d -u 1) (s -u 1) n' (store8 m (d -u 1) (m (s -u 1)))
  end.

(** [memmove(dst, src, n)] *)
Definition memmove (dst src n : Z) (m : mem) : mem :=
  if (src <? dst) && (dst <? (src +u n)) then
    copy_down (dst +u n) (src +u n) (Z.to_nat n) m
  else copy_up dst src (Z.to_nat n) m.

(** [memcpy(dst, src, n)] *)
Definition memcpy (dst src n : Z) (m : mem) : mem := memmove dst src n m.

(** [strncmp(p, q, n)] *)
Fixpoint strncmp (p q : Z) (n : nat) (m : mem) : Z :=
  match n with
  | O => 0
  | S n' =>
      if negb (m p =? 0) && (m p =? m q) then strncmp (p +u 1) (q +u 1) n' m
      else m p - m q
  end.

(** [strncpy(s, t, n)]: the second loop of the C code, then the first. *)
Fixpoint strncpy_pad (s : Z) (n : nat) (m : mem) : mem :=
  match n with
  | O => m
  | S n' => strncpy_pad (s +u 1) n' (store8 m s 0)
  end.
Fixpoint strncpy_loop (s t : Z) (n : nat) (m : mem) : mem :=
  match n with
  | O => m
  | S n' =>
      let c := m t in
      let m' := store8 m s c in
      if c =? 0 then strncpy_pad (s +u 1) n' m'
      else strncpy_loop (s +u 1) (t +u 1) n' m'
  end.
Definition strncpy (s t n : Z) (m : mem) : mem := strncpy_loop s t (Z.to_nat n) m.

(** [safestrcpy(s, t, n)]: [k] is the value of [--n] on loop entry. *)
Fixpoint safestrcpy_loop (s t : Z) (k : nat) (m : mem) : mem :=
  match k with
  | O => store8 m s 0
  | S k' =>
      let c := m t in
      let m' := store8 m s c in
      if c =? 0 then store8 m' (s +u 1) 0
      else safestrcpy_loop (s +u 1) (t +u 1) k' m'
  end.
Definition safestrcpy (s t n : Z) (m : mem) : mem :=
  if n <=? 0 then m else safestrcpy_loop s t (Z.to_nat (n - 1)) m.

(** [strlen(s)]; [None] when no NUL is found within the fuel. *)
Fixpoint strlen_loop (s n : Z) (fuel : nat) (m : mem) : option Z :=
  match fuel with
  | O => None
  | S fuel' => if m (s +u n) =? 0 then Some n else strlen_loop s (n + 1) fuel' m
  end.
Definition strlen (s : Z) (fuel : nat) (m : mem) : option Z := strlen_loop s 0 fuel m.

(** ** References *)

(** Lexicographic comparison of two byte strings by their first difference. *)
Fixpoint bytes_cmp (l1 l2 : list Z) : Z :=
  match l1, l2 with
  | a :: l1', b :: l2' => if a =? b then bytes_cmp l1' l2' else a - b
  | _, _ => 0
  end.

(** The bytes up to and including the first NUL, at most [n] of them. *)
Fixpoint cstr_prefix (l : list Z) : list Z :=
  match l with
  | [] => []
  | c :: l' => if c =? 0 then [0] else c :: cstr_prefix l'
  end.

(** A C string in a fixed-size field: after the first NUL every byte is NUL. *)
Fixpoint nul_pad (l : list Z) : list Z :=
  match l with
  | [] => []
  | c :: l' => if c =? 0 then replicate (S (length l')) 0 else c :: nul_pad l'
  end.

(** ** Loop lemmas *)

Lemma stosb_fill addr c n m :
  0 <= addr -> addr + Z.of_nat n <= 4294967296 ->
  stosb addr c n m ≡ fill m addr (Z.of_nat n) c.
Proof.
  revert addr m. induction n as [|n IH]; intros addr m H0 H1 x.
  - unfold fill. zcases; simpl; [lia|done..].
  - simpl stosb. destruct (Z.eq_dec (addr + 1) 4294967296) as [E|E].
    + assert (n = 0)%nat as -> by lia. simpl. unfold fill, store8.
      zcases; simpl; try lia; done.
    + rewrite (u32_small (addr + 1)) by (unfold is_u32; lia).
      rewrite IH by lia. unfold fill, store8. zcases; simpl; try lia; done.
Qed.

Lemma splat_bytes c :
  is_u8 c ->
  le_bytes 4 (Z.lor (Z.lor (Z.lor (Z.shiftl c 24) (Z.shiftl c 16)) (Z.shiftl c 8)) c)
  = [c; c; c; c].
Proof.
  intros Hc. unfold is_u8 in Hc.
  rewrite !Z.shiftl_mul_pow2 by lia. change (2 ^ 24) with 16777216.
  change (2 ^ 16) with 65536. change (2 ^ 8) with 256.
  rewrite (lor_disjoint (c * 16777216) (c * 65536)); cycle 1.
  { apply (land_low_high _ _ 24); [lia| |lia]. apply Z.mod_mul. lia. }
  rewrite (lor_disjoint _ (c * 256)); cycle 1.
  { apply (land_low_high _ _ 16); [lia| |lia]. change (2 ^ 16) with 65536.
    replace (c * 16777216 + c * 65536) with ((c * 257) * 65536) by lia.
    apply Z.mod_mul. lia. }
  rewrite (lor_disjoint _ c); cycle 1.
  { apply (land_low_high _ _ 8); [lia| |lia]. change (2 ^ 8) with 256.
    replace (c * 16777216 + c * 65536 + c * 256) with ((c * 65793) * 256) by lia.
    apply Z.mod_mul. lia. }
  cbn [le_bytes]. unfold u8. repeat f_equal; Z.div_mod_to_equations; lia.
Qed.

Lemma stosl_fill addr w c n m :
  le_bytes 4 w = [c; c; c; c] ->
  0 <= addr -> addr + 4 * Z.of_nat n <= 4294967296 ->
  stosl addr w n m ≡ fill m addr (4 * Z.of_nat n) c.
Proof.
  intros Hw. assert (Hst : forall a m', store32 m' a w ≡ fill m' a 4 c).
  { intros a m' x. unfold store32. rewrite Hw, store_bytes_at. unfold fill.
    cbn [length]. zcases; simpl; try done; try lia.
    unfold nthZ. zcases; [lia|].
    assert (x - a = 0 \/ x - a = 1 \/ x - a = 2 \/ x - a = 3) as [->|[->|[->| ->]]] by lia;
      reflexivity. }
  revert addr m. induction n as [|n IH]; intros addr m H0 H1 x.
  - unfold fill. zcases; simpl; [lia|done..].
  - simpl stosl. destruct (Z.eq_dec (addr + 4) 4294967296) as [E|E].
    + assert (n = 0)%nat as -> by lia. simpl. rewrite (Hst addr m x).
      by replace (4 * Z.of_nat 1) with 4 by lia.
    + rewrite (u32_small (addr + 4)) by (unfold is_u32; lia).
      rewrite IH by lia. unfold fill at 1. rewrite (Hst addr m x). unfold fill.
      zcases; simpl; try lia; done.
Qed.

Lemma copy_up_copied d s n m :
  mem_wf m -> 0 <= d -> 0 <= s ->
  d + Z.of_nat n <= 4294967296 -> s + Z.of_nat n <= 4294967296 ->
  d <= s \/ s + Z.of_nat n <= d ->
  copy_up d s n m ≡ copied m d s (Z.of_nat n).
Proof.
  revert d s m. induction n as [|n IH]; intros d s m Hwf Hd Hs Hdn Hsn Hov x.
  - unfold copied. zcases; simpl; [lia|done..].
  - simpl copy_up.
    assert (n = 0%nat \/ d + 1 < 4294967296 /\ s + 1 < 4294967296) as [->|[]] by lia.
    + simpl. unfold copied, store8. zcases; simpl; try lia; try done.
      rewrite u8_small by apply Hwf. f_equal. lia.
    + rewrite !(u32_small (_ + 1)) by (unfold is_u32; lia).
      rewrite IH; [|auto with kernel|lia..]. unfold copied.
      assert (Hb : forall y, s + 1 <= y < s + 1 + Z.of_nat n -> store8 m d (m s) y = m y).
      { intros y Hy. apply store8_ne. lia. }
      zcases; simpl; try lia.
      * rewrite Hb by lia. f_equal. lia.
      * assert (x = d) as -> by lia. rewrite store8_eq, u8_small by apply Hwf. f_equal. lia.
      * apply store8_ne. lia.
      * apply store8_ne. lia.
Qed.

Lemma copy_down_copied d s n m :
  mem_wf m -> Z.of_nat n <= d -> Z.of_nat n <= s -> d < 4294967296 + 1 -> s < 4294967296 ->
  s < d ->
  copy_down (u32 d) s n m ≡ copied m (d - Z.of_nat n) (s - Z.of_nat n) (Z.of_nat n).
Proof.
  revert d s m. induction n as [|n IH]; intros d s m Hwf Hd Hs Hdn Hsn Hov x.
  - unfold copied. zcases; simpl; [lia|done..].
  - simpl copy_down. rewrite u32_sub_l.
    rewrite !(u32_small (_ - 1)) by (unfold is_u32; lia).
    rewrite <- (u32_small (d - 1)) at 1 by (unfold is_u32; lia).
    rewrite IH; [|auto with kernel|lia..]. unfold copied.
    zcases; simpl; try lia;
      first [ rewrite store8_ne by lia; first [done | f_equal; lia]
            | replace x with (d - 1) by lia;
              rewrite store8_eq, u8_small by apply Hwf; f_equal; lia ].
Qed.

Lemma memcmp_loop_bytes s1 s2 n m :
  0 <= s1 -> 0 <= s2 ->
  s1 + Z.of_nat n <= 4294967296 -> s2 + Z.of_nat n <= 4294967296 ->
  memcmp_loop s1 s2 n m = bytes_cmp (load_bytes m s1 n) (load_bytes m s2 n).
Proof.
  revert s1 s2. induction n as [|n IH]; intros s1 s2 H1 H2 H3 H4; [done|].
  rewrite !load_bytes_S. simpl. destruct (Z.eqb_spec (m s1) (m s2)); simpl; [|done].
  assert (n = 0%nat \/ s1 + 1 < 4294967296 /\ s2 + 1 < 4294967296) as [->|[]] by lia;
    [done|].
  rewrite !(u32_small (_ + 1)) by (unfold is_u32; lia). apply IH; lia.
Qed.

Lemma bytes_cmp_0 l1 l2 : length l1 = length l2 -> bytes_cmp l1 l2 = 0 <-> l1 = l2.
Proof.
  revert l2. induction l1 as [|a l1 IH]; intros [|b l2] Hl; simpl in *; try done.
  destruct (Z.eqb_spec a b) as [->|Hne].
  - rewrite IH by lia. split; [by intros ->|by intros [= ->]].
  - split; [lia|congruence].
Qed.

Lemma strncmp_bytes p q n m :
  0 <= p -> 0 <= q -> p + Z.of_nat n <= 4294967296 -> q + Z.of_nat n <= 4294967296 ->
  strncmp p q n m =
  bytes_cmp (cstr_prefix (load_bytes m p n)) (cstr_prefix (load_bytes m q n)).
Proof.
  revert p q. induction n as [|n IH]; intros p q H1 H2 H3 H4; [done|].
  rewrite !load_bytes_S. simpl. destruct (Z.eqb_spec (m p) 0) as [Ep|Ep]; simpl.
  - rewrite Ep. destruct (Z.eqb_spec (m q) 0) as [Eq|Eq]; simpl.
    + by rewrite Eq.
    + destruct (Z.eqb_spec 0 (m q)); [lia|done].
  - destruct (Z.eqb_spec (m p) (m q)) as [E|E].
    + rewrite <- E. destruct (Z.eqb_spec (m p) 0); [lia|]. simpl. rewrite Z.eqb_refl.
      assert (n = 0%nat \/ p + 1 < 4294967296 /\ q + 1 < 4294967296) as [->|[]] by lia;
        [done|].
      rewrite !(u32_small (_ + 1)) by (unfold is_u32; lia). apply IH; lia.
    + destruct (Z.eqb_spec (m q) 0) as [Eq|Eq]; simpl.
      * destruct (Z.eqb_spec (m p) 0); [lia|]. by rewrite Eq.
      * destruct (Z.eqb_spec (m p) (m q)); [lia|done].
Qed.

Lemma strncpy_pad_fill s n m :
  0 <= s -> s + Z.of_nat n <= 4294967296 ->
  strncpy_pad s n m ≡ fill m s (Z.of_nat n) 0.
Proof.
  revert s m. induction n as [|n IH]; intros s m H0 H1 x.
  - unfold fill. zcases; simpl; [lia|done..].
  - simpl. assert (n = 0%nat \/ s + 1 < 4294967296) as [->|] by lia.
    + unfold fill, store8. simpl. zcases; simpl; try lia; done.
    + rewrite (u32_small (s + 1)) by (unfold is_u32; lia).
      rewrite IH by lia. unfold fill, store8. zcases; simpl; try lia; done.
Qed.

Lemma load_bytes_fill_zero m s n : load_bytes (fill m s (Z.of_nat n) 0) s n = replicate n 0.
Proof.
  assert (forall k a, s <= a -> a + Z.of_nat k <= s + Z.of_nat n ->
    load_bytes (fill m s (Z.of_nat n) 0) a k = replicate k 0) as H; [|apply H; lia].
  induction k as [|k IH]; intros a H1 H2; [done|].
  rewrite load_bytes_S, IH by lia. rewrite fill_in by lia. done.
Qed.

(** What the copy loops of [strncpy] write and leave alone. *)
Lemma strncpy_loop_spec s t n m :
  mem_wf m -> 0 <= s -> 0 <= t ->
  s + Z.of_nat n <= 4294967296 -> t + Z.of_nat n <= 4294967296 ->
  s + Z.of_nat n <= t \/ t + Z.of_nat n <= s ->
  load_bytes (strncpy_loop s t n m) s n = nul_pad (load_bytes m t n) /\
  (forall x, x < s \/ s + Z.of_nat n <= x -> strncpy_loop s t n m x = m x).
Proof.
  revert s t m. induction n as [|n IH]; intros s t m Hwf H1 H2 H3 H4 Hd; [done|].
  simpl strncpy_loop. rewrite (load_bytes_S m t). simpl nul_pad.
  assert (n = 0%nat \/ s + 1 < 4294967296 /\ t + 1 < 4294967296) as [->|[]] by lia.
  { rewrite load_bytes_S.
    destruct (Z.eqb_spec (m t) 0) as [E|E]; simpl; rewrite store8_eq;
      (split; [|intros; apply store8_ne; lia]).
    - by rewrite E.
    - by rewrite u8_small by apply Hwf. }
  rewrite !(u32_small (_ + 1)) by (unfold is_u32; lia).
  destruct (Z.eqb_spec (m t) 0) as [E|E].
  - pose proof (strncpy_pad_fill (s + 1) n (store8 m s (m t)) ltac:(lia) ltac:(lia)) as Hp.
    rewrite length_load_bytes. split.
    + rewrite load_bytes_S, (Hp s), Hp, load_bytes_fill_zero, fill_out, store8_eq by lia.
      by rewrite E.
    + intros x Hx. rewrite (Hp x), fill_out, store8_ne by lia. done.
  - destruct (IH (s + 1) (t + 1) (store8 m s (m t))) as [IH1 IH2]; [auto with kernel|lia..|].
    split.
    + rewrite load_bytes_S, IH1, IH2, store8_eq, u8_small by (apply Hwf || lia).
      f_equal. f_equal. apply load_bytes_ext. intros. apply store8_ne. lia.
    + intros x Hx. rewrite IH2, store8_ne by lia. done.
Qed.

Lemma bytes_cmp_refl l : bytes_cmp l l = 0.
Proof. by apply bytes_cmp_0. Qed.

Lemma cstr_prefix_nul_pad l : cstr_prefix (nul_pad l) = cstr_prefix l.
Proof.
  induction l as [|c l IH]; simpl; [done|].
  destruct (Z.eqb_spec c 0) as [->|Hc]; simpl; [done|].
  destruct (Z.eqb_spec c 0); [lia|]. by rewrite IH.
Qed.

(** The loop of [safestrcpy]: it copies the non-NUL prefix and ends it. *)
Lemma safestrcpy_loop_spec s t k m :
  mem_wf m -> 0 <= s -> 0 <= t ->
  s + Z.of_nat k < 4294967296 -> t + Z.of_nat k < 4294967296 ->
  s + Z.of_nat k < t \/ t + Z.of_nat k <= s ->
  exists len, 0 <= len <= Z.of_nat k /\
    safestrcpy_loop s t k m (s + len) = 0 /\
    (len < Z.of_nat k -> m (t + len) = 0) /\
    (forall j, 0 <= j < len ->
       safestrcpy_loop s t k m (s + j) = m (t + j) /\ m (t + j) <> 0) /\
    (forall x, x < s \/ s + Z.of_nat k < x -> safestrcpy_loop s t k m x = m x).
Proof.
  revert s t m. induction k as [|k IH]; intros s t m Hwf H1 H2 H3 H4 Hd.
  - exists 0. simpl. rewrite Z.add_0_r, store8_eq. repeat split; try lia; intros; try lia.
    apply store8_ne. lia.
  - simpl safestrcpy_loop. rewrite !(u32_small (_ + 1)) by (unfold is_u32; lia).
    destruct (Z.eqb_spec (m t) 0) as [E|E].
    + exists 0. rewrite !Z.add_0_r, store8_ne, store8_eq, E by lia.
      repeat split; try lia; intros; try lia. rewrite !store8_ne by lia. done.
    + destruct (IH (s + 1) (t + 1) (store8 m s (m t))) as (len&Hl&Hz&Hlt&Hc&Ho);
        [auto with kernel|lia..|].
      exists (len + 1). split; [lia|]. split.
      { by replace (s + (len + 1)) with (s + 1 + len) by lia. }
      split.
      { intros. rewrite <- Hlt by lia. rewrite store8_ne by lia. f_equal. lia. }
      split.
      * intros j Hj. destruct (Z.eq_dec j 0) as [->|Hj0].
        { rewrite !Z.add_0_r, Ho, store8_eq, u8_small by (apply Hwf || lia). done. }
        destruct (Hc (j - 1)) as [Hc1 Hc2]; [lia|].
        rewrite store8_ne in Hc1, Hc2 by lia.
        replace (s + 1 + (j - 1)) with (s + j) in Hc1 by lia.
        replace (t + 1 + (j - 1)) with (t + j) in Hc1, Hc2 by lia. done.
      * intros x Hx. rewrite Ho, store8_ne by lia. done.
Qed.

Lemma strlen_loop_spec s n k m fuel :
  0 <= s -> 0 <= n -> s + n + Z.of_nat k < 4294967296 -> (k < fuel)%nat ->
  m (s + n + Z.of_nat k) = 0 ->
  (forall j, n <= j < n + Z.of_nat k -> m (s + j) <> 0) ->
  strlen_loop s n fuel m = Some (n + Z.of_nat k).
Proof.
  revert n fuel. induction k as [|k IH]; intros n fuel Hs Hn Hb Hf Hz Hnz.
  - destruct fuel; [lia|]. simpl. rewrite u32_small by (unfold is_u32; lia).
    rewrite Z.add_0_r in Hz |- *. by rewrite Hz.
  - destruct fuel; [lia|]. simpl. rewrite u32_small by (unfold is_u32; lia).
    destruct (Z.eqb_spec (m (s + n)) 0) as [E|E]; [by apply Hnz in E; [|lia]|].
    rewrite IH; [f_equal; lia|lia..| |intros; apply Hnz; lia].
    rewrite <- Hz. f_equal. lia.
Qed.

Lemma memmove_copied dst src n m :
  mem_wf m -> 0 <= dst -> 0 <= src -> 0 <= n ->
  dst + n <= 4294967296 -> src + n <= 4294967296 ->
  memmove dst src n m ≡ copied m dst src n.
Proof.
  intros Hwf Hd Hs Hn Hdn Hsn. unfold memmove. zcases; simpl.
  - rewrite (u32_small (src + n)) in * by (unfold is_u32; lia).
    pose proof (copy_down_copied (dst + n) (src + n) (Z.to_nat n) m Hwf) as H'.
    rewrite H' by lia. rewrite Z2Nat.id, !Z.add_simpl_r by lia. done.
  - rewrite copy_up_copied, Z2Nat.id; [done|lia|done|lia..|].
    unfold u32 in *. destruct (Z.eq_dec (src + n) 4294967296) as [E|E]; [lia|].
    rewrite Z.mod_small in * by lia. lia.
  - rewrite copy_up_copied, Z2Nat.id; [done|lia|done|lia..].
  - rewrite copy_up_copied, Z2Nat.id; [done|lia|done|lia..].
Qed.

Lemma memset_fill dst c n m :
  0 <= dst -> 0 <= n -> dst + n <= 4294967296 ->
  memset dst c n m ≡ fill m dst n c.
Proof.
  intros Hd Hn Hdn. unfold memset. destruct (_ && _) eqn:E.
  - apply andb_prop in E as [_ E%Z.eqb_eq].
    assert (Hc : Z.land c 255 = u8 c) by (apply (land_mask c 8); lia).
    rewrite Hc.
    intros x. rewrite (stosl_fill dst _ (u8 c)); [|apply splat_bytes; auto with kernel|lia|];
      rewrite ?Z2Nat.id by (apply Z.div_pos; lia).
    + replace (4 * (n / 4)) with n by (rewrite (Z.div_mod n 4) at 1; lia).
      unfold fill. by rewrite (u8_small (u8 c)) by auto with kernel.
    + pose proof (Z.div_mod n 4). lia.
  - intros x. rewrite stosb_fill by lia. by rewrite Z2Nat.id by lia.
Qed.

Lemma memcmp_bytes v1 v2 n m :
  0 <= v1 -> 0 <= v2 -> 0 <= n -> v1 + n <= 4294967296 -> v2 + n <= 4294967296 ->
  let l1 := load_bytes m v1 (Z.to_nat n) in
  let l2 := load_bytes m v2 (Z.to_nat n) in
  memcmp v1 v2 n m = bytes_cmp l1 l2 /\ (memcmp v1 v2 n m = 0 <-> l1 = l2).
Proof.
  intros H1 H2 Hn H3 H4 l1 l2. unfold memcmp.
  rewrite memcmp_loop_bytes by lia. split; [done|].
  apply bytes_cmp_0. unfold l1, l2. by rewrite !length_load_bytes.
Qed.

(** ** The properties *)

(** memmove copies as if the source were read first: every destination
    byte is the source byte of the initial memory and no other byte changes,
    whether or not the two ranges overlap. *)
Theorem memmove_spec dst src n m :
  mem_wf m -> 0 <= dst -> 0 <= src -> 0 <= n ->
  dst + n <= 4294967296 -> src + n <= 4294967296 ->
  memmove dst src n m ≡ copied m dst src n.
Proof. apply memmove_copied. Qed.

(** The bytes [1;2;3;4;5] at address 100, moved up by two. *)
Definition demo_mem : mem := store_bytes (fun _ => 0) 100 [1; 2; 3; 4; 5].
Lemma demo_mem_wf : mem_wf demo_mem.
Proof. apply store_bytes_wf. intros a. word. Qed.

Lemma memmove_spec_witness :
  memmove 102 100 5 demo_mem ≡ copied demo_mem 102 100 5 /\
  load_bytes (memmove 102 100 5 demo_mem) 100 7 = [1; 2; 1; 2; 3; 4; 5].
Proof.
  split; [|reflexivity].
  apply (memmove_spec 102 100 5 demo_mem demo_mem_wf); lia.
Defined.

(** memset fills exactly [dst, dst+n) with the low byte of [c], on the
    word-store path as on the byte-store path. *)
Theorem memset_spec dst c n m :
  0 <= dst -> 0 <= n -> dst + n <= 4294967296 ->
  memset dst c n m ≡ fill m dst n c.
Proof. apply memset_fill. Qed.

Lemma memset_spec_witness :
  memset 100 258 4 demo_mem ≡ fill demo_mem 100 4 258 /\
  load_bytes (memset 100 258 4 demo_mem) 100 5 = [2; 2; 2; 2; 5].
Proof. split; [apply (memset_spec 100 258 4); lia|reflexivity]. Defined.

(** memcmp returns the difference of the first differing bytes, and 0
    exactly when the two ranges hold the same bytes. *)
Theorem memcmp_spec v1 v2 n m :
  0 <= v1 -> 0 <= v2 -> 0 <= n -> v1 + n <= 4294967296 -> v2 + n <= 4294967296 ->
  let l1 := load_bytes m v1 (Z.to_nat n) in
  let l2 := load_bytes m v2 (Z.to_nat n) in
  memcmp v1 v2 n m = bytes_cmp l1 l2 /\ (memcmp v1 v2 n m = 0 <-> l1 = l2).
Proof. apply memcmp_bytes. Qed.

Lemma memcmp_spec_witness :
  memcmp 100 101 2 demo_mem = -1 /\
  (memcmp 100 101 2 demo_mem = 0 <->
   load_bytes demo_mem 100 2 = load_bytes demo_mem 101 2).
Proof.
  split; [reflexivity|]. apply (memcmp_spec 100 101 2 demo_mem); lia.
Defined.

(** strncmp compares the two strings up to their first NUL, at most n
    bytes, and a name stored in an n-byte field by strncpy compares equal to
    the name it was stored from. *)
Theorem strncpy_strncmp_roundtrip s t n m :
  mem_wf m -> 0 <= s -> 0 <= t -> 0 <= n ->
  s + n <= 4294967296 -> t + n <= 4294967296 -> s + n <= t \/ t + n <= s ->
  let m' := strncpy s t n m in
  load_bytes m' s (Z.to_nat n) = nul_pad (load_bytes m t (Z.to_nat n)) /\
  strncmp t s (Z.to_nat n) m' = 0 /\
  (forall x, x < s \/ s + n <= x -> m' x = m x).
Proof.
  intros Hwf H1 H2 Hn H3 H4 Hd m'.
  destruct (strncpy_loop_spec s t (Z.to_nat n) m) as [HA HB]; [done|lia..|].
  rewrite Z2Nat.id in HB by lia.
  split; [exact HA|]. split; [|exact HB].
  rewrite strncmp_bytes by lia. unfold m', strncpy. rewrite HA, cstr_prefix_nul_pad.
  replace (load_bytes (strncpy_loop s t (Z.to_nat n) m) t (Z.to_nat n))
    with (load_bytes m t (Z.to_nat n)); [apply bytes_cmp_refl|].
  symmetry. apply load_bytes_ext. intros. apply HB. lia.
Qed.

Lemma strncpy_strncmp_roundtrip_witness :
  load_bytes (strncpy 200 103 4 demo_mem) 200 4 = [4; 5; 0; 0] /\
  strncmp 103 200 4 (strncpy 200 103 4 demo_mem) = 0.
Proof.
  pose proof (strncpy_strncmp_roundtrip 200 103 4 demo_mem demo_mem_wf
    ltac:(lia) ltac:(lia) ltac:(lia) ltac:(lia) ltac:(lia) ltac:(lia)) as (H1&H2&_).
  split; [exact H1|exact H2].
Defined.

(** safestrcpy always leaves a NUL-terminated string inside the n-byte
    buffer: a copy of the source up to its NUL or to n-1 characters, with
    nothing written outside the buffer. *)
Theorem safestrcpy_spec s t n m :
  mem_wf m -> 0 <= s -> 0 <= t -> 0 < n ->
  s + n <= 4294967296 -> t + n <= 4294967296 -> s + n <= t \/ t + n <= s ->
  exists len, 0 <= len < n /\
    safestrcpy s t n m (s + len) = 0 /\
    (len < n - 1 -> m (t + len) = 0) /\
    (forall j, 0 <= j < len -> safestrcpy s t n m (s + j) = m (t + j) /\ m (t + j) <> 0) /\
    (forall x, x < s \/ s + n <= x -> safestrcpy s t n m x = m x).
Proof.
  intros Hwf H1 H2 Hn H3 H4 Hd. unfold safestrcpy. zcases; [lia|].
  destruct (safestrcpy_loop_spec s t (Z.to_nat (n - 1)) m) as (len&?&?&?&?&Ho);
    [done|lia..|].
  exists len. split; [lia|]. split; [done|]. split; [intros; auto with lia|].
  split; [done|]. intros x Hx. apply Ho. lia.
Qed.

Lemma safestrcpy_spec_witness :
  exists len, 0 <= len < 3 /\ safestrcpy 200 100 3 demo_mem (200 + len) = 0.
Proof.
  destruct (safestrcpy_spec 200 100 3 demo_mem demo_mem_wf
    ltac:(lia) ltac:(lia) ltac:(lia) ltac:(lia) ltac:(lia) ltac:(lia)) as (len&?&?&_).
  by exists len.
Defined.

(** strlen finds the first NUL, given fuel for the characters before it. *)
Lemma strlen_spec s k m fuel :
  0 <= s -> s + Z.of_nat k < 4294967296 -> (k < fuel)%nat -> m (s + Z.of_nat k) = 0 ->
  (forall j, 0 <= j < Z.of_nat k -> m (s + j) <> 0) ->
  strlen s fuel m = Some (Z.of_nat k).
Proof.
  intros. unfold strlen. rewrite (strlen_loop_spec s 0 k); [done|lia..| |].
  - by rewrite Z.add_0_r.
  - intros. auto with lia.
Qed.
