(* ===== verification/Spinlock.v ===== *)
(** * spinlock.c: interrupt masking and spin locks

    [machine] is what the code reads and writes: the interrupt flag of every
    processor (by APIC id), the table [cpus] of proc.c and the lock words.
    [self] is the APIC id of the processor that executes.  The section
    [interleaving] runs [acquire]/[release] of any number of processors one
    memory access at a time and proves mutual exclusion. *)
From stdpp Require Import base numbers list gmap strings.
From S2P Require Import Prelude.
Open Scope Z_scope.

(** struct cpu of proc.h, the fields this component uses. *)
Record cpu := Cpu { apicid : Z; ncli : Z; intena : bool }.

(** struct spinlock; [lcpu] is the index in [cpus], [None] the null pointer.
    [name] and [pcs] only serve debugging output. *)
Record spinlock := Spinlock { locked : Z; lcpu : option nat }.

Record machine := Machine {
  eflags_if : Z -> bool;
  cpus : list cpu;
  locks : Z -> spinlock
}.

Definition set_if (self : Z) (b : bool) (s : machine) : machine :=
  Machine (fun a => if a =? self then b else eflags_if s a) (cpus s) (locks s).
Definition set_cpu (i : nat) (c : cpu) (s : machine) : machine :=
  Machine (eflags_if s) (<[i := c]> (cpus s)) (locks s).
Definition set_lock (l : Z) (k : spinlock) (s : machine) : machine :=
  Machine (eflags_if s) (cpus s) (fun x => if x =? l then k else locks s x).

Definition KM := M machine.

(** [initlock(lk, name)] *)
Definition initlock (l : Z) : KM unit := modify (set_lock l (Spinlock 0 None)).

Definition readeflags_if (self : Z) : KM bool := gets (fun s => eflags_if s self).
Definition cli (self : Z) : KM unit := modify (set_if self false).
Definition sti (self : Z) : KM unit := modify (set_if self true).

(** The scan of [mycpu] over [cpus[0..ncpu)]. *)
Fixpoint find_cpu (id : Z) (l : list cpu) (i : nat) : option nat :=
  match l with
  | [] => None
  | c :: l' => if apicid c =? id then Some i else find_cpu id l' (S i)
  end.

(** [mycpu()] of proc.c, as an index into [cpus]. *)
Definition mycpu (self : Z) : KM nat :=
  let! fl := readeflags_if self in
  if fl then panic "mycpu called with interrupts enabled"
  else
    let! cs := gets cpus in
    match find_cpu self cs 0 with
    | Some i => ret i
    | None => panic "unknown apicid"
    end.

Definition get_cpu (i : nat) : KM cpu :=
  let! cs := gets cpus in
  match cs !! i with
  | Some c => ret c
  | None => stop_with (Faulted "cpus index")
  end.

(** [pushcli()] *)
Definition pushcli (self : Z) : KM unit :=
  let! eflags := readeflags_if self in
  cli self ;;
  let! i := mycpu self in
  let! c := get_cpu i in
  when (ncli c =? 0) (modify (set_cpu i (Cpu (apicid c) (ncli c) eflags))) ;;
  let! c := get_cpu i in
  modify (set_cpu i (Cpu (apicid c) (ncli c + 1) (intena c))).

(** [popcli()] *)
Definition popcli (self : Z) : KM unit :=
  let! fl := readeflags_if self in
  if fl then panic "popcli - interruptible"
  else
    let! i := mycpu self in
    let! c := get_cpu i in
    let n := ncli c - 1 in
    modify (set_cpu i (Cpu (apicid c) n (intena c))) ;;
    if n <? 0 then panic "popcli"
    else when ((n =? 0) && intena c) (sti self).

(** [holding(lock)] *)
Definition holding (self l : Z) : KM bool :=
  let! k := gets (fun s => locks s l) in
  if locked k =? 0 then ret false
  else
    let! i := mycpu self in
    ret (bool_decide (lcpu k = Some i)).

(** [xchg(&lk->locked, 1)]: the old value, atomically replaced by 1. *)
Definition xchg_locked (l : Z) : KM Z :=
  let! k := gets (fun s => locks s l) in
  modify (set_lock l (Spinlock 1 (lcpu k))) ;;
  ret (locked k).

(** [acquire(lk)].  A taken lock leaves this processor in the spin loop. *)
Definition acquire (self l : Z) : KM unit :=
  pushcli self ;;
  let! h := holding self l in
  if h then panic "acquire"
  else
    let! old := xchg_locked l in
    if negb (old =? 0) then stop_with Spinning
    else
      let! i := mycpu self in
      let! k := gets (fun s => locks s l) in
      modify (set_lock l (Spinlock (locked k) (Some i))).

(** [release(lk)] *)
Definition release (self l : Z) : KM unit :=
  let! h := holding self l in
  if negb h then panic "release"
  else
    let! k := gets (fun s => locks s l) in
    modify (set_lock l (Spinlock (locked k) None)) ;;
    let! k := gets (fun s => locks s l) in
    modify (set_lock l (Spinlock 0 (lcpu k))) ;;
    popcli self.

(** ** The promise to the rest of the kernel

    A processor that runs under spin locks needs to know only which locks it
    holds.  [SpinSpec] is that contract: a set of held locks, acquiring adds
    one, releasing removes it, and both panic on misuse. *)

Definition spec_acquire (l : Z) : M (gset Z) unit := fun held =>
  if bool_decide (l ∈ held) then Stop (Panicked "acquire") held else Ret tt ({[l]} ∪ held).
Definition spec_release (l : Z) : M (gset Z) unit := fun held =>
  if bool_decide (l ∈ held) then Ret tt (held ∖ {[l]}) else Stop (Panicked "release") held.

(** [self] is an entry of [cpus]: its index, its record. *)
Record on_cpu (self : Z) (i : nat) (c : cpu) (s : machine) : Prop := OnCpu {
  oc_index : find_cpu self (cpus s) 0 = Some i;
  oc_cpu : cpus s !! i = Some c;
  oc_ncli : 0 <= ncli c;
  oc_if : 0 < ncli c -> eflags_if s self = false
}.

(** [held] are the locks processor [self] (index [i]) holds in [s]; each of
    them accounts for one level of interrupt masking. *)
Record holds (self : Z) (i : nat) (s : machine) (held : gset Z) : Prop := Holds {
  h_cpu : exists c, on_cpu self i c s /\ Z.of_nat (size held) <= ncli c;
  h_locks : forall l, l ∈ held <-> locked (locks s l) <> 0 /\ lcpu (locks s l) = Some i
}.

(** Programs of matched [pushcli]/[popcli] pairs. *)
Inductive balanced (self : Z) : KM unit -> Prop :=
| bal_nil : balanced self (ret tt)
| bal_wrap m : balanced self m -> balanced self (pushcli self ;; m ;; popcli self)
| bal_seq m1 m2 : balanced self m1 -> balanced self m2 -> balanced self (m1 ;; m2).

(** ** Lemmas on single operations *)

Lemma find_cpu_lookup id l i k :
  find_cpu id l k = Some i -> exists c, (k <= i)%nat /\ l !! (i - k)%nat = Some c /\ apicid c = id.
Proof.
  revert k. induction l as [|c l IH]; intros k; simpl; [done|].
  destruct (Z.eqb_spec (apicid c) id) as [E|E].
  - intros [= ->]. exists c. by rewrite Nat.sub_diag.
  - intros H%IH. destruct H as (c'&Hle&Hl&Ha). exists c'. split; [lia|].
    split; [|done]. by replace (i - k)%nat with (S (i - S k)) by lia.
Qed.

(** Replacing an entry by one with the same APIC id keeps the index. *)
Lemma find_cpu_insert id l j c c0 k :
  l !! j = Some c0 -> apicid c = apicid c0 ->
  find_cpu id (<[j := c]> l) k = find_cpu id l k.
Proof.
  revert j k. induction l as [|x l IH]; intros j k; [done|].
  destruct j as [|j]; simpl.
  - intros [= ->] Ha. by rewrite Ha.
  - intros Hj Ha. by rewrite (IH j (S k)).
Qed.

Lemma mycpu_run self i c s :
  on_cpu self i c s -> eflags_if s self = false -> mycpu self s = Ret i s.
Proof.
  intros [Hi _ _ _] Hf. unfold mycpu, readeflags_if, bind, gets. by rewrite Hf, Hi.
Qed.

Lemma get_cpu_run i c s : cpus s !! i = Some c -> get_cpu i s = Ret c s.
Proof. intros H. unfold get_cpu, bind, gets. by rewrite H. Qed.

(** The state after [pushcli]. *)
Definition pushed (self : Z) (i : nat) (c : cpu) (s : machine) : machine :=
  Machine (fun a => if a =? self then false else eflags_if s a)
    (<[i := Cpu (apicid c) (ncli c + 1)
             (if ncli c =? 0 then eflags_if s self else intena c)]> (cpus s))
    (locks s).

Lemma pushcli_run self i c s :
  on_cpu self i c s -> pushcli self s = Ret tt (pushed self i c s).
Proof.
  intros [Hi Hc Hn Hf]. unfold pushcli, readeflags_if, cli. mred.
  erewrite bind_run; [|apply (mycpu_run self i c); [|simpl; by rewrite Z.eqb_refl]];
    [|split; simpl; try done; intros _; by rewrite Z.eqb_refl].
  erewrite bind_run; [|by apply get_cpu_run].
  unfold when, pushed. destruct (Z.eqb_spec (ncli c) 0) as [E|E]; mred.
  - erewrite bind_run; [|apply get_cpu_run, list_lookup_insert_eq; by eapply lookup_lt_Some].
    unfold set_cpu, set_if, modify. simpl. rewrite list_insert_insert_eq. by rewrite E.
  - erewrite bind_run; [|by apply get_cpu_run]. done.
Qed.

Lemma pushed_on_cpu self i c s :
  on_cpu self i c s ->
  on_cpu self i (Cpu (apicid c) (ncli c + 1)
     (if ncli c =? 0 then eflags_if s self else intena c)) (pushed self i c s).
Proof.
  intros [Hi Hc Hn Hf]. split; simpl.
  - by erewrite find_cpu_insert.
  - apply list_lookup_insert_eq. by eapply lookup_lt_Some.
  - lia.
  - intros _. by rewrite Z.eqb_refl.
Qed.

(** The state after [popcli] without underflow. *)
Definition popped (self : Z) (i : nat) (c : cpu) (s : machine) : machine :=
  let s' := set_cpu i (Cpu (apicid c) (ncli c - 1) (intena c)) s in
  if (ncli c - 1 =? 0) && intena c then set_if self true s' else s'.

Lemma popcli_run self i c s :
  on_cpu self i c s -> 0 < ncli c -> popcli self s = Ret tt (popped self i c s).
Proof.
  intros Ho Hn. pose proof Ho as [Hi Hc _ Hf]. unfold popcli, readeflags_if. mred.
  rewrite Hf by lia. cbv zeta.
  erewrite bind_run; [|eapply mycpu_run; eauto].
  erewrite bind_run; [|by apply get_cpu_run]. mred.
  destruct (Z.ltb_spec (ncli c - 1) 0); [lia|]. unfold when, popped, sti.
  by destruct (_ && _).
Qed.

Lemma popped_on_cpu self i c s :
  on_cpu self i c s -> 0 < ncli c ->
  on_cpu self i (Cpu (apicid c) (ncli c - 1) (intena c)) (popped self i c s).
Proof.
  intros [Hi Hc Hn Hf] Hp. unfold popped.
  destruct (Z.eqb_spec (ncli c - 1) 0), (intena c); split; simpl;
    try (by erewrite find_cpu_insert);
    try (apply list_lookup_insert_eq; by eapply lookup_lt_Some); try lia;
    intros; apply Hf; lia.
Qed.

Lemma popped_if self i c s a :
  eflags_if (popped self i c s) a =
  if (a =? self) && (ncli c - 1 =? 0) && intena c then true else eflags_if s a.
Proof.
  unfold popped. destruct ((ncli c - 1 =? 0) && intena c) eqn:E; simpl;
    rewrite <- andb_assoc, E.
  - rewrite andb_true_r. by destruct (a =? self).
  - by rewrite andb_false_r.
Qed.

Lemma popped_locks self i c s : locks (popped self i c s) = locks s.
Proof. unfold popped. by destruct (_ && _). Qed.

(** [holding] reads the lock word and compares the owner. *)
Lemma holding_run self i c s l :
  on_cpu self i c s -> eflags_if s self = false ->
  holding self l s =
  Ret (negb (locked (locks s l) =? 0) && bool_decide (lcpu (locks s l) = Some i)) s.
Proof.
  intros Ho Hf. unfold holding. mred. destruct (Z.eqb_spec (locked (locks s l)) 0); [done|].
  by erewrite bind_run; [|eapply mycpu_run].
Qed.

Lemma set_lock_on_cpu self i c l k s :
  on_cpu self i c s -> on_cpu self i c (set_lock l k s).
Proof. by intros []. Qed.

Lemma set_lock_at l k s x : locks (set_lock l k s) x = if x =? l then k else locks s x.
Proof. done. Qed.

(** Matched pushcli/popcli sequences always return, restore the nesting
    depth and the interrupt flag the processor started with (off stays off,
    on comes back on), and change no lock. *)
Theorem pushcli_popcli_balanced self m i c s :
  balanced self m -> on_cpu self i c s ->
  exists s' c', m s = Ret tt s' /\ on_cpu self i c' s' /\ ncli c' = ncli c /\
    (0 < ncli c -> intena c' = intena c) /\
    (forall a, eflags_if s' a = eflags_if s a) /\ locks s' = locks s.
Proof.
  intros Hm. revert c s. induction Hm as [|m Hm IH|m1 m2 H1 IH1 H2 IH2]; intros c s Ho.
  - exists s, c. done.
  - pose proof (pushed_on_cpu self i c s Ho) as Hp.
    destruct (IH _ _ Hp) as (s1&c1&E1&Ho1&Hn1&Hi1&Hf1&Hl1). simpl in Hn1, Hi1.
    destruct Ho as [Hi Hc Hn Hf].
    exists (popped self i c1 s1), (Cpu (apicid c1) (ncli c1 - 1) (intena c1)).
    split.
    { rewrite (bind_run _ _ _ _ _ (pushcli_run _ _ _ _ (OnCpu _ _ _ _ Hi Hc Hn Hf))).
      rewrite (bind_run _ _ _ _ _ E1). apply popcli_run; [done|lia]. }
    split; [apply popped_on_cpu; [done|lia]|]. simpl. rewrite Hi1 by lia.
    split; [lia|]. split; [intros; destruct (Z.eqb_spec (ncli c) 0); [lia|done]|].
    split; [|by rewrite popped_locks].
    intros a. rewrite popped_if, Hf1, Hi1, Hn1 by lia. simpl.
    destruct (Z.eqb_spec a self) as [->|]; [|done]. simpl.
    replace (ncli c + 1 - 1) with (ncli c) by lia.
    destruct (Z.eqb_spec (ncli c) 0) as [E|E]; simpl.
    + by destruct (eflags_if s self).
    + symmetry. apply Hf. lia.
  - destruct (IH1 _ _ Ho) as (s1&c1&E1&Ho1&Hn1&Hi1&Hf1&Hl1).
    destruct (IH2 _ _ Ho1) as (s2&c2&E2&Ho2&Hn2&Hi2&Hf2&Hl2).
    exists s2, c2. rewrite (bind_run _ _ _ _ _ E1).
    split; [done|]. split; [done|]. split; [lia|].
    split; [intros; rewrite Hi2, Hi1; [done|lia..]|].
    split; [intros a; by rewrite Hf2|congruence].
Qed.

(** Two processors with APIC ids 4 and 6; the first runs, interrupts on. *)
Definition demo_machine : machine :=
  Machine (fun _ => true) [Cpu 4 0 false; Cpu 6 0 false] (fun _ => Spinlock 0 None).

Lemma demo_on_cpu : on_cpu 4 0 (Cpu 4 0 false) demo_machine.
Proof. split; simpl; done. Qed.

Lemma pushcli_popcli_balanced_witness :
  exists s', (pushcli 4 ;; (pushcli 4 ;; ret tt ;; popcli 4) ;; popcli 4) demo_machine = Ret tt s'
    /\ eflags_if s' 4 = true.
Proof.
  destruct (pushcli_popcli_balanced 4 (pushcli 4 ;; (pushcli 4 ;; ret tt ;; popcli 4) ;; popcli 4)
    0 (Cpu 4 0 false) demo_machine) as (s'&c'&E&_&_&_&Hf&_).
  - apply bal_wrap, bal_wrap, bal_nil.
  - apply demo_on_cpu.
  - exists s'. split; [exact E|]. by rewrite Hf.
Defined.

Lemma held_size (held : gset Z) l : l ∈ held -> (0 < size held)%nat.
Proof. intros Hl. destruct (size held) eqn:E; [|lia]. apply size_empty_inv in E. set_solver. Qed.

(** A processor that holds a lock runs with interrupts off. *)
Lemma holds_if self i s held l :
  holds self i s held -> l ∈ held -> eflags_if s self = false.
Proof.
  intros [(c&Ho&Hs) _] Hl%held_size. apply (oc_if _ _ _ _ Ho). lia.
Qed.

(** [holding] decides membership in the held set. *)
Lemma holding_held self i c s (held : gset Z) l :
  on_cpu self i c s -> eflags_if s self = false ->
  (l ∈ held <-> locked (locks s l) <> 0 /\ lcpu (locks s l) = Some i) ->
  holding self l s = Ret (bool_decide (l ∈ held)) s.
Proof.
  intros Ho Hf Hl. erewrite holding_run by eauto. f_equal.
  destruct (Z.eqb_spec (locked (locks s l)) 0); simpl.
  - symmetry. apply bool_decide_eq_false_2. naive_solver.
  - apply bool_decide_ext. naive_solver.
Qed.

Lemma acquire_refines self i s held l :
  holds self i s held ->
  match spec_acquire l held with
  | Ret _ held' =>
      (locked (locks s l) = 0 ->
       exists s', acquire self l s = Ret tt s' /\ holds self i s' held') /\
      (locked (locks s l) <> 0 -> exists s', acquire self l s = Stop Spinning s')
  | Stop e _ => exists s', acquire self l s = Stop e s'
  end.
Proof.
  intros [(c&Ho&Hsz) Hl]. pose proof (pushed_on_cpu self i c s Ho) as Hp.
  unfold spec_acquire, acquire.
  rewrite (bind_run _ _ _ _ _ (pushcli_run _ _ _ _ Ho)).
  erewrite bind_run; [|eapply holding_held; [apply Hp|simpl; by rewrite Z.eqb_refl|apply Hl]].
  case_bool_decide as Hin; [by eexists|].
  unfold xchg_locked. mred. split; intros Hk; cbn [locks pushed locked].
  - rewrite Hk. simpl. erewrite bind_run; [|eapply mycpu_run;
      [apply set_lock_on_cpu, Hp|simpl; by rewrite Z.eqb_refl]]. mred.
    eexists. split; [done|]. split.
    + eexists. split; [by repeat apply set_lock_on_cpu|]. simpl.
      rewrite size_union by set_solver. rewrite size_singleton. lia.
    + intros x. rewrite !set_lock_at, elem_of_union, elem_of_singleton.
      destruct (Z.eqb_spec x l) as [->|]; simpl.
      { rewrite Z.eqb_refl. simpl. naive_solver. }
      rewrite (Hl x). naive_solver.
  - destruct (Z.eqb_spec (locked (locks s l)) 0); [done|]. simpl. by eexists.
Qed.

Lemma release_refines self i s held l :
  holds self i s held ->
  match spec_release l held with
  | Ret _ held' => exists s', release self l s = Ret tt s' /\ holds self i s' held'
  | Stop _ _ => exists msg s', release self l s = Stop (Panicked msg) s'
  end.
Proof.
  intros Hh. pose proof Hh as [(c&Ho&Hsz) Hl].
  unfold spec_release, release. case_bool_decide as Hin.
  - pose proof (holds_if _ _ _ _ _ Hh Hin) as Hf. pose proof (held_size _ _ Hin).
    erewrite bind_run; [|eapply holding_held; eauto].
    rewrite bool_decide_true by done. simpl. mred. eexists.
    split; [eapply popcli_run; [by repeat apply set_lock_on_cpu|lia]|]. split.
    + eexists. split; [by apply popped_on_cpu; [repeat apply set_lock_on_cpu|lia]|]. simpl.
      rewrite size_difference by set_solver. rewrite size_singleton. lia.
    + intros x. rewrite popped_locks, !set_lock_at, elem_of_difference, elem_of_singleton, (Hl x).
      destruct (Z.eqb_spec x l) as [->|]; simpl; [|naive_solver].
      split; [by intros [_ []]|by intros [[] _]].
  - destruct (eflags_if s self) eqn:Hf.
    + unfold holding. mred. destruct (Z.eqb_spec (locked (locks s l)) 0); [by eexists _, _|].
      unfold mycpu, readeflags_if. mred. rewrite Hf. by eexists _, _.
    + erewrite bind_run; [|eapply holding_held; eauto].
      rewrite bool_decide_false by done. by eexists _, _.
Qed.

(** C9. acquire and release implement the held-set contract SpinSpec: if the
    contract panics so does the code; acquiring a lock that no processor has
    returns with exactly that lock added, one that another processor has
    spins; releasing a held lock returns with exactly it removed. *)
Theorem spinlock_refines_spec self i s held l :
  holds self i s held ->
  match spec_acquire l held with
  | Ret _ held' =>
      (locked (locks s l) = 0 ->
       exists s', acquire self l s = Ret tt s' /\ holds self i s' held') /\
      (locked (locks s l) <> 0 -> exists s', acquire self l s = Stop Spinning s')
  | Stop e _ => exists s', acquire self l s = Stop e s'
  end /\
  match spec_release l held with
  | Ret _ held' => exists s', release self l s = Ret tt s' /\ holds self i s' held'
  | Stop _ _ => exists msg s', release self l s = Stop (Panicked msg) s'
  end.
Proof. split; [by apply acquire_refines|by apply release_refines]. Qed.

Lemma demo_holds : holds 4 0 demo_machine ∅.
Proof.
  split.
  - exists (Cpu 4 0 false). split; [apply demo_on_cpu|]. by rewrite size_empty.
  - intros l. simpl. set_solver.
Qed.

Lemma spinlock_refines_spec_witness :
  exists s', acquire 4 7 demo_machine = Ret tt s' /\ holds 4 0 s' ({[7]} ∪ ∅).
Proof.
  pose proof (spinlock_refines_spec 4 0 demo_machine ∅ 7 demo_holds) as [H _].
  unfold spec_acquire in H. rewrite bool_decide_false in H by set_solver.
  destruct H as [H _]. apply H. reflexivity.
Defined.

(** ** Interleaving

    Where a processor is inside [acquire]/[release] of one lock.  Each step is
    one access to the lock word or to [lk->cpu]; the accesses of different
    processors interleave freely. *)

Inductive pc :=
| POut      (* outside the critical section *)
| PChk      (* in holding(): read locked != 0, about to read cpu *)
| PSpin     (* while(xchg(&lk->locked, 1) != 0) *)
| PGot      (* xchg returned 0, lk->cpu not set yet *)
| PCrit     (* acquire returned *)
| PClr      (* release stored lk->cpu = 0, locked is still 1 *)
| PPanic.

Record config := Config { lk : spinlock; pcs : nat -> pc }.

Definition set_pc (p : nat) (x : pc) (f : nat -> pc) : nat -> pc :=
  fun q => if (q =? p)%nat then x else f q.

Inductive step : config -> config -> Prop :=
| st_free k f p : f p = POut -> locked k = 0 ->
    step (Config k f) (Config k (set_pc p PSpin f))
| st_taken k f p : f p = POut -> locked k <> 0 ->
    step (Config k f) (Config k (set_pc p PChk f))
| st_not_mine k f p : f p = PChk -> lcpu k <> Some p ->
    step (Config k f) (Config k (set_pc p PSpin f))
| st_acquire_panic k f p : f p = PChk -> lcpu k = Some p ->
    step (Config k f) (Config k (set_pc p PPanic f))
| st_xchg_lose k f p : f p = PSpin -> locked k <> 0 ->
    step (Config k f) (Config (Spinlock 1 (lcpu k)) f)
| st_xchg_win k f p : f p = PSpin -> locked k = 0 ->
    step (Config k f) (Config (Spinlock 1 (lcpu k)) (set_pc p PGot f))
| st_set_cpu k f p : f p = PGot ->
    step (Config k f) (Config (Spinlock (locked k) (Some p)) (set_pc p PCrit f))
| st_clear_cpu k f p : f p = PCrit -> locked k <> 0 -> lcpu k = Some p ->
    step (Config k f) (Config (Spinlock (locked k) None) (set_pc p PClr f))
| st_release_panic k f p : f p = PCrit -> locked k = 0 \/ lcpu k <> Some p ->
    step (Config k f) (Config k (set_pc p PPanic f))
| st_unlock k f p : f p = PClr ->
    step (Config k f) (Config (Spinlock 0 (lcpu k)) (set_pc p POut f)).

(** After [initlock], with every processor outside. *)
Definition initial : config := Config (Spinlock 0 None) (fun _ => POut).

Definition owns (x : pc) : bool :=
  match x with PGot | PCrit | PClr => true | _ => false end.

Record lock_inv (g : config) : Prop := LockInv {
  li_free : locked (lk g) = 0 -> forall p, owns (pcs g p) = false;
  li_unique : forall p q, owns (pcs g p) = true -> owns (pcs g q) = true -> p = q;
  li_cpu : forall p, lcpu (lk g) = Some p <-> pcs g p = PCrit;
  li_no_panic : forall p, pcs g p <> PPanic
}.

Lemma set_pc_at p x f q : set_pc p x f q = if (q =? p)%nat then x else f q.
Proof. done. Qed.

Lemma initial_inv : lock_inv initial.
Proof. split; simpl; try done. Qed.

(** Splits on whether a processor is the one that moved. *)
Ltac who q p :=
  rewrite ?set_pc_at in *; destruct (Nat.eqb_spec q p); subst; simpl in *.

(** A move between two positions that do not own the lock. *)
Lemma step_outside k f p x :
  lock_inv (Config k f) -> owns (f p) = false -> owns x = false -> x <> PPanic ->
  lock_inv (Config k (set_pc p x f)).
Proof.
  intros [Hfr Hun Hcpu Hnp] Hp Hx Hpan. split; simpl in *.
  - intros E q. who q p; auto.
  - intros q r. who q p; who r p; try congruence; eauto.
  - intros q. who q p; [|apply Hcpu]. rewrite Hcpu. split; intros E.
    + rewrite E in Hp. done.
    + subst x. done.
  - intros q. who q p; auto.
Qed.

Lemma step_inv g g' : lock_inv g -> step g g' -> lock_inv g'.
Proof.
  intros HI Hst. pose proof HI as [Hfr Hun Hcpu Hnp].
  destruct Hst as [k f p Hp Hk|k f p Hp Hk|k f p Hp Hk|k f p Hp Hk|k f p Hp Hk
                  |k f p Hp Hk|k f p Hp|k f p Hp Hk Hc|k f p Hp Hk|k f p Hp]; simpl in *;
    try (apply step_outside; rewrite ?Hp; done).
  - apply Hcpu in Hk. congruence.
  - split; simpl; try done.
  - split; simpl; try done.
    + intros q r. who q p; who r p; try done; rewrite (Hfr Hk); done.
    + intros q. who q p; [|apply Hcpu]. rewrite Hcpu, Hp. done.
    + intros q. who q p; auto.
  - assert (Hown : forall q, owns (f q) = true -> q = p) by (intros; apply Hun; by rewrite ?Hp).
    split; simpl.
    + intros E. specialize (Hfr E p). by rewrite Hp in Hfr.
    + intros q r. who q p; who r p; auto using eq_sym.
    + intros q. who q p; [naive_solver|]. split; [congruence|].
      intros Hq. destruct n. apply Hown. by rewrite Hq.
    + intros q. who q p; auto.
  - assert (Hown : forall q, owns (f q) = true -> q = p) by (intros; apply Hun; by rewrite ?Hp).
    split; simpl.
    + intros E. done.
    + intros q r. who q p; who r p; auto using eq_sym.
    + intros q. who q p; [done|]. split; [done|].
      intros Hq. destruct n. apply Hown. by rewrite Hq.
    + intros q. who q p; auto.
  - pose proof (proj2 (Hcpu p) Hp) as Hc. destruct Hk as [Hk|Hk]; [|done].
    specialize (Hfr Hk p). by rewrite Hp in Hfr.
  - assert (Hown : forall q, owns (f q) = true -> q = p) by (intros; apply Hun; by rewrite ?Hp).
    split; simpl.
    + intros _ q. who q p; [done|]. destruct (owns (f q)) eqn:E; [|done]. apply Hown in E. done.
    + intros q r. who q p; who r p; try done. intros Hq Hr.
      rewrite (Hown _ Hq). symmetry. auto.
    + intros q. who q p; [rewrite Hcpu, Hp; done|apply Hcpu].
    + intros q. who q p; auto.
Qed.

(** C4. Mutual exclusion: however the lock accesses of any number of
    processors interleave, at most one of them is between a successful xchg
    in acquire and the final store of release, and none ever hits the
    "acquire" or "release" panic. *)
Theorem spinlock_mutual_exclusion g :
  star step initial g ->
  (forall p q, owns (pcs g p) = true -> owns (pcs g q) = true -> p = q) /\
  (forall p, pcs g p <> PPanic).
Proof.
  intros Hs. pose proof (star_invariant step lock_inv initial g step_inv Hs initial_inv) as [].
  done.
Qed.

Lemma spinlock_mutual_exclusion_witness :
  exists g, star step initial g /\ pcs g 3%nat = PCrit /\
    (forall q, owns (pcs g q) = true -> q = 3%nat).
Proof.
  assert (star step initial
    (Config (Spinlock 1 (Some 3%nat)) (set_pc 3 PCrit (set_pc 3 PGot (set_pc 3 PSpin (fun _ => POut)))))) as Hs.
  { eapply star_snoc; [eapply star_snoc; [eapply star_snoc; [apply star_refl|]|]|].
    - by apply (st_free (Spinlock 0 None) _ 3).
    - by apply (st_xchg_win (Spinlock 0 None) _ 3).
    - by apply (st_set_cpu (Spinlock 1 None) _ 3). }
  eexists. split; [exact Hs|]. split; [done|].
  intros q Hq. apply (proj1 (spinlock_mutual_exclusion _ Hs)); [exact Hq|reflexivity].
Defined.
