(* ===== verification/Mmu.v ===== *)
(** * mmu.h and memlayout.h: address arithmetic

    The macros that split and round virtual addresses, and the layout
    constants, with the arithmetic facts the allocator and the page-table
    code rely on. *)
From stdpp Require Import base numbers list.
From S2P Require Import Prelude.
Open Scope Z_scope.

Definition PGSIZE : Z := 4096.
Definition PTXSHIFT : Z := 12.
Definition PDXSHIFT : Z := 22.
Definition NPDENTRIES : Z := 1024.

(** memlayout.h *)
Definition EXTMEM : Z := 0x100000.
Definition PHYSTOP : Z := 0x20000000.
Definition DEVSPACE : Z := 0xFE000000.
Definition KERNBASE : Z := 0x80000000.
Definition KERNLINK : Z := KERNBASE + EXTMEM.
Definition PCI_BAR_BASE : Z := 0x80000000.
Definition PCI_VP_OFFSET : Z := 0x40000000.
Definition V2P (a : Z) : Z := a -u KERNBASE.
Definition P2V (a : Z) : Z := a +u KERNBASE.

Definition PDX (va : Z) : Z := Z.land (Z.shiftr va PDXSHIFT) 0x3FF.
Definition PTX (va : Z) : Z := Z.land (Z.shiftr va PTXSHIFT) 0x3FF.
Definition PGADDR (d t o : Z) : Z :=
  u32 (Z.lor (Z.lor (Z.shiftl d PDXSHIFT) (Z.shiftl t PTXSHIFT)) o).
Definition PGROUNDUP (sz : Z) : Z := Z.land (sz +u (PGSIZE - 1)) (Z.lnot (PGSIZE - 1)).
Definition PGROUNDDOWN (a : Z) : Z := Z.land a (Z.lnot (PGSIZE - 1)).

Definition PTE_P : Z := 0x001.
Definition PTE_W : Z := 0x002.
Definition PTE_U : Z := 0x004.
Definition PTE_ADDR (pte : Z) : Z := Z.land pte (Z.lnot 0xFFF).
Definition PTE_FLAGS (pte : Z) : Z := Z.land pte 0xFFF.

(** ** Facts *)

Lemma PDX_div va : PDX va = va / 4194304 mod 1024.
Proof. unfold PDX, PDXSHIFT. rewrite Z.shiftr_div_pow2 by lia. apply (land_mask _ 10). lia. Qed.

Lemma PTX_div va : PTX va = va / 4096 mod 1024.
Proof. unfold PTX, PTXSHIFT. rewrite Z.shiftr_div_pow2 by lia. apply (land_mask _ 10). lia. Qed.

Lemma PDX_range va : 0 <= PDX va < 1024.
Proof. rewrite PDX_div. apply Z.mod_pos_bound. lia. Qed.
Lemma PTX_range va : 0 <= PTX va < 1024.
Proof. rewrite PTX_div. apply Z.mod_pos_bound. lia. Qed.

Lemma PGROUNDDOWN_eq a : PGROUNDDOWN a = a - a mod 4096.
Proof. apply (land_lnot_mask a 12). lia. Qed.

Lemma PGROUNDUP_eq sz : PGROUNDUP sz = u32 (sz + 4095) - u32 (sz + 4095) mod 4096.
Proof. apply (land_lnot_mask _ 12). lia. Qed.

Lemma PTE_ADDR_eq p : PTE_ADDR p = p - p mod 4096.
Proof. apply (land_lnot_mask p 12). lia. Qed.
Lemma PTE_FLAGS_eq p : PTE_FLAGS p = p mod 4096.
Proof. apply (land_mask p 12). lia. Qed.

Lemma P2V_V2P a : is_u32 a -> P2V (V2P a) = a.
Proof. intros. unfold P2V, V2P. rewrite u32_add_l. rewrite Z.sub_add. by apply u32_small. Qed.

Lemma V2P_P2V a : is_u32 a -> V2P (P2V a) = a.
Proof. intros. unfold P2V, V2P. rewrite u32_sub_l, Z.add_simpl_r. by apply u32_small. Qed.

(** The smallest page boundary at or above [sz]. *)
Lemma PGROUNDUP_spec sz :
  0 <= sz <= 4294967296 - 4096 ->
  PGROUNDUP sz mod 4096 = 0 /\ sz <= PGROUNDUP sz < sz + 4096.
Proof.
  intros. rewrite PGROUNDUP_eq. rewrite u32_small by (unfold is_u32; lia).
  Z.div_mod_to_equations. lia.
Qed.

Lemma lor_page a f : a mod 4096 = 0 -> 0 <= f < 4096 -> Z.lor a f = a + f.
Proof. intros. apply lor_disjoint. by apply (land_low_high _ _ 12). Qed.

(** An entry made of a page address and flags gives both back. *)
Lemma PTE_split a f :
  a mod 4096 = 0 -> 0 <= f < 4096 ->
  PTE_ADDR (Z.lor a f) = a /\ PTE_FLAGS (Z.lor a f) = f.
Proof.
  intros. rewrite lor_page, PTE_ADDR_eq, PTE_FLAGS_eq by done. Z.div_mod_to_equations. lia.
Qed.

(** A 32-bit virtual address is exactly its page-directory index, its
    page-table index and its page offset: PGADDR rebuilds it from PDX, PTX
    and the low twelve bits. *)
Theorem PGADDR_roundtrip va :
  is_u32 va -> PGADDR (PDX va) (PTX va) (Z.land va 0xFFF) = va.
Proof.
  intros Hva. pose proof (PDX_range va). pose proof (PTX_range va).
  assert (Ho : Z.land va 0xFFF = va mod 4096) by (apply (land_mask va 12); lia).
  assert (Hm : 0 <= va mod 4096 < 4096) by (apply Z.mod_pos_bound; lia).
  unfold PGADDR, PDXSHIFT, PTXSHIFT. rewrite Ho, !Z.shiftl_mul_pow2 by lia.
  change (2 ^ 22) with 4194304. change (2 ^ 12) with 4096.
  rewrite (lor_disjoint (PDX va * 4194304)); cycle 1.
  { apply (land_low_high _ _ 22); [lia|apply Z.mod_mul; lia|lia]. }
  rewrite lor_page; [|Z.div_mod_to_equations; lia|done].
  rewrite PDX_div, PTX_div in *. unfold is_u32 in Hva. rewrite u32_small; [|unfold is_u32];
    Z.div_mod_to_equations; lia.
Qed.

Lemma PGADDR_roundtrip_witness :
  PGADDR (PDX 0x80101234) (PTX 0x80101234) (Z.land 0x80101234 0xFFF) = 0x80101234.
Proof. apply (PGADDR_roundtrip 0x80101234). unfold is_u32. lia. Defined.
