(* ===== verification/Kalloc.v ===== *)
(** * kalloc.c: the physical page allocator

    [kmem] is the C struct with the memory it threads its free list through:
    the first word of a free page is the [next] pointer of [struct run].
    [kinv s l] says that the list is [l]: distinct whole pages of the
    allocatable range.  [PageAllocator] is what the page-table code is
    promised; the last section discharges it. *)
From stdpp Require Import base numbers list gmap strings.
From S2P Require Import Prelude Memory StringC Spinlock Mmu.
Open Scope Z_scope.

(** ** The interface

    An allocator hands out pages of [page_ok]; [al_free s l] names the free
    pages in the order they will be handed out.  Writing to pages that are not
    free never disturbs it. *)

Definition in_page (v x : Z) : Prop := v <= x < v + PGSIZE.

Class PageAllocator (S : Type) (page_ok : Z -> Prop) := {
  al_mem : S -> mem;
  al_set_mem : mem -> S -> S;
  al_kalloc : M S Z;
  al_kfree : Z -> M S unit;
  al_free : S -> list Z -> Prop;
  al_page_aligned v : page_ok v -> v mod PGSIZE = 0 /\ KERNBASE < v < KERNBASE + PHYSTOP;
  al_mem_set m s : al_mem (al_set_mem m s) = m;
  al_free_pages s l : al_free s l -> NoDup l /\ Forall page_ok l /\ mem_wf (al_mem s);
  al_free_frame s l m : al_free s l -> mem_wf m ->
    (forall v x, v ∈ l -> in_page v x -> m x = al_mem s x) -> al_free (al_set_mem m s) l;
  al_kalloc_some s v l : al_free s (v :: l) ->
    exists s', al_kalloc s = Ret v s' /\ al_free s' l /\ al_mem s' = al_mem s;
  al_kalloc_none s : al_free s [] ->
    exists s', al_kalloc s = Ret 0 s' /\ al_free s' [] /\ al_mem s' = al_mem s;
  al_kfree_ok s v l : al_free s l -> page_ok v -> v ∉ l ->
    exists s', al_kfree v s = Ret tt s' /\ al_free s' (v :: l) /\
      (forall x, ~ in_page v x -> al_mem s' x = al_mem s x)
}.

(** ** The code *)

Record kmem := Kmem {
  kmem_mem : mem;
  freelist : Z;
  use_lock : bool;
  kheld : gset Z
}.

Definition set_mem (m : mem) (s : kmem) : kmem :=
  Kmem m (freelist s) (use_lock s) (kheld s).
Definition set_freelist (f : Z) (s : kmem) : kmem :=
  Kmem (kmem_mem s) f (use_lock s) (kheld s).
Definition set_use_lock (b : bool) (s : kmem) : kmem :=
  Kmem (kmem_mem s) (freelist s) b (kheld s).
Definition set_kheld (h : gset Z) (s : kmem) : kmem :=
  Kmem (kmem_mem s) (freelist s) (use_lock s) h.

(** The address of [kmem.lock], as a lock name. *)
Definition KMEM_LOCK : Z := 1.
Definition k_acquire : M kmem unit := zoom kheld set_kheld (spec_acquire KMEM_LOCK).
Definition k_release : M kmem unit := zoom kheld set_kheld (spec_release KMEM_LOCK).

Section kalloc.
(** [end], the first address after the kernel (kernel.ld). *)
Variable kend : Z.

(** [kfree(v)] *)
Definition kfree (v : Z) : M kmem unit :=
  if negb (v mod PGSIZE =? 0) || (v <? kend) || (PHYSTOP <=? V2P v) then panic "kfree"
  else
    modify (fun s => set_mem (memset v 1 PGSIZE (kmem_mem s)) s) ;;
    let! lk := gets use_lock in
    when lk k_acquire ;;
    modify (fun s => set_mem (store32 (kmem_mem s) v (freelist s)) s) ;;
    modify (set_freelist v) ;;
    let! lk := gets use_lock in
    when lk k_release.

(** [kalloc()] *)
Definition kalloc : M kmem Z :=
  let! lk := gets use_lock in
  when lk k_acquire ;;
  let! r := gets freelist in
  when (negb (r =? 0)) (modify (fun s => set_freelist (load32 (kmem_mem s) r) s)) ;;
  let! lk := gets use_lock in
  when lk k_release ;;
  ret r.

(** [for(; p + PGSIZE <= vend; p += PGSIZE) kfree(p)] *)
Fixpoint freerange_loop (fuel : nat) (p vend : Z) : M kmem unit :=
  match fuel with
  | O => stop_with NoFuel
  | S fuel' =>
      if (p +u PGSIZE) <=? vend then kfree p ;; freerange_loop fuel' (p +u PGSIZE) vend
      else ret tt
  end.

(** [freerange(vstart, vend)]; one iteration per page of the range. *)
Definition freerange (vstart vend : Z) : M kmem unit :=
  freerange_loop (S (Z.to_nat (vend / PGSIZE))) (PGROUNDUP vstart) vend.

(** [kinit1(vstart, vend)], with [initlock(&kmem.lock)]: the lock is free. *)
Definition kinit1 (vstart vend : Z) : M kmem unit :=
  modify (fun s => set_kheld (kheld s ∖ {[KMEM_LOCK]}) s) ;;
  modify (set_use_lock false) ;;
  freerange vstart vend.

(** [kinit2(vstart, vend)] *)
Definition kinit2 (vstart vend : Z) : M kmem unit :=
  freerange vstart vend ;;
  modify (set_use_lock true).

(** ** Invariant *)

(** A page [kfree] accepts. *)
Definition page_ok (v : Z) : Prop :=
  v mod PGSIZE = 0 /\ kend <= v /\ KERNBASE <= v < KERNBASE + PHYSTOP.

#[export] Instance page_ok_dec v : Decision (page_ok v).
Proof. unfold page_ok. apply _. Defined.

(** The list [l] starting at [head] in memory [m]. *)
Fixpoint run_list (m : mem) (head : Z) (l : list Z) : Prop :=
  match l with
  | [] => head = 0
  | v :: l' => head = v /\ run_list m (load32 m v) l'
  end.

Record kinv (s : kmem) (l : list Z) : Prop := Kinv {
  ki_list : run_list (kmem_mem s) (freelist s) l;
  ki_nodup : NoDup l;
  ki_pages : Forall page_ok l;
  ki_wf : mem_wf (kmem_mem s);
  ki_lock : KMEM_LOCK ∉ kheld s
}.

(** [n] consecutive pages from [p]. *)
Fixpoint pages_from (p : Z) (n : nat) : list Z :=
  match n with
  | O => []
  | S n' => p :: pages_from (p + PGSIZE) n'
  end.

(** The pages wholly inside [vstart, vend), lowest first. *)
Definition pages_of (vstart vend : Z) : list Z :=
  pages_from (PGROUNDUP vstart) (Z.to_nat ((vend - PGROUNDUP vstart) / PGSIZE)).

(** ** Lemmas *)

Lemma page_ok_nonzero v : page_ok v -> v <> 0.
Proof. unfold page_ok, KERNBASE. lia. Qed.

Lemma page_ok_u32 v : page_ok v -> is_u32 v /\ v + PGSIZE <= 4294967296.
Proof. unfold page_ok, KERNBASE, PHYSTOP, is_u32, PGSIZE. lia. Qed.

(** Two pages are equal or do not overlap. *)
Lemma pages_disjoint v w x :
  v mod PGSIZE = 0 -> w mod PGSIZE = 0 -> in_page v x -> in_page w x -> v = w.
Proof. unfold in_page, PGSIZE. intros. Z.div_mod_to_equations. lia. Qed.

(** [kfree] and [page_ok] agree. *)
Lemma kfree_guard v :
  KERNBASE <= kend -> is_u32 v ->
  (negb (v mod PGSIZE =? 0) || (v <? kend) || (PHYSTOP <=? V2P v) = false <-> page_ok v).
Proof.
  intros Hk Hv. unfold page_ok, V2P, KERNBASE, PHYSTOP, is_u32 in *. unfold u32.
  rewrite !orb_false_iff, negb_false_iff, Z.eqb_eq, Z.ltb_ge, Z.leb_gt.
  split; [intros [[? ?] ?]|intros (?&?&?)]; split_and!; try done; try lia;
    Z.div_mod_to_equations; lia.
Qed.

Lemma run_list_ext m m' head l :
  run_list m head l -> (forall v, v ∈ l -> load32 m' v = load32 m v) -> run_list m' head l.
Proof.
  revert head. induction l as [|v l IH]; intros head; simpl; [done|].
  intros [-> Hr] He. split; [done|]. rewrite He by left. apply IH; [done|].
  intros w Hw. apply He. by right.
Qed.

Lemma lock_section s :
  KMEM_LOCK ∉ kheld s ->
  k_acquire s = Ret tt (set_kheld ({[KMEM_LOCK]} ∪ kheld s) s) /\
  forall s', kheld s' = {[KMEM_LOCK]} ∪ kheld s -> k_release s' = Ret tt (set_kheld (kheld s) s').
Proof.
  intros Hl. unfold k_acquire, k_release, zoom, spec_acquire, spec_release.
  rewrite bool_decide_false by done. split; [done|].
  intros s' ->. rewrite bool_decide_true by set_solver. repeat f_equal. set_solver.
Qed.

Lemma set_kheld_self s s' :
  kheld s' = kheld s -> set_kheld (kheld s) s' = s'.
Proof. intros <-. by destruct s'. Qed.

Lemma kfree_run v s :
  KMEM_LOCK ∉ kheld s -> page_ok v -> KERNBASE <= kend ->
  kfree v s =
  Ret tt (set_freelist v
    (set_mem (store32 (memset v 1 PGSIZE (kmem_mem s)) v (freelist s)) s)).
Proof.
  intros Hl Hv Hk. unfold kfree.
  rewrite (proj2 (kfree_guard v Hk (proj1 (page_ok_u32 v Hv))) Hv). mred.
  cbn [use_lock set_mem]. destruct (use_lock s) eqn:E; unfold when.
  - erewrite bind_run; [|apply lock_section; done]. mred. cbn. rewrite E.
    by rewrite (proj2 (lock_section s Hl)).
  - mred. cbn. by rewrite E.
Qed.

Lemma kalloc_run s :
  KMEM_LOCK ∉ kheld s ->
  kalloc s = Ret (freelist s)
    (if freelist s =? 0 then s else set_freelist (load32 (kmem_mem s) (freelist s)) s).
Proof.
  intros Hl. unfold kalloc. mred. destruct (use_lock s) eqn:E; unfold when.
  - erewrite bind_run; [|apply lock_section; done]. mred. cbn [freelist set_kheld].
    destruct (Z.eqb_spec (freelist s) 0) as [E0|E0]; simpl; mred; cbn; rewrite E.
    + erewrite bind_run; [|by apply (proj2 (lock_section s Hl))].
      unfold ret. f_equal. by destruct s.
    + by erewrite bind_run; [|by apply (proj2 (lock_section s Hl))].
  - mred. destruct (Z.eqb_spec (freelist s) 0) as [E0|E0]; simpl; mred; cbn; by rewrite E.
Qed.

Lemma kfree_bytes v s x :
  mem_wf (kmem_mem s) -> page_ok v ->
  store32 (memset v 1 PGSIZE (kmem_mem s)) v (freelist s) x =
  if (v <=? x) && (x <? v + 4) then u8 (nthZ 0 (le_bytes 4 (freelist s)) (x - v))
  else if (v <=? x) && (x <? v + PGSIZE) then 1 else kmem_mem s x.
Proof.
  intros Hwf Hv. pose proof (page_ok_u32 v Hv) as [[? ?] ?].
  unfold store32. rewrite store_bytes_at, length_le_bytes.
  rewrite (memset_fill v 1 PGSIZE) by (unfold PGSIZE in *; lia). done.
Qed.

Lemma kalloc_inv s l :
  kinv s l ->
  exists s', kalloc s = Ret (hd 0 l) s' /\ kinv s' (tl l) /\ kmem_mem s' = kmem_mem s.
Proof.
  intros [Hl Hnd Hp Hwf Hk]. rewrite kalloc_run by done.
  destruct l as [|v l]; simpl in Hl.
  - rewrite Hl. simpl. eexists. split; [done|]. split; [|done]. split; simpl; done.
  - destruct Hl as [-> Hl]. inversion Hp; subst. inversion Hnd; subst.
    destruct (Z.eqb_spec v 0); [by destruct (page_ok_nonzero v)|].
    eexists. split; [done|]. split; [|done]. split; simpl; done.
Qed.

Lemma kfree_inv s l v :
  KERNBASE <= kend -> kinv s l -> page_ok v -> v ∉ l ->
  exists s', kfree v s = Ret tt s' /\ kinv s' (v :: l) /\
    (forall x, ~ in_page v x -> kmem_mem s' x = kmem_mem s x) /\
    (forall x, v + 4 <= x < v + PGSIZE -> kmem_mem s' x = 1) /\
    use_lock s' = use_lock s /\ kheld s' = kheld s.
Proof.
  intros Hke [Hl Hnd Hp Hwf Hk] Hv Hni. rewrite kfree_run by done.
  eexists. split; [done|].
  assert (Hm : forall x, ~ in_page v x ->
    store32 (memset v 1 PGSIZE (kmem_mem s)) v (freelist s) x = kmem_mem s x).
  { intros x Hx. rewrite kfree_bytes by done. unfold in_page, PGSIZE in *. zcases; simpl; lia || done. }
  split; [split; simpl; try done|split; [done|split; [|done]]].
  - split; [done|].
    assert (is_u32 (freelist s)) as Hfl.
    { destruct l as [|w l']; [|destruct Hl as [-> _]; inversion Hp; subst; by apply page_ok_u32].
      simpl in Hl. rewrite Hl. unfold is_u32. lia. }
    rewrite load_store32_eq, u32_small by done.
    apply run_list_ext with (kmem_mem s); [done|]. intros w Hw. apply load32_ext.
    intros x Hx. apply Hm. intros Hin. rewrite Forall_forall in Hp.
    assert (w = v) as ->; [|done]. pose proof (Hp w Hw) as [? _]. destruct Hv as [? _].
    apply (pages_disjoint w v x); try done. unfold in_page, PGSIZE. lia.
  - by constructor.
  - by constructor.
  - intros x. rewrite kfree_bytes by done. zcases; simpl; auto with kernel; word.
  - intros x Hx. simpl. rewrite kfree_bytes by done. unfold PGSIZE in *. zcases; simpl; lia || done.
Qed.

Lemma pages_from_ge p n v : v ∈ pages_from p n -> p <= v.
Proof.
  revert p. induction n as [|n IH]; intros p; simpl; [by intros ?%not_elem_of_nil|].
  intros [->|H%IH]%elem_of_cons; unfold PGSIZE in *; lia.
Qed.

Lemma freerange_loop_inv n fuel p vend s l :
  KERNBASE <= kend <= p -> p mod PGSIZE = 0 -> vend <= KERNBASE + PHYSTOP ->
  p + PGSIZE * Z.of_nat n <= vend < p + PGSIZE * (Z.of_nat n + 1) -> (n < fuel)%nat ->
  kinv s l -> (forall v, v ∈ pages_from p n -> v ∉ l) ->
  exists s', freerange_loop fuel p vend s = Ret tt s' /\ kinv s' (rev (pages_from p n) ++ l) /\
    use_lock s' = use_lock s.
Proof.
  revert fuel p s l. induction n as [|n IH]; intros fuel p s l Hp Hpa Hv Hn Hf Hi Hd;
    (destruct fuel as [|fuel]; [lia|]); cbn [freerange_loop];
    unfold PGSIZE, KERNBASE, PHYSTOP in *;
    rewrite !(u32_small (p + 4096)) by (unfold is_u32; lia).
  - destruct (Z.leb_spec (p + 4096) vend); [lia|]. eexists. split; [done|]. done.
  - destruct (Z.leb_spec (p + 4096) vend); [|lia].
    cbn [pages_from] in Hd |- *.
    destruct (kfree_inv s l p) as (s1&E&Hi1&_&_&Hu&_); [unfold KERNBASE; lia|done| | |].
    { unfold page_ok, PGSIZE, KERNBASE, PHYSTOP. lia. }
    { apply Hd. left. }
    rewrite (bind_run _ _ _ _ _ E).
    destruct (IH fuel (p + 4096) s1 (p :: l)) as (s2&E2&Hi2&Hu2); try done; try lia.
    + Z.div_mod_to_equations. lia.
    + intros v Hvin. apply not_elem_of_cons. split; [|apply Hd; by right].
      apply pages_from_ge in Hvin. lia.
    + exists s2. split; [done|]. split; [|congruence]. simpl.
      by rewrite <- app_assoc.
Qed.

Lemma freerange_inv vstart vend s l :
  KERNBASE <= kend <= vstart -> vstart <= vend <= KERNBASE + PHYSTOP ->
  PGROUNDUP vstart <= vend ->
  kinv s l -> (forall v, v ∈ pages_of vstart vend -> v ∉ l) ->
  exists s', freerange vstart vend s = Ret tt s' /\
    kinv s' (rev (pages_of vstart vend) ++ l) /\ use_lock s' = use_lock s.
Proof.
  intros Hk Hv Hr Hi Hd. unfold freerange, pages_of in *.
  destruct (PGROUNDUP_spec vstart) as [Ha Hb]; [unfold KERNBASE, PHYSTOP in *; lia|].
  unfold PGSIZE, KERNBASE, PHYSTOP in *.
  apply freerange_loop_inv; unfold PGSIZE, KERNBASE, PHYSTOP; try done; try lia.
  all: try (rewrite Z2Nat.id by (apply Z.div_pos; lia)); Z.div_mod_to_equations; lia.
Qed.

(** ** Properties *)

(** kalloc pops and kfree pushes the free list.  With free pages l, kalloc
    returns the first (0 when there is none) and leaves the rest with memory
    untouched; kfree of an allocatable page not on the list makes it the first,
    fills it with 1s after the link word and touches no other byte. *)
Theorem kalloc_kfree_stack s l v :
  KERNBASE <= kend -> kinv s l -> page_ok v -> v ∉ l ->
  (exists s', kalloc s = Ret (hd 0 l) s' /\ kinv s' (tl l) /\ kmem_mem s' = kmem_mem s) /\
  (exists s', kfree v s = Ret tt s' /\ kinv s' (v :: l) /\
     (forall x, ~ in_page v x -> kmem_mem s' x = kmem_mem s x) /\
     (forall x, v + 4 <= x < v + PGSIZE -> kmem_mem s' x = 1)).
Proof.
  intros Hk Hi Hv Hn. split; [by apply kalloc_inv|].
  destruct (kfree_inv s l v) as (s'&?&?&?&?&_); eauto.
Qed.

(** kfree panics on every address that is not a whole page between the end
    of the kernel and PHYSTOP, and leaves the state as it was. *)
Theorem kfree_rejects s v :
  KERNBASE <= kend -> is_u32 v -> ~ page_ok v -> kfree v s = Stop (Panicked "kfree") s.
Proof.
  intros Hk Hv Hn. unfold kfree.
  destruct (negb _ || _ || _) eqn:E; [done|].
  destruct Hn. by apply kfree_guard.
Qed.

(** The boot-time initialisers free exactly the pages wholly inside their
    range: kinit1 from an empty list with locking off, kinit2 on top of the
    pages already free, after which the allocator locks. *)
Theorem kinit_frees_range s1 s2 l v1 v2 v3 :
  KERNBASE <= kend <= v1 -> v1 <= v2 -> PGROUNDUP v1 <= v2 ->
  v2 <= v3 <= KERNBASE + PHYSTOP -> PGROUNDUP v2 <= v3 ->
  freelist s1 = 0 -> mem_wf (kmem_mem s1) ->
  kinv s2 l -> (forall v, v ∈ pages_of v2 v3 -> v ∉ l) ->
  (exists s', kinit1 v1 v2 s1 = Ret tt s' /\ kinv s' (rev (pages_of v1 v2)) /\
     use_lock s' = false) /\
  (exists s', kinit2 v2 v3 s2 = Ret tt s' /\ kinv s' (rev (pages_of v2 v3) ++ l) /\
     use_lock s' = true).
Proof.
  intros Hk H12 Hr1 H23 Hr2 Hf Hwf Hi Hd. split.
  - unfold kinit1. mred.
    destruct (freerange_inv v1 v2 (set_use_lock false
      (set_kheld (kheld s1 ∖ {[KMEM_LOCK]}) s1)) []) as (s'&E&Hs&Hu); try done; try lia.
    + split; simpl; [done|apply NoDup_nil_2|by constructor|done|set_solver].
    + intros v _. apply not_elem_of_nil.
    + exists s'. by rewrite app_nil_r in Hs.
  - destruct (freerange_inv v2 v3 s2 l) as (s'&E&[]&_); try done; try lia.
    exists (set_use_lock true s'). unfold kinit2. rewrite (bind_run _ _ _ _ _ E).
    split; [done|]. split; [|done]. split; done.
Qed.

(** ** Clients

    A client owns the pages it was given and may write anywhere in them. *)

Record client := Client { ck : kmem; live : gset Z }.

Inductive client_step : client -> client -> Prop :=
| cs_alloc s s' lv v : kalloc s = Ret v s' -> v <> 0 ->
    client_step (Client s lv) (Client s' ({[v]} ∪ lv))
| cs_fail s s' lv : kalloc s = Ret 0 s' -> client_step (Client s lv) (Client s' lv)
| cs_free s s' lv v : v ∈ lv -> kfree v s = Ret tt s' ->
    client_step (Client s lv) (Client s' (lv ∖ {[v]}))
| cs_write s lv m : mem_wf m ->
    (forall x, (forall v, v ∈ lv -> ~ in_page v x) -> m x = kmem_mem s x) ->
    client_step (Client s lv) (Client (set_mem m s) lv).

(** The pages of [all] are split between the free list and the clients. *)
Definition client_inv (all : gset Z) (c : client) : Prop :=
  exists l, kinv (ck c) l /\ Forall page_ok (elements (live c)) /\
    live c ## list_to_set l /\ live c ∪ list_to_set l = all.

Lemma kinv_frame s l m :
  kinv s l -> mem_wf m ->
  (forall v x, v ∈ l -> in_page v x -> m x = kmem_mem s x) -> kinv (set_mem m s) l.
Proof.
  intros [Hl Hnd Hp Hwf Hk] Hm He. split; simpl; try done.
  apply run_list_ext with (kmem_mem s); [done|]. intros v Hv. apply load32_ext.
  intros x Hx. apply (He v x Hv). unfold in_page, PGSIZE. lia.
Qed.

Lemma client_step_inv all c c' :
  KERNBASE <= kend -> client_inv all c -> client_step c c' -> client_inv all c'.
Proof.
  intros Hke (l&Hi&Hp&Hd&Hu) Hs. destruct Hs as [s s' lv v E Hv|s s' lv E|s s' lv v Hv E|s lv m Hm He];
    simpl in *.
  - destruct (kalloc_inv s l Hi) as (s1&E1&Hi1&_). rewrite E1 in E. injection E as Ev Es.
    destruct l as [|w l]; simpl in *; [congruence|]. subst. exists l. split; [done|].
    destruct Hi as [_ Hnd Hpl _ _]. inversion Hnd; subst. inversion Hpl; subst.
    split; [|split; set_solver].
    rewrite Forall_forall in *. intros w Hw. rewrite elem_of_elements in Hw.
    apply elem_of_union in Hw as [->%elem_of_singleton|Hw]; [done|].
    apply Hp. by rewrite elem_of_elements.
  - destruct (kalloc_inv s l Hi) as (s1&E1&Hi1&_). rewrite E1 in E. injection E as Ev Es. subst.
    destruct l as [|w l]; simpl in *; [by exists []|]. subst w.
    destruct Hi as [_ _ Hpl _ _]. inversion Hpl; subst. by destruct (page_ok_nonzero 0).
  - assert (page_ok v) as Hvp.
    { rewrite Forall_forall in Hp. apply Hp. by rewrite elem_of_elements. }
    destruct (kfree_inv s l v) as (s1&E1&Hi1&_); try done; [set_solver|].
    rewrite E1 in E. injection E as Es. subst. exists (v :: l). split; [done|]. simpl.
    split; [|split; [set_solver|]].
    + rewrite Forall_forall in *. intros w Hw. apply Hp.
      rewrite elem_of_elements in Hw |- *. set_solver.
    + apply set_eq. intros x. destruct (decide (x = v)); set_solver.
  - exists l. split; [|done]. apply kinv_frame; try done.
    intros v x Hvl Hx. apply He. intros w Hw Hwx.
    rewrite Forall_forall in Hp. destruct (Hp w) as [Hwa _]; [by rewrite elem_of_elements|].
    destruct Hi as [_ _ Hpl _ _]. rewrite Forall_forall in Hpl. destruct (Hpl v Hvl) as [Hva _].
    assert (v = w) as -> by (by apply (pages_disjoint v w x)). set_solver.
Qed.

(** C5. No page is ever handed out while a client still has it: in every run of
    allocations, frees of owned pages and arbitrary writes inside owned pages,
    the pages the clients own and the pages on the free list stay disjoint and
    together remain the same set. *)
Theorem kalloc_no_double_allocation all c c' v s' :
  KERNBASE <= kend -> client_inv all c -> star client_step c c' ->
  kalloc (ck c') = Ret v s' -> v <> 0 ->
  ~ (v ∈ live c') /\ page_ok v /\ v ∈ all /\ client_inv all c'.
Proof.
  intros Hk Hi Hst E Hv.
  assert (client_inv all c') as Hi'.
  { eapply star_invariant; [|exact Hst|exact Hi]. intros. by eapply client_step_inv. }
  pose proof Hi' as (l&Hkl&_&Hd&Hu).
  destruct (kalloc_inv (ck c') l Hkl) as (s1&E1&_). rewrite E1 in E. injection E as Ev _.
  destruct l as [|w l]; simpl in Ev; [congruence|]. subst.
  destruct Hkl as [_ _ Hp _ _]. inversion Hp; subst. split; [set_solver|].
  split; [done|]. split; [set_solver|done].
Qed.
End kalloc.

(** ** Discharging the interface *)

#[export] Instance kmem_allocator (kend : Z) (Hk : KERNBASE < kend) :
  PageAllocator kmem (page_ok kend).
Proof.
  refine {|
    al_mem := kmem_mem; al_set_mem := set_mem; al_kalloc := kalloc;
    al_kfree := kfree kend; al_free := kinv kend |}.
  - intros v (?&?&?). split; [done|lia].
  - done.
  - by intros s l [].
  - apply kinv_frame.
  - intros s v l Hi. apply (kalloc_inv kend s (v :: l) Hi).
  - intros s Hi. apply (kalloc_inv kend s [] Hi).
  - intros s v l Hi Hv Hn. destruct (kfree_inv kend s l v) as (s'&?&?&?&_); eauto; lia.
Defined.

(** ** Witnesses: two free pages above a kernel that ends at 0x80101000 *)

Definition demo_kend : Z := 0x80101000.
Definition demo_free : list Z := [0x80102000; 0x80101000].
Definition demo_kmem : kmem :=
  Kmem (store32 (fun _ => 0) 0x80102000 0x80101000) 0x80102000 true ∅.

Lemma demo_kinv : kinv demo_kend demo_kmem demo_free.
Proof.
  split; simpl.
  - done.
  - by apply (bool_decide_unpack (NoDup demo_free)).
  - by apply (bool_decide_unpack (Forall (page_ok demo_kend) demo_free)).
  - apply store32_wf, zero_mem_wf.
  - set_solver.
Qed.

Lemma kalloc_kfree_stack_witness :
  exists s', kfree demo_kend 0x80103000 demo_kmem = Ret tt s' /\
    kinv demo_kend s' (0x80103000 :: demo_free).
Proof.
  pose proof (kalloc_kfree_stack demo_kend demo_kmem demo_free 0x80103000) as H.
  destruct H as [_ (s'&E&Hi&_)].
  - unfold demo_kend, KERNBASE. lia.
  - apply demo_kinv.
  - by apply (bool_decide_unpack (page_ok demo_kend 0x80103000)).
  - by apply (bool_decide_unpack (0x80103000 ∉ demo_free)).
  - exists s'. split; [exact E|exact Hi].
Defined.

Lemma kfree_rejects_witness :
  kfree demo_kend 0x80100000 demo_kmem = Stop (Panicked "kfree") demo_kmem.
Proof.
  apply (kfree_rejects demo_kend demo_kmem 0x80100000).
  - unfold demo_kend, KERNBASE. lia.
  - unfold is_u32. lia.
  - by apply (bool_decide_unpack (~ page_ok demo_kend 0x80100000)).
Defined.

Definition empty_kmem : kmem := Kmem (fun _ => 0) 0 false ∅.

Lemma kinit_frees_range_witness :
  exists s', kinit1 demo_kend 0x80101000 0x80103000 empty_kmem = Ret tt s' /\
    kinv demo_kend s' demo_free.
Proof.
  destruct (kinit_frees_range demo_kend empty_kmem demo_kmem demo_free
    0x80101000 0x80103000 0x80104000) as [(s'&E&Hi&_) _].
  1-5: eapply bool_decide_unpack; vm_compute; exact I.
  - reflexivity.
  - apply zero_mem_wf.
  - apply demo_kinv.
  - intros v. replace (pages_of 0x80103000 0x80104000) with [0x80103000] by reflexivity.
    rewrite list_elem_of_singleton. intros ->.
    by apply (bool_decide_unpack (0x80103000 ∉ demo_free)).
  - exists s'. split; [exact E|exact Hi].
Defined.

Lemma kalloc_no_double_allocation_witness :
  exists v s', kalloc demo_kmem = Ret v s' /\ ~ (v ∈ (∅ : gset Z)) /\ page_ok demo_kend v.
Proof.
  exists 0x80102000. eexists. split; [reflexivity|].
  destruct (kalloc_no_double_allocation demo_kend (list_to_set demo_free)
    (Client demo_kmem ∅) (Client demo_kmem ∅) 0x80102000
    (set_freelist 0x80101000 demo_kmem)) as (H1&H2&_).
  - unfold demo_kend, KERNBASE. lia.
  - exists demo_free. split; [apply demo_kinv|]. simpl. rewrite elements_empty.
    split; [constructor|]. set_solver.
  - apply star_refl.
  - reflexivity.
  - lia.
  - split; [exact H1|exact H2].
Defined.
