(* ===== verification/Block.v ===== *)
(** * Disk blocks as byte arrays

    A block is a list of [BSIZE] bytes.  The structures the kernel overlays
    on a buffer's data (log header, superblock, on-disk inodes, directory
    entries, indirect blocks) are read and written with the little-endian
    accesses below, at the byte offset the C layout gives the field. *)
From stdpp Require Import base numbers list.
From S2P Require Import Prelude.
Open Scope Z_scope.

Definition ld8 (d : list Z) (o : Z) : Z := nthZ 0 d o.
Definition ld16 (d : list Z) (o : Z) : Z := ld8 d o + 256 * ld8 d (o + 1).
Definition ld32 (d : list Z) (o : Z) : Z := ld16 d o + 65536 * ld16 d (o + 2).

Definition st8 (d : list Z) (o v : Z) : list Z := updZ d o (u8 v).
Definition st16 (d : list Z) (o v : Z) : list Z := st8 (st8 d o v) (o + 1) (v / 256).
Definition st32 (d : list Z) (o v : Z) : list Z := st16 (st16 d o v) (o + 2) (v / 65536).

(** [n] bytes from offset [o]. *)
Definition sub (d : list Z) (o n : Z) : list Z := map (fun i => ld8 d (o + i)) (seqZ 0 n).

(** [memmove(d + o, bs, length bs)] *)
Fixpoint splice (d : list Z) (o : Z) (bs : list Z) : list Z :=
  match bs with
  | [] => d
  | b :: bs' => splice (updZ d o b) (o + 1) bs'
  end.

(** A block of zeros. *)
Definition zeros : list Z := replicate 512 0.
#[global] Arguments zeros : simpl never.

Definition is_block_data (d : list Z) : Prop := length d = 512%nat /\ Forall is_u8 d.

Lemma length_st8 d o v : length (st8 d o v) = length d.
Proof. apply length_updZ. Qed.
Lemma length_st16 d o v : length (st16 d o v) = length d.
Proof. unfold st16. by rewrite !length_st8. Qed.
Lemma length_st32 d o v : length (st32 d o v) = length d.
Proof. unfold st32. by rewrite !length_st16. Qed.
Lemma length_splice d o bs : length (splice d o bs) = length d.
Proof. revert d o. induction bs; intros; simpl; [done|]. by rewrite IHbs, length_updZ. Qed.
Lemma length_sub d o n : 0 <= n -> Z.of_nat (length (sub d o n)) = n.
Proof. intros. unfold sub. rewrite length_map, length_seqZ. lia. Qed.
Create Rewrite HintDb block.
#[export] Hint Rewrite length_st8 length_st16 length_st32 length_splice : block.

Lemma ld8_st8 d o v p :
  0 <= o < Z.of_nat (length d) -> ld8 (st8 d o v) p = if p =? o then u8 v else ld8 d p.
Proof.
  intros Ho. unfold ld8, st8. destruct (Z.eqb_spec p o) as [->|].
  - by rewrite nthZ_updZ_eq.
  - by rewrite nthZ_updZ_ne.
Qed.

Lemma ld8_st16 d o v p :
  0 <= o -> o + 2 <= Z.of_nat (length d) ->
  ld8 (st16 d o v) p = if p =? o + 1 then u8 (v / 256) else if p =? o then u8 v else ld8 d p.
Proof. intros. unfold st16. rewrite !ld8_st8 by (rewrite ?length_st8; lia). done. Qed.

Lemma ld8_st32 d o v p :
  0 <= o -> o + 4 <= Z.of_nat (length d) ->
  ld8 (st32 d o v) p =
  if (o <=? p) && (p <? o + 4) then u8 (v / 256 ^ (p - o)) else ld8 d p.
Proof.
  intros. unfold st32. rewrite !ld8_st16 by (rewrite ?length_st16; lia).
  destruct (Z.leb_spec o p); [|simpl; zcases; lia || done].
  destruct (Z.ltb_spec p (o + 4)); simpl; [|zcases; lia || done].
  assert (p = o \/ p = o + 1 \/ p = o + 2 \/ p = o + 3) as [->|[->|[->| ->]]] by lia;
    zcases; try lia.
  - replace (o - o) with 0 by lia. by rewrite Z.pow_0_r, Z.div_1_r.
  - by replace (o + 1 - o) with 1 by lia.
  - by replace (o + 2 - o) with 2 by lia.
  - replace (o + 3 - o) with 3 by lia. rewrite Z.div_div by lia. done.
Qed.

Lemma ld16_st16 d o v :
  0 <= o -> o + 2 <= Z.of_nat (length d) -> ld16 (st16 d o v) o = u16 v.
Proof. intros. unfold ld16. rewrite !ld8_st16 by lia. zcases; try lia. word. Qed.

Lemma ld32_st32 d o v :
  0 <= o -> o + 4 <= Z.of_nat (length d) -> ld32 (st32 d o v) o = u32 v.
Proof.
  intros. unfold ld32, st32, ld16. rewrite !ld8_st16 by (rewrite ?length_st16; lia). zcases; try lia. word.
Qed.

Lemma ld32_st32_ne d o p v :
  0 <= o -> o + 4 <= Z.of_nat (length d) -> p + 4 <= o \/ o + 4 <= p ->
  ld32 (st32 d o v) p = ld32 d p.
Proof.
  intros. unfold ld32, ld16. rewrite !ld8_st32 by lia.
  repeat match goal with
  | |- context [ (?a <=? ?x) && (?x <? ?b) ] =>
      replace ((a <=? x) && (x <? b)) with false by
        (symmetry; apply andb_false_iff; rewrite Z.leb_gt, Z.ltb_ge; lia)
  end. done.
Qed.

Lemma ld8_splice d o bs p :
  0 <= o -> o + Z.of_nat (length bs) <= Z.of_nat (length d) ->
  ld8 (splice d o bs) p =
  if (o <=? p) && (p <? o + Z.of_nat (length bs)) then nthZ 0 bs (p - o) else ld8 d p.
Proof.
  revert d o. induction bs as [|b bs IH]; intros d o Ho Hl; cbn [splice length] in *.
  - destruct ((o <=? p) && (p <? o + Z.of_nat 0)) eqn:E; [|done].
    apply andb_true_iff in E as [?%Z.leb_le ?%Z.ltb_lt]. lia.
  - rewrite IH by (rewrite ?length_updZ; lia).
    destruct ((o + 1 <=? p) && (p <? o + 1 + Z.of_nat (length bs))) eqn:E.
    + apply andb_true_iff in E as [?%Z.leb_le ?%Z.ltb_lt].
      replace ((o <=? p) && (p <? o + Z.of_nat (S (length bs)))) with true
        by (symmetry; apply andb_true_iff; rewrite Z.leb_le, Z.ltb_lt; lia).
      unfold nthZ. zcases; try lia.
      replace (Z.to_nat (p - o)) with (S (Z.to_nat (p - (o + 1)))) by lia. done.
    + apply andb_false_iff in E. rewrite Z.leb_gt, Z.ltb_ge in E. unfold ld8.
      destruct (Z.eq_dec p o) as [->|Hne].
      * rewrite nthZ_updZ_eq by lia.
        replace ((o <=? o) && (o <? o + Z.of_nat (S (length bs)))) with true
          by (symmetry; apply andb_true_iff; rewrite Z.leb_le, Z.ltb_lt; lia).
        by rewrite Z.sub_diag.
      * rewrite nthZ_updZ_ne by lia.
        replace ((o <=? p) && (p <? o + Z.of_nat (S (length bs)))) with false; [done|].
        symmetry; apply andb_false_iff; rewrite Z.leb_gt, Z.ltb_ge; lia.
Qed.

(** Replacing a whole block. *)
Lemma splice_all d bs : length bs = length d -> splice d 0 bs = bs.
Proof.
  intros Hl. apply list_eq_same_length with (length d); [done|by rewrite length_splice|].
  intros i x y Hi Hx Hy.
  pose proof (ld8_splice d 0 bs (Z.of_nat i)) as E. unfold ld8 in E.
  rewrite (nthZ_lookup 0 _ (Z.of_nat i) x) in E; [|lia|by rewrite Nat2Z.id].
  replace ((0 <=? Z.of_nat i) && (Z.of_nat i <? 0 + Z.of_nat (length bs))) with true in E
    by (symmetry; apply andb_true_iff; rewrite Z.leb_le, Z.ltb_lt; lia).
  rewrite (nthZ_lookup 0 _ (Z.of_nat i - 0) y) in E; [|lia|].
  - apply E; lia.
  - replace (Z.to_nat (Z.of_nat i - 0)) with i by lia. done.
Qed.

Lemma ld8_zeros o : ld8 zeros o = 0.
Proof.
  unfold ld8, nthZ. destruct (o <? 0); [done|]. rewrite nth_lookup. unfold zeros.
  destruct (replicate 512 0 !! Z.to_nat o) as [x|] eqn:Ex; [|done].
  by apply lookup_replicate in Ex as [-> _].
Qed.
Lemma ld32_zeros o : ld32 zeros o = 0.
Proof. unfold ld32, ld16. by rewrite !ld8_zeros. Qed.
Lemma zeros_block : is_block_data zeros.
Proof. split; [done|]. apply Forall_replicate. unfold is_u8. lia. Qed.

(** Stores leave other offsets alone. *)
Lemma ld8_st16_ne d o v p :
  0 <= o -> o + 2 <= Z.of_nat (length d) -> p < o \/ o + 2 <= p -> ld8 (st16 d o v) p = ld8 d p.
Proof. intros. rewrite ld8_st16 by lia. zcases; lia || done. Qed.
Lemma ld8_st32_ne d o v p :
  0 <= o -> o + 4 <= Z.of_nat (length d) -> p < o \/ o + 4 <= p -> ld8 (st32 d o v) p = ld8 d p.
Proof.
  intros. rewrite ld8_st32 by lia. destruct (Z.leb_spec o p), (Z.ltb_spec p (o + 4)); simpl; lia || done.
Qed.
Lemma ld16_st16_ne d o v p :
  0 <= o -> o + 2 <= Z.of_nat (length d) -> p + 2 <= o \/ o + 2 <= p -> ld16 (st16 d o v) p = ld16 d p.
Proof. intros. unfold ld16. rewrite !ld8_st16_ne by lia. done. Qed.
Lemma ld16_st32_ne d o v p :
  0 <= o -> o + 4 <= Z.of_nat (length d) -> p + 2 <= o \/ o + 4 <= p -> ld16 (st32 d o v) p = ld16 d p.
Proof. intros. unfold ld16. rewrite !ld8_st32_ne by lia. done. Qed.
Lemma ld32_st16_ne d o v p :
  0 <= o -> o + 2 <= Z.of_nat (length d) -> p + 4 <= o \/ o + 2 <= p -> ld32 (st16 d o v) p = ld32 d p.
Proof. intros. unfold ld32. rewrite !ld16_st16_ne by lia. done. Qed.

Lemma st8_block d o v : is_block_data d -> is_block_data (st8 d o v).
Proof.
  intros [Hl Hb]. split; [by rewrite length_st8|]. unfold st8, updZ.
  destruct (Z.ltb_spec o 0); [done|]. apply Forall_insert; [done|]. apply u8_range.
Qed.
Lemma st16_block d o v : is_block_data d -> is_block_data (st16 d o v).
Proof. intros. unfold st16. by do 2 apply st8_block. Qed.
Lemma st32_block d o v : is_block_data d -> is_block_data (st32 d o v).
Proof. intros. unfold st32. by do 2 apply st16_block. Qed.
