(* ===== verification/Bio.v ===== *)
(** * bio.c, sleeplock.c and memide.c: the buffer cache over the disk

    [bstate] holds the buffer array with its doubly linked LRU list
    ([HEAD] is the list head [bcache.head]), the disk of memide.c, and the log
    of log.c, which pins buffers through B_DIRTY.  [wtrace] records the disk
    writes in order, so that a crash can be placed between any two of them.
    Spin-lock critical sections are atomic here; a sleep lock that is taken
    stops the caller with [Slept]. *)
From stdpp Require Import base numbers list gmap strings.
From S2P Require Import Prelude.
Open Scope Z_scope.

Definition NBUF : Z := 30.
Definition HEAD : Z := NBUF.
Definition BSIZE : Z := 512.
Definition B_VALID : Z := 2.
Definition B_DIRTY : Z := 4.
Definition LOGSIZE : Z := 30.
Definition MAXOPBLOCKS : Z := 10.

(** struct sleeplock: is it held, and by which process. *)
Record sleeplock := Sleeplock { sl_locked : Z; sl_pid : Z }.

(** struct buf; buffers are named by their index in [bcache.buf]. *)
Record buf := Buf {
  b_flags : Z; b_dev : Z; b_blockno : Z; b_lock : sleeplock; b_refcnt : Z;
  b_prev : Z; b_next : Z; b_data : list Z
}.

(** struct logheader and struct log *)
Record loghdr := LogHdr { lh_n : Z; lh_block : list Z }.
Record log := Log {
  log_start : Z; log_size : Z; log_outstanding : Z; log_committing : Z;
  log_dev : Z; log_lh : loghdr
}.

Record bstate := BState {
  bufs : Z -> buf;
  disk : Z -> list Z;
  disksize : Z;
  wtrace : list (Z * list Z);
  curpid : Z;
  blog : log
}.

Definition set_flags (f : Z) (b : buf) : buf :=
  Buf f (b_dev b) (b_blockno b) (b_lock b) (b_refcnt b) (b_prev b) (b_next b) (b_data b).
Definition set_block (dev bno f r : Z) (b : buf) : buf :=
  Buf f dev bno (b_lock b) r (b_prev b) (b_next b) (b_data b).
Definition set_lock (l : sleeplock) (b : buf) : buf :=
  Buf (b_flags b) (b_dev b) (b_blockno b) l (b_refcnt b) (b_prev b) (b_next b) (b_data b).
Definition set_refcnt (r : Z) (b : buf) : buf :=
  Buf (b_flags b) (b_dev b) (b_blockno b) (b_lock b) r (b_prev b) (b_next b) (b_data b).
Definition set_prev (x : Z) (b : buf) : buf :=
  Buf (b_flags b) (b_dev b) (b_blockno b) (b_lock b) (b_refcnt b) x (b_next b) (b_data b).
Definition set_next (x : Z) (b : buf) : buf :=
  Buf (b_flags b) (b_dev b) (b_blockno b) (b_lock b) (b_refcnt b) (b_prev b) x (b_data b).
Definition set_data (d : list Z) (b : buf) : buf :=
  Buf (b_flags b) (b_dev b) (b_blockno b) (b_lock b) (b_refcnt b) (b_prev b) (b_next b) d.

Definition set_bufs (f : Z -> buf) (s : bstate) : bstate :=
  BState f (disk s) (disksize s) (wtrace s) (curpid s) (blog s).
Definition set_blog (l : log) (s : bstate) : bstate :=
  BState (bufs s) (disk s) (disksize s) (wtrace s) (curpid s) l.

(** Applies a write to one buffer: [b->field = ...]. *)
Definition upd_buf (b : Z) (g : buf -> buf) (f : Z -> buf) : Z -> buf := fupd f b (g (f b)).
Definition mod_buf (b : Z) (g : buf -> buf) : M bstate unit :=
  modify (fun s => set_bufs (upd_buf b g (bufs s)) s).
Definition get_buf (b : Z) : M bstate buf := gets (fun s => bufs s b).

(** ** sleeplock.c *)

(** [initsleeplock(lk, name)] on a buffer's lock *)
Definition initsleeplock : sleeplock := Sleeplock 0 0.

(** [acquiresleep(&b->lock)]: one attempt; a held lock puts the caller to
    sleep on the lock's address. *)
Definition acquiresleep (b : Z) : M bstate unit :=
  let! x := get_buf b in
  if negb (sl_locked (b_lock x) =? 0) then stop_with (Slept b)
  else
    let! pid := gets curpid in
    mod_buf b (set_lock (Sleeplock 1 pid)).

(** [releasesleep(&b->lock)] *)
Definition releasesleep (b : Z) : M bstate unit := mod_buf b (set_lock (Sleeplock 0 0)).

(** [holdingsleep(&b->lock)] *)
Definition holdingsleep (b : Z) : M bstate Z :=
  let! x := get_buf b in ret (sl_locked (b_lock x)).

(** ** memide.c *)

(** A sector reaches the disk. *)
Definition disk_write (bno : Z) (d : list Z) : M bstate unit :=
  modify (fun s => BState (bufs s) (fupd (disk s) bno d) (disksize s)
                     (wtrace s ++ [(bno, d)]) (curpid s) (blog s)).

(** [iderw(b)] *)
Definition iderw (b : Z) : M bstate unit :=
  let! h := holdingsleep b in
  if h =? 0 then panic "iderw: buf not locked" else
  let! x := get_buf b in
  if Z.land (b_flags x) (Z.lor B_VALID B_DIRTY) =? B_VALID then panic "iderw: nothing to do" else
  if negb (b_dev x =? 1) then panic "iderw: request not for disk 1" else
  let! ds := gets disksize in
  if ds <=? b_blockno x then panic "iderw: block out of range" else
  (if negb (Z.land (b_flags x) B_DIRTY =? 0) then
     mod_buf b (set_flags (Z.land (b_flags x) (Z.lnot B_DIRTY))) ;;
     disk_write (b_blockno x) (b_data x)
   else
     let! d := gets (fun s => disk s (b_blockno x)) in
     mod_buf b (set_data d)) ;;
  let! x := get_buf b in
  mod_buf b (set_flags (Z.lor (b_flags x) B_VALID)).

(** ** bio.c *)

(** One iteration of the loop of [binit]. *)
Definition binit_one (b : Z) : M bstate unit :=
  let! h := get_buf HEAD in
  mod_buf b (set_next (b_next h)) ;;
  mod_buf b (set_prev HEAD) ;;
  mod_buf b (set_lock initsleeplock) ;;
  let! h := get_buf HEAD in
  mod_buf (b_next h) (set_prev b) ;;
  mod_buf HEAD (set_next b).

(** [binit()] *)
Definition binit : M bstate unit :=
  mod_buf HEAD (set_prev HEAD) ;;
  mod_buf HEAD (set_next HEAD) ;;
  mfor (seqZ 0 NBUF) binit_one.

(** The first loop of [bget]: most recently used first.  The result is the
    buffer, [HEAD] when the loop ends, [None] when out of fuel. *)
Fixpoint scan_next (fuel : nat) (f : Z -> buf) (p : buf -> bool) (b : Z) : option Z :=
  match fuel with
  | O => None
  | S fuel' =>
      if b =? HEAD then Some HEAD
      else if p (f b) then Some b
      else scan_next fuel' f p (b_next (f b))
  end.

(** The second loop: least recently used first. *)
Fixpoint scan_prev (fuel : nat) (f : Z -> buf) (p : buf -> bool) (b : Z) : option Z :=
  match fuel with
  | O => None
  | S fuel' =>
      if b =? HEAD then Some HEAD
      else if p (f b) then Some b
      else scan_prev fuel' f p (b_prev (f b))
  end.

Definition is_block (dev bno : Z) (x : buf) : bool :=
  (b_dev x =? dev) && (b_blockno x =? bno).
Definition is_unused (x : buf) : bool :=
  (b_refcnt x =? 0) && (Z.land (b_flags x) B_DIRTY =? 0).

(** Every list holds at most NBUF buffers and the head. *)
Definition scan_fuel : nat := Z.to_nat (NBUF + 1).

(** [bget(dev, blockno)] *)
Definition bget (dev bno : Z) : M bstate Z :=
  let! f := gets bufs in
  match scan_next scan_fuel f (is_block dev bno) (b_next (f HEAD)) with
  | None => stop_with NoFuel
  | Some b =>
      if negb (b =? HEAD) then
        mod_buf b (fun x => set_refcnt (b_refcnt x + 1) x) ;;
        acquiresleep b ;;
        ret b
      else
        match scan_prev scan_fuel f is_unused (b_prev (f HEAD)) with
        | None => stop_with NoFuel
        | Some b =>
            if b =? HEAD then panic "bget: no buffers"
            else
              mod_buf b (set_block dev bno 0 1) ;;
              acquiresleep b ;;
              ret b
        end
  end.

(** [bread(dev, blockno)] *)
Definition bread (dev bno : Z) : M bstate Z :=
  let! b := bget dev bno in
  let! x := get_buf b in
  when (Z.land (b_flags x) B_VALID =? 0) (iderw b) ;;
  ret b.

(** [bwrite(b)] *)
Definition bwrite (b : Z) : M bstate unit :=
  let! h := holdingsleep b in
  if h =? 0 then panic "bwrite" else
  mod_buf b (fun x => set_flags (Z.lor (b_flags x) B_DIRTY) x) ;;
  iderw b.

(** The pointer updates of [brelse]: unlink [b], insert it after the head. *)
Definition move_to_front (b : Z) : M bstate unit :=
  let! x := get_buf b in
  mod_buf (b_next x) (set_prev (b_prev x)) ;;
  let! x := get_buf b in
  mod_buf (b_prev x) (set_next (b_next x)) ;;
  let! h := get_buf HEAD in
  mod_buf b (set_next (b_next h)) ;;
  mod_buf b (set_prev HEAD) ;;
  let! h := get_buf HEAD in
  mod_buf (b_next h) (set_prev b) ;;
  mod_buf HEAD (set_next b).

(** [brelse(b)] *)
Definition brelse (b : Z) : M bstate unit :=
  let! h := holdingsleep b in
  if h =? 0 then panic "brelse" else
  releasesleep b ;;
  mod_buf b (fun x => set_refcnt (b_refcnt x - 1) x) ;;
  let! x := get_buf b in
  when (b_refcnt x =? 0) (move_to_front b).

(** Writing through [b->data]. *)
Definition bset (b : Z) (d : list Z) : M bstate unit := mod_buf b (set_data d).
Definition bdata (b : Z) : M bstate (list Z) := gets (fun s => b_data (bufs s b)).

(** ** The LRU list *)

(** From node [x] the list runs through [l] to node [e], both ways. *)
Fixpoint linked (f : Z -> buf) (x : Z) (l : list Z) (e : Z) : Prop :=
  match l with
  | [] => b_next (f x) = e /\ b_prev (f e) = x
  | y :: l' => b_next (f x) = y /\ b_prev (f y) = x /\ linked f y l' e
  end.

(** The circular list of the buffers [l], most recently used first. *)
Definition lru (f : Z -> buf) (l : list Z) : Prop :=
  linked f HEAD l HEAD /\ Permutation l (seqZ 0 NBUF).

Lemma linked_frame f g x l e :
  (forall y, y ∈ x :: l -> b_next (g y) = b_next (f y)) ->
  (forall y, y ∈ l ++ [e] -> b_prev (g y) = b_prev (f y)) ->
  linked f x l e -> linked g x l e.
Proof.
  revert x. induction l as [|y l IH]; intros x Hn Hp; simpl.
  - rewrite Hn by left. rewrite Hp by (simpl; left). done.
  - rewrite Hn by left. rewrite (Hp y) by (simpl; left). intros (?&?&?). split_and!; try done.
    apply IH; try done; intros z Hz.
    + apply Hn. by right.
    + apply Hp. simpl. by right.
Qed.

Lemma linked_app f x l1 y l2 e :
  linked f x (l1 ++ y :: l2) e <-> linked f x l1 y /\ linked f y l2 e.
Proof.
  revert x. induction l1 as [|z l1 IH]; intros x; simpl; [tauto|].
  rewrite IH. tauto.
Qed.

Lemma lru_nodup f l : lru f l -> NoDup l /\ (forall i, i ∈ l <-> 0 <= i < NBUF) /\ HEAD ∉ l.
Proof.
  intros [_ Hp].
  assert (forall i, i ∈ l <-> 0 <= i < NBUF) as Hi.
  { intros i. rewrite Hp, elem_of_seqZ. lia. }
  split; [rewrite Hp; apply NoDup_seqZ|]. split; [done|].
  rewrite Hi. unfold HEAD. lia.
Qed.

Lemma lru_length f l : lru f l -> length l = Z.to_nat NBUF.
Proof. intros [_ Hp]. by rewrite Hp, length_seqZ. Qed.

(** The two scans of [bget] are searches of the list, from either end. *)
Lemma scan_next_find f p fuel x l e :
  linked f x l e -> e = HEAD -> HEAD ∉ l -> (length l < fuel)%nat ->
  scan_next fuel f p (b_next (f x)) =
  Some (match find (fun b => p (f b)) l with Some b => b | None => HEAD end).
Proof.
  intros Hl -> Hh. revert x fuel Hl. induction l as [|y l IH]; intros x fuel Hl Hf;
    (destruct fuel as [|fuel]; [simpl in *; lia|]); simpl in Hl |- *.
  - destruct Hl as [-> _]. by rewrite Z.eqb_refl.
  - destruct Hl as (->&_&Hl). apply not_elem_of_cons in Hh as [Hy Hh].
    destruct (Z.eqb_spec y HEAD); [congruence|].
    destruct (p (f y)); [done|]. apply IH; try done. simpl in Hf. lia.
Qed.

Lemma scan_prev_find f p fuel x l e :
  linked f x l e -> x = HEAD -> HEAD ∉ l -> (length l < fuel)%nat ->
  scan_prev fuel f p (b_prev (f e)) =
  Some (match find (fun b => p (f b)) (rev l) with Some b => b | None => HEAD end).
Proof.
  intros Hl -> Hh. revert e fuel Hl. induction l as [|y l IH] using rev_ind;
    intros e fuel Hl Hf; (destruct fuel as [|fuel]; [simpl in *; lia|]).
  - simpl in *. destruct Hl as [_ ->]. by rewrite Z.eqb_refl.
  - apply linked_app in Hl as [Hl He]. simpl in He. destruct He as [_ ->].
    rewrite rev_app_distr. cbn [rev app find scan_prev].
    apply not_elem_of_app in Hh as [Hh Hy]. rewrite list_elem_of_singleton in Hy.
    destruct (Z.eqb_spec y HEAD); [congruence|].
    destruct (p (f y)); [done|]. apply IH; try done. rewrite length_app in Hf. simpl in Hf. lia.
Qed.

Lemma upd_buf_eq b g f : upd_buf b g f b = g (f b).
Proof. unfold upd_buf. apply fupd_eq. Qed.
Lemma upd_buf_ne b g f i : i <> b -> upd_buf b g f i = f i.
Proof. unfold upd_buf. apply fupd_ne. Qed.
Lemma upd_buf_at b g f i : upd_buf b g f i = if i =? b then g (f b) else f i.
Proof. done. Qed.

(** The links alone determine [lru]. *)
Lemma lru_frame f g l :
  (forall i, b_next (g i) = b_next (f i) /\ b_prev (g i) = b_prev (f i)) -> lru f l -> lru g l.
Proof.
  intros H [Hl Hp]. split; [|done]. eapply linked_frame; [| |exact Hl]; intros; apply H.
Qed.

(** Unlinking a buffer: its neighbours point to each other. *)
Definition unlinked (b : Z) (f : Z -> buf) : Z -> buf :=
  let f1 := upd_buf (b_next (f b)) (set_prev (b_prev (f b))) f in
  upd_buf (b_prev (f1 b)) (set_next (b_next (f1 b))) f1.

(** Inserting a buffer after the head. *)
Definition inserted (b : Z) (f : Z -> buf) : Z -> buf :=
  let f1 := upd_buf b (set_next (b_next (f HEAD))) f in
  let f2 := upd_buf b (set_prev HEAD) f1 in
  upd_buf HEAD (set_next b) (upd_buf (b_next (f2 HEAD)) (set_prev b) f2).

Lemma move_to_front_run b s :
  move_to_front b s = Ret tt (set_bufs (inserted b (unlinked b (bufs s))) s).
Proof. reflexivity. Qed.

(** Case analysis on every update of an array of buffers. *)
Ltac bufcases :=
  repeat (rewrite upd_buf_at in *);
  repeat match goal with
  | |- context [ (?a =? ?b)%Z ] => destruct (Z.eqb_spec a b); subst; simpl in *
  | H : context [ (?a =? ?b)%Z ] |- _ => destruct (Z.eqb_spec a b); subst; simpl in *
  end.

(** Redirects the start of a list from [b] to [x]. *)
Lemma linked_restart f g b x l e :
  linked f b l e -> NoDup (l ++ [e]) -> x ∉ l ->
  b_next (g x) = b_next (f b) -> b_prev (g (b_next (f b))) = x ->
  (forall z, z ∈ l -> b_next (g z) = b_next (f z)) ->
  (forall z, z <> b_next (f b) -> z ∈ l ++ [e] -> b_prev (g z) = b_prev (f z)) ->
  linked g x l e.
Proof.
  intros Hl Hnd Hx Hn Hp Hfn Hfp. destruct l as [|y l]; simpl in Hl |- *.
  - destruct Hl as [E _]. rewrite E in *. done.
  - destruct Hl as (E&_&Hl). rewrite E in *. split_and!; try done.
    apply NoDup_cons in Hnd as [Hy Hnd].
    eapply linked_frame; [done| |exact Hl]. intros z Hz. apply Hfp.
    + intros ->. done.
    + by right.
Qed.

Lemma linked_head f x l e : linked f x l e -> b_next (f x) = hd e l.
Proof. destruct l; simpl; tauto. Qed.

Lemma linked_last f x l e : linked f x l e -> b_prev (f e) = List.last l x.
Proof.
  destruct l as [|y l _] using rev_ind; simpl; [tauto|].
  rewrite linked_app. simpl. intros (_&_&?). by rewrite last_last.
Qed.

Lemma hd_in (l : list Z) e : hd e l ∈ l ++ [e].
Proof. destruct l; simpl; left. Qed.

Lemma unlink_linked f l1 b l2 :
  linked f HEAD (l1 ++ b :: l2) HEAD -> NoDup (HEAD :: l1 ++ b :: l2) ->
  linked (unlinked b f) HEAD (l1 ++ l2) HEAD /\
  (forall z, z <> HEAD -> z ∉ l1 -> b_next (unlinked b f z) = b_next (f z)).
Proof.
  intros Hl Hnd. pose proof Hl as [H1 H2]%linked_app.
  pose proof (linked_head _ _ _ _ H2) as Hy. pose proof (linked_last _ _ _ _ H1) as Hx.
  assert (Hd : (HEAD ∉ l1) /\ (HEAD ∉ l2) /\ HEAD <> b /\ (b ∉ l1) /\ (b ∉ l2) /\ NoDup l1 /\ NoDup l2 /\
    (forall z, z ∈ l1 -> z ∉ l2)).
  { apply NoDup_cons in Hnd as [Hh Hnd]. apply NoDup_app in Hnd as (Hn1&Hd&Hn2).
    apply NoDup_cons in Hn2 as [Hb Hn2]. set_solver. }
  destruct Hd as (Hh1&Hh2&Hhb&Hb1&Hb2&Hn1&Hn2&Hd).
  assert (Hyb : b_next (f b) <> b).
  { rewrite Hy. pose proof (hd_in l2 HEAD) as Hin. intros E. rewrite E in Hin. set_solver. }
  set (y := b_next (f b)) in *. set (x := b_prev (f b)) in *.
  assert (Hg : unlinked b f = upd_buf x (set_next y) (upd_buf y (set_prev x) f)).
  { unfold unlinked. fold x y. rewrite (upd_buf_ne y) by congruence. done. }
  assert (Hgn : forall z, b_next (unlinked b f z) = if z =? x then y else b_next (f z)).
  { intros z. rewrite Hg. bufcases; congruence. }
  assert (Hgp : forall z, b_prev (unlinked b f z) = if z =? y then x else b_prev (f z)).
  { intros z. rewrite Hg. bufcases; congruence. }
  assert (Hyin : y ∈ l2 ++ [HEAD]) by (rewrite Hy; apply hd_in).
  assert (Hrest : x ∉ l2 -> linked (unlinked b f) x l2 HEAD).
  { intros Hxl. apply (linked_restart f _ b); try done.
    - apply NoDup_app. split_and!; [done|set_solver|apply NoDup_singleton].
    - rewrite Hgn, Z.eqb_refl. done.
    - fold y. rewrite Hgp, Z.eqb_refl. done.
    - intros z Hz. rewrite Hgn. zcases; [subst; done|done].
    - fold y. intros z Hz _. rewrite Hgp. zcases; done. }
  destruct l1 as [|w l1 _] using rev_ind.
  - simpl in Hx. simpl. rewrite Hx in *. split; [by apply Hrest|].
    intros z Hz _. rewrite Hgn. zcases; done.
  - rewrite last_last in Hx. clearbody x y. subst x.
    apply NoDup_app in Hn1 as (Hn1&Hdw&_). rewrite <- app_assoc. simpl. split.
    + apply linked_app in H1 as [H1 _]. apply linked_app. split; [|apply Hrest; set_solver].
      eapply linked_frame; [| |exact H1]; intros z Hz.
      * rewrite Hgn. zcases; [|done]. subst. set_solver.
      * rewrite Hgp. destruct (Z.eqb_spec z y) as [->|]; [|done].
        exfalso. clear - Hyin Hz Hd Hh1. set_solver.
    + intros z Hz Hzl. rewrite Hgn. zcases; [|done]. subst. set_solver.
Qed.

Lemma insert_linked f b l :
  linked f HEAD l HEAD -> NoDup (HEAD :: l) -> b <> HEAD -> b ∉ l ->
  linked (inserted b f) HEAD (b :: l) HEAD.
Proof.
  intros Hl [Hh Hnd]%NoDup_cons Hb Hbl. pose proof (linked_head _ _ _ _ Hl) as Hy.
  pose proof (hd_in l HEAD) as Hyin. rewrite <- Hy in Hyin.
  assert (Hyb : b_next (f HEAD) <> b) by (intros E; rewrite E in Hyin; set_solver).
  set (y := b_next (f HEAD)) in *.
  assert (Hg : inserted b f = upd_buf HEAD (set_next b) (upd_buf y (set_prev b)
    (upd_buf b (set_prev HEAD) (upd_buf b (set_next y) f)))).
  { unfold inserted. fold y. rewrite !(upd_buf_ne b _ _ HEAD) by congruence. done. }
  assert (Hgn : forall z, b_next (inserted b f z) =
    if z =? HEAD then b else if z =? b then y else b_next (f z)).
  { intros z. rewrite Hg. bufcases; congruence. }
  assert (Hgp : forall z, b_prev (inserted b f z) =
    if z =? y then b else if z =? b then HEAD else b_prev (f z)).
  { intros z. rewrite Hg. bufcases; congruence. }
  cbn [linked]. rewrite Hgn, Z.eqb_refl. split; [done|].
  rewrite Hgp. destruct (Z.eqb_spec b y); [congruence|]. rewrite Z.eqb_refl. split; [done|].
  apply (linked_restart f _ HEAD); try done.
  - apply NoDup_app. split_and!; [done|set_solver|apply NoDup_singleton].
  - fold y. rewrite Hgn. zcases; congruence.
  - fold y. rewrite Hgp, Z.eqb_refl. done.
  - intros z Hz. rewrite Hgn. zcases; set_solver.
  - fold y. intros z Hz Hzl. rewrite Hgp. zcases; try done. subst.
    exfalso. set_solver.
Qed.

(** The pointer surgery of [brelse] is move-to-front on the list. *)
Lemma move_to_front_lru f l b :
  lru f l -> b ∈ l ->
  exists l1 l2, l = l1 ++ b :: l2 /\ lru (inserted b (unlinked b f)) (b :: l1 ++ l2).
Proof.
  intros Hlru Hb. pose proof (lru_nodup _ _ Hlru) as (Hnd&_&Hh). destruct Hlru as [Hl Hp].
  apply list_elem_of_split in Hb as (l1&l2&->). exists l1, l2. split; [done|].
  destruct (unlink_linked f l1 b l2 Hl) as [Hu _]; [by constructor|].
  split.
  - apply insert_linked; try done.
    + apply NoDup_cons. split; [set_solver|].
      apply NoDup_app in Hnd as (?&?&[??]%NoDup_cons). apply NoDup_app. set_solver.
    + set_solver.
    + apply NoDup_app in Hnd as (?&?&[??]%NoDup_cons). set_solver.
  - rewrite <- Hp. symmetry. apply Permutation_sym, Permutation_middle.
Qed.

(** ** Flags *)

Definition valid (x : buf) : bool := Z.testbit (b_flags x) 1.
Definition dirty (x : buf) : bool := Z.testbit (b_flags x) 2.

Lemma land_pow2 a k : 0 <= k -> Z.land a (2 ^ k) = if Z.testbit a k then 2 ^ k else 0.
Proof.
  intros Hk. apply Z.bits_inj'. intros n Hn. rewrite Z.land_spec, Z.pow2_bits_eqb by done.
  destruct (Z.eqb_spec k n) as [->|Hne].
  - rewrite andb_true_r. destruct (Z.testbit a n); [by rewrite Z.pow2_bits_true|by rewrite Z.bits_0].
  - rewrite andb_false_r. destruct (Z.testbit a k); [by rewrite Z.pow2_bits_false|by rewrite Z.bits_0].
Qed.

Lemma valid_test x : (Z.land (b_flags x) B_VALID =? 0) = negb (valid x).
Proof. unfold valid. rewrite (land_pow2 _ 1) by lia. by destruct (Z.testbit _ _). Qed.
Lemma dirty_test x : (Z.land (b_flags x) B_DIRTY =? 0) = negb (dirty x).
Proof. unfold dirty. rewrite (land_pow2 _ 2) by lia. by destruct (Z.testbit _ _). Qed.

Lemma clean_test x :
  (Z.land (b_flags x) (Z.lor B_VALID B_DIRTY) =? B_VALID) = valid x && negb (dirty x).
Proof.
  rewrite Z.land_lor_distr_r, (land_pow2 _ 1), (land_pow2 _ 2) by lia. unfold valid, dirty.
  by destruct (Z.testbit _ 1), (Z.testbit _ 2).
Qed.

Lemma flags_or_valid f : Z.testbit (Z.lor f B_VALID) 1 = true /\ Z.testbit (Z.lor f B_VALID) 2 = Z.testbit f 2.
Proof. rewrite !Z.lor_spec. split; [by rewrite orb_true_r|by rewrite orb_false_r]. Qed.
Lemma flags_or_dirty f : Z.testbit (Z.lor f B_DIRTY) 1 = Z.testbit f 1 /\ Z.testbit (Z.lor f B_DIRTY) 2 = true.
Proof. rewrite !Z.lor_spec. split; [by rewrite orb_false_r|by rewrite orb_true_r]. Qed.
Lemma flags_clear_dirty f :
  Z.testbit (Z.land f (Z.lnot B_DIRTY)) 1 = Z.testbit f 1 /\
  Z.testbit (Z.land f (Z.lnot B_DIRTY)) 2 = false.
Proof. rewrite !Z.land_spec. split; [by rewrite andb_true_r|by rewrite andb_false_r]. Qed.

(** ** The cache invariant

    [V] is the content of every block as the file system has logged it.  The
    buffers of [L] are lent out (locked by the running process) with the block
    each holds.  An idle valid buffer holds [V]; a buffer that is not dirty
    can be dropped because the disk holds [V] too. *)

Definition in_range (i : Z) : Prop := 0 <= i < NBUF.

Record cache_ok (f : Z -> buf) (d V : Z -> list Z) (L : gmap Z Z) (l : list Z) : Prop := CacheOk {
  co_lru : lru f l;
  co_uniq : forall i j, in_range i -> in_range j -> b_dev (f i) = 1 -> b_dev (f j) = 1 ->
    b_blockno (f i) = b_blockno (f j) -> i = j;
  co_lent : forall i bno, L !! i = Some bno -> in_range i /\ sl_locked (b_lock (f i)) = 1 /\
    b_refcnt (f i) = 1 /\ valid (f i) = true /\ b_dev (f i) = 1 /\ b_blockno (f i) = bno;
  co_idle : forall i, in_range i -> L !! i = None ->
    sl_locked (b_lock (f i)) = 0 /\ b_refcnt (f i) = 0;
  co_clean : forall i, in_range i -> b_dev (f i) = 1 -> dirty (f i) = false ->
    V (b_blockno (f i)) = d (b_blockno (f i));
  co_data : forall i, in_range i -> L !! i = None -> b_dev (f i) = 1 -> valid (f i) = true ->
    b_data (f i) = V (b_blockno (f i));
  co_dirty : forall i, in_range i -> dirty (f i) = true -> valid (f i) = true /\ b_dev (f i) = 1;
  co_miss : forall bno, (forall i, in_range i -> b_dev (f i) = 1 -> b_blockno (f i) <> bno) ->
    V bno = d bno
}.

(** Block [bno] sits in a dirty (pinned) buffer. *)
Definition pinned (f : Z -> buf) (bno : Z) : Prop :=
  exists i, in_range i /\ b_dev (f i) = 1 /\ b_blockno (f i) = bno /\ dirty (f i) = true.

(** Same links: what the LRU list depends on. *)
Definition same_links (x y : buf) : Prop := b_next x = b_next y /\ b_prev x = b_prev y.

Lemma lru_upd f l b x : same_links x (f b) -> lru f l -> lru (fupd f b x) l.
Proof.
  intros [Hn Hp]. apply lru_frame. intros i. rewrite fupd_at. zcases; [by subst|done].
Qed.

(** A buffer goes from idle to lent, for the block it had or for a new one. *)
Lemma cache_lend f d V L l b x bno :
  cache_ok f d V L l -> in_range b -> L !! b = None -> same_links x (f b) ->
  sl_locked (b_lock x) = 1 -> b_refcnt x = 1 -> valid x = true -> b_dev x = 1 ->
  b_blockno x = bno -> (dirty x = false -> V bno = d bno) ->
  (b_dev (f b) = 1 -> b_blockno (f b) <> bno -> dirty (f b) = false) ->
  (forall j, in_range j -> j <> b -> b_dev (f j) = 1 -> b_blockno (f j) <> bno) ->
  cache_ok (fupd f b x) d V (<[b := bno]> L) l.
Proof.
  intros [Hlru Hu Hl Hi Hc Hd Hdi Hm] Hb HLb Hln Hk Hr Hv Hdev Hbno Hcl Hev Hoth.
  split.
  - by apply lru_upd.
  - intros i j Hir Hjr. rewrite !fupd_at. zcases; subst; try done; eauto.
    + intros _ ? E. destruct (Hoth j); auto.
    + intros ? _ E. destruct (Hoth i); auto.
  - intros i n. rewrite lookup_insert, fupd_at. case_decide as E.
    + subst i. rewrite Z.eqb_refl. intros [= <-]. done.
    + intros Hin. zcases; [congruence|]. by apply Hl.
  - intros i Hir. rewrite lookup_insert, fupd_at. case_decide; [done|].
    intros HLi. zcases; [congruence|]. by apply Hi.
  - intros i Hir. rewrite fupd_at. zcases; [|by auto]. intros _ ?. rewrite Hbno. auto.
  - intros i Hir. rewrite lookup_insert, fupd_at. case_decide; [done|].
    intros HLi. zcases; [congruence|]. by apply Hd.
  - intros i Hir. rewrite fupd_at. zcases; [done|]. by apply Hdi.
  - intros n Hn. destruct (Z.eq_dec (b_dev (f b)) 1) as [Ed|Ed];
      [destruct (Z.eq_dec (b_blockno (f b)) n) as [En|En]|].
    + rewrite <- En. apply Hc; try done. apply Hev; [done|]. intros E.
      apply (Hn b Hb); rewrite fupd_eq; congruence.
    + apply Hm. intros i Hir Hdi' E. destruct (Z.eq_dec i b) as [->|Hib]; [done|].
      apply (Hn i Hir); by rewrite fupd_ne.
    + apply Hm. intros i Hir Hdi' E. destruct (Z.eq_dec i b) as [->|Hib]; [done|].
      apply (Hn i Hir); by rewrite fupd_ne.
Qed.

(** A lent buffer gets new contents, flags or a new logged value [v]; the disk
    block may change with it. *)
Lemma cache_lent_upd f d d' V L l b x bno v :
  cache_ok f d V L l -> L !! b = Some bno -> same_links x (f b) ->
  sl_locked (b_lock x) = 1 -> b_refcnt x = 1 -> valid x = true -> b_dev x = 1 ->
  b_blockno x = bno -> (dirty x = false -> v = d' bno) ->
  (forall n, n <> bno -> d' n = d n) ->
  cache_ok (fupd f b x) d' (fupd V bno v) L l.
Proof.
  intros [Hlru Hu Hl Hi Hc Hd Hdi Hm] HLb Hln Hk Hr Hv Hdev Hbno Hcl Hdd.
  pose proof (Hl b bno HLb) as (Hb&_&_&_&Hdb&Hnb).
  assert (Hoth : forall j, in_range j -> j <> b -> b_dev (f j) = 1 -> b_blockno (f j) <> bno).
  { intros j Hj Hjb Hdj E. apply Hjb. apply Hu; congruence || done. }
  split.
  - by apply lru_upd.
  - intros i j Hir Hjr. rewrite !fupd_at. zcases; subst; try done; eauto.
    + intros _ ? E. destruct (Hoth j); auto; congruence.
    + intros ? _ E. destruct (Hoth i); auto; congruence.
  - intros i n HLi. rewrite fupd_at. zcases; [|by apply Hl].
    subst i. rewrite HLb in HLi. injection HLi as <-. done.
  - intros i Hir HLi. rewrite fupd_at. zcases; [congruence|]. by apply Hi.
  - intros i Hir. rewrite (fupd_at f). destruct (Z.eqb_spec i b) as [->|Hib].
    + intros _ ?. rewrite Hbno, fupd_eq. auto.
    + intros Hdi' ?. rewrite fupd_ne by auto. rewrite Hdd by auto. auto.
  - intros i Hir HLi. rewrite (fupd_at f). destruct (Z.eqb_spec i b) as [->|Hib]; [congruence|].
    intros Hdi' ?. rewrite fupd_ne by auto. by apply Hd.
  - intros i Hir. rewrite fupd_at. zcases; [done|]. by apply Hdi.
  - intros n Hn. assert (n <> bno).
    { intros ->. apply (Hn b Hb); by rewrite fupd_eq. }
    rewrite fupd_ne, Hdd by done. apply Hm. intros i Hir Hdi' E.
    destruct (Z.eq_dec i b) as [->|Hib]; [congruence|]. apply (Hn i Hir); by rewrite fupd_ne.
Qed.

(** A lent buffer that holds the logged value goes back to idle. *)
Lemma cache_return f d V L l b x bno :
  cache_ok f d V L l -> L !! b = Some bno -> same_links x (f b) ->
  sl_locked (b_lock x) = 0 -> b_refcnt x = 0 -> b_flags x = b_flags (f b) ->
  b_dev x = 1 -> b_blockno x = bno -> b_data x = V bno ->
  cache_ok (fupd f b x) d V (delete b L) l.
Proof.
  intros [Hlru Hu Hl Hi Hc Hd Hdi Hm] HLb Hln Hk Hr Hf Hdev Hbno Hda.
  pose proof (Hl b bno HLb) as (Hb&_&_&Hvb&Hdb&Hnb).
  assert (valid x = valid (f b) /\ dirty x = dirty (f b)) as [Ev Ed].
  { unfold valid, dirty. by rewrite Hf. }
  split.
  - by apply lru_upd.
  - intros i j Hir Hjr. rewrite !fupd_at. zcases; subst; try done; eauto.
    + intros _ ? E. apply Hu; congruence || done.
    + intros ? _ E. apply Hu; congruence || done.
  - intros i n. rewrite lookup_delete. case_decide as E; [done|]. intros HLi.
    rewrite fupd_ne by congruence. by apply Hl.
  - intros i Hir. rewrite lookup_delete, fupd_at. zcases; [done|].
    case_decide; [congruence|]. by apply Hi.
  - intros i Hir. rewrite fupd_at. zcases; [|by auto]. subst i. intros _ ?.
    rewrite Hbno, <- Hnb. apply Hc; congruence || done.
  - intros i Hir. rewrite lookup_delete, fupd_at. zcases; [congruence|].
    case_decide; [congruence|]. by apply Hd.
  - intros i Hir. rewrite fupd_at. zcases; [|by apply Hdi]. subst i. intros ?.
    rewrite Ev. done.
  - intros n Hn. apply Hm. intros i Hir Hdi' E.
    destruct (Z.eq_dec i b) as [->|Hib].
    + apply (Hn b Hb); rewrite fupd_eq; congruence.
    + apply (Hn i Hir); by rewrite fupd_ne.
Qed.

(** Only the links change. *)
Lemma cache_relink f g d V L l l' :
  cache_ok f d V L l -> lru g l' ->
  (forall i, b_flags (g i) = b_flags (f i) /\ b_dev (g i) = b_dev (f i) /\
    b_blockno (g i) = b_blockno (f i) /\ b_lock (g i) = b_lock (f i) /\
    b_refcnt (g i) = b_refcnt (f i) /\ b_data (g i) = b_data (f i)) ->
  cache_ok g d V L l'.
Proof.
  intros [Hlru Hu Hl Hi Hc Hd Hdi Hm] Hg He.
  assert (Ef : forall i, b_flags (g i) = b_flags (f i)) by apply He.
  assert (Ed : forall i, b_dev (g i) = b_dev (f i)) by apply He.
  assert (Eb : forall i, b_blockno (g i) = b_blockno (f i)) by apply He.
  assert (El : forall i, b_lock (g i) = b_lock (f i)) by apply He.
  assert (Er : forall i, b_refcnt (g i) = b_refcnt (f i)) by apply He.
  assert (Ex : forall i, b_data (g i) = b_data (f i)) by apply He.
  split; [done|..]; unfold valid, dirty in *; intros *; rewrite ?Ef, ?Ed, ?Eb, ?El, ?Er, ?Ex; eauto.
  intros H. apply Hm. intros i Hir Hdi' E. apply (H i Hir); congruence.
Qed.

(** ** What each operation does to the cache *)

(** The buffer [bget] settles on: the cached block, else the least recently
    used buffer that is neither referenced nor dirty. *)
Definition lru_choice (f : Z -> buf) (l : list Z) (dev bno : Z) : option (Z * bool) :=
  match find (fun b => is_block dev bno (f b)) l with
  | Some b => Some (b, true)
  | None => option_map (fun b => (b, false)) (find (fun b => is_unused (f b)) (rev l))
  end.

Lemma bget_lru_run s l dev bno :
  lru (bufs s) l ->
  bget dev bno s =
  match lru_choice (bufs s) l dev bno with
  | Some (b, hit) =>
      (mod_buf b (if hit : bool then fun x => set_refcnt (b_refcnt x + 1) x
                  else set_block dev bno 0 1) ;;
       acquiresleep b ;; ret b) s
  | None => Stop (Panicked "bget: no buffers") s
  end.
Proof.
  intros Hl. pose proof (lru_nodup _ _ Hl) as (_&Hin&Hh). pose proof (lru_length _ _ Hl) as Hlen.
  destruct Hl as [Hl _]. unfold bget. rewrite bind_gets.
  rewrite (scan_next_find _ _ _ _ _ _ Hl) by (try done; rewrite Hlen; unfold scan_fuel, NBUF; lia).
  rewrite (scan_prev_find _ _ _ _ _ _ Hl) by (try done; rewrite Hlen; unfold scan_fuel, NBUF; lia).
  unfold lru_choice. destruct (find _ l) as [b|] eqn:E.
  - apply find_some in E as [Hb%list_elem_of_In _]. destruct (Z.eqb_spec b HEAD); [congruence|done].
  - rewrite Z.eqb_refl. simpl. destruct (find _ (rev l)) as [b|] eqn:E'; [|done].
    apply find_some in E' as [Hb%in_rev%list_elem_of_In _].
    destruct (Z.eqb_spec b HEAD); [congruence|done].
Qed.

(** Everything but the buffers is left alone. *)
Definition same_world (s s' : bstate) : Prop :=
  disksize s' = disksize s /\ curpid s' = curpid s /\ blog s' = blog s.

(** The stop of a process whose block is not cached and that finds every
    buffer lent or pinned. *)
Definition no_room (f : Z -> buf) (L : gmap Z Z) (bno : Z) (e : stop) : Prop :=
  e = Panicked "bget: no buffers" /\
  (forall i, in_range i -> b_dev (f i) = 1 -> b_blockno (f i) <> bno) /\
  forall i, in_range i -> is_Some (L !! i) \/ dirty (f i) = true.

Definition not_lent (L : gmap Z Z) (bno : Z) : Prop := forall b, L !! b <> Some bno.

Lemma is_block_true dev bno x : is_block dev bno x = true <-> b_dev x = dev /\ b_blockno x = bno.
Proof. unfold is_block. rewrite andb_true_iff, !Z.eqb_eq. done. Qed.
Lemma is_unused_true x : is_unused x = true <-> b_refcnt x = 0 /\ dirty x = false.
Proof. unfold is_unused. rewrite andb_true_iff, Z.eqb_eq, dirty_test, negb_true_iff. done. Qed.

(** The idle buffer [b] that [bget] will hand out for [bno]. *)
Record chosen (f : Z -> buf) (d V : Z -> list Z) (L : gmap Z Z) (bno b : Z) (hit : bool) : Prop := Chosen {
  ch_range : in_range b;
  ch_idle : L !! b = None;
  ch_hit : hit = true -> b_dev (f b) = 1 /\ b_blockno (f b) = bno;
  ch_miss : hit = false -> dirty (f b) = false /\ V bno = d bno;
  ch_other : forall j, in_range j -> j <> b -> b_dev (f j) = 1 -> b_blockno (f j) <> bno
}.

Lemma lru_choice_chosen f d V L l bno :
  cache_ok f d V L l -> not_lent L bno ->
  match lru_choice f l 1 bno with
  | Some (b, hit) => chosen f d V L bno b hit
  | None => no_room f L bno (Panicked "bget: no buffers")
  end.
Proof.
  intros Hok Hn. destruct (lru_nodup _ _ (co_lru _ _ _ _ _ Hok)) as (_&Hin&_).
  unfold lru_choice. destruct (find _ l) as [b|] eqn:E.
  - apply find_some in E as [Hb%list_elem_of_In [Hd Hbn]%is_block_true]. apply Hin in Hb.
    assert (L !! b = None) as Hi.
    { destruct (L !! b) as [n|] eqn:Eb; [|done]. destruct (Hn b).
      destruct (co_lent _ _ _ _ _ Hok b n Eb) as (_&_&_&_&_&<-). by rewrite Eb, Hbn. }
    split; try done. intros j Hj Hjb Hdj Ej. apply Hjb. apply (co_uniq _ _ _ _ _ Hok); congruence || done.
  - assert (Hmiss : forall i, in_range i -> b_dev (f i) = 1 -> b_blockno (f i) <> bno).
    { intros i Hi Hd Hb. apply Hin, list_elem_of_In in Hi. pose proof (find_none _ _ E i Hi) as Hf.
      simpl in Hf. rewrite (proj2 (is_block_true 1 bno (f i))) in Hf; done. }
    destruct (find _ (rev l)) as [b|] eqn:E'; simpl.
    + apply find_some in E' as [Hb%in_rev%list_elem_of_In [Hr Hd]%is_unused_true]. apply Hin in Hb.
      split; auto; try done.
      * destruct (L !! b) as [n|] eqn:Eb; [|done].
        destruct (co_lent _ _ _ _ _ Hok b n Eb) as (_&_&?&_). lia.
      * intros _. split; [done|]. by apply (co_miss _ _ _ _ _ Hok).
    + split; [done|]. split; [done|]. intros i Hi. destruct (L !! i) eqn:Ei; [left; eauto|right].
      destruct (dirty (f i)) eqn:Ed; [done|exfalso].
      assert (In i (rev l)) as Hir by (apply in_rev; rewrite rev_involutive; by apply list_elem_of_In, Hin).
      pose proof (find_none _ _ E' i Hir) as Hf. simpl in Hf.
      rewrite (proj2 (is_unused_true (f i))) in Hf; [done|]. split; [|done].
      by apply (co_idle _ _ _ _ _ Hok).
Qed.

Lemma set_bufs_set_bufs f g s : set_bufs f (set_bufs g s) = set_bufs f s.
Proof. done. Qed.

Lemma mod_buf_run b g s :
  mod_buf b g s = Ret tt (set_bufs (fupd (bufs s) b (g (bufs s b))) s).
Proof. done. Qed.

(** Two writes to one buffer are one. *)
Lemma bind_mod_buf {B} b g (k : unit -> M bstate B) s :
  bind (mod_buf b g) k s = k tt (set_bufs (fupd (bufs s) b (g (bufs s b))) s).
Proof. done. Qed.
Lemma bind_get_buf {B} b (k : buf -> M bstate B) s : bind (get_buf b) k s = k (bufs s b) s.
Proof. done. Qed.

(** The array written at [b], as one update of the original. *)
Definition buf_is (s0 s : bstate) (b : Z) (x : buf) : Prop :=
  s = set_bufs (bufs s) s0 /\ bufs s b = x /\ forall i, i <> b -> bufs s i = bufs s0 i.

Lemma buf_is_mod s0 s b x g :
  buf_is s0 s b x -> buf_is s0 (set_bufs (fupd (bufs s) b (g (bufs s b))) s) b (g x).
Proof.
  intros (E&<-&Ho). split; [by rewrite E|]. simpl. split; [apply fupd_eq|].
  intros i Hi. rewrite fupd_ne by done. auto.
Qed.
Lemma buf_is_refl s b : buf_is s s b (bufs s b).
Proof. split; [by destruct s|done]. Qed.

(** The invariant looks at buffers pointwise. *)
Lemma cache_ok_ext f g d V L l : (forall i, g i = f i) -> cache_ok f d V L l -> cache_ok g d V L l.
Proof.
  intros E H. eapply (cache_relink f); [exact H| |].
  - eapply lru_frame; [|apply (co_lru _ _ _ _ _ H)]. intros i. by rewrite E.
  - intros i. by rewrite E.
Qed.

Lemma buf_is_cache s0 s b x d V L l :
  buf_is s0 s b x -> cache_ok (fupd (bufs s0) b x) d V L l -> cache_ok (bufs s) d V L l.
Proof.
  intros (_&E&Ho). apply cache_ok_ext. intros i. rewrite fupd_at.
  destruct (Z.eqb_spec i b) as [->|]; auto.
Qed.

Lemma acquiresleep_free b s s0 x :
  buf_is s0 s b x -> sl_locked (b_lock x) = 0 ->
  exists s', acquiresleep b s = Ret tt s' /\ buf_is s0 s' b (set_lock (Sleeplock 1 (curpid s0)) x).
Proof.
  intros Hb Hl. unfold acquiresleep. rewrite bind_get_buf.
  rewrite (proj1 (proj2 Hb)), Hl. simpl. rewrite bind_gets, mod_buf_run.
  eexists. split; [done|]. pose proof (proj1 Hb) as E.
  replace (curpid s) with (curpid s0) by (by rewrite E). by apply buf_is_mod.
Qed.

Lemma iderw_reads b s s0 x :
  buf_is s0 s b x -> sl_locked (b_lock x) = 1 -> valid x = false -> dirty x = false ->
  b_dev x = 1 -> b_blockno x < disksize s0 ->
  exists s' f, iderw b s = Ret tt s' /\ Z.testbit f 1 = true /\ Z.testbit f 2 = false /\
    buf_is s0 s' b (set_flags f (set_data (disk s0 (b_blockno x)) x)).
Proof.
  intros Hb Hl Hv Hd Hdev Hr. unfold iderw, holdingsleep. mred. rewrite bind_get_buf. mred.
  rewrite (proj1 (proj2 Hb)), Hl. simpl. rewrite bind_get_buf, (proj1 (proj2 Hb)), clean_test, Hv, Hdev.
  simpl. rewrite bind_gets. pose proof (proj1 Hb) as E.
  replace (disksize s) with (disksize s0) by (by rewrite E).
  destruct (Z.leb_spec (disksize s0) (b_blockno x)); [lia|].
  rewrite dirty_test, Hd. simpl. mred. rewrite bind_mod_buf, bind_get_buf, mod_buf_run. 
  eexists _, (Z.lor (b_flags x) B_VALID). split; [done|].
  destruct (flags_or_valid (b_flags x)) as [F1 F2]. split; [exact F1|]. split; [etransitivity; [exact F2|exact Hd]|].
  replace (disk s0) with (disk s) by (by rewrite E).
  set (d := disk s (b_blockno x)). apply (buf_is_mod _ _ _ _ (set_data d)) in Hb.
  set (s1 := set_bufs _ s) in *.
  assert (b_flags (bufs s1 b) = b_flags x) as -> by (by rewrite (proj1 (proj2 Hb))).
  apply (buf_is_mod _ _ _ _ (set_flags (Z.lor (b_flags x) B_VALID)) Hb).
Qed.

(** What [bread] promises: the logged contents, in a buffer that is now lent. *)
Record bread_post (s : bstate) V L l (bno b : Z) (s' : bstate) : Prop := BreadPost {
  bp_range : in_range b;
  bp_idle : L !! b = None;
  bp_cache : cache_ok (bufs s') (disk s') V (<[b := bno]> L) l;
  bp_data : b_data (bufs s' b) = V bno;
  bp_frame : s' = set_bufs (bufs s') s;
  bp_other : forall i, i <> b -> bufs s' i = bufs s i;
  bp_pin : dirty (bufs s' b) = dirty (bufs s b);
  bp_keep : dirty (bufs s b) = true -> b_blockno (bufs s b) = bno
}.

Lemma bread_finish s s' V L l bno b hit y :
  cache_ok (bufs s) (disk s) V L l -> chosen (bufs s) (disk s) V L bno b hit ->
  buf_is s s' b y -> same_links y (bufs s b) -> sl_locked (b_lock y) = 1 -> b_refcnt y = 1 ->
  valid y = true -> b_dev y = 1 -> b_blockno y = bno -> b_data y = V bno ->
  dirty y = dirty (bufs s b) -> bread_post s V L l bno b s'.
Proof.
  intros Hok [Hb Hi Hh Hm Ho] Hbi Hln Hk Hrc Hv Hdev Hbn Hda Hdi.
  split; try done.
  - apply (buf_is_cache _ _ _ _ _ _ _ _ Hbi). rewrite (proj1 Hbi).
    apply cache_lend; try done.
    + rewrite Hdi. intros Hd. destruct hit; [|by apply Hm].
      destruct Hh as [Hbd <-]; [done|]. by apply (co_clean _ _ _ _ _ Hok).
    + intros Hd Hne. destruct hit; [by destruct Hh|by apply Hm].
  - by rewrite (proj1 (proj2 Hbi)).
  - apply Hbi.
  - apply Hbi.
  - by rewrite (proj1 (proj2 Hbi)).
  - intros Hd. destruct hit; [by apply Hh|]. destruct Hm as [? _]; [done|congruence].
Qed.

Lemma bread_ok s V L l bno :
  cache_ok (bufs s) (disk s) V L l -> not_lent L bno -> bno < disksize s ->
  safe (no_room (bufs s) L bno) (bread 1 bno) s (bread_post s V L l bno).
Proof.
  intros Hok Hn Hr. pose proof (lru_choice_chosen _ _ _ _ _ _ Hok Hn) as Hch.
  unfold bread. unfold safe at 1, bind at 1.
  rewrite (bget_lru_run s l) by apply (co_lru _ _ _ _ _ Hok).
  destruct (lru_choice _ _ _ _) as [[b hit]|]; [|exact Hch].
  destruct Hch as [Hb Hi Hh Hm Ho]. destruct (co_idle _ _ _ _ _ Hok b Hb Hi) as [Hk Hrc].
  rewrite bind_mod_buf.
  set (g := if hit then _ else _).
  pose proof (buf_is_mod _ _ _ _ g (buf_is_refl s b)) as Hbi.
  set (x := g (bufs s b)) in *.
  assert (b_refcnt x = 1 /\ b_dev x = 1 /\ b_blockno x = bno /\ b_lock x = b_lock (bufs s b) /\
    same_links x (bufs s b) /\ (hit = true -> x = set_refcnt 1 (bufs s b)) /\
    (hit = false -> b_flags x = 0)) as (X1&X2&X3&X4&X5&X6&X7).
  { subst x g. unfold same_links. destruct hit; simpl; [destruct Hh as [-> ->]; [done|]|];
      rewrite ?Hrc; done. }
  destruct (acquiresleep_free b _ s x Hbi) as (s1&E1&Hb1); [by rewrite X4|].
  erewrite bind_run by exact E1. unfold ret. rewrite bind_get_buf.
  set (y := set_lock _ x) in *. rewrite (proj1 (proj2 Hb1)), valid_test.
  destruct (valid y) eqn:Hv.
  - destruct hit; [|by change (Z.testbit (b_flags x) 1 = true) in Hv; rewrite X7 in Hv].
    eapply (bread_finish s s1 _ _ _ _ _ true y); try done. change (b_data x = V bno). rewrite X6 by done. simpl.
    destruct Hh as [Hd <-]; [done|]. apply (co_data _ _ _ _ _ Hok); try done.
  - assert (dirty y = false /\ dirty (bufs s b) = false /\ V bno = disk s bno) as (Hd&Hd0&HV).
    { change (Z.testbit (b_flags x) 1 = false) in Hv. change (dirty y) with (Z.testbit (b_flags x) 2).
      destruct hit; [|rewrite X7 by done; destruct Hm; done].
      rewrite X6 in * by done. simpl in Hv |- *. destruct (dirty (bufs s b)) eqn:Ed.
      - destruct (co_dirty _ _ _ _ _ Hok b Hb Ed). unfold valid in *. congruence.
      - split; [done|]. split; [done|]. destruct Hh as [Hdv <-]; [done|].
        by apply (co_clean _ _ _ _ _ Hok). }
    destruct (iderw_reads b s1 s y Hb1) as (s2&fl&E2&F1&F2&Hb2); try done; [by change (b_blockno x < disksize s); rewrite X3|].
    simpl. erewrite bind_run by exact E2.
    eapply (bread_finish s s2 _ _ _ _ _ hit); try done.
    + change (disk s (b_blockno x) = V bno). by rewrite X3.
    + unfold dirty in *. simpl. congruence.
Qed.

Lemma bread_total s V L l bno i :
  cache_ok (bufs s) (disk s) V L l -> not_lent L bno -> bno < disksize s ->
  in_range i -> L !! i = None /\ dirty (bufs s i) = false \/
    b_dev (bufs s i) = 1 /\ b_blockno (bufs s i) = bno ->
  exists b s', bread 1 bno s = Ret b s' /\ bread_post s V L l bno b s'.
Proof.
  intros Hok Hn Hr Hi Hc. pose proof (bread_ok s V L l bno Hok Hn Hr) as H. unfold safe in H.
  destruct (bread 1 bno s) as [b s'|e s']; [by eauto|exfalso].
  destruct H as (_&Hm&H). destruct Hc as [[? ?]|[? ?]]; [|by eapply Hm].
  destruct (H i Hi) as [[? Hs]|?]; congruence.
Qed.

(** A lent buffer written in place: [V] follows when the buffer is clean
    on [d'] or pinned. *)
Lemma buf_is_lent s s' V L l b x bno v d' :
  cache_ok (bufs s) (disk s) V L l -> L !! b = Some bno -> buf_is s s' b x ->
  b_lock x = b_lock (bufs s b) -> b_refcnt x = b_refcnt (bufs s b) ->
  b_dev x = b_dev (bufs s b) -> b_blockno x = b_blockno (bufs s b) ->
  same_links x (bufs s b) -> valid x = true -> (dirty x = false -> v = d' bno) ->
  (forall n, n <> bno -> d' n = disk s n) ->
  cache_ok (bufs s') d' (fupd V bno v) L l.
Proof.
  intros Hok Hlb Hbi Elk Erc Edev Ebn Hln Hv Hcl Hdd.
  destruct (co_lent _ _ _ _ _ Hok b bno Hlb) as (_&?&?&_&?&?).
  apply (buf_is_cache _ _ _ _ _ _ _ _ Hbi).
  eapply cache_lent_upd; try done; congruence.
Qed.

Lemma fupd_same_at {A} (f : Z -> A) i j : fupd f i (f i) j = f j.
Proof. rewrite fupd_at. destruct (Z.eqb_spec j i) as [->|]; done. Qed.

Lemma cache_ok_V f d V V' L l : (forall n, V' n = V n) -> cache_ok f d V L l -> cache_ok f d V' L l.
Proof.
  intros E [? ? ? ? ? ? ? ?]. split; try done; intros *; rewrite E; auto.
Qed.

(** Writing the data of a lent buffer does not touch the logged contents. *)
Lemma bset_ok s V L l b bno d :
  cache_ok (bufs s) (disk s) V L l -> L !! b = Some bno ->
  exists s', bset b d s = Ret tt s' /\ cache_ok (bufs s') (disk s') V L l /\
    buf_is s s' b (set_data d (bufs s b)).
Proof.
  intros Hok Hlb. eexists. split; [done|].
  pose proof (buf_is_mod _ _ _ _ (set_data d) (buf_is_refl s b)) as Hbi.
  split; [|exact Hbi]. destruct (co_lent _ _ _ _ _ Hok b bno Hlb) as (Hb&?&?&?&?&<-).
  apply (cache_ok_V _ _ (fupd V (b_blockno (bufs s b)) (V (b_blockno (bufs s b))))).
  - intros n. by rewrite fupd_same_at.
  - eapply buf_is_lent; try done. simpl. intros Hd. by apply (co_clean _ _ _ _ _ Hok).
Qed.

(** Pinning: [b->flags |= B_DIRTY] makes the buffer's data the logged contents. *)
Lemma pin_ok s V L l b bno :
  cache_ok (bufs s) (disk s) V L l -> L !! b = Some bno ->
  exists s', mod_buf b (fun x => set_flags (Z.lor (b_flags x) B_DIRTY) x) s = Ret tt s' /\
    cache_ok (bufs s') (disk s') (fupd V bno (b_data (bufs s b))) L l /\
    buf_is s s' b (set_flags (Z.lor (b_flags (bufs s b)) B_DIRTY) (bufs s b)).
Proof.
  intros Hok Hlb. eexists. split; [done|].
  pose proof (buf_is_mod _ _ _ _ (fun x => set_flags (Z.lor (b_flags x) B_DIRTY) x) (buf_is_refl s b)) as Hbi.
  split; [|exact Hbi]. destruct (co_lent _ _ _ _ _ Hok b bno Hlb) as (Hb&?&?&Hv&?&<-).
  destruct (flags_or_dirty (b_flags (bufs s b))) as [F1 F2].
  eapply buf_is_lent; try done; unfold valid, dirty in *; simpl in *; congruence.
Qed.

Lemma iderw_writes b s s0 x :
  buf_is s0 s b x -> sl_locked (b_lock x) = 1 -> valid x = true -> dirty x = true ->
  b_dev x = 1 -> b_blockno x < disksize s0 ->
  exists s' f, iderw b s = Ret tt s' /\ Z.testbit f 1 = true /\ Z.testbit f 2 = false /\
    s' = BState (bufs s') (fupd (disk s0) (b_blockno x) (b_data x)) (disksize s0)
           (wtrace s0 ++ [(b_blockno x, b_data x)]) (curpid s0) (blog s0) /\
    bufs s' b = set_flags f x /\ forall i, i <> b -> bufs s' i = bufs s0 i.
Proof.
  intros Hb Hl Hv Hd Hdev Hr. pose proof Hb as (E&Ex&Ho).
  unfold iderw, holdingsleep. mred. rewrite bind_get_buf. mred.
  rewrite Ex, Hl. simpl. rewrite bind_get_buf, Ex, clean_test, Hv, Hd, Hdev.
  simpl. rewrite bind_gets. replace (disksize s) with (disksize s0) by (by rewrite E).
  destruct (Z.leb_spec (disksize s0) (b_blockno x)); [lia|].
  rewrite dirty_test, Hd. simpl. mred. rewrite bind_mod_buf. unfold disk_write.
  rewrite bind_modify, bind_get_buf, mod_buf_run. simpl. rewrite !fupd_eq. simpl.
  eexists _, _. split; [done|]. rewrite Ex.
  destruct (flags_clear_dirty (b_flags x)) as [C1 C2].
  destruct (flags_or_valid (Z.land (b_flags x) (Z.lnot B_DIRTY))) as [F1 F2].
  split; [exact F1|]. split; [by etransitivity|].
  split; [by rewrite E|]. simpl. split; [by rewrite fupd_eq|].
  intros i Hi. rewrite !fupd_ne by done. auto.
Qed.

(** [bwrite] puts the lent buffer on the disk. *)
Lemma bwrite_ok s V L l b bno :
  cache_ok (bufs s) (disk s) V L l -> L !! b = Some bno -> bno < disksize s ->
  let d := b_data (bufs s b) in
  exists s', bwrite b s = Ret tt s' /\
    cache_ok (bufs s') (disk s') (fupd V bno d) L l /\
    s' = BState (bufs s') (fupd (disk s) bno d) (disksize s)
           (wtrace s ++ [(bno, d)]) (curpid s) (blog s) /\
    b_data (bufs s' b) = d /\ dirty (bufs s' b) = false /\
    forall i, i <> b -> bufs s' i = bufs s i.
Proof.
  intros Hok Hlb Hr d. destruct (co_lent _ _ _ _ _ Hok b bno Hlb) as (Hb&Hk&Hrc&Hv&Hdv&Hbn).
  unfold bwrite, holdingsleep. mred. rewrite bind_get_buf. mred. rewrite Hk. simpl.
  rewrite bind_mod_buf. destruct (flags_or_dirty (b_flags (bufs s b))) as [F1 F2].
  pose proof (buf_is_mod _ _ _ _ (fun x => set_flags (Z.lor (b_flags x) B_DIRTY) x) (buf_is_refl s b)) as Hbi.
  destruct (iderw_writes b _ s _ Hbi) as (s'&fl&E&G1&G2&Es&Eb&Eo); simpl; try done.
  { unfold valid in *. simpl. congruence. }
  { by rewrite Hbn. }
  exists s'. rewrite E. split; [done|]. simpl in *. rewrite Hbn in *. fold d in Es, Eb.
  split; [|split; [done|rewrite Eb; done]].
  assert (disk s' = fupd (disk s) bno d) as -> by (by rewrite Es).
  eapply (cache_ok_ext (fupd (bufs s) b (bufs s' b))).
  { intros i. rewrite fupd_at. destruct (Z.eqb_spec i b) as [->|]; auto. }
  eapply cache_lent_upd; try done; rewrite ?Eb; try done.
  - intros _. by rewrite fupd_eq.
  - intros n Hn. by rewrite fupd_ne.
Qed.

(** The fields other than the links. *)
Definition same_but_links (x y : buf) : Prop :=
  b_flags x = b_flags y /\ b_dev x = b_dev y /\ b_blockno x = b_blockno y /\
  b_lock x = b_lock y /\ b_refcnt x = b_refcnt y /\ b_data x = b_data y.

Lemma same_but_links_refl x : same_but_links x x.
Proof. done. Qed.

Lemma same_but_links_mod b g f i :
  (forall x, same_but_links (g x) x) -> same_but_links (upd_buf b g f i) (f i).
Proof. intros Hg. rewrite upd_buf_at. destruct (Z.eqb_spec i b) as [->|]; [apply Hg|done]. Qed.

Lemma same_but_links_trans x y z : same_but_links x y -> same_but_links y z -> same_but_links x z.
Proof. unfold same_but_links. intuition congruence. Qed.

Lemma relinked b f i : same_but_links (inserted b (unlinked b f) i) (f i).
Proof.
  unfold inserted, unlinked.
  repeat (eapply same_but_links_trans; [apply same_but_links_mod; done|]). done.
Qed.

(** Moves the element [b] of [l] to its front. *)
Definition to_front (b : Z) (l : list Z) : list Z := b :: filter (fun x => x <> b) l.

Lemma filter_absent (b : Z) (l : list Z) : (b ∉ l) -> filter (fun x => x <> b) l = l.
Proof.
  induction l as [|x l IH]; intros Hb; [done|]. apply not_elem_of_cons in Hb as [Hx Hb].
  rewrite filter_cons_True by done. by rewrite IH.
Qed.

Lemma to_front_split b l1 l2 :
  NoDup (l1 ++ b :: l2) -> to_front b (l1 ++ b :: l2) = b :: l1 ++ l2.
Proof.
  intros (_&Hd&[Hb _]%NoDup_cons)%NoDup_app. unfold to_front. f_equal.
  rewrite filter_app, filter_cons_False by auto. rewrite !filter_absent; set_solver.
Qed.

(** [brelse] gives the buffer back and makes it the most recently used. *)
Lemma brelse_ok s V L l b bno :
  cache_ok (bufs s) (disk s) V L l -> L !! b = Some bno -> b_data (bufs s b) = V bno ->
  exists s', brelse b s = Ret tt s' /\
    cache_ok (bufs s') (disk s') V (delete b L) (to_front b l) /\
    s' = set_bufs (bufs s') s /\
    forall i, b_flags (bufs s' i) = b_flags (bufs s i) /\ b_dev (bufs s' i) = b_dev (bufs s i) /\
      b_blockno (bufs s' i) = b_blockno (bufs s i) /\ b_data (bufs s' i) = b_data (bufs s i).
Proof.
  intros Hok Hlb Hda. destruct (co_lent _ _ _ _ _ Hok b bno Hlb) as (Hb&Hk&Hrc&Hv&Hdv&Hbn).
  unfold brelse, holdingsleep, releasesleep. mred. rewrite bind_get_buf. mred. rewrite Hk. simpl.
  rewrite bind_mod_buf. simpl. rewrite bind_mod_buf. simpl. rewrite bind_get_buf. simpl.
  set (f2 := fupd (fupd _ _ _) _ _).
  assert (Hf2 : forall i, f2 i = if i =? b then set_refcnt 0 (set_lock (Sleeplock 0 0) (bufs s b)) else bufs s i).
  { intros i. unfold f2. rewrite !fupd_eq, fupd_at. destruct (Z.eqb_spec i b) as [->|].
    - simpl. by rewrite Hrc.
    - by rewrite fupd_ne. }
  assert (Hok2 : cache_ok f2 (disk s) V (delete b L) l).
  { eapply cache_ok_ext; [|eapply (cache_return _ _ _ _ _ b _ bno Hok)]; [intros i; apply Hf2|done..]. }
  rewrite Hf2, Z.eqb_refl. simpl. rewrite move_to_front_run. eexists. split; [done|]. simpl.
  destruct (lru_nodup _ _ (co_lru _ _ _ _ _ Hok)) as (Hnd&Hin&_).
  destruct (move_to_front_lru f2 l b) as (l1&l2&->&Hlru); [apply (co_lru _ _ _ _ _ Hok2)|by apply Hin|].
  split; [|split; [done|]].
  - eapply cache_relink; [exact Hok2| |intros i; apply relinked]. by rewrite to_front_split.
  - intros i. destruct (relinked b f2 i) as (->&->&->&_&_&->). rewrite Hf2.
    destruct (Z.eqb_spec i b) as [->|]; done.
Qed.

(** *** Initialisation *)

(** The buffers as the loader leaves them: bss, all zero. *)
Definition bss_buf : buf := Buf 0 0 0 (Sleeplock 0 0) 0 0 0 [].

(** After the first buffers of [binit]'s loop are linked, in reverse. *)
Definition binit_inv (s0 : bstate) (done_ : list Z) (s : bstate) : Prop :=
  linked (bufs s) HEAD (rev done_) HEAD /\ s = set_bufs (bufs s) s0 /\
  forall i, same_but_links (bufs s i) (bufs s0 i).

Lemma upd_buf_ext b g f f' : (forall y, f y = f' y) -> forall y, upd_buf b g f y = upd_buf b g f' y.
Proof. intros E y. rewrite !upd_buf_at, !E. done. Qed.

Lemma set_lock_id x : set_lock (b_lock x) x = x.
Proof. by destruct x. Qed.

Lemma inserted_but_links b f i : same_but_links (inserted b f i) (f i).
Proof.
  unfold inserted. repeat (eapply same_but_links_trans; [apply same_but_links_mod; done|]). done.
Qed.

Lemma binit_one_run b s :
  b_lock (bufs s b) = initsleeplock ->
  exists f, binit_one b s = Ret tt (set_bufs f s) /\ forall y, f y = inserted b (bufs s) y.
Proof.
  intros Hlk. eexists. split; [done|]. intros y. simpl. unfold inserted.
  set (h := upd_buf b (set_prev HEAD) _).
  assert (Hh : forall y, upd_buf b (set_lock initsleeplock) h y = h y).
  { intros z. rewrite upd_buf_at. destruct (Z.eqb_spec z b) as [->|]; [|done].
    rewrite <- (set_lock_id (h b)) at 2. f_equal. unfold h. by rewrite !upd_buf_eq. }
  rewrite Hh. by do 2 apply upd_buf_ext.
Qed.

Lemma binit_one_ok s0 done_ b s :
  binit_inv s0 done_ s -> NoDup (b :: done_) -> (HEAD ∉ b :: done_) ->
  b_lock (bufs s0 b) = initsleeplock ->
  exists s', binit_one b s = Ret tt s' /\ binit_inv s0 (done_ ++ [b]) s'.
Proof.
  intros (Hl&Hs&Hf) [Hb Hnd]%NoDup_cons [Hhb Hh]%not_elem_of_cons Hlk.
  destruct (binit_one_run b s) as (f&E&Ef).
  { destruct (Hf b) as (_&_&_&->&_). done. }
  exists (set_bufs f s). split; [done|]. split; [|split; [by rewrite Hs|]]; simpl.
  - rewrite rev_app_distr. cbn [rev app].
    eapply (linked_frame (inserted b (bufs s))); [by intros y _; rewrite Ef..|].
    assert (forall x, x ∈ rev done_ <-> x ∈ done_) as Hr.
    { intros x. by rewrite <- Permutation_rev. }
    apply insert_linked; try done.
    + apply NoDup_cons. rewrite Hr. split; [done|]. by rewrite <- Permutation_rev.
    + by rewrite Hr.
  - intros i. rewrite Ef. eapply same_but_links_trans; [apply inserted_but_links|apply Hf].
Qed.

Lemma binit_loop s0 todo done_ s :
  binit_inv s0 done_ s -> NoDup (done_ ++ todo) -> (HEAD ∉ done_ ++ todo) ->
  (forall b, b ∈ todo -> b_lock (bufs s0 b) = initsleeplock) ->
  exists s', mfor todo binit_one s = Ret tt s' /\ binit_inv s0 (done_ ++ todo) s'.
Proof.
  revert done_ s. induction todo as [|b todo IH]; intros done_ s Hi Hnd Hh Hlk; simpl.
  - rewrite app_nil_r. eauto.
  - replace (done_ ++ b :: todo) with ((done_ ++ [b]) ++ todo) in * by by rewrite <- app_assoc.
    destruct (binit_one_ok s0 done_ b s Hi) as (s1&E&Hi1).
    + apply NoDup_app in Hnd as (Hnd&_). by rewrite Permutation_app_comm in Hnd.
    + set_solver.
    + apply Hlk. left.
    + erewrite bind_run by exact E. apply IH; try done. intros x Hx. apply Hlk. by right.
Qed.

Lemma binit_ok s :
  (forall i, in_range i -> same_but_links (bufs s i) bss_buf) ->
  exists s', binit s = Ret tt s' /\ s' = set_bufs (bufs s') s /\
    cache_ok (bufs s') (disk s') (disk s') ∅ (rev (seqZ 0 NBUF)) /\
    forall i, in_range i -> same_but_links (bufs s' i) bss_buf.
Proof.
  intros Hz. unfold binit. rewrite !bind_mod_buf.
  set (s1 := set_bufs _ _).
  assert (Hi : binit_inv s1 [] s1).
  { split; [|split; [by destruct s1|done]]. subst s1. split; reflexivity. }
  assert (Hne : forall i, in_range i -> i <> HEAD) by (unfold in_range, HEAD; lia).
  assert (Hz1 : forall i, in_range i -> same_but_links (bufs s1 i) bss_buf).
  { intros i Hir. subst s1. simpl. rewrite !fupd_ne by auto. by apply Hz. }
  destruct (binit_loop s1 (seqZ 0 NBUF) [] s1 Hi) as (s'&E&(Hl&Es&Hf)).
  { simpl. apply NoDup_seqZ. }
  { simpl. rewrite elem_of_seqZ. unfold HEAD. lia. }
  { intros b [Hb Hb']%elem_of_seqZ. destruct (Hz1 b) as (_&_&_&->&_); [split; lia|done]. }
  exists s'. rewrite E. split; [done|]. split; [by rewrite Es|].
  assert (Hz2 : forall i, in_range i -> same_but_links (bufs s' i) bss_buf).
  { intros i Hir. eapply same_but_links_trans; [apply Hf|by apply Hz1]. }
  split; [split|exact Hz2].
  - split; [exact Hl|]. symmetry. apply Permutation_rev.
  - intros i j Hir _ Hd. destruct (Hz2 i Hir) as (_&E2&_). rewrite E2 in Hd. discriminate Hd.
  - intros i bno H. by rewrite lookup_empty in H.
  - intros i Hir _. destruct (Hz2 i Hir) as (_&_&_&->&->&_). split; reflexivity.
  - reflexivity.
  - intros i Hir _ Hd. destruct (Hz2 i Hir) as (_&E2&_). rewrite E2 in Hd. discriminate Hd.
  - intros i Hir Hd. unfold dirty in Hd. destruct (Hz2 i Hir) as (E2&_). rewrite E2 in Hd. discriminate Hd.
  - reflexivity.
Qed.

(** ** Properties *)

(** [binit] turns the zeroed buffer array into an empty, coherent cache
    whose LRU list is the array in reverse, without touching the disk. *)
Theorem binit_empty_cache s (Hz : forall i, in_range i -> same_but_links (bufs s i) bss_buf) :
  exists s', binit s = Ret tt s' /\ s' = set_bufs (bufs s') s /\
    cache_ok (bufs s') (disk s') (disk s') ∅ (rev (seqZ 0 NBUF)).
Proof. destruct (binit_ok s Hz) as (s'&?&?&?&_). exists s'. split_and!; assumption. Qed.

(** C7. Cache coherence: for any assignment [V] of logged contents that the
    cache represents, [bread] of a block nobody holds returns a locked buffer
    with exactly [V]'s contents and keeps the cache coherent, writing nothing
    to the disk; it stops only when the block
    is not cached and every buffer is held or pinned dirty. *)
Theorem bread_coherent s V L l bno
  (Hok : cache_ok (bufs s) (disk s) V L l) (Hn : not_lent L bno) (Hr : bno < disksize s) :
  safe (no_room (bufs s) L bno) (bread 1 bno) s (fun b s' =>
    L !! b = None /\ b_data (bufs s' b) = V bno /\
    cache_ok (bufs s') (disk s') V (<[b := bno]> L) l /\
    disk s' = disk s /\ wtrace s' = wtrace s /\ same_world s s' /\
    forall i, i <> b -> bufs s' i = bufs s i).
Proof.
  eapply safe_conseq; [by apply bread_ok|]. intros b s' [? ? ? ? E ? ? ?].
  split_and!; try done; by rewrite E.
Qed.

(** The replacement policy of [bget]: on a well-formed LRU list it takes
    the buffer that caches the block, else the least recently used buffer that
    is unreferenced and clean, else panics; no other outcome, and the list
    loops end. *)
Theorem bget_replacement s l dev bno (Hl : lru (bufs s) l) :
  bget dev bno s =
  match lru_choice (bufs s) l dev bno with
  | Some (b, hit) =>
      (mod_buf b (if hit : bool then fun x => set_refcnt (b_refcnt x + 1) x
                  else set_block dev bno 0 1) ;;
       acquiresleep b ;; ret b) s
  | None => Stop (Panicked "bget: no buffers") s
  end.
Proof. by apply bget_lru_run. Qed.

(** [brelse] of a held buffer unlocks it, drops the reference and makes it
    the head of the LRU list; every buffer keeps its block, flags and data. *)
Theorem brelse_moves_to_front s V L l b bno
  (Hok : cache_ok (bufs s) (disk s) V L l) (Hb : L !! b = Some bno)
  (Hd : b_data (bufs s b) = V bno) :
  exists s', brelse b s = Ret tt s' /\
    cache_ok (bufs s') (disk s') V (delete b L) (to_front b l) /\
    s' = set_bufs (bufs s') s /\
    forall i, b_flags (bufs s' i) = b_flags (bufs s i) /\ b_dev (bufs s' i) = b_dev (bufs s i) /\
      b_blockno (bufs s' i) = b_blockno (bufs s i) /\ b_data (bufs s' i) = b_data (bufs s i).
Proof. by apply (brelse_ok s V L l b bno). Qed.

(** A machine with 64 blocks, block [n] filled with [n]. *)
Definition demo_disk : Z -> list Z := fun n => replicate 512 n.
Definition demo : bstate :=
  BState (fun _ => bss_buf) demo_disk 64 [] 7 (Log 0 0 0 0 0 (LogHdr 0 [])).

Lemma demo_zero i : in_range i -> same_but_links (bufs demo i) bss_buf.
Proof. done. Qed.

Lemma binit_empty_cache_witness :
  exists s', binit demo = Ret tt s' /\ s' = set_bufs (bufs s') demo /\
    cache_ok (bufs s') (disk s') (disk s') ∅ (rev (seqZ 0 NBUF)).
Proof. apply (binit_empty_cache demo). exact demo_zero. Defined.

Lemma bread_coherent_witness :
  exists s, binit demo = Ret tt s /\
  safe (no_room (bufs s) ∅ 9) (bread 1 9) s (fun b s' =>
    (∅ : gmap Z Z) !! b = None /\ b_data (bufs s' b) = disk s 9 /\
    cache_ok (bufs s') (disk s') (disk s) (<[b := 9]> ∅) (rev (seqZ 0 NBUF)) /\
    disk s' = disk s /\ wtrace s' = wtrace s /\ same_world s s' /\
    forall i, i <> b -> bufs s' i = bufs s i).
Proof.
  destruct (binit_ok demo demo_zero) as (s&E&Es&Hok&_). exists s. split; [exact E|].
  apply (bread_coherent s (disk s) ∅ (rev (seqZ 0 NBUF)) 9); [exact Hok| |rewrite Es; reflexivity].
  intros b. rewrite lookup_empty. discriminate.
Defined.

Lemma bget_replacement_witness :
  exists s, binit demo = Ret tt s /\ bget 1 9 s =
  match lru_choice (bufs s) (rev (seqZ 0 NBUF)) 1 9 with
  | Some (b, hit) =>
      (mod_buf b (if hit : bool then fun x => set_refcnt (b_refcnt x + 1) x
                  else set_block 1 9 0 1) ;;
       acquiresleep b ;; ret b) s
  | None => Stop (Panicked "bget: no buffers") s
  end.
Proof.
  destruct (binit_ok demo demo_zero) as (s&E&Es&Hok&_). exists s. split; [exact E|].
  apply (bget_replacement s (rev (seqZ 0 NBUF)) 1 9). exact (co_lru _ _ _ _ _ Hok).
Defined.

Lemma brelse_moves_to_front_witness :
  exists s0 s b s', binit demo = Ret tt s0 /\ bread 1 9 s0 = Ret b s /\ brelse b s = Ret tt s' /\
    cache_ok (bufs s') (disk s') (disk s0) (delete b (<[b := 9]> ∅)) (to_front b (rev (seqZ 0 NBUF))).
Proof.
  destruct (binit_ok demo demo_zero) as (s0&E0&Es&Hok&_).
  destruct (bread_total s0 (disk s0) ∅ (rev (seqZ 0 NBUF)) 9 0) as (b&s&E&Hp).
  - exact Hok.
  - intros b. rewrite lookup_empty. discriminate.
  - rewrite Es. reflexivity.
  - unfold in_range, NBUF; lia.
  - left. split; [apply lookup_empty|]. vm_compute in E0. injection E0 as <-. reflexivity.
  - destruct Hp as [_ _ Hc Hd _ _ _ _].
    destruct (brelse_moves_to_front s (disk s0) (<[b := 9]> ∅) (rev (seqZ 0 NBUF)) b 9) as (s'&E'&Hc'&_);
      [exact Hc|apply lookup_insert_eq|exact Hd|].
    exists s0, s, b, s'. split_and!; assumption.
Defined.
