(* ===== verification/Log.v ===== *)
(** * log.c: the write-ahead log

    The in-memory log header is [log_lh] of [blog]; [lh_block] is the C array
    [block[LOGSIZE]].  On disk the header occupies block [log_start] and the
    logged blocks follow it.  An access outside the array faults. *)
From stdpp Require Import base numbers list gmap strings.
From S2P Require Import Prelude Block Bio.
Open Scope Z_scope.

(** struct superblock *)
Record superblock := Superblock {
  sb_size : Z; sb_nblocks : Z; sb_ninodes : Z; sb_nlog : Z;
  sb_logstart : Z; sb_inodestart : Z; sb_bmapstart : Z
}.

Definition set_lh (h : loghdr) (g : log) : log :=
  Log (log_start g) (log_size g) (log_outstanding g) (log_committing g) (log_dev g) h.
Definition set_outstanding (n : Z) (g : log) : log :=
  Log (log_start g) (log_size g) n (log_committing g) (log_dev g) (log_lh g).
Definition set_committing (c : Z) (g : log) : log :=
  Log (log_start g) (log_size g) (log_outstanding g) c (log_dev g) (log_lh g).

Definition get_log : M bstate log := gets blog.
Definition mod_log (g : log -> log) : M bstate unit :=
  modify (fun s => set_blog (g (blog s)) s).
Definition set_lh_n (n : Z) : M bstate unit :=
  mod_log (fun g => set_lh (LogHdr n (lh_block (log_lh g))) g).

(** [log.lh.block[i] = v] *)
Definition set_lh_block (i v : Z) : M bstate unit :=
  if (i <? 0) || (LOGSIZE <=? i) then stop_with (Faulted "log.lh.block")
  else mod_log (fun g => set_lh (LogHdr (lh_n (log_lh g)) (updZ (lh_block (log_lh g)) i v)) g).

(** [log.lh.block[i]] *)
Definition get_lh_block (i : Z) : M bstate Z :=
  if (i <? 0) || (LOGSIZE <=? i) then stop_with (Faulted "log.lh.block")
  else gets (fun s => nthZ 0 (lh_block (log_lh (blog s))) i).

(** The fields of struct logheader overlaid on a block. *)
Definition hdr_n (d : list Z) : Z := i32 (ld32 d 0).
Definition hdr_block (d : list Z) (i : Z) : Z := i32 (ld32 d (4 + 4 * i)).

(** [memmove(to->data, from->data, BSIZE)] *)
Definition copy_block (to from : Z) : M bstate unit :=
  let! d := bdata from in bset to d.

(** Iteration [tail] of the loop of [install_trans] *)
Definition install_one (tail : Z) : M bstate unit :=
  let! g := get_log in
  let! lbuf := bread (log_dev g) (log_start g + tail + 1) in
  let! dst := get_lh_block tail in
  let! dbuf := bread (log_dev g) dst in
  copy_block dbuf lbuf ;;
  bwrite dbuf ;;
  brelse lbuf ;;
  brelse dbuf.

(** [install_trans()] *)
Definition install_trans : M bstate unit :=
  let! g := get_log in
  mfor (seqZ 0 (lh_n (log_lh g))) install_one.

(** [read_head()] *)
Definition read_head : M bstate unit :=
  let! g := get_log in
  let! b := bread (log_dev g) (log_start g) in
  let! d := bdata b in
  set_lh_n (hdr_n d) ;;
  mfor (seqZ 0 (hdr_n d)) (fun i => set_lh_block i (hdr_block d i)) ;;
  brelse b.

(** [write_head()] *)
Definition write_head : M bstate unit :=
  let! g := get_log in
  let! b := bread (log_dev g) (log_start g) in
  let! d := bdata b in
  bset b (st32 d 0 (lh_n (log_lh g))) ;;
  mfor (seqZ 0 (lh_n (log_lh g))) (fun i =>
    let! v := get_lh_block i in
    let! d := bdata b in
    bset b (st32 d (4 + 4 * i) v)) ;;
  bwrite b ;;
  brelse b.

(** [recover_from_log()] *)
Definition recover_from_log : M bstate unit :=
  read_head ;;
  install_trans ;;
  set_lh_n 0 ;;
  write_head.

(** [readsb(dev, sb)] of fs.c *)
Definition decode_sb (d : list Z) : superblock :=
  Superblock (ld32 d 0) (ld32 d 4) (ld32 d 8) (ld32 d 12) (ld32 d 16) (ld32 d 20) (ld32 d 24).
Definition readsb (dev : Z) : M bstate superblock :=
  let! b := bread dev 1 in
  let! d := bdata b in
  brelse b ;;
  ret (decode_sb d).

(** [initlog(dev)]; [sizeof(struct logheader)] is 4 + 4 * LOGSIZE. *)
Definition initlog (dev : Z) : M bstate unit :=
  if BSIZE <=? 4 + 4 * LOGSIZE then panic "initlog: too big logheader" else
  let! sb := readsb dev in
  mod_log (fun g => Log (i32 (sb_logstart sb)) (i32 (sb_nlog sb)) (log_outstanding g)
                      (log_committing g) dev (log_lh g)) ;;
  recover_from_log.

(** [begin_op()]: one pass of the loop; a full log puts the caller to sleep on
    the log's address. *)
Definition LOGCHAN : Z := -1.
Definition begin_op : M bstate unit :=
  let! g := get_log in
  if negb (log_committing g =? 0) then stop_with (Slept LOGCHAN)
  else if LOGSIZE <? lh_n (log_lh g) + (log_outstanding g + 1) * MAXOPBLOCKS
  then stop_with (Slept LOGCHAN)
  else mod_log (set_outstanding (log_outstanding g + 1)).

(** Iteration [tail] of the loop of [write_log] *)
Definition write_log_one (tail : Z) : M bstate unit :=
  let! g := get_log in
  let! to := bread (log_dev g) (log_start g + tail + 1) in
  let! src := get_lh_block tail in
  let! from := bread (log_dev g) src in
  copy_block to from ;;
  bwrite to ;;
  brelse from ;;
  brelse to.

(** [write_log()] *)
Definition write_log : M bstate unit :=
  let! g := get_log in
  mfor (seqZ 0 (lh_n (log_lh g))) write_log_one.

(** [commit()] *)
Definition commit : M bstate unit :=
  let! g := get_log in
  when (0 <? lh_n (log_lh g))
    (write_log ;;
     write_head ;;
     install_trans ;;
     set_lh_n 0 ;;
     write_head).

(** [end_op()] *)
Definition end_op : M bstate unit :=
  mod_log (fun g => set_outstanding (log_outstanding g - 1) g) ;;
  let! g := get_log in
  if negb (log_committing g =? 0) then panic "log.committing" else
  if log_outstanding g =? 0 then
    mod_log (set_committing 1) ;;
    commit ;;
    mod_log (set_committing 0)
  else ret tt.

(** The loop of [log_write]: the slot of [bno], or [n]. *)
Fixpoint find_slot (l : list Z) (bno : Z) (i : Z) : Z :=
  match l with
  | [] => i
  | x :: l' => if x =? bno then i else find_slot l' bno (i + 1)
  end.

(** [log_write(b)] *)
Definition log_write (b : Z) : M bstate unit :=
  let! g := get_log in
  let n := lh_n (log_lh g) in
  if (LOGSIZE <=? n) || (log_size g - 1 <=? n) then panic "too big a transaction" else
  if log_outstanding g <? 1 then panic "log_write outside of trans" else
  let! x := get_buf b in
  let i := find_slot (take (Z.to_nat n) (lh_block (log_lh g))) (b_blockno x) 0 in
  set_lh_block i (b_blockno x) ;;
  when (i =? n) (set_lh_n (n + 1)) ;;
  mod_buf b (fun x => set_flags (Z.lor (b_flags x) B_DIRTY) x).

(** ** The block layer's state, as its clients see it

    [V] is the logged contents of every block, [D] the disk and [T] the writes
    so far; [L] maps the buffers held to their block and current data; [P] is
    the set of blocks pinned dirty in the cache. *)
Record world (s : bstate) (V D : Z -> list Z) (L : gmap Z (Z * list Z))
    (T : list (Z * list Z)) (g : log) (ds : Z) (P : gset Z) : Prop := World {
  w_cache : exists l, cache_ok (bufs s) (disk s) V (fst <$> L) l;
  w_lent : forall b bno d, L !! b = Some (bno, d) -> b_data (bufs s b) = d;
  w_pin : forall n, n ∈ P <-> pinned (bufs s) n;
  w_disk : disk s = D;
  w_trace : wtrace s = T;
  w_log : blog s = g;
  w_size : disksize s = ds
}.

Lemma world_clean s V D L T g ds P n : world s V D L T g ds P -> n ∉ P -> V n = D n.
Proof.
  intros [[l Hok] _ Hp <- _ _ _] Hn.
  destruct (decide (Exists (fun i => b_dev (bufs s i) = 1 /\ b_blockno (bufs s i) = n) (seqZ 0 NBUF)))
    as [(i&Hi%elem_of_seqZ&Hd&<-)%Exists_exists|Hno].
  - apply (co_clean _ _ _ _ _ Hok); try done. destruct (dirty (bufs s i)) eqn:E; [|done].
    destruct Hn. apply Hp. by exists i.
  - apply (co_miss _ _ _ _ _ Hok). intros i Hi Hd E. destruct Hno. apply Exists_exists.
    exists i. by rewrite elem_of_seqZ.
Qed.

(** Counting: with few enough buffers held or pinned one is free. *)
Lemma world_room s V D L T g ds P :
  world s V D L T g ds P -> Z.of_nat (size L + size P) < NBUF ->
  exists i, in_range i /\ (fst <$> L) !! i = None /\ dirty (bufs s i) = false.
Proof.
  intros [[l Hok] _ Hp _ _ _ _] Hsz.
  destruct (decide (Exists (fun i => L !! i = None /\ dirty (bufs s i) = false) (seqZ 0 NBUF))) as [He|Hno].
  { apply Exists_exists in He as (i&Hi%elem_of_seqZ&Hl&Hd). exists i. by rewrite lookup_fmap, Hl. }
  exfalso. apply not_Exists_Forall in Hno; [|apply _]. rewrite Forall_forall in Hno.
  set (dl := filter (fun i => dirty (bufs s i) = true) (seqZ 0 NBUF)).
  assert (Hnd : NoDup (map (fun i => b_blockno (bufs s i)) dl)).
  { apply NoDup_fmap_2_strong; [|apply NoDup_filter, NoDup_seqZ].
    intros i j [Hi Hir%elem_of_seqZ]%list_elem_of_filter [Hj Hjr%elem_of_seqZ]%list_elem_of_filter E.
    apply (co_uniq _ _ _ _ _ Hok); try done; by apply (co_dirty _ _ _ _ _ Hok). }
  assert (H1 : (length dl <= size P)%nat).
  { rewrite <- (length_map (fun i => b_blockno (bufs s i)) dl).
    apply NoDup_ListNoDup, NoDup_incl_length with (l' := elements P) in Hnd; [exact Hnd|].
    intros n [i [<- [Hi Hir%elem_of_seqZ]%list_elem_of_In%list_elem_of_filter]]%in_map_iff.
    apply list_elem_of_In, elem_of_elements, Hp. exists i. split_and!; try done.
    by apply (co_dirty _ _ _ _ _ Hok). }
  assert (H2 : (length (seqZ 0 NBUF) <= length (elements (dom L) ++ dl))%nat).
  { apply NoDup_incl_length; [apply NoDup_ListNoDup, NoDup_seqZ|].
    intros i Hi%list_elem_of_In. apply list_elem_of_In, elem_of_app.
    destruct (L !! i) as [x|] eqn:El.
    - left. apply elem_of_elements, elem_of_dom. eauto.
    - right. apply list_elem_of_filter. split; [|done].
      destruct (dirty (bufs s i)) eqn:Ed; [done|]. by destruct (Hno i Hi). }
  rewrite length_seqZ, length_app in H2. change (length (elements (dom L))) with (size (dom L)) in H2.
  rewrite size_dom in H2. unfold NBUF in *. lia.
Qed.

Lemma pinned_ext f g n :
  (forall i, dirty (g i) = dirty (f i) /\ (dirty (f i) = true ->
     b_dev (g i) = b_dev (f i) /\ b_blockno (g i) = b_blockno (f i))) ->
  pinned g n <-> pinned f n.
Proof.
  intros H. split; intros (i&Hi&Hd&Hb&Hy); destruct (H i) as [E1 E2]; exists i.
  - rewrite E1 in Hy. destruct (E2 Hy) as [<- <-]. done.
  - destruct (E2 Hy) as [-> ->]. by rewrite E1.
Qed.

Definition unlent (L : gmap Z (Z * list Z)) (bno : Z) : Prop :=
  forall b d, L !! b <> Some (bno, d).

Lemma unlent_not_lent L bno : unlent L bno -> not_lent (fst <$> L) bno.
Proof.
  intros H b. rewrite lookup_fmap. destruct (L !! b) as [[n d]|] eqn:E; simpl; [|done].
  intros [= ->]. by eapply H.
Qed.

Lemma world_post_bread s V D L T g ds P bno b s' l :
  world s V D L T g ds P -> cache_ok (bufs s) (disk s) V (fst <$> L) l ->
  bread_post s V (fst <$> L) l bno b s' ->
  L !! b = None /\ world s' V D (<[b := (bno, V bno)]> L) T g ds P.
Proof.
  intros [_ Hle Hp HD HT Hg Hs] Hok [Hr Hi Hc Hda Hf Ho Hd Hk].
  assert (Hn : L !! b = None) by (rewrite lookup_fmap in Hi; by destruct (L !! b)).
  split; [done|]. split; try (by rewrite Hf).
  - exists l. by rewrite fmap_insert.
  - intros b' bno' d'. rewrite lookup_insert. case_decide as E.
    + subst b'. intros [= <- <-]. done.
    + intros HL. rewrite Ho by congruence. by eapply Hle.
  - intros n. rewrite Hp. symmetry. apply pinned_ext. intros i.
    destruct (Z.eq_dec i b) as [->|Hib]; [|by rewrite Ho].
    split; [done|]. intros Hdy. destruct (co_dirty _ _ _ _ _ Hok b Hr Hdy) as [_ Hdev].
    destruct (co_lent _ _ _ _ _ Hc b bno) as (_&_&_&_&->&->); [apply lookup_insert_eq|].
    by rewrite Hdev, Hk.
Qed.

Lemma w_bread s V D L T g ds P bno :
  world s V D L T g ds P -> unlent L bno -> bno < ds ->
  Z.of_nat (size L + size P) < NBUF \/ bno ∈ P ->
  exists b s', bread 1 bno s = Ret b s' /\ L !! b = None /\
    world s' V D (<[b := (bno, V bno)]> L) T g ds P.
Proof.
  intros Hw Hu%unlent_not_lent Hr Hc. pose proof Hw as [[l Hok] _ Hp _ _ _ Hs].
  assert (exists i, in_range i /\ ((fst <$> L) !! i = None /\ dirty (bufs s i) = false \/
    b_dev (bufs s i) = 1 /\ b_blockno (bufs s i) = bno)) as (i&Hi&Hci).
  { destruct Hc as [Hc|Hc].
    - destruct (world_room _ _ _ _ _ _ _ _ Hw Hc) as (i&?&?&?). eauto.
    - apply Hp in Hc as (i&?&?&?&?). eauto. }
  destruct (bread_total s V (fst <$> L) l bno i) as (b&s'&E&Hpost); try done; [by rewrite Hs|].
  exists b, s'. split; [done|]. by eapply world_post_bread.
Qed.

Lemma w_bdata s V D L T g ds P b bno d :
  world s V D L T g ds P -> L !! b = Some (bno, d) -> bdata b s = Ret d s.
Proof. intros [_ Hl _ _ _ _ _] H. unfold bdata, gets. by erewrite Hl. Qed.

Lemma fst_insert_same (L : gmap Z (Z * list Z)) b bno d d' :
  L !! b = Some (bno, d) -> fst <$> <[b := (bno, d')]> L = fst <$> L.
Proof.
  intros H. rewrite fmap_insert. simpl. apply insert_id. by rewrite lookup_fmap, H.
Qed.

Lemma fst_lookup (L : gmap Z (Z * list Z)) b bno d :
  L !! b = Some (bno, d) -> (fst <$> L) !! b = Some bno.
Proof. intros H. by rewrite lookup_fmap, H. Qed.

Lemma w_bset s V D L T g ds P b bno d d' :
  world s V D L T g ds P -> L !! b = Some (bno, d) ->
  exists s', bset b d' s = Ret tt s' /\ world s' V D (<[b := (bno, d')]> L) T g ds P.
Proof.
  intros [[l Hok] Hl Hp HD HT Hg Hs] HL.
  destruct (bset_ok s V (fst <$> L) l b bno d' Hok) as (s'&E&Hok'&Hbi); [by eapply fst_lookup|].
  exists s'. split; [done|]. pose proof Hbi as (Es&Eb&Eo).
  split; try (by rewrite Es).
  - exists l. by erewrite fst_insert_same.
  - intros b' n e. rewrite lookup_insert. case_decide as E'.
    + subst b'. intros [= <- <-]. by rewrite Eb.
    + intros H. rewrite Eo by congruence. by eapply Hl.
  - intros n. rewrite Hp. symmetry. apply pinned_ext. intros i.
    destruct (Z.eq_dec i b) as [->|]; [by rewrite Eb|by rewrite Eo].
Qed.

Lemma w_pin_add s V D L T g ds P b bno d :
  world s V D L T g ds P -> L !! b = Some (bno, d) ->
  exists s', mod_buf b (fun x => set_flags (Z.lor (b_flags x) B_DIRTY) x) s = Ret tt s' /\
    world s' (fupd V bno d) D L T g ds ({[bno]} ∪ P).
Proof.
  intros [[l Hok] Hl Hp HD HT Hg Hs] HL.
  destruct (pin_ok s V (fst <$> L) l b bno Hok) as (s'&E&Hok'&Hbi); [by eapply fst_lookup|].
  rewrite (Hl _ _ _ HL) in Hok'.
  destruct (co_lent _ _ _ _ _ Hok b bno) as (Hb&_&_&_&Hdv&Hbn); [by eapply fst_lookup|].
  exists s'. split; [done|]. pose proof Hbi as (Es&Eb&Eo).
  destruct (flags_or_dirty (b_flags (bufs s b))) as [_ F2].
  split; try (by rewrite Es).
  - by exists l.
  - intros b' n e H. destruct (Z.eq_dec b' b) as [->|]; [rewrite Eb|rewrite Eo by done]; by eapply Hl.
  - intros n. rewrite elem_of_union, elem_of_singleton, Hp. split.
    + intros [->|(i&Hi&Hd&Hn&Hy)].
      * exists b. rewrite Eb. done.
      * exists i. destruct (Z.eq_dec i b) as [->|]; [by rewrite Eb|by rewrite Eo].
    + intros (i&Hi&Hd&Hn&Hy). destruct (Z.eq_dec i b) as [->|].
      * left. rewrite Eb in Hn. simpl in Hn. congruence.
      * right. rewrite Eo in Hd, Hn, Hy by done. by exists i.
Qed.

Lemma w_bwrite s V D L T g ds P b bno d :
  world s V D L T g ds P -> L !! b = Some (bno, d) -> bno < ds ->
  exists s', bwrite b s = Ret tt s' /\
    world s' (fupd V bno d) (fupd D bno d) L (T ++ [(bno, d)]) g ds (P ∖ {[bno]}).
Proof.
  intros [[l Hok] Hl Hp HD HT Hg Hs] HL Hr.
  destruct (bwrite_ok s V (fst <$> L) l b bno Hok) as (s'&E&Hok'&Es&Eb&Ed&Eo); [by eapply fst_lookup|by rewrite Hs|].
  rewrite (Hl _ _ _ HL) in *. destruct (co_lent _ _ _ _ _ Hok b bno) as (Hb&_&_&_&Hdv&Hbn); [by eapply fst_lookup|].
  exists s'. split; [done|]. split; try (rewrite Es; simpl; congruence).
  - exists l. exact Hok'.
  - intros b' n e H. destruct (Z.eq_dec b' b) as [->|]; [rewrite Eb|rewrite Eo by done].
    + congruence.
    + by eapply Hl.
  - intros n. rewrite elem_of_difference, elem_of_singleton, Hp. split.
    + intros [(i&Hi&Hd&Hn&Hy) Hne]. exists i. destruct (Z.eq_dec i b) as [->|]; [congruence|by rewrite Eo].
    + intros (i&Hi&Hd&Hn&Hy). destruct (Z.eq_dec i b) as [->|Hib]; [congruence|].
      rewrite Eo in Hd, Hn, Hy by done. split; [by exists i|]. intros ->. apply Hib.
      apply (co_uniq _ _ _ _ _ Hok); congruence || done.
Qed.

Lemma w_brelse s V D L T g ds P b bno :
  world s V D L T g ds P -> L !! b = Some (bno, V bno) ->
  exists s', brelse b s = Ret tt s' /\ world s' V D (delete b L) T g ds P.
Proof.
  intros [[l Hok] Hl Hp HD HT Hg Hs] HL.
  destruct (brelse_ok s V (fst <$> L) l b bno Hok) as (s'&E&Hok'&Es&Ef); [by eapply fst_lookup|by eapply Hl|].
  exists s'. split; [done|]. split; try (by rewrite Es).
  - eexists. by rewrite fmap_delete.
  - intros b' n e. rewrite lookup_delete. case_decide; [done|]. intros H'.
    destruct (Ef b') as (_&_&_&->). by eapply Hl.
  - intros n. rewrite Hp. symmetry. apply pinned_ext. intros i. unfold dirty.
    destruct (Ef i) as (->&->&->&_). done.
Qed.

Lemma w_set_log s V D L T g ds P g' :
  world s V D L T g ds P -> world (set_blog g' s) V D L T g' ds P.
Proof. by intros [? ? ? ? ? ? ?]. Qed.

Lemma world_V s V V' D L T g ds P :
  (forall n, V' n = V n) -> world s V D L T g ds P -> world s V' D L T g ds P.
Proof. intros E [[l ?] ? ? ? ? ? ?]. split; try done. exists l. by eapply cache_ok_V. Qed.

(** ** The log on the disk *)

Definition in_log (g : log) (n : Z) : Prop := log_start g <= n < log_start g + log_size g.

(** The header in memory lists the blocks [bl]; the log area and the blocks
    lie on the disk, apart from each other. *)
Record log_lists (g : log) (ds : Z) (bl : list Z) : Prop := LogLists {
  ll_dev : log_dev g = 1;
  ll_start : 0 <= log_start g;
  ll_area : log_start g + log_size g <= ds;
  ll_n : lh_n (log_lh g) = Z.of_nat (length bl);
  ll_len : length (lh_block (log_lh g)) = 30%nat;
  ll_bl : take (length bl) (lh_block (log_lh g)) = bl;
  ll_cap : Z.of_nat (length bl) <= LOGSIZE /\ Z.of_nat (length bl) <= log_size g - 1;
  ll_blocks : forall b, b ∈ bl -> 0 <= b < ds /\ ~ in_log g b
}.

(** A disk after a sequence of writes. *)
Fixpoint apply_writes (D : Z -> list Z) (ws : list (Z * list Z)) : Z -> list Z :=
  match ws with
  | [] => D
  | (b, d) :: ws' => apply_writes (fupd D b d) ws'
  end.

Lemma apply_writes_app D ws1 ws2 : apply_writes D (ws1 ++ ws2) = apply_writes (apply_writes D ws1) ws2.
Proof. revert D. induction ws1 as [|[b d] ws IH]; intros D; simpl; auto. Qed.

Lemma apply_writes_other D ws n : n ∉ ws.*1 -> apply_writes D ws n = D n.
Proof.
  revert D. induction ws as [|[b d] ws IH]; intros D Hn; simpl; [done|].
  simpl in Hn. apply not_elem_of_cons in Hn as [? ?]. rewrite IH by done. by apply fupd_ne.
Qed.

(** The last write to a block wins; a block written once holds that write. *)
Lemma apply_writes_at D ws n d :
  NoDup (ws.*1) -> (n, d) ∈ ws -> apply_writes D ws n = d.
Proof.
  revert D. induction ws as [|[b e] ws IH]; intros D Hnd Hin; simpl in *; [by apply elem_of_nil in Hin|].
  apply NoDup_cons in Hnd as [Hb Hnd]. apply elem_of_cons in Hin as [[= -> ->]|Hin]; [|by apply IH].
  rewrite apply_writes_other by done. apply fupd_eq.
Qed.

(** The writes of [install_trans] from log slot [i] on, and of [write_log]. *)
Fixpoint install_writes (start : Z) (V : Z -> list Z) (i : Z) (bl : list Z) : list (Z * list Z) :=
  match bl with
  | [] => []
  | b :: bl' => (b, V (start + i + 1)) :: install_writes start V (i + 1) bl'
  end.
Fixpoint log_writes (start : Z) (V : Z -> list Z) (i : Z) (bl : list Z) : list (Z * list Z) :=
  match bl with
  | [] => []
  | b :: bl' => (start + i + 1, V b) :: log_writes start V (i + 1) bl'
  end.

Lemma install_writes_fst start V i bl : (install_writes start V i bl).*1 = bl.
Proof. revert i. induction bl; intros i; simpl; f_equal; auto. Qed.
Lemma log_writes_fst start V i bl :
  (log_writes start V i bl).*1 = map (fun k => start + 1 + k) (seqZ i (Z.of_nat (length bl))).
Proof.
  revert i. induction bl as [|b bl IH]; intros i; [done|].
  cbn [log_writes length]. rewrite fmap_cons, IH, (seqZ_cons i) by lia. simpl. f_equal; [lia|].
  do 2 f_equal; lia.
Qed.

Lemma install_writes_ext start V V' i bl :
  (forall k, 0 <= k < Z.of_nat (length bl) -> V (start + (i + k) + 1) = V' (start + (i + k) + 1)) ->
  install_writes start V i bl = install_writes start V' i bl.
Proof.
  revert i. induction bl as [|b bl IH]; intros i H; simpl in *; [done|]. f_equal.
  - specialize (H 0). rewrite Z.add_0_r in H. rewrite H by lia. done.
  - apply IH. intros k Hk. replace (i + 1 + k) with (i + (1 + k)) by lia. apply H. lia.
Qed.
Lemma log_writes_ext start V V' i bl :
  (forall b, b ∈ bl -> V b = V' b) -> log_writes start V i bl = log_writes start V' i bl.
Proof.
  revert i. induction bl as [|b bl IH]; intros i H; simpl; [done|]. f_equal.
  - by rewrite (H b) by left.
  - apply IH. intros x Hx. apply H. by right.
Qed.

Lemma install_writes_elem start V i bl k b :
  bl !! k = Some b -> (b, V (start + (i + Z.of_nat k) + 1)) ∈ install_writes start V i bl.
Proof.
  revert i k. induction bl as [|x bl IH]; intros i k H; [done|]. destruct k; simpl in *.
  - injection H as ->. rewrite Z.add_0_r. left.
  - right. replace (i + Z.of_nat (S k)) with (i + 1 + Z.of_nat k) by lia. by apply IH.
Qed.
Lemma log_writes_elem start V i bl k b :
  bl !! k = Some b -> (start + (i + Z.of_nat k) + 1, V b) ∈ log_writes start V i bl.
Proof.
  revert i k. induction bl as [|x bl IH]; intros i k H; [done|]. destruct k; simpl in *.
  - injection H as ->. rewrite Z.add_0_r. left.
  - right. replace (i + Z.of_nat (S k)) with (i + 1 + Z.of_nat k) by lia. by apply IH.
Qed.

(** Reading a slot of the in-memory header. *)
Lemma get_lh_block_run s g ds bl V D L T P k b :
  world s V D L T g ds P -> log_lists g ds bl -> bl !! k = Some b ->
  get_lh_block (Z.of_nat k) s = Ret b s.
Proof.
  intros Hw Hl Hk. pose proof (lookup_lt_Some _ _ _ Hk). pose proof (ll_cap _ _ _ Hl) as [Hc _].
  unfold get_lh_block. destruct (Z.ltb_spec (Z.of_nat k) 0); [lia|].
  destruct (Z.leb_spec LOGSIZE (Z.of_nat k)); [lia|]. simpl. unfold gets. f_equal.
  rewrite (w_log _ _ _ _ _ _ _ _ Hw). apply nthZ_lookup; [lia|]. rewrite Nat2Z.id.
  rewrite <- (ll_bl _ _ _ Hl) in Hk. by apply lookup_take_Some in Hk as [? _].
Qed.

(** Two buffers taken and given back leave nothing held. *)
Lemma two_back (b1 b2 : Z) (x1 x2 x3 : Z * list Z) :
  b1 <> b2 ->
  delete b2 (delete b1 (<[b2 := x3]> (<[b2 := x2]> (<[b1 := x1]> (∅ : gmap Z (Z * list Z)))))) = ∅.
Proof.
  intros Hne. apply map_eq. intros i. rewrite !lookup_delete, !lookup_insert, lookup_empty.
  repeat case_decide; congruence.
Qed.
Lemma two_back' (b1 b2 : Z) (x1 x2 x3 : Z * list Z) :
  b1 <> b2 ->
  delete b1 (delete b2 (<[b1 := x3]> (<[b2 := x2]> (<[b1 := x1]> (∅ : gmap Z (Z * list Z)))))) = ∅.
Proof.
  intros Hne. apply map_eq. intros i. rewrite !lookup_delete, !lookup_insert, lookup_empty.
  repeat case_decide; congruence.
Qed.

Lemma unlent_empty bno : unlent ∅ bno.
Proof. intros b d. by rewrite lookup_empty. Qed.
Lemma unlent_one b bno n d : n <> bno -> unlent (<[b := (n, d)]> ∅) bno.
Proof.
  intros Hne b' d'. rewrite lookup_insert, lookup_empty. case_decide; congruence.
Qed.

Ltac mget H := rewrite (w_log _ _ _ _ _ _ _ _ H).

Section log_loops.
Context (g : log) (ds : Z) (bl : list Z) (Hll : log_lists g ds bl).

Lemma slot_facts k b :
  bl !! k = Some b ->
  let src := log_start g + Z.of_nat k + 1 in
  src < ds /\ in_log g src /\ b < ds /\ b <> src /\ 0 <= b.
Proof.
  intros Hk src. pose proof (lookup_lt_Some _ _ _ Hk). destruct (ll_cap _ _ _ Hll).
  destruct (ll_blocks _ _ _ Hll b) as [? Hni]; [by eapply list_elem_of_lookup_2|].
  pose proof (ll_area _ _ _ Hll). assert (in_log g src) by (unfold in_log, src; lia).
  split_and!; try done; try lia; try (unfold in_log in *; lia).
Qed.

Lemma install_one_ok s V D T P k dst :
  world s V D ∅ T g ds P -> bl !! k = Some dst ->
  Z.of_nat (size P) < NBUF -> Z.of_nat (size P) + 1 < NBUF \/ dst ∈ P ->
  let d := V (log_start g + Z.of_nat k + 1) in
  exists s', install_one (Z.of_nat k) s = Ret tt s' /\
    world s' (fupd V dst d) (fupd D dst d) ∅ (T ++ [(dst, d)]) g ds (P ∖ {[dst]}).
Proof.
  intros Hw Hk Hr1 Hr2 d. destruct (slot_facts k dst Hk) as (Hs&_&Hd&Hne&_).
  set (src := log_start g + Z.of_nat k + 1) in *.
  unfold install_one, get_log. rewrite bind_gets. mget Hw. rewrite (ll_dev _ _ _ Hll). fold src.
  destruct (w_bread s V D ∅ T g ds P src Hw) as (lb&s1&E1&_&Hw1);
    [apply unlent_empty|done|left; by rewrite map_size_empty|].
  erewrite bind_run by exact E1.
  erewrite bind_run by (eapply get_lh_block_run; eauto).
  destruct (w_bread _ _ _ _ _ _ _ _ dst Hw1) as (db&s2&E2&Hdb&Hw2);
    [by apply unlent_one|done| |].
  { destruct Hr2; [left|by right]. rewrite map_size_insert_None, map_size_empty by apply lookup_empty. lia. }
  assert (lb <> db) by (rewrite lookup_insert in Hdb; case_decide; congruence).
  erewrite bind_run by exact E2. unfold copy_block. mred.
  erewrite bind_run by (eapply (w_bdata _ _ _ _ _ _ _ _ lb); [done|];
    rewrite lookup_insert_ne by done; apply lookup_insert_eq).
  destruct (w_bset _ _ _ _ _ _ _ _ db dst (V dst) (V src) Hw2) as (s3&E3&Hw3); [apply lookup_insert_eq|].
  erewrite bind_run by exact E3.
  destruct (w_bwrite _ _ _ _ _ _ _ _ db dst (V src) Hw3) as (s4&E4&Hw4); [apply lookup_insert_eq|done|].
  erewrite bind_run by exact E4.
  destruct (w_brelse _ _ _ _ _ _ _ _ lb src Hw4) as (s5&E5&Hw5).
  { rewrite fupd_ne by done. rewrite !lookup_insert_ne by done. apply lookup_insert_eq. }
  erewrite bind_run by exact E5.
  destruct (w_brelse _ _ _ _ _ _ _ _ db dst Hw5) as (s6&E6&Hw6).
  { rewrite fupd_eq. rewrite lookup_delete_ne by done. apply lookup_insert_eq. }
  exists s6. split; [done|]. by rewrite two_back in Hw6.
Qed.

Lemma write_log_one_ok s V D T P k src :
  world s V D ∅ T g ds P -> bl !! k = Some src ->
  Z.of_nat (size P) < NBUF -> Z.of_nat (size P) + 1 < NBUF \/ src ∈ P ->
  let dst := log_start g + Z.of_nat k + 1 in
  exists s', write_log_one (Z.of_nat k) s = Ret tt s' /\
    world s' (fupd V dst (V src)) (fupd D dst (V src)) ∅ (T ++ [(dst, V src)]) g ds (P ∖ {[dst]}).
Proof.
  intros Hw Hk Hr1 Hr2 dst. destruct (slot_facts k src Hk) as (Hd&_&Hs&Hne&_). fold dst in Hd, Hne.
  unfold write_log_one, get_log. rewrite bind_gets. mget Hw. rewrite (ll_dev _ _ _ Hll). fold dst.
  destruct (w_bread s V D ∅ T g ds P dst Hw) as (tb&s1&E1&_&Hw1);
    [apply unlent_empty|done|left; by rewrite map_size_empty|].
  erewrite bind_run by exact E1.
  erewrite bind_run by (eapply get_lh_block_run; eauto).
  destruct (w_bread _ _ _ _ _ _ _ _ src Hw1) as (fb&s2&E2&Hfb&Hw2);
    [by apply unlent_one|done| |].
  { destruct Hr2; [left|by right]. rewrite map_size_insert_None, map_size_empty by apply lookup_empty. lia. }
  assert (tb <> fb) by (rewrite lookup_insert in Hfb; case_decide; congruence).
  erewrite bind_run by exact E2. unfold copy_block. mred.
  erewrite bind_run by (eapply (w_bdata _ _ _ _ _ _ _ _ fb); [done|]; apply lookup_insert_eq).
  destruct (w_bset _ _ _ _ _ _ _ _ tb dst (V dst) (V src) Hw2) as (s3&E3&Hw3).
  { rewrite lookup_insert_ne by done. apply lookup_insert_eq. }
  erewrite bind_run by exact E3.
  destruct (w_bwrite _ _ _ _ _ _ _ _ tb dst (V src) Hw3) as (s4&E4&Hw4); [apply lookup_insert_eq|done|].
  erewrite bind_run by exact E4.
  destruct (w_brelse _ _ _ _ _ _ _ _ fb src Hw4) as (s5&E5&Hw5).
  { rewrite fupd_ne by done. rewrite lookup_insert_ne by done. apply lookup_insert_eq. }
  erewrite bind_run by exact E5.
  destruct (w_brelse _ _ _ _ _ _ _ _ tb dst Hw5) as (s6&E6&Hw6).
  { rewrite fupd_eq. rewrite lookup_delete_ne by done. apply lookup_insert_eq. }
  exists s6. split; [done|]. by rewrite two_back' in Hw6.
Qed.

Lemma install_loop_ok pre post s V D T P :
  bl = pre ++ post -> world s V D ∅ T g ds P -> Z.of_nat (size P) < NBUF ->
  (NoDup post /\ (forall b, b ∈ post -> b ∈ P)) \/ Z.of_nat (size P) + 1 < NBUF ->
  let ws := install_writes (log_start g) V (Z.of_nat (length pre)) post in
  exists s', mfor (seqZ (Z.of_nat (length pre)) (Z.of_nat (length post))) install_one s = Ret tt s' /\
    world s' (apply_writes V ws) (apply_writes D ws) ∅ (T ++ ws) g ds (P ∖ list_to_set post).
Proof.
  revert pre s V D T P. induction post as [|dst post IH]; intros pre s V D T P Hbl Hw Hsz Hroom ws.
  { exists s. split; [done|]. simpl. by rewrite app_nil_r, difference_empty_L. }
  assert (Hk : bl !! length pre = Some dst) by (rewrite Hbl; by apply list_lookup_middle).
  rewrite seqZ_cons by (simpl; lia). cbn [mfor].
  destruct (install_one_ok s V D T P (length pre) dst Hw Hk Hsz) as (s1&E1&Hw1).
  { destruct Hroom as [[_ H]|H]; [right; apply H; left|by left]. }
  erewrite bind_run by exact E1.
  assert (Hsub : (size (P ∖ {[dst]}) <= size P)%nat) by (apply subseteq_size; set_solver).
  destruct (IH (pre ++ [dst]) s1 _ _ _ _ ltac:(by rewrite <- app_assoc) Hw1) as (s2&E2&Hw2).
  - lia.
  - destruct Hroom as [[[Hni Hnd]%NoDup_cons H]|H]; [left|right; lia]. split; [done|].
    intros b Hb. apply elem_of_difference. split; [apply H; by right|]. set_solver.
  - rewrite length_app in E2, Hw2. cbn [length] in E2, Hw2.
    replace (Z.of_nat (length pre + 1)) with (Z.succ (Z.of_nat (length pre))) in E2 by lia.
    replace (Z.of_nat (length pre + 1)) with (Z.of_nat (length pre) + 1) in Hw2 by lia.
    replace (Z.pred (Z.of_nat (length (dst :: post)))) with (Z.of_nat (length post)) by (simpl; lia).
    exists s2. split; [done|]. subst ws. cbn [install_writes apply_writes list_to_set].
    rewrite (install_writes_ext _ V (fupd V dst (V (log_start g + Z.of_nat (length pre) + 1)))).
    + by rewrite <- app_assoc, difference_difference_l_L in Hw2.
    + intros k Hkr. rewrite fupd_ne; [done|].
      destruct (ll_blocks _ _ _ Hll dst) as [_ Hni]; [by eapply list_elem_of_lookup_2|].
      intros E. apply Hni. rewrite <- E. destruct (ll_cap _ _ _ Hll) as [_ Hc].
      rewrite Hbl, length_app in Hc. simpl in Hc. unfold in_log. lia.
Qed.

Lemma write_log_loop_ok pre post s V D T P :
  bl = pre ++ post -> world s V D ∅ T g ds P -> Z.of_nat (size P) < NBUF ->
  (forall b, b ∈ P -> b ∈ bl) -> (forall b, b ∈ bl -> b ∈ P) ->
  let ws := log_writes (log_start g) V (Z.of_nat (length pre)) post in
  exists s', mfor (seqZ (Z.of_nat (length pre)) (Z.of_nat (length post))) write_log_one s = Ret tt s' /\
    world s' (apply_writes V ws) (apply_writes D ws) ∅ (T ++ ws) g ds P.
Proof.
  revert pre s V D T. induction post as [|src post IH]; intros pre s V D T Hbl Hw Hsz Hin Hall ws.
  { exists s. split; [done|]. simpl. by rewrite app_nil_r. }
  assert (Hk : bl !! length pre = Some src) by (rewrite Hbl; by apply list_lookup_middle).
  destruct (slot_facts _ _ Hk) as (_&Hlog&_).
  rewrite seqZ_cons by (simpl; lia). cbn [mfor].
  destruct (write_log_one_ok s V D T P (length pre) src Hw Hk Hsz) as (s1&E1&Hw1).
  { right. apply Hall. rewrite Hbl. set_solver. }
  erewrite bind_run by exact E1.
  set (dst := log_start g + Z.of_nat (length pre) + 1) in *.
  assert (HnP : dst ∉ P) by (intros Hd%Hin; by destruct (ll_blocks _ _ _ Hll dst Hd)).
  rewrite (difference_disjoint_L P {[dst]}) in Hw1 by set_solver.
  destruct (IH (pre ++ [src]) s1 _ _ _ ltac:(by rewrite <- app_assoc) Hw1 Hsz Hin Hall) as (s2&E2&Hw2).
  rewrite length_app in E2, Hw2. cbn [length] in E2, Hw2.
  replace (Z.of_nat (length pre + 1)) with (Z.succ (Z.of_nat (length pre))) in E2 by lia.
  replace (Z.of_nat (length pre + 1)) with (Z.of_nat (length pre) + 1) in Hw2 by lia.
  replace (Z.pred (Z.of_nat (length (src :: post)))) with (Z.of_nat (length post)) by (simpl; lia).
  exists s2. split; [done|]. subst ws. cbn [log_writes apply_writes].
  rewrite (log_writes_ext _ V (fupd V dst (V src))).
  + by rewrite <- app_assoc in Hw2.
  + intros b Hb. rewrite fupd_ne; [done|]. intros ->.
    destruct (ll_blocks _ _ _ Hll dst); [rewrite Hbl; set_solver|done].
Qed.
End log_loops.

(** ** The header block *)

Fixpoint enc_blocks (d : list Z) (i : Z) (bl : list Z) : list Z :=
  match bl with
  | [] => d
  | b :: bl' => enc_blocks (st32 d (4 + 4 * i) b) (i + 1) bl'
  end.
(** What [write_head] makes of the header block [d] for the block list [bl]. *)
Definition hdr_enc (d : list Z) (bl : list Z) : list Z :=
  enc_blocks (st32 d 0 (Z.of_nat (length bl))) 0 bl.
(** The block list a header block describes. *)
Definition hdr_list (d : list Z) : list Z := map (hdr_block d) (seqZ 0 (hdr_n d)).

Lemma length_enc_blocks d i bl : length (enc_blocks d i bl) = length d.
Proof. revert d i. induction bl; intros; simpl; [done|]. by rewrite IHbl, length_st32. Qed.
Lemma length_hdr_enc d bl : length (hdr_enc d bl) = length d.
Proof. unfold hdr_enc. by rewrite length_enc_blocks, length_st32. Qed.

Lemma enc_blocks_low d i bl o :
  0 <= i -> 4 + 4 * (i + Z.of_nat (length bl)) <= Z.of_nat (length d) -> o <= 4 * i ->
  ld32 (enc_blocks d i bl) o = ld32 d o.
Proof.
  revert d i. induction bl as [|b bl IH]; intros d i Hi Hl Ho; simpl in *; [done|].
  rewrite IH by (rewrite ?length_st32; lia). rewrite ld32_st32_ne by lia. done.
Qed.

Lemma enc_blocks_at d i bl k b :
  0 <= i -> 4 + 4 * (i + Z.of_nat (length bl)) <= Z.of_nat (length d) -> bl !! k = Some b ->
  ld32 (enc_blocks d i bl) (4 + 4 * (i + Z.of_nat k)) = u32 b.
Proof.
  revert d i k. induction bl as [|x bl IH]; intros d i k Hi Hl Hk; [done|].
  destruct k as [|k]; simpl in *.
  - injection Hk as ->. rewrite Z.add_0_r, enc_blocks_low by (rewrite ?length_st32; lia).
    apply ld32_st32; lia.
  - replace (i + Z.of_nat (S k)) with (i + 1 + Z.of_nat k) by lia.
    apply IH; [lia|rewrite length_st32; lia|done].
Qed.

Lemma i32_u32 z : i32 (u32 z) = i32 z.
Proof. unfold i32, u32. by rewrite Zplus_mod_idemp_l. Qed.

Lemma hdr_n_enc d bl :
  length d = 512%nat -> Z.of_nat (length bl) <= LOGSIZE -> hdr_n (hdr_enc d bl) = Z.of_nat (length bl).
Proof.
  intros Hd Hn. unfold LOGSIZE in Hn. unfold hdr_n, hdr_enc.
  rewrite enc_blocks_low by (rewrite ?length_st32; lia).
  rewrite ld32_st32 by lia. rewrite i32_u32. apply i32_small. word.
Qed.

(** The header round trip: what [write_head] writes, [read_head] reads back. *)
Lemma hdr_roundtrip d bl :
  length d = 512%nat -> Z.of_nat (length bl) <= LOGSIZE -> (forall b, b ∈ bl -> is_i32 b) ->
  hdr_list (hdr_enc d bl) = bl.
Proof.
  intros Hd Hn Hb. pose proof (hdr_n_enc d bl Hd Hn) as Hh. unfold LOGSIZE in Hn.
  unfold hdr_list. rewrite Hh. apply list_eq_same_length with (length bl); [done| |].
  { rewrite length_map, length_seqZ. lia. }
  intros i x y Hi Hx Hy. rewrite list_lookup_fmap in Hx.
  rewrite lookup_seqZ_lt in Hx by lia. injection Hx as <-.
  unfold hdr_block, hdr_enc. rewrite (enc_blocks_at _ 0 bl i y) by (rewrite ?length_st32; done || lia).
  rewrite i32_u32. apply i32_small, Hb. by eapply list_elem_of_lookup_2.
Qed.

Lemma hdr_enc_nil d : length d = 512%nat -> hdr_n (hdr_enc d []) = 0.
Proof. intros. unfold hdr_n, hdr_enc. simpl. rewrite ld32_st32 by lia. done. Qed.

Lemma one_back (b : Z) (x y : Z * list Z) :
  delete b (<[b := y]> (<[b := x]> (∅ : gmap Z (Z * list Z)))) = ∅.
Proof.
  apply map_eq. intros i. rewrite !lookup_delete, !lookup_insert, lookup_empty.
  repeat case_decide; congruence.
Qed.

(** The loop of [write_head] encodes the list into the buffer. *)
Lemma write_head_loop g ds bl pre post s V D T P b d x :
  log_lists g ds bl -> bl = pre ++ post ->
  world s V D (<[b := (log_start g, d)]> (<[b := x]> ∅)) T g ds P ->
  exists s', mfor (seqZ (Z.of_nat (length pre)) (Z.of_nat (length post))) (fun i =>
      let! v := get_lh_block i in let! d := bdata b in bset b (st32 d (4 + 4 * i) v)) s = Ret tt s' /\
    world s' V D (<[b := (log_start g, enc_blocks d (Z.of_nat (length pre)) post)]> (<[b := x]> ∅)) T g ds P.
Proof.
  intros Hll. revert pre s d. induction post as [|v post IH]; intros pre s d Hbl Hw.
  { exists s. done. }
  assert (Hk : bl !! length pre = Some v) by (rewrite Hbl; by apply list_lookup_middle).
  rewrite seqZ_cons by (simpl; lia). cbn [mfor]. mred.
  erewrite bind_run by (eapply get_lh_block_run; eauto). mred.
  erewrite bind_run by (eapply w_bdata; [done|apply lookup_insert_eq]).
  destruct (w_bset _ _ _ _ _ _ _ _ b (log_start g) d (st32 d (4 + 4 * Z.of_nat (length pre)) v) Hw) as (s1&E1&Hw1);
    [apply lookup_insert_eq|].
  erewrite bind_run by exact E1. rewrite insert_insert_eq in Hw1.
  destruct (IH (pre ++ [v]) s1 _ ltac:(by rewrite <- app_assoc) Hw1) as (s2&E2&Hw2).
  rewrite length_app in E2, Hw2. cbn [length] in E2, Hw2.
  replace (Z.of_nat (length pre + 1)) with (Z.succ (Z.of_nat (length pre))) in E2 by lia.
  replace (Z.of_nat (length pre + 1)) with (Z.of_nat (length pre) + 1) in Hw2 by lia.
  replace (Z.pred (Z.of_nat (length (v :: post)))) with (Z.of_nat (length post)) by (simpl; lia).
  by exists s2.
Qed.

Lemma write_head_ok g ds bl s V D T P :
  log_lists g ds bl -> world s V D ∅ T g ds P -> Z.of_nat (size P) < NBUF ->
  let h := hdr_enc (V (log_start g)) bl in
  exists s', write_head s = Ret tt s' /\
    world s' (fupd V (log_start g) h) (fupd D (log_start g) h) ∅ (T ++ [(log_start g, h)]) g ds
      (P ∖ {[log_start g]}).
Proof.
  intros Hll Hw Hsz h. assert (log_start g < ds).
  { pose proof (ll_area _ _ _ Hll). destruct (ll_cap _ _ _ Hll). lia. }
  unfold write_head, get_log. rewrite bind_gets. mget Hw. rewrite (ll_dev _ _ _ Hll).
  destruct (w_bread s V D ∅ T g ds P (log_start g) Hw) as (b&s1&E1&_&Hw1);
    [apply unlent_empty|done|left; by rewrite map_size_empty|].
  erewrite bind_run by exact E1.
  erewrite bind_run by (eapply w_bdata; [done|apply lookup_insert_eq]).
  rewrite (ll_n _ _ _ Hll).
  destruct (w_bset _ _ _ _ _ _ _ _ b (log_start g) (V (log_start g)) (st32 (V (log_start g)) 0 (Z.of_nat (length bl))) Hw1)
    as (s2&E2&Hw2); [apply lookup_insert_eq|].
  erewrite bind_run by exact E2.
  destruct (write_head_loop g ds bl [] bl s2 _ _ _ _ _ _ _ Hll eq_refl Hw2) as (s3&E3&Hw3).
  erewrite bind_run by exact E3.
  destruct (w_bwrite _ _ _ _ _ _ _ _ b (log_start g) h Hw3) as (s4&E4&Hw4); [apply lookup_insert_eq|done|].
  erewrite bind_run by exact E4.
  destruct (w_brelse _ _ _ _ _ _ _ _ b (log_start g) Hw4) as (s5&E5&Hw5).
  { rewrite fupd_eq. apply lookup_insert_eq. }
  exists s5. split; [done|]. by rewrite one_back in Hw5.
Qed.

Lemma take_S_updZ (l : list Z) (i : nat) x :
  (i < length l)%nat -> take (S i) (updZ l (Z.of_nat i) x) = take i l ++ [x].
Proof.
  intros Hi. unfold updZ. destruct (Z.ltb_spec (Z.of_nat i) 0); [lia|]. rewrite Nat2Z.id.
  rewrite take_S_r with (x := x) by (by apply list_lookup_insert_eq).
  by rewrite take_insert_ge by lia.
Qed.

Lemma set_lh_block_run i v s :
  0 <= i < LOGSIZE ->
  set_lh_block i v s =
  Ret tt (set_blog (set_lh (LogHdr (lh_n (log_lh (blog s))) (updZ (lh_block (log_lh (blog s))) i v)) (blog s)) s).
Proof.
  intros Hi. unfold set_lh_block. destruct (Z.ltb_spec i 0); [lia|].
  destruct (Z.leb_spec LOGSIZE i); [lia|]. done.
Qed.

Lemma read_head_loop (f : Z -> Z) m i s :
  length (lh_block (log_lh (blog s))) = 30%nat -> (i + m <= 30)%nat ->
  exists bk, mfor (seqZ (Z.of_nat i) (Z.of_nat m)) (fun i => set_lh_block i (f i)) s =
    Ret tt (set_blog (set_lh (LogHdr (lh_n (log_lh (blog s))) bk) (blog s)) s) /\
    length bk = 30%nat /\
    take (i + m) bk = take i (lh_block (log_lh (blog s))) ++ map f (seqZ (Z.of_nat i) (Z.of_nat m)).
Proof.
  revert i s. induction m as [|m IH]; intros i s Hlen Him.
  { exists (lh_block (log_lh (blog s))). split; [|split; [done|]].
    - destruct s as [? ? ? ? ? [? ? ? ? ? []]]. done.
    - by rewrite Nat.add_0_r, app_nil_r. }
  rewrite seqZ_cons by lia. cbn [mfor map].
  erewrite bind_run by (apply set_lh_block_run; unfold LOGSIZE; lia).
  set (s1 := set_blog _ s).
  destruct (IH (S i) s1) as (bk&E&Hl&Ht).
  - simpl. by rewrite length_updZ.
  - lia.
  - replace (Z.succ (Z.of_nat i)) with (Z.of_nat (S i)) by lia.
    replace (Z.pred (Z.of_nat (S m))) with (Z.of_nat m) by lia.
    exists bk. split; [exact E|]. split; [done|].
    replace (i + S m)%nat with (S i + m)%nat by lia. rewrite Ht. simpl.
    rewrite take_S_updZ by lia. by rewrite <- app_assoc.
Qed.

(** [read_head] loads the block list of the header on the disk. *)
Lemma read_head_ok g ds s V D T P :
  log_dev g = 1 -> log_start g < ds -> length (lh_block (log_lh g)) = 30%nat ->
  world s V D ∅ T g ds P -> Z.of_nat (size P) < NBUF ->
  0 <= hdr_n (V (log_start g)) <= LOGSIZE ->
  exists s' g', read_head s = Ret tt s' /\ world s' V D ∅ T g' ds P /\
    log_start g' = log_start g /\ log_size g' = log_size g /\ log_dev g' = 1 /\
    log_outstanding g' = log_outstanding g /\ log_committing g' = log_committing g /\
    length (lh_block (log_lh g')) = 30%nat /\
    lh_n (log_lh g') = Z.of_nat (length (hdr_list (V (log_start g)))) /\
    take (length (hdr_list (V (log_start g)))) (lh_block (log_lh g')) = hdr_list (V (log_start g)).
Proof.
  intros Hdev Hst Hlen Hw Hsz Hn. unfold read_head, get_log. rewrite bind_gets. mget Hw. rewrite Hdev.
  destruct (w_bread s V D ∅ T g ds P (log_start g) Hw) as (b&s1&E1&_&Hw1);
    [apply unlent_empty|done|left; by rewrite map_size_empty|].
  erewrite bind_run by exact E1.
  erewrite bind_run by (eapply w_bdata; [done|apply lookup_insert_eq]).
  set (d := V (log_start g)) in *. set (n := hdr_n d) in *.
  unfold set_lh_n, mod_log. rewrite bind_modify. mget Hw1.
  set (s2 := set_blog _ s1).
  destruct (read_head_loop (hdr_block d) (Z.to_nat n) 0 s2) as (bk&E2&Hl2&Ht2).
  { done. } { unfold LOGSIZE in Hn. lia. }
  rewrite Z2Nat.id in E2, Ht2 by lia. erewrite bind_run by exact E2.
  pose proof (w_set_log _ _ _ _ _ _ _ _ (set_lh (LogHdr n bk) g) Hw1) as Hw2.
  destruct (w_brelse _ _ _ _ _ _ _ _ b (log_start g) Hw2) as (s3&E3&Hw3); [apply lookup_insert_eq|].
  assert (Hlh : length (hdr_list d) = Z.to_nat n).
  { unfold hdr_list. by rewrite length_map, length_seqZ. }
  rewrite delete_insert_eq, delete_empty in Hw3. 
  exists s3, (set_lh (LogHdr n bk) g). split; [exact E3|]. split; [done|].
  simpl. split_and!; try done; [lia|]. by rewrite Hlh.
Qed.

(** ** Commit and recovery *)

Definition home_writes (V : Z -> list Z) (bl : list Z) : list (Z * list Z) :=
  map (fun b => (b, V b)) bl.

(** The disk writes of one commit, in order. *)
Definition commit_writes (start : Z) (V : Z -> list Z) (bl : list Z) : list (Z * list Z) :=
  let h := hdr_enc (V start) bl in
  log_writes start V 0 bl ++ [(start, h)] ++ home_writes V bl ++ [(start, hdr_enc h [])].

(** The disk writes of recovery from the disk [D]. *)
Definition recover_writes (start : Z) (D : Z -> list Z) : list (Z * list Z) :=
  install_writes start D 0 (hdr_list (D start)) ++ [(start, hdr_enc (D start) [])].

Lemma log_lists_empty g ds bl :
  log_lists g ds bl -> log_lists (set_lh (LogHdr 0 (lh_block (log_lh g))) g) ds [].
Proof.
  intros [? ? ? ? ? ? [? ?] ?]. split; simpl; try done.
  - unfold LOGSIZE. lia.
  - intros b Hb. by apply elem_of_nil in Hb.
Qed.

(** After the blocks are logged, installing them writes them home. *)
Lemma install_logged start V W bl i :
  (forall k b, bl !! k = Some b -> W (start + (i + Z.of_nat k) + 1) = V b) ->
  install_writes start W i bl = home_writes V bl.
Proof.
  revert i. induction bl as [|b bl IH]; intros i H; simpl; [done|]. f_equal.
  - specialize (H 0%nat b eq_refl). rewrite Z.add_0_r in H. by rewrite H.
  - apply IH. intros k x Hk. rewrite <- (H (S k) x Hk). do 2 f_equal. lia.
Qed.

Lemma log_writes_nodup start V i bl : NoDup ((log_writes start V i bl).*1).
Proof.
  rewrite log_writes_fst. apply NoDup_fmap_2; [intros ? ? ?; lia|apply NoDup_seqZ].
Qed.

Lemma log_writes_in start V bl n :
  n ∈ (log_writes start V 0 bl).*1 -> start < n <= start + Z.of_nat (length bl).
Proof.
  rewrite log_writes_fst. intros (k&->&Hk%elem_of_seqZ)%list_elem_of_fmap. lia.
Qed.

(** The log area after [write_log] holds the logged blocks. *)
Lemma logged_at D start V bl k b :
  bl !! k = Some b ->
  apply_writes D (log_writes start V 0 bl) (start + (0 + Z.of_nat k) + 1) = V b.
Proof. intros Hk. apply apply_writes_at; [apply log_writes_nodup|by apply log_writes_elem]. Qed.

Lemma logged_off D start V bl n :
  ~ (start < n <= start + Z.of_nat (length bl)) ->
  apply_writes D (log_writes start V 0 bl) n = D n.
Proof. intros Hn. apply apply_writes_other. by intros ?%log_writes_in. Qed.

Lemma commit_ok g ds bl s V D T :
  log_lists g ds bl -> NoDup bl -> log_size g <= NBUF -> (0 < length bl)%nat ->
  world s V D ∅ T g ds (list_to_set bl) ->
  let ws := commit_writes (log_start g) V bl in
  exists s', commit s = Ret tt s' /\
    world s' (apply_writes V ws) (apply_writes D ws) ∅ (T ++ ws)
      (set_lh (LogHdr 0 (lh_block (log_lh g))) g) ds ∅.
Proof.
  intros Hll Hnd Hsz Hpos Hw. destruct (ll_cap _ _ _ Hll) as [_ Hcap].
  assert (Hsize : Z.of_nat (size (list_to_set bl : gset Z)) < NBUF).
  { rewrite size_list_to_set by done. lia. }
  assert (HsP : log_start g ∉ (list_to_set bl : gset Z)).
  { rewrite elem_of_list_to_set. intros Hb. destruct (ll_blocks _ _ _ Hll _ Hb) as [_ []].
    unfold in_log. lia. }
  unfold commit, get_log. rewrite bind_gets. mget Hw. rewrite (ll_n _ _ _ Hll).
  destruct (Z.ltb_spec 0 (Z.of_nat (length bl))); [|lia]. unfold when. unfold write_log at 1, get_log.
  rewrite bind_assoc, bind_gets. mget Hw. rewrite (ll_n _ _ _ Hll).
  destruct (write_log_loop_ok g ds bl Hll [] bl s V D T _ eq_refl Hw Hsize) as (s1&E1&Hw1).
  { intros b. by rewrite elem_of_list_to_set. } { intros b. by rewrite elem_of_list_to_set. }
  erewrite bind_run by exact E1. cbn [length] in Hw1. change (Z.of_nat 0) with 0 in Hw1.
  destruct (write_head_ok g ds bl _ _ _ _ _ Hll Hw1 Hsize) as (s2&E2&Hw2).
  erewrite bind_run by exact E2. unfold install_trans at 1, get_log. rewrite bind_assoc, bind_gets.
  mget Hw2. rewrite (ll_n _ _ _ Hll).
  rewrite (difference_disjoint_L _ {[log_start g]}) in Hw2 by set_solver.
  destruct (install_loop_ok g ds bl Hll [] bl _ _ _ _ _ eq_refl Hw2 Hsize) as (s3&E3&Hw3).
  { left. split; [done|]. intros b. by rewrite elem_of_list_to_set. }
  erewrite bind_run by exact E3. unfold set_lh_n, mod_log. rewrite bind_modify. mget Hw3.
  apply (w_set_log _ _ _ _ _ _ _ _ (set_lh (LogHdr 0 (lh_block (log_lh g))) g)) in Hw3.
  rewrite difference_diag_L in Hw3. cbn [length] in Hw3. change (Z.of_nat 0) with 0 in Hw3.
  assert (Hoff : forall n, ~ (log_start g < n <= log_start g + Z.of_nat (length bl)) -> forall W,
    apply_writes W (log_writes (log_start g) V 0 bl) n = W n) by (intros; by apply logged_off).
  rewrite (Hoff (log_start g)) in Hw3 by lia. set (h := hdr_enc (V (log_start g)) bl) in *.
  rewrite (install_logged _ V) in Hw3 by
    (intros k b Hk; rewrite fupd_ne by lia; by apply logged_at).
  destruct (write_head_ok _ ds [] _ _ _ _ _ (log_lists_empty _ _ _ Hll) Hw3) as (s4&E4&Hw4);
    [rewrite size_empty; unfold NBUF; lia|].
  exists s4. split; [exact E4|]. rewrite difference_disjoint_L in Hw4 by set_solver. cbn [log_start set_lh] in Hw4.
  rewrite (apply_writes_other _ (home_writes V bl)), fupd_eq in Hw4.
  2:{ unfold home_writes. rewrite <- list_fmap_compose, list_fmap_id. by rewrite elem_of_list_to_set in HsP. }
  unfold commit_writes. fold h. rewrite !apply_writes_app. simpl. by rewrite <- !app_assoc in Hw4.
Qed.

(** The log as [initlog] configures it, before the header is read. *)
Record log_at (g : log) (ds : Z) : Prop := LogAt {
  la_dev : log_dev g = 1;
  la_start : 0 <= log_start g;
  la_size : 1 <= log_size g;
  la_area : log_start g + log_size g <= ds;
  la_len : length (lh_block (log_lh g)) = 30%nat
}.

(** A header block that lists blocks outside the log area. *)
Record hdr_valid (g : log) (ds : Z) (h : list Z) : Prop := HdrValid {
  hv_len : length h = 512%nat;
  hv_n : 0 <= hdr_n h <= LOGSIZE /\ hdr_n h <= log_size g - 1;
  hv_blocks : forall b, b ∈ hdr_list h -> 0 <= b < ds /\ ~ in_log g b
}.

Lemma length_hdr_list h : 0 <= hdr_n h -> Z.of_nat (length (hdr_list h)) = hdr_n h.
Proof. intros. unfold hdr_list. rewrite length_map, length_seqZ. lia. Qed.

Lemma recover_ok g ds s D T :
  log_at g ds -> hdr_valid g ds (D (log_start g)) -> world s D D ∅ T g ds ∅ ->
  let ws := recover_writes (log_start g) D in
  exists s' g', recover_from_log s = Ret tt s' /\
    world s' (apply_writes D ws) (apply_writes D ws) ∅ (T ++ ws) g' ds ∅ /\
    log_lists g' ds [] /\ log_start g' = log_start g /\ log_size g' = log_size g /\
    log_outstanding g' = log_outstanding g /\ log_committing g' = log_committing g.
Proof.
  intros [Hdev Hst Hsz Har Hlen] [Hhl [Hn1 Hn2] Hb] Hw ws.
  assert (H0 : Z.of_nat (size (∅ : gset Z)) < NBUF) by (rewrite size_empty; unfold NBUF; lia).
  unfold recover_from_log.
  destruct (read_head_ok g ds s D D T ∅) as (s1&g1&E1&Hw1&Gs&Gz&Gd&Go&Gc&Gl&Gn&Gt); try done; [lia|].
  erewrite bind_run by exact E1. set (bl := hdr_list (D (log_start g))) in *.
  assert (Hbl : Z.of_nat (length bl) = hdr_n (D (log_start g))) by (apply length_hdr_list; lia).
  assert (Hll : log_lists g1 ds bl).
  { split; try done; try congruence; try lia. intros b Hin. destruct (Hb b Hin).
    split; [done|]. unfold in_log in *. by rewrite Gs, Gz. }
  unfold install_trans, get_log. rewrite bind_assoc, bind_gets. mget Hw1. rewrite Gn.
  destruct (install_loop_ok g1 ds bl Hll [] bl _ _ _ _ _ eq_refl Hw1 H0) as (s2&E2&Hw2).
  { right. rewrite size_empty. unfold NBUF. lia. }
  erewrite bind_run by exact E2. unfold set_lh_n, mod_log. rewrite bind_modify. mget Hw2.
  apply (w_set_log _ _ _ _ _ _ _ _ (set_lh (LogHdr 0 (lh_block (log_lh g1))) g1)) in Hw2.
  cbn [length] in Hw2. change (Z.of_nat 0) with 0 in Hw2.
  rewrite difference_disjoint_L in Hw2 by set_solver.
  pose proof (log_lists_empty _ _ _ Hll) as Hll'.
  destruct (write_head_ok _ ds [] _ _ _ _ _ Hll' Hw2 H0) as (s3&E3&Hw3).
  exists s3, (set_lh (LogHdr 0 (lh_block (log_lh g1))) g1). split; [exact E3|].
  rewrite difference_disjoint_L in Hw3 by set_solver. cbn [log_start set_lh] in Hw3.
  rewrite apply_writes_other in Hw3.
  2:{ rewrite install_writes_fst. intros Hin. destruct (Hb _ Hin) as [_ []].
      unfold in_log. rewrite Gs. lia. }
  subst ws. unfold recover_writes. fold bl. rewrite apply_writes_app. simpl.
  rewrite Gs in *. rewrite <- app_assoc in Hw3. done.
Qed.

(** *** Crashes *)

(** A disk off the log area. *)
Definition same_home (g : log) (D D' : Z -> list Z) : Prop :=
  forall n, ~ in_log g n -> D n = D' n.

Lemma prefix_app_cases {A} (p a b : list A) :
  p `prefix_of` (a ++ b) -> p `prefix_of` a \/ exists q, p = a ++ q /\ q `prefix_of` b.
Proof.
  revert p. induction a as [|x a IH]; intros p H; simpl in *; [right; eauto|].
  destruct p as [|y p]; [left; apply prefix_nil|].
  pose proof (prefix_cons_inv_1 _ _ _ _ H) as ->. apply prefix_cons_inv_2 in H.
  destruct (IH p H) as [?|(q&->&?)]; [left; by apply prefix_cons|right; eauto].
Qed.

Lemma prefix_fst (p ws : list (Z * list Z)) n : p `prefix_of` ws -> n ∈ p.*1 -> n ∈ ws.*1.
Proof. intros [q ->]. rewrite fmap_app. set_solver. Qed.

Lemma home_writes_fst V bl : (home_writes V bl).*1 = bl.
Proof. unfold home_writes. rewrite <- list_fmap_compose. apply list_fmap_id. Qed.

Lemma prefix_in (p ws : list (Z * list Z)) x : p `prefix_of` ws -> x ∈ p -> x ∈ ws.
Proof. intros [q ->]. set_solver. Qed.

(** A disk written with a prefix of [home_writes] holds [V] or the old block. *)
Lemma home_prefix_at D V bl p n :
  p `prefix_of` home_writes V bl ->
  apply_writes D p n = D n \/ n ∈ bl /\ apply_writes D p n = V n.
Proof.
  revert D p. induction bl as [|b bl IH]; intros D p Hp.
  - apply prefix_nil_inv in Hp as ->. by left.
  - destruct p as [|w p]; [by left|]. simpl in Hp.
    pose proof (prefix_cons_inv_1 _ _ _ _ Hp) as ->. apply prefix_cons_inv_2 in Hp. simpl.
    destruct (IH (fupd D b (V b)) p Hp) as [->|[? ->]]; [|right; set_solver].
    rewrite fupd_at. destruct (Z.eqb_spec n b) as [->|]; [right; set_solver|by left].
Qed.

Definition recovered (g : log) (D : Z -> list Z) : Z -> list Z :=
  apply_writes D (recover_writes (log_start g) D).

Lemma recovered_hdr g D :
  length (D (log_start g)) = 512%nat -> hdr_n (recovered g D (log_start g)) = 0.
Proof.
  intros Hl. unfold recovered, recover_writes. rewrite apply_writes_app. simpl.
  rewrite fupd_eq. by apply hdr_enc_nil.
Qed.

Lemma recovered_off g ds D n :
  hdr_valid g ds (D (log_start g)) -> ~ in_log g n -> n ∉ hdr_list (D (log_start g)) ->
  recovered g D n = D n.
Proof.
  intros [_ [Hn1 Hn2] _] Hnl Hni. apply apply_writes_other. unfold recover_writes.
  rewrite fmap_app, install_writes_fst. simpl. rewrite elem_of_app, list_elem_of_singleton.
  intros [?| ->]; [done|]. apply Hnl. unfold in_log. lia.
Qed.

(** Nothing to replay: recovery leaves the home blocks alone. *)
Lemma recovered_idle g ds D :
  length (D (log_start g)) = 512%nat -> hdr_n (D (log_start g)) = 0 -> 1 <= log_size g ->
  hdr_valid g ds (D (log_start g)) /\ hdr_n (recovered g D (log_start g)) = 0 /\
  same_home g (recovered g D) D.
Proof.
  intros Hl Hn Hs.
  assert (Hnil : hdr_list (D (log_start g)) = []) by (unfold hdr_list; by rewrite Hn).
  assert (Hv : hdr_valid g ds (D (log_start g))).
  { split; [done|rewrite Hn; unfold LOGSIZE; lia|]. rewrite Hnil. intros b Hb. by apply elem_of_nil in Hb. }
  split; [done|]. split; [by apply recovered_hdr|].
  intros n Hni. eapply recovered_off; [done..|]. rewrite Hnil. apply not_elem_of_nil.
Qed.

Section crash.
Context (g : log) (ds : Z) (bl : list Z) (V D : Z -> list Z).
Context (Hll : log_lists g ds bl) (Hnd : NoDup bl) (Hds : ds <= 2 ^ 31).
Context (Hlen : length (D (log_start g)) = 512%nat) (H0 : hdr_n (D (log_start g)) = 0).
Context (HV : forall n, n ∉ bl -> V n = D n).

Local Abbreviation st := (log_start g).
Local Abbreviation h := (hdr_enc (V (log_start g)) bl).
Local Abbreviation committed := (fupd (apply_writes D (log_writes (log_start g) V 0 bl)) (log_start g) h).

Local Lemma start_in_log : in_log g st /\ 1 <= log_size g.
Proof. destruct (ll_cap _ _ _ Hll). unfold in_log. lia. Qed.
Local Lemma start_not_listed : st ∉ bl.
Proof. intros [_ []]%(ll_blocks _ _ _ Hll). apply start_in_log. Qed.
Local Lemma header_lists : hdr_list h = bl /\ length h = 512%nat /\ hdr_n h = Z.of_nat (length bl).
Proof.
  rewrite length_hdr_enc, (HV st) by apply start_not_listed.
  split; [|split; [done|apply hdr_n_enc; [done|apply (ll_cap _ _ _ Hll)]]].
  apply hdr_roundtrip; [done|apply (ll_cap _ _ _ Hll)|].
  intros b [? _]%(ll_blocks _ _ _ Hll). unfold is_i32. lia.
Qed.
Local Lemma log_slot_in_log n : st < n <= st + Z.of_nat (length bl) -> in_log g n.
Proof. destruct (ll_cap _ _ _ Hll). unfold in_log. lia. Qed.

(** Cut while the log is being written: the old state. *)
Lemma crash_logging p :
  p `prefix_of` log_writes st V 0 bl ->
  let D1 := apply_writes D p in
  hdr_valid g ds (D1 st) /\ hdr_n (recovered g D1 st) = 0 /\ same_home g (recovered g D1) D.
Proof.
  intros Hp D1.
  assert (Hoff : forall n, ~ (st < n <= st + Z.of_nat (length bl)) -> D1 n = D n).
  { intros n Hn. apply apply_writes_other. intros Hin%(prefix_fst _ _ _ Hp). by apply log_writes_in in Hin. }
  destruct (recovered_idle g ds D1) as (?&?&Hh).
  - by rewrite Hoff by lia.
  - by rewrite Hoff by lia.
  - apply start_in_log.
  - split_and!; try done. intros n Hn. rewrite Hh by done. apply Hoff. by intros ?%log_slot_in_log.
Qed.

(** Cut after the header write, while installing: the new state. *)
Lemma crash_installing q :
  q `prefix_of` home_writes V bl ->
  let D1 := apply_writes committed q in
  hdr_valid g ds (D1 st) /\ hdr_n (recovered g D1 st) = 0 /\ same_home g (recovered g D1) V.
Proof.
  intros Hq D1. destruct header_lists as (Hhl&Hhlen&Hhn). pose proof start_not_listed as Hst.
  assert (Hlog : forall n, in_log g n -> D1 n = committed n).
  { intros n Hn. destruct (home_prefix_at committed V bl q n Hq) as [E|[Hb _]]; [exact E|].
    by destruct (ll_blocks _ _ _ Hll n Hb). }
  assert (HD1 : D1 st = h) by (rewrite Hlog by apply start_in_log; by rewrite fupd_eq).
  assert (Hv : hdr_valid g ds (D1 st)).
  { rewrite HD1. destruct (ll_cap _ _ _ Hll).
    split; [done|lia|rewrite Hhl; apply (ll_blocks _ _ _ Hll)]. }
  rewrite HD1 in *. split; [done|]. split; [apply recovered_hdr; by rewrite HD1|].
  intros n Hn. destruct (decide (n ∈ bl)) as [Hin|Hin].
  - apply list_elem_of_lookup in Hin as [k Hk]. unfold recovered, recover_writes.
    rewrite HD1, Hhl, apply_writes_app. simpl. rewrite fupd_ne by (intros ->; apply Hn, start_in_log).
    pose proof (lookup_lt_Some _ _ _ Hk).
    rewrite (apply_writes_at _ _ n (D1 (st + (0 + Z.of_nat k) + 1))).
    + rewrite Hlog by (apply log_slot_in_log; lia). rewrite fupd_ne by lia. by apply logged_at.
    + by rewrite install_writes_fst.
    + by apply install_writes_elem.
  - rewrite (recovered_off g ds) by (rewrite ?HD1, ?Hhl; done).
    destruct (home_prefix_at committed V bl q n Hq) as [E|[? _]]; [|done]. fold D1 in E. rewrite E.
    rewrite fupd_ne by (intros ->; apply Hn, start_in_log).
    rewrite logged_off by (by intros ?%log_slot_in_log). symmetry. by apply HV.
Qed.

(** The transaction is complete. *)
Lemma crash_complete :
  let D1 := apply_writes D (commit_writes st V bl) in
  hdr_valid g ds (D1 st) /\ hdr_n (recovered g D1 st) = 0 /\ same_home g (recovered g D1) V.
Proof.
  destruct header_lists as (Hhl&Hhlen&Hhn).
  assert (E : apply_writes D (commit_writes st V bl) =
    fupd (apply_writes committed (home_writes V bl)) st (hdr_enc h [])).
  { unfold commit_writes. by rewrite !apply_writes_app. }
  rewrite E. intros D1. assert (HD1 : D1 st = hdr_enc h []) by apply fupd_eq.
  destruct (recovered_idle g ds D1) as (?&?&Hh).
  - rewrite HD1. by rewrite length_hdr_enc.
  - rewrite HD1. by apply hdr_enc_nil.
  - apply start_in_log.
  - split_and!; try done. intros n Hn. rewrite Hh by done. subst D1.
    rewrite fupd_ne by (intros ->; apply Hn, start_in_log).
    destruct (decide (n ∈ bl)) as [Hin|Hin].
    + apply apply_writes_at; [by rewrite home_writes_fst|]. unfold home_writes.
      apply list_elem_of_fmap. by exists n.
    + rewrite apply_writes_other by (by rewrite home_writes_fst).
      rewrite fupd_ne by (intros ->; apply Hn, start_in_log).
      rewrite logged_off by (by intros ?%log_slot_in_log). symmetry. by apply HV.
Qed.

(** Recovery from the disk after any first part [p] of a commit's writes. *)
Lemma crash_anywhere p :
  p `prefix_of` commit_writes st V bl ->
  let D1 := apply_writes D p in
  hdr_valid g ds (D1 st) /\ hdr_n (recovered g D1 st) = 0 /\
  same_home g (recovered g D1) (if (length p <=? length bl)%nat then D else V).
Proof.
  intros Hp.
  assert (Hll' : length (log_writes st V 0 bl) = length bl).
  { rewrite <- (length_fmap fst), log_writes_fst, length_map, length_seqZ. lia. }
  pose proof Hp as Hp0. unfold commit_writes in Hp.
  apply prefix_app_cases in Hp as [Hp|(q&->&Hq)].
  - destruct (Nat.leb_spec (length p) (length bl)); [by apply crash_logging|].
    apply prefix_length in Hp. lia.
  - destruct q as [|w q].
    { rewrite app_nil_r, Hll', Nat.leb_refl. by apply crash_logging. }
    rewrite length_app, Hll'. destruct (Nat.leb_spec (length bl + length (w :: q)) (length bl)); [simpl in *; lia|].
    simpl in Hq. pose proof (prefix_cons_inv_1 _ _ _ _ Hq) as ->. apply prefix_cons_inv_2 in Hq.
    apply prefix_app_cases in Hq as [Hq|(r&->&Hr)].
    + rewrite apply_writes_app. simpl. by apply crash_installing.
    + destruct r as [|w r].
      * rewrite app_nil_r, apply_writes_app. simpl. by apply crash_installing.
      * pose proof (prefix_cons_inv_1 _ _ _ _ Hr) as ->. apply prefix_cons_inv_2, prefix_nil_inv in Hr as ->.
        apply crash_complete.
Qed.
End crash.

(** ** Booting *)

(** The machine after power-up over the disk [D]: all kernel data zero. *)
Definition powered_up (D : Z -> list Z) (ds : Z) : bstate :=
  BState (fun _ => bss_buf) D ds [] 0 (Log 0 0 0 0 0 (LogHdr 0 (replicate 30 0))).

Lemma powered_up_world D ds :
  exists s, binit (powered_up D ds) = Ret tt s /\
    world s D D ∅ [] (blog (powered_up D ds)) ds ∅.
Proof.
  destruct (binit_ok (powered_up D ds)) as (s&E&Es&Hok&Hz); [done|]. exists s. split; [exact E|].
  assert (Hd : disk s = D) by (rewrite Es; reflexivity). rewrite Hd in Hok.
  split; [|..|rewrite Es; reflexivity|rewrite Es; reflexivity|rewrite Es; reflexivity].
  - eexists. rewrite fmap_empty, Hd. exact Hok.
  - intros b bno d H. by rewrite lookup_empty in H.
  - intros n. split; [intros []%not_elem_of_empty|]. intros (i&Hi&_&_&Hy). unfold dirty in Hy.
    destruct (Hz i Hi) as (Hf&_). rewrite Hf in Hy. discriminate Hy.
  - exact Hd.
Qed.

Lemma readsb_ok s V D T g ds P :
  world s V D ∅ T g ds P -> Z.of_nat (size P) < NBUF -> 1 < ds ->
  exists s', readsb 1 s = Ret (decode_sb (V 1)) s' /\ world s' V D ∅ T g ds P.
Proof.
  intros Hw Hsz Hds. unfold readsb.
  destruct (w_bread s V D ∅ T g ds P 1 Hw) as (b&s1&E1&_&Hw1);
    [apply unlent_empty|done|left; by rewrite map_size_empty|].
  erewrite bind_run by exact E1.
  erewrite bind_run by (eapply w_bdata; [done|apply lookup_insert_eq]).
  destruct (w_brelse _ _ _ _ _ _ _ _ b 1 Hw1) as (s2&E2&Hw2); [apply lookup_insert_eq|].
  erewrite bind_run by exact E2. rewrite delete_insert_eq, delete_empty in Hw2. by exists s2.
Qed.

(** The superblock of the disk describes a log of [size] blocks at [start]. *)
Record sb_describes (D : Z -> list Z) (ds start size : Z) : Prop := SbDescribes {
  sd_start : i32 (sb_logstart (decode_sb (D 1))) = start;
  sd_size : i32 (sb_nlog (decode_sb (D 1))) = size;
  sd_range : 1 < start /\ 1 <= size /\ start + size <= ds
}.

(** Boot: [binit] then [initlog(ROOTDEV)]. *)
Definition boot_log : M bstate unit := binit ;; initlog 1.

Lemma boot_ok D ds g :
  sb_describes D ds (log_start g) (log_size g) -> hdr_valid g ds (D (log_start g)) ->
  exists s g', boot_log (powered_up D ds) = Ret tt s /\
    world s (recovered g D) (recovered g D) ∅ (recover_writes (log_start g) D) g' ds ∅ /\
    log_lists g' ds [] /\ log_start g' = log_start g /\ log_size g' = log_size g /\
    log_outstanding g' = 0 /\ log_committing g' = 0.
Proof.
  intros [Hs Hz (Hr1&Hr2&Hr3)] Hv. unfold boot_log.
  destruct (powered_up_world D ds) as (s0&E0&Hw0). erewrite bind_run by exact E0.
  unfold initlog. change (BSIZE <=? 4 + 4 * LOGSIZE) with false. cbv iota.
  destruct (readsb_ok _ _ _ _ _ _ _ Hw0) as (s1&E1&Hw1); [rewrite size_empty; unfold NBUF; lia|lia|].
  erewrite bind_run by exact E1. unfold mod_log. rewrite bind_modify. mget Hw1. rewrite Hs, Hz.
  set (g1 := Log _ _ _ _ _ _). apply (w_set_log _ _ _ _ _ _ _ _ g1) in Hw1.
  assert (Ha : log_at g1 ds) by (split; cbn; reflexivity || lia).
  assert (Hv1 : hdr_valid g1 ds (D (log_start g1))) by (destruct Hv; split; assumption).
  destruct (recover_ok g1 ds _ D _ Ha Hv1 Hw1) as (s2&g2&E2&Hw2&Hg2).
  exists s2, g2. split; [exact E2|]. split; [exact Hw2|exact Hg2].
Qed.

(** ** Operations of a transaction *)

(** The log between commits, for its clients: the blocks [bl] of the running
    transaction are pinned, the log on the disk is empty. *)
Record logged (s : bstate) (V D : Z -> list Z) (L : gmap Z (Z * list Z))
    (T : list (Z * list Z)) (g : log) (ds : Z) (bl : list Z) : Prop := Logged {
  lg_world : world s V D L T g ds (list_to_set bl);
  lg_lists : log_lists g ds bl;
  lg_nodup : NoDup bl;
  lg_size : log_size g <= NBUF;
  lg_ds : ds <= 2 ^ 31;
  lg_hlen : length (D (log_start g)) = 512%nat;
  lg_clear : hdr_n (D (log_start g)) = 0
}.

Lemma find_slot_spec l x i :
  (exists k, l !! k = Some x /\ find_slot l x i = i + Z.of_nat k) \/
  ((x ∉ l) /\ find_slot l x i = i + Z.of_nat (length l)).
Proof.
  revert i. induction l as [|y l IH]; intros i; simpl.
  - right. split; [apply not_elem_of_nil|lia].
  - destruct (Z.eqb_spec y x) as [->|Hne].
    + left. exists 0%nat. split; [done|lia].
    + destruct (IH (i + 1)) as [(k&Hk&->)|[Hn ->]].
      * left. exists (S k). split; [done|lia].
      * right. split; [set_solver|lia].
Qed.

Definition same_log_frame (g g' : log) : Prop :=
  log_start g' = log_start g /\ log_size g' = log_size g /\
  log_outstanding g' = log_outstanding g /\ log_committing g' = log_committing g.

(** What [log_write] does to the in-memory header. *)
Definition log_add (bno : Z) (bl : list Z) : list Z :=
  if decide (bno ∈ bl) then bl else bl ++ [bno].

Lemma updZ_id (l : list Z) k x : l !! k = Some x -> updZ l (Z.of_nat k) x = l.
Proof.
  intros H. unfold updZ. destruct (Z.ltb_spec (Z.of_nat k) 0); [done|].
  rewrite Nat2Z.id. by apply list_insert_id.
Qed.

Lemma log_lists_add g ds bl bno :
  log_lists g ds bl -> (bno ∉ bl) -> 0 <= bno < ds -> ~ in_log g bno ->
  Z.of_nat (length bl) < LOGSIZE -> Z.of_nat (length bl) < log_size g - 1 ->
  log_lists (set_lh (LogHdr (Z.of_nat (length bl) + 1)
    (updZ (lh_block (log_lh g)) (Z.of_nat (length bl)) bno)) g) ds (bl ++ [bno]).
Proof.
  intros [? ? ? ? Hlen Hbl [? ?] Hb] Hni Hr Hnl H1 H2. unfold LOGSIZE in *.
  split; simpl; rewrite ?length_app; simpl; try done; try lia.
  - by rewrite length_updZ.
  - rewrite Nat.add_1_r, take_S_updZ by lia. by rewrite Hbl.
  - unfold LOGSIZE. lia.
  - intros b [Hin| ->%list_elem_of_singleton]%elem_of_app; [by apply Hb|done].
Qed.

Lemma log_write_ok s V D L T g ds bl b bno d :
  logged s V D L T g ds bl -> L !! b = Some (bno, d) ->
  0 <= bno < ds -> ~ in_log g bno -> 1 <= log_outstanding g ->
  safe (fun e => e = Panicked "too big a transaction" /\
                 Z.of_nat (length bl) = LOGSIZE `min` (log_size g - 1))
    (log_write b) s
    (fun _ s' => exists g', logged s' (fupd V bno d) D L T g' ds (log_add bno bl) /\
       same_log_frame g g').
Proof.
  intros [Hw Hll Hnd Hsz Hds Hhl Hcl] HL Hr Hnl Ho.
  unfold log_write, get_log. apply safe_gets. mget Hw. rewrite (ll_n _ _ _ Hll).
  destruct (ll_cap _ _ _ Hll) as [Hc1 Hc2].
  destruct (Z.leb_spec LOGSIZE (Z.of_nat (length bl))); [split; [done|lia]|].
  destruct (Z.leb_spec (log_size g - 1) (Z.of_nat (length bl))); [split; [done|lia]|].
  destruct (Z.ltb_spec (log_outstanding g) 1); [lia|]. cbn [orb].
  unfold safe. rewrite bind_get_buf, Nat2Z.id, (ll_bl _ _ _ Hll).
  assert (b_blockno (bufs s b) = bno) as ->.
  { destruct Hw as [[l Hok] _ _ _ _ _ _].
    destruct (co_lent _ _ _ _ _ Hok b bno) as (_&_&_&_&_&?); [by eapply fst_lookup|done]. }
  destruct (find_slot_spec bl bno 0) as [(k&Hk&->)|[Hni ->]]; rewrite Z.add_0_l.
  - pose proof (lookup_lt_Some _ _ _ Hk).
    erewrite bind_run by (apply set_lh_block_run; lia). mget Hw.
    destruct (Z.eqb_spec (Z.of_nat k) (Z.of_nat (length bl))); [lia|]. simpl when. rewrite bind_ret_l.
    rewrite updZ_id by (rewrite <- (ll_bl _ _ _ Hll) in Hk; by apply lookup_take_Some in Hk as [? _]).
    assert (set_lh (LogHdr (lh_n (log_lh g)) (lh_block (log_lh g))) g = g) as -> by (by destruct g as [? ? ? ? ? []]).
    apply (w_set_log _ _ _ _ _ _ _ _ g) in Hw.
    destruct (w_pin_add _ _ _ _ _ _ _ _ b bno d Hw HL) as (s1&->&Hw1).
    exists g. split; [|done]. unfold log_add. assert (bno ∈ bl) by (by eapply list_elem_of_lookup_2).
    rewrite decide_True by done. split; try done.
    rewrite (subseteq_union_1_L {[bno]}) in Hw1; [done|]. set_solver.
  - erewrite bind_run by (apply set_lh_block_run; lia). mget Hw.
    rewrite Z.eqb_refl. unfold when, set_lh_n, mod_log. rewrite bind_modify.
    set (g' := set_lh (LogHdr (Z.of_nat (length bl) + 1)
      (updZ (lh_block (log_lh g)) (Z.of_nat (length bl)) bno)) g).
    match goal with |- context [mod_buf _ _ ?x] => change x with (set_blog g' s) end.
    apply (w_set_log _ _ _ _ _ _ _ _ g') in Hw.
    destruct (w_pin_add _ _ _ _ _ _ _ _ b bno d Hw HL) as (s1&->&Hw1).
    exists g'. split; [|done]. unfold log_add. rewrite decide_False by done.
    split; try done.
    + replace (list_to_set (bl ++ [bno])) with ({[bno]} ∪ list_to_set bl : gset Z) by set_solver. done.
    + by apply log_lists_add.
    + apply NoDup_app. split_and!; [done|set_solver|apply NoDup_singleton].
Qed.

(** [begin_op] admits an operation when ten more blocks per operation in
    progress still fit, and otherwise sleeps. *)
Lemma begin_op_run s :
  let g := blog s in
  begin_op s =
  if (log_committing g =? 0) && (lh_n (log_lh g) + (log_outstanding g + 1) * MAXOPBLOCKS <=? LOGSIZE)
  then Ret tt (set_blog (set_outstanding (log_outstanding g + 1) g) s)
  else Stop (Slept LOGCHAN) s.
Proof.
  simpl. unfold begin_op, get_log. rewrite bind_gets. destruct (Z.eqb_spec (log_committing (blog s)) 0); simpl; [|done].
  destruct (Z.ltb_spec LOGSIZE (lh_n (log_lh (blog s)) + (log_outstanding (blog s) + 1) * MAXOPBLOCKS));
    destruct (Z.leb_spec (lh_n (log_lh (blog s)) + (log_outstanding (blog s) + 1) * MAXOPBLOCKS) LOGSIZE);
    done || lia.
Qed.

(** All the writes of a commit together. *)
Lemma commit_final g ds bl V D W :
  log_lists g ds bl -> NoDup bl -> (forall n, n ∉ bl -> V n = D n) -> (forall n, n ∉ bl -> W n = D n) ->
  same_home g (apply_writes W (commit_writes (log_start g) V bl)) V /\
  apply_writes W (commit_writes (log_start g) V bl) (log_start g) =
    hdr_enc (hdr_enc (V (log_start g)) bl) [].
Proof.
  intros Hll Hnd HVD HW. destruct (ll_cap _ _ _ Hll) as [_ Hc2].
  unfold commit_writes. rewrite !apply_writes_app. simpl. split; [|apply fupd_eq].
  intros n Hn. assert (n <> log_start g) by (intros ->; apply Hn; unfold in_log; lia).
  rewrite fupd_ne by done. destruct (decide (n ∈ bl)).
  - apply apply_writes_at; [by rewrite home_writes_fst|]. unfold home_writes.
    apply list_elem_of_fmap. by exists n.
  - rewrite apply_writes_other by (by rewrite home_writes_fst). rewrite fupd_ne by done.
    rewrite logged_off by (intros ?; apply Hn; unfold in_log; lia).
    rewrite HW by done. symmetry. by apply HVD.
Qed.

(** The transaction after the last [end_op]: everything logged is on the disk. *)
Lemma commit_logged s V D T g ds bl :
  logged s V D ∅ T g ds bl ->
  exists s' V' D' T', commit s = Ret tt s' /\
    logged s' V' D' ∅ T' (set_lh (LogHdr 0 (lh_block (log_lh g))) g) ds [] /\
    same_home g V' V /\ same_home g D' V.
Proof.
  intros Hlg. pose proof Hlg as [Hw Hll Hnd Hsz Hds Hhl Hcl]. destruct (ll_cap _ _ _ Hll) as [Hc1 Hc2].
  pose proof (log_lists_empty _ _ _ Hll) as Hll'.
  assert (HVD : forall n, n ∉ bl -> V n = D n).
  { intros n Hn. apply (world_clean _ _ _ _ _ _ _ _ n Hw). by rewrite elem_of_list_to_set. }
  destruct bl as [|x bl0] eqn:Ebl.
  - exists s, V, D, T. unfold commit, get_log. rewrite bind_gets. mget Hw. rewrite (ll_n _ _ _ Hll). simpl.
    assert (g = set_lh (LogHdr 0 (lh_block (log_lh g))) g) as <-.
    { destruct g as [? ? ? ? ? [n bk]]. unfold set_lh. simpl. pose proof (ll_n _ _ _ Hll) as E. simpl in E.
      by rewrite E. }
    split_and!; try done. intros n _. symmetry. apply HVD, not_elem_of_nil.
  - rewrite <- Ebl in *. destruct (commit_ok g ds bl s V D T) as (s'&E&Hw'); try done; [subst; simpl; lia|].
    set (ws := commit_writes (log_start g) V bl) in *.
    exists s', (apply_writes V ws), (apply_writes D ws), (T ++ ws). split; [done|].
    pose proof (fun W => commit_final g ds bl V D W Hll Hnd HVD) as Hat.
    assert (Hst : log_start g ∉ bl).
    { intros [_ []]%(ll_blocks _ _ _ Hll). unfold in_log. lia. }
    destruct (Hat V HVD) as [HatV _]. destruct (Hat D ltac:(done)) as [HatD HatH].
    fold ws in HatH, HatD, HatV.
    assert (Hhl' : length (hdr_enc (V (log_start g)) bl) = 512%nat) by (rewrite length_hdr_enc, HVD; done).
    split; [|done]. split; try done; cbn [log_start set_lh].
    + by apply NoDup_nil.
    + by rewrite HatH, length_hdr_enc.
    + rewrite HatH. by apply hdr_enc_nil.
Qed.

Lemma end_op_last_ok s V D T g ds bl :
  logged s V D ∅ T g ds bl -> log_committing g = 0 -> log_outstanding g = 1 ->
  exists s' V' D' T' g', end_op s = Ret tt s' /\ logged s' V' D' ∅ T' g' ds [] /\
    same_home g V' V /\ same_home g D' V /\
    log_outstanding g' = 0 /\ log_committing g' = 0.
Proof.
  intros [Hw Hll Hnd Hsz Hds Hhl Hcl] Hc Ho. unfold end_op, mod_log. rewrite bind_modify. mget Hw.
  unfold get_log. rewrite bind_gets. simpl. rewrite Hc, Ho. simpl. rewrite bind_modify.
  set (g1 := set_committing 1 (set_outstanding (1 - 1) g)).
  match goal with |- context [bind commit _ ?x] => change x with (set_blog g1 s) end.
  assert (Hlg1 : logged (set_blog g1 s) V D ∅ T g1 ds bl).
  { split; try done; [by eapply w_set_log|by destruct Hll]. }
  destruct (commit_logged _ _ _ _ _ _ _ Hlg1) as (s1&V1&D1&T1&E1&Hlg2&HV&HD).
  rewrite (bind_run _ _ _ _ _ E1). unfold modify. destruct Hlg2 as [Hw2 Hll2 ? ? ? ? ?].
  mget Hw2. set (g2 := set_committing 0 _).
  exists (set_blog g2 s1), V1, D1, T1, g2. split; [done|]. split_and!; try done.
  split; try done; [by eapply w_set_log|by destruct Hll2].
Qed.

(** Recovery interrupted while it installs, and repeated. *)
Lemma restart_installing g ds D p :
  0 <= log_start g -> hdr_valid g ds (D (log_start g)) -> NoDup (hdr_list (D (log_start g))) ->
  p `prefix_of` install_writes (log_start g) D 0 (hdr_list (D (log_start g))) ->
  let D1 := apply_writes D p in
  hdr_valid g ds (D1 (log_start g)) /\ same_home g (recovered g D1) (recovered g D).
Proof.
  intros Hst Hv Hnd Hp D1. set (st := log_start g) in *. set (bl := hdr_list (D st)) in *.
  pose proof Hv as [Hlen [Hn1 Hn2] Hb]. pose proof (length_hdr_list _ (proj1 Hn1)) as Hbl. fold bl in Hbl.
  assert (Hsl : in_log g st) by (unfold in_log, st; lia).
  assert (Hoff : forall n, n ∉ bl -> D1 n = D n).
  { intros n Hn. apply apply_writes_other. intros Hin%(prefix_fst _ _ _ Hp).
    by rewrite install_writes_fst in Hin. }
  assert (Hlog : forall n, in_log g n -> D1 n = D n).
  { intros n Hn. apply Hoff. intros []%Hb. done. }
  rewrite (Hlog st) by done. split; [done|]. intros n Hn.
  unfold recovered, recover_writes. fold st. rewrite (Hlog st) by done. fold bl.
  rewrite !apply_writes_app. simpl. rewrite !fupd_ne by (by intros ->).
  destruct (decide (n ∈ bl)) as [[k Hk]%list_elem_of_lookup|Hni].
  - pose proof (lookup_lt_Some _ _ _ Hk).
    transitivity (D (st + (0 + Z.of_nat k) + 1)); [|symmetry];
      (apply apply_writes_at; [by rewrite install_writes_fst|]).
    + rewrite <- Hlog by (unfold in_log; fold st; lia). by apply install_writes_elem.
    + by apply install_writes_elem.
  - rewrite !apply_writes_other by (by rewrite install_writes_fst). by apply Hoff.
Qed.

(** Recovery interrupted anywhere and repeated. *)
Lemma recovered_restart g ds D p :
  0 <= log_start g -> hdr_valid g ds (D (log_start g)) -> NoDup (hdr_list (D (log_start g))) ->
  p `prefix_of` recover_writes (log_start g) D ->
  let D1 := apply_writes D p in
  hdr_valid g ds (D1 (log_start g)) /\ same_home g (recovered g D1) (recovered g D).
Proof.
  intros Hst Hv Hnd Hp. apply prefix_app_cases in Hp as [Hp|(q&->&Hq)]; [by apply restart_installing|].
  destruct q as [|w q]; [rewrite app_nil_r; by apply restart_installing|].
  pose proof (prefix_cons_inv_1 _ _ _ _ Hq) as ->. apply prefix_cons_inv_2, prefix_nil_inv in Hq as ->.
  change (apply_writes D _) with (recovered g D). destruct Hv as [Hlen [Hn1 Hn2] _].
  destruct (recovered_idle g ds (recovered g D)) as (?&_&?); try done; [|by apply recovered_hdr|lia].
  unfold recovered, recover_writes. rewrite apply_writes_app. simpl. rewrite fupd_eq. by rewrite length_hdr_enc.
Qed.

Lemma boot_logged D ds g :
  sb_describes D ds (log_start g) (log_size g) -> hdr_valid g ds (D (log_start g)) ->
  log_size g <= NBUF -> ds <= 2 ^ 31 ->
  exists s g', boot_log (powered_up D ds) = Ret tt s /\
    logged s (recovered g D) (recovered g D) ∅ (recover_writes (log_start g) D) g' ds [] /\
    log_start g' = log_start g /\ log_size g' = log_size g /\
    log_outstanding g' = 0 /\ log_committing g' = 0.
Proof.
  intros Hsb Hv Hsz Hds. pose proof (hv_len _ _ _ Hv) as Hlen.
  assert (Hl2 : length (recovered g D (log_start g)) = 512%nat).
  { unfold recovered, recover_writes. rewrite apply_writes_app. simpl. rewrite fupd_eq. by rewrite length_hdr_enc. }
  pose proof (recovered_hdr g D Hlen) as Hh.
  destruct (boot_ok D ds g Hsb Hv) as (s&g'&E&Hw&Hll&Es&Ez&Eo&Ec). exists s, g'.
  split; [exact E|]. clear E. split; [|done].
  split; rewrite ?Es, ?Ez; try done. by apply NoDup_nil.
Qed.

Lemma begin_op_logged s V D L T g ds bl :
  logged s V D L T g ds bl -> log_committing g = 0 ->
  Z.of_nat (length bl) + (log_outstanding g + 1) * MAXOPBLOCKS <= LOGSIZE ->
  exists s', begin_op s = Ret tt s' /\
    logged s' V D L T (set_outstanding (log_outstanding g + 1) g) ds bl.
Proof.
  intros [Hw Hll ? ? ? ? ?] Hc Hr. rewrite begin_op_run. mget Hw. rewrite Hc, (ll_n _ _ _ Hll).
  destruct (Z.leb_spec (Z.of_nat (length bl) + (log_outstanding g + 1) * MAXOPBLOCKS) LOGSIZE); [|lia].
  simpl. eexists. split; [done|]. split; try done; [by eapply w_set_log|by destruct Hll].
Qed.

(** One update of a file system operation: read a block, change it, log it. *)
Definition logged_update (n : Z) (f : list Z -> list Z) : M bstate unit :=
  let! b := bread 1 n in
  let! d := bdata b in
  bset b (f d) ;;
  log_write b ;;
  brelse b.

Lemma logged_update_ok s V D T g ds bl n f :
  logged s V D ∅ T g ds bl -> 1 <= log_outstanding g -> 0 <= n < ds -> ~ in_log g n ->
  Z.of_nat (length bl) < LOGSIZE `min` (log_size g - 1) ->
  exists s' g', logged_update n f s = Ret tt s' /\
    logged s' (fupd V n (f (V n))) D ∅ T g' ds (log_add n bl) /\ same_log_frame g g'.
Proof.
  intros Hlg Ho Hn Hnl Hcap. pose proof Hlg as [Hw Hll Hnd Hsz Hds Hhl Hcl]. unfold logged_update.
  destruct (w_bread s V D ∅ T g ds _ n Hw) as (b&s1&E1&_&Hw1); [apply unlent_empty|lia| |].
  { left. rewrite map_size_empty, size_list_to_set by done. lia. }
  erewrite bind_run by exact E1.
  erewrite bind_run by (eapply w_bdata; [done|apply lookup_insert_eq]).
  destruct (w_bset _ _ _ _ _ _ _ _ b n (V n) (f (V n)) Hw1) as (s2&E2&Hw2); [apply lookup_insert_eq|].
  erewrite bind_run by exact E2. rewrite insert_insert_eq in Hw2.
  assert (Hlg2 : logged s2 V D (<[b := (n, f (V n))]> ∅) T g ds bl) by (by split).
  pose proof (log_write_ok _ _ _ _ _ _ _ _ b n (f (V n)) Hlg2 (lookup_insert_eq _ _ _) Hn Hnl Ho) as Hs.
  unfold safe in Hs. destruct (log_write b s2) as [[] s3|e s3] eqn:E3; [|lia].
  destruct Hs as (g3&[Hw3 ? ? ? ? ? ?]&Hf). erewrite bind_run by exact E3.
  destruct (w_brelse _ _ _ _ _ _ _ _ b n Hw3) as (s4&E4&Hw4).
  { rewrite fupd_eq. apply lookup_insert_eq. }
  rewrite delete_insert_eq, delete_empty in Hw4. exists s4, g3. by split_and!.
Qed.

(** ** Properties *)

(** C1. Crash atomicity of the log.  A commit of the transaction [bl] returns
    and its disk writes are exactly [commit_writes], in that order.  If the
    machine loses power after any first part [p] of those writes, booting
    again ([binit], [initlog]) returns with an empty log, and outside the log
    area the disk holds the old contents of every block when the header had
    not been written, and the new contents of every block when it had. *)
Theorem commit_crash_atomic s V D T g ds bl p
  (Hlg : logged s V D ∅ T g ds bl) (Hne : bl <> [])
  (Hsb : sb_describes D ds (log_start g) (log_size g)) (H1 : 1 ∉ bl)
  (Hp : p `prefix_of` commit_writes (log_start g) V bl) :
  (exists s', commit s = Ret tt s' /\
     wtrace s' = T ++ commit_writes (log_start g) V bl /\
     disk s' = apply_writes D (commit_writes (log_start g) V bl)) /\
  exists s2, boot_log (powered_up (apply_writes D p) ds) = Ret tt s2 /\
    hdr_n (disk s2 (log_start g)) = 0 /\
    same_home g (disk s2) (if (length p <=? length bl)%nat then D else V).
Proof.
  destruct Hlg as [Hw Hll Hnd Hsz Hds Hhl Hcl]. split.
  - destruct (commit_ok g ds bl s V D T) as (s'&E&Hw'); try done; [destruct bl; simpl; done || lia|].
    exists s'. split; [done|]. by destruct Hw'.
  - assert (HVD : forall n, n ∉ bl -> V n = D n).
    { intros n Hn. apply (world_clean _ _ _ _ _ _ _ _ n Hw). by rewrite elem_of_list_to_set. }
    destruct (crash_anywhere g ds bl V D Hll Hnd Hds Hhl Hcl HVD p Hp) as (Hv&Hh&Hs).
    destruct (boot_ok (apply_writes D p) ds g) as (s2&g2&E2&Hw2&_); [|done|].
    + destruct Hsb as [E1 E2 (R1&R2&R3)]. assert (apply_writes D p 1 = D 1) as E.
      { apply apply_writes_other. intros Hin%(prefix_fst _ _ _ Hp). unfold commit_writes in Hin.
        rewrite !fmap_app, home_writes_fst, !elem_of_app in Hin. simpl in Hin.
        destruct Hin as [?%log_writes_in|[?%list_elem_of_singleton|[?|?%list_elem_of_singleton]]]; done || lia. }
      split; by rewrite ?E.
    + exists s2. destruct Hw2 as [_ _ _ -> _ _ _]. split_and!; assumption.
Qed.

(** C2. Recovery may itself be cut off and repeated: booting from a disk after
    any first part of recovery's own writes ends with the same home blocks as
    an undisturbed recovery. *)
Theorem recovery_restartable g ds D p
  (Hsb : sb_describes D ds (log_start g) (log_size g)) (Hv : hdr_valid g ds (D (log_start g)))
  (Hnd : NoDup (hdr_list (D (log_start g)))) (H1 : 1 ∉ hdr_list (D (log_start g)))
  (Hp : p `prefix_of` recover_writes (log_start g) D) :
  exists s1 s2, boot_log (powered_up D ds) = Ret tt s1 /\
    boot_log (powered_up (apply_writes D p) ds) = Ret tt s2 /\
    wtrace s1 = recover_writes (log_start g) D /\ same_home g (disk s2) (disk s1).
Proof.
  pose proof Hsb as [E1 E2 (R1&R2&R3)].
  destruct (recovered_restart g ds D p) as [Hv1 Hs]; try done; [lia|].
  assert (apply_writes D p 1 = D 1) as E.
  { apply apply_writes_other. intros Hin%(prefix_fst _ _ _ Hp). unfold recover_writes in Hin.
    rewrite fmap_app, install_writes_fst, elem_of_app in Hin. simpl in Hin.
    destruct Hin as [?|?%list_elem_of_singleton]; done || lia. }
  assert (Hsb' : sb_describes (apply_writes D p) ds (log_start g) (log_size g)) by (split; by rewrite ?E).
  destruct (boot_ok D ds g Hsb Hv) as (s1&g1&Eb1&Hw1&_).
  destruct (boot_ok (apply_writes D p) ds g Hsb' Hv1) as (s2&g2&Eb2&Hw2&_).
  exists s1, s2. destruct Hw1 as [_ _ _ -> -> _ _]. destruct Hw2 as [_ _ _ -> _ _ _].
  split_and!; assumption || reflexivity.
Qed.

(** [log_write] of a held buffer makes its data the logged contents of its
    block, keeps the log invariant, and adds the block to the transaction once
    (absorption); the only other outcome is the panic, exactly when the
    transaction already fills the log. *)
Theorem log_write_absorbs s V D L T g ds bl b bno d
  (Hlg : logged s V D L T g ds bl) (HL : L !! b = Some (bno, d))
  (Hr : 0 <= bno < ds) (Hnl : ~ in_log g bno) (Ho : 1 <= log_outstanding g) :
  safe (fun e => e = Panicked "too big a transaction" /\
                 Z.of_nat (length bl) = LOGSIZE `min` (log_size g - 1))
    (log_write b) s
    (fun _ s' => exists g', logged s' (fupd V bno d) D L T g' ds (log_add bno bl) /\
       same_log_frame g g').
Proof. by apply log_write_ok. Qed.

(** C6. The last [end_op] commits: it returns with every logged block on the
    disk, the log empty again and no operation outstanding. *)
Theorem end_op_commits s V D T g ds bl (Hlg : logged s V D ∅ T g ds bl)
  (Hc : log_committing g = 0) (Ho : log_outstanding g = 1) :
  exists s' V' D' T' g', end_op s = Ret tt s' /\ logged s' V' D' ∅ T' g' ds [] /\
    same_home g V' V /\ same_home g D' V /\
    log_outstanding g' = 0 /\ log_committing g' = 0.
Proof. by apply (end_op_last_ok s V D T g ds bl). Qed.

(** *** A disk as mkfs formats it: 1000 blocks, a log of LOGSIZE at block 2. *)
Definition demo_sb : list Z :=
  st32 (st32 (st32 (replicate 512 0) 0 1000) 12 LOGSIZE) 16 2.
Definition fmt_disk : Z -> list Z := fun n => if n =? 1 then demo_sb else replicate 512 0.
Definition fmt_log : log := Log 2 LOGSIZE 0 0 1 (LogHdr 0 (replicate 30 0)).

Lemma fmt_sb : sb_describes fmt_disk 1000 2 30.
Proof. split; [reflexivity|reflexivity|lia]. Qed.
Lemma fmt_hdr : hdr_valid fmt_log 1000 (fmt_disk 2).
Proof.
  split; [reflexivity|vm_compute; intuition discriminate|].
  intros b Hb. vm_compute in Hb. by apply elem_of_nil in Hb.
Qed.

(** A transaction on it that has logged block 100. *)
Lemma demo_transaction :
  exists s V D T g, logged s V D ∅ T g 1000 [100] /\ log_start g = 2 /\ log_size g = 30 /\
    log_outstanding g = 1 /\ log_committing g = 0 /\ sb_describes D 1000 2 30.
Proof.
  destruct (boot_logged fmt_disk 1000 fmt_log fmt_sb fmt_hdr) as (s0&g0&_&Hlg0&Hst&Hsz&Ho&Hc); [done|lia|].
  destruct (begin_op_logged _ _ _ _ _ _ _ _ Hlg0 Hc) as (s1&_&Hlg1); [rewrite Ho; done|].
  destruct (logged_update_ok _ _ _ _ _ _ _ 100 (fun d => st8 d 0 255) Hlg1) as (s2&g2&_&Hlg2&(F1&F2&F3&F4)).
  - simpl. lia.
  - lia.
  - unfold in_log. simpl. rewrite Hst, Hsz. simpl. unfold LOGSIZE. lia.
  - simpl. rewrite Hsz. done.
  - eexists _, _, _, _, g2. split; [exact Hlg2|]. rewrite F1, F2, F3, F4. simpl. rewrite Hst, Hsz, Ho, Hc.
    split_and!; try done.
Qed.

Lemma commit_crash_atomic_witness :
  exists s V D T g, logged s V D ∅ T g 1000 [100] /\
  (exists s', commit s = Ret tt s' /\
     wtrace s' = T ++ commit_writes (log_start g) V [100] /\
     disk s' = apply_writes D (commit_writes (log_start g) V [100])) /\
  exists s2, boot_log (powered_up (apply_writes D (take 2 (commit_writes (log_start g) V [100]))) 1000) = Ret tt s2 /\
    hdr_n (disk s2 (log_start g)) = 0 /\ same_home g (disk s2) V.
Proof.
  destruct demo_transaction as (s&V&D&T&g&Hlg&Hst&Hsz&Ho&Hc&Hsb). exists s, V, D, T, g. split; [exact Hlg|].
  apply (commit_crash_atomic s V D T g 1000 [100] (take 2 (commit_writes (log_start g) V [100])) Hlg).
  - discriminate.
  - rewrite Hst, Hsz. exact Hsb.
  - apply (bool_decide_unpack (1 ∉ [100])). exact I.
  - apply prefix_take.
Defined.

Lemma recovery_restartable_witness :
  exists s1 s2, boot_log (powered_up fmt_disk 1000) = Ret tt s1 /\
    boot_log (powered_up (apply_writes fmt_disk (recover_writes 2 fmt_disk)) 1000) = Ret tt s2 /\
    wtrace s1 = recover_writes 2 fmt_disk /\ same_home fmt_log (disk s2) (disk s1).
Proof.
  apply (recovery_restartable fmt_log 1000 fmt_disk (recover_writes 2 fmt_disk) fmt_sb fmt_hdr).
  - by apply NoDup_nil.
  - apply not_elem_of_nil.
  - reflexivity.
Defined.

Lemma log_write_absorbs_witness :
  exists s V D L T g b d, logged s V D L T g 1000 [100] /\
  safe (fun e => e = Panicked "too big a transaction" /\
                 Z.of_nat (length [100]) = LOGSIZE `min` (log_size g - 1))
    (log_write b) s
    (fun _ s' => exists g', logged s' (fupd V 200 d) D L T g' 1000 (log_add 200 [100]) /\
       same_log_frame g g').
Proof.
  destruct demo_transaction as (s&V&D&T&g&Hlg&Hst&Hsz&Ho&Hc&Hsb). pose proof Hlg as [Hw ? ? ? ? ? ?].
  destruct (w_bread s V D ∅ T g 1000 _ 200 Hw) as (b&s1&_&_&Hw1);
    [apply unlent_empty|lia|left; reflexivity|].
  exists s1, V, D, (<[b := (200, V 200)]> ∅), T, g, b, (V 200).
  assert (Hlg1 : logged s1 V D (<[b := (200, V 200)]> ∅) T g 1000 [100]) by (split; assumption).
  split; [exact Hlg1|].
  apply (log_write_absorbs s1 V D (<[b := (200, V 200)]> ∅) T g 1000 [100] b 200 (V 200) Hlg1).
  - apply lookup_insert_eq.
  - lia.
  - unfold in_log. rewrite Hst, Hsz. lia.
  - lia.
Defined.

Lemma end_op_commits_witness :
  exists s V D T g, logged s V D ∅ T g 1000 [100] /\
  exists s' V' D' T' g', end_op s = Ret tt s' /\ logged s' V' D' ∅ T' g' 1000 [] /\
    same_home g V' V /\ same_home g D' V /\
    log_outstanding g' = 0 /\ log_committing g' = 0.
Proof.
  destruct demo_transaction as (s&V&D&T&g&Hlg&Hst&Hsz&Ho&Hc&Hsb). exists s, V, D, T, g. split; [exact Hlg|].
  exact (end_op_commits s V D T g 1000 [100] Hlg Hc Ho).
Defined.

(** *** The reservation of [begin_op] is one block too generous *)

(** Three operations of MAXOPBLOCKS blocks each, on the log mkfs makes. *)
Definition three_ops : M bstate unit :=
  boot_log ;; begin_op ;; begin_op ;; begin_op ;;
  mfor (seqZ 100 30) (fun n => logged_update n (fun d => st8 d 0 255)).

(** C10. [begin_op] admits three concurrent operations of MAXOPBLOCKS blocks,
    since 3 * MAXOPBLOCKS = LOGSIZE, but the log area of LOGSIZE blocks that
    mkfs lays out keeps one block for the header: when the three operations
    together log 30 different blocks, each within its quota, [log_write]
    panics. *)
Theorem begin_op_overcommits :
  exists s, three_ops (powered_up fmt_disk 1000) = Stop (Panicked "too big a transaction") s.
Proof.
  assert (H : match three_ops (powered_up fmt_disk 1000) with
              | Stop (Panicked m) _ => bool_decide (m = "too big a transaction"%string)
              | _ => false end = true) by (vm_compute; reflexivity).
  destruct (three_ops _) as [? ?|[] s]; try discriminate H.
  apply bool_decide_eq_true in H as ->. by exists s.
Qed.
