(* ===== verification/Blk.v ===== *)
(** * What the file system relies on: a layer of logged blocks

    [BlockLayer] is the contract between fs.c and the buffer cache and log
    below it: a state that represents an assignment [V] of contents to blocks
    and a set [L] of held buffers, each with its block and current data.
    [logged_layer] shows that bio.c and log.c, inside a transaction, honour
    it. *)
From stdpp Require Import base numbers list gmap strings.
From S2P Require Import Prelude Block Bio Log.
Open Scope Z_scope.

Class BlockLayer (S : Type) := {
  blk_read : Z -> Z -> M S Z;                    (* bread *)
  blk_data : Z -> M S (list Z);                  (* b->data *)
  blk_set : Z -> list Z -> M S unit;             (* stores through b->data *)
  blk_log : Z -> M S unit;                       (* log_write *)
  blk_release : Z -> M S unit;                   (* brelse *)
  blk_begin : M S unit;                          (* begin_op *)
  blk_end : M S unit;                            (* end_op *)
  blk_init : Z -> M S unit;                      (* initlog *)

  blk_rep : S -> (Z -> list Z) -> gmap Z (Z * list Z) -> Prop;
  blk_usable : Z -> Prop;                        (* on the disk, not in the log *)
  blk_full : stop -> Prop;                       (* out of buffers or log space *)

  blk_read_law s V L n : blk_rep s V L -> unlent L n -> blk_usable n ->
    safe blk_full (blk_read 1 n) s (fun b s' =>
      L !! b = None /\ blk_rep s' V (<[b := (n, V n)]> L));
  blk_data_law s V L b n d : blk_rep s V L -> L !! b = Some (n, d) -> blk_data b s = Ret d s;
  blk_set_law s V L b n d d' : blk_rep s V L -> L !! b = Some (n, d) -> length d' = length d ->
    exists s', blk_set b d' s = Ret tt s' /\ blk_rep s' V (<[b := (n, d')]> L);
  blk_log_law s V L b n d : blk_rep s V L -> L !! b = Some (n, d) -> blk_usable n ->
    safe blk_full (blk_log b) s (fun _ s' => blk_rep s' (fupd V n d) L);
  blk_release_law s V L b n : blk_rep s V L -> L !! b = Some (n, V n) ->
    exists s', blk_release b s = Ret tt s' /\ blk_rep s' V (delete b L);
  blk_rep_ext s V V' L : (forall n, V' n = V n) -> blk_rep s V L -> blk_rep s V' L
}.

(** ** The instance *)

(** A running transaction on a log of [size] blocks at [start] of a disk of [ds]. *)
Definition in_transaction (start size ds : Z) (s : bstate) (V : Z -> list Z)
    (L : gmap Z (Z * list Z)) : Prop :=
  exists D T g bl, logged s V D L T g ds bl /\ 1 <= log_outstanding g /\
    log_start g = start /\ log_size g = size.

Definition usable_block (start size ds n : Z) : Prop :=
  0 <= n < ds /\ ~ (start <= n < start + size).

Definition resource_stop (e : stop) : Prop :=
  e = Panicked "bget: no buffers" \/ e = Panicked "too big a transaction".

Lemma logged_bread s V D L T g ds bl n :
  logged s V D L T g ds bl -> unlent L n -> n < ds ->
  safe resource_stop (bread 1 n) s (fun b s' =>
    L !! b = None /\ logged s' V D (<[b := (n, V n)]> L) T g ds bl).
Proof.
  intros [Hw ? ? ? ? ? ?] Hu%unlent_not_lent Hn. pose proof Hw as [[l Hok] _ _ _ _ _ Hs].
  pose proof (bread_ok s V _ l n Hok Hu ltac:(by rewrite Hs)) as H. unfold safe in *.
  destruct (bread 1 n s) as [b s'|e s']; [|left; apply H].
  destruct (world_post_bread _ _ _ _ _ _ _ _ _ _ _ _ Hw Hok H). by split_and!.
Qed.

#[export] Instance logged_layer (start size ds : Z) : BlockLayer bstate.
Proof.
  refine {| blk_read := bread; blk_data := bdata; blk_set := bset; blk_log := log_write;
            blk_release := brelse; blk_begin := begin_op; blk_end := end_op; blk_init := initlog; blk_rep := in_transaction start size ds;
            blk_usable := usable_block start size ds; blk_full := resource_stop |}.
  - intros s V L n (D&T&g&bl&Hlg&Ho&Es&Ez) Hu [Hr _].
    eapply safe_conseq; [eapply (logged_bread _ _ _ _ _ _ _ _ n Hlg); [done|lia]|].
    intros b s' [? Hlg']. split; [done|]. by exists D, T, g, bl.
  - intros s V L b n d (D&T&g&bl&[Hw ? ? ? ? ? ?]&_). by eapply w_bdata.
  - intros s V L b n d d' (D&T&g&bl&[Hw ? ? ? ? ? ?]&?) HL _.
    destruct (w_bset _ _ _ _ _ _ _ _ b n d d' Hw HL) as (s'&E&Hw'). exists s'. split; [done|].
    by exists D, T, g, bl.
  - intros s V L b n d (D&T&g&bl&Hlg&Ho&Es&Ez) HL [Hr Hn].
    pose proof (log_write_ok _ _ _ _ _ _ _ _ b n d Hlg HL Hr) as H.
    unfold in_log in H. rewrite Es, Ez in H. specialize (H Hn Ho). unfold safe in *.
    destruct (log_write b s) as [[] s'|e s']; [|right; apply H].
    destruct H as (g'&Hlg'&(F1&F2&F3&F4)). exists D, T, g', (log_add n bl).
    split; [done|]. split; [lia|]. by rewrite F1, F2.
  - intros s V L b n (D&T&g&bl&[Hw ? ? ? ? ? ?]&?) HL.
    destruct (w_brelse _ _ _ _ _ _ _ _ b n Hw HL) as (s'&E&Hw'). exists s'. split; [done|].
    by exists D, T, g, bl.
  - intros s V V' L E (D&T&g&bl&[Hw ? ? ? ? ? ?]&?). exists D, T, g, bl.
    split; [|done]. split; try done. by eapply world_V.
Defined.
