(* ===== verification/Fs.v ===== *)
(** * fs.c: blocks, inodes, files, directories and paths

    The code of fs.c over any [BlockLayer].  Inodes are named by their index
    in [icache.inode], [NULL] is the null pointer.  [dst] buffers are the
    bytes a call delivers, [src] buffers the bytes it is given.  The device
    switch [devsw] is a parameter.  Spin-lock critical sections are atomic; a
    sleep lock that is taken stops the caller with [Slept]. *)
From stdpp Require Import base numbers list gmap strings.
From S2P Require Import Prelude Block Bio Log Blk.
Open Scope Z_scope.

Definition NINODE : Z := 50.
Definition NDEV : Z := 10.
Definition ROOTDEV : Z := 1.
Definition ROOTINO : Z := 1.
Definition NDIRECT : Z := 12.
Definition NINDIRECT : Z := 128.
Definition MAXFILE : Z := NDIRECT + NINDIRECT.
Definition IPB : Z := 8.
Definition BPB : Z := 4096.
Definition DIRSIZ : Z := 14.
Definition DIRENT : Z := 16.
Definition T_DIR : Z := 1.
Definition T_FILE : Z := 2.
Definition T_DEV : Z := 3.
Definition NULL : Z := -1.

(** struct inode *)
Record inode := Inode {
  i_dev : Z; i_inum : Z; i_ref : Z; i_lock : sleeplock; i_valid : Z;
  i_type : Z; i_major : Z; i_minor : Z; i_nlink : Z; i_size : Z; i_addrs : list Z
}.

(** struct dinode, 64 bytes: four shorts, the size, thirteen addresses. *)
Record dinode := Dinode {
  d_type : Z; d_major : Z; d_minor : Z; d_nlink : Z; d_size : Z; d_addrs : list Z
}.

(** struct stat *)
Record stat := Stat { st_type : Z; st_dev : Z; st_ino : Z; st_nlink : Z; st_size : Z }.

(** The state of fs.c: the block layer below, the superblock [sb], the inode
    cache, and the running process (its pid and current directory). *)
Record fsstate (S : Type) := FsState {
  fs_blk : S; fs_sb : superblock; fs_icache : Z -> inode; fs_pid : Z; fs_cwd : Z
}.
Arguments FsState {S}.
Arguments fs_blk {S}.
Arguments fs_sb {S}.
Arguments fs_icache {S}.
Arguments fs_pid {S}.
Arguments fs_cwd {S}.

Definition set_ref (r : Z) (i : inode) : inode :=
  Inode (i_dev i) (i_inum i) r (i_lock i) (i_valid i) (i_type i) (i_major i) (i_minor i) (i_nlink i) (i_size i) (i_addrs i).
Definition set_ilock (l : sleeplock) (i : inode) : inode :=
  Inode (i_dev i) (i_inum i) (i_ref i) l (i_valid i) (i_type i) (i_major i) (i_minor i) (i_nlink i) (i_size i) (i_addrs i).
Definition set_valid (v : Z) (i : inode) : inode :=
  Inode (i_dev i) (i_inum i) (i_ref i) (i_lock i) v (i_type i) (i_major i) (i_minor i) (i_nlink i) (i_size i) (i_addrs i).
Definition set_type (t : Z) (i : inode) : inode :=
  Inode (i_dev i) (i_inum i) (i_ref i) (i_lock i) (i_valid i) t (i_major i) (i_minor i) (i_nlink i) (i_size i) (i_addrs i).
Definition set_nlink (n : Z) (i : inode) : inode :=
  Inode (i_dev i) (i_inum i) (i_ref i) (i_lock i) (i_valid i) (i_type i) (i_major i) (i_minor i) n (i_size i) (i_addrs i).
Definition set_majmin (a b : Z) (i : inode) : inode :=
  Inode (i_dev i) (i_inum i) (i_ref i) (i_lock i) (i_valid i) (i_type i) a b (i_nlink i) (i_size i) (i_addrs i).
Definition set_size (n : Z) (i : inode) : inode :=
  Inode (i_dev i) (i_inum i) (i_ref i) (i_lock i) (i_valid i) (i_type i) (i_major i) (i_minor i) (i_nlink i) n (i_addrs i).
Definition set_addrs (a : list Z) (i : inode) : inode :=
  Inode (i_dev i) (i_inum i) (i_ref i) (i_lock i) (i_valid i) (i_type i) (i_major i) (i_minor i) (i_nlink i) (i_size i) a.

(** [IBLOCK(i, sb)] and [BBLOCK(b, sb)] *)
Definition IBLOCK (i : Z) (sb : superblock) : Z := i / IPB + sb_inodestart sb.
Definition BBLOCK (b : Z) (sb : superblock) : Z := b / BPB + sb_bmapstart sb.

(** The on-disk inode in slot [k] of a block. *)
Definition read_dinode (d : list Z) (k : Z) : dinode :=
  let o := 64 * k in
  Dinode (i16 (ld16 d o)) (i16 (ld16 d (o + 2))) (i16 (ld16 d (o + 4))) (i16 (ld16 d (o + 6)))
    (ld32 d (o + 8)) (map (fun j => ld32 d (o + 12 + 4 * j)) (seqZ 0 13)).

(** [memmove(dip->addrs, ip->addrs, sizeof(ip->addrs))] *)
Fixpoint write_addrs (d : list Z) (o : Z) (a : list Z) : list Z :=
  match a with
  | [] => d
  | x :: a' => write_addrs (st32 d o x) (o + 4) a'
  end.
Definition write_dinode (d : list Z) (k : Z) (x : dinode) : list Z :=
  let o := 64 * k in
  write_addrs
    (st32 (st16 (st16 (st16 (st16 d o (d_type x)) (o + 2) (d_major x)) (o + 4) (d_minor x))
      (o + 6) (d_nlink x)) (o + 8) (d_size x)) (o + 12) (d_addrs x).
Definition dinode_of (i : inode) : dinode :=
  Dinode (i_type i) (i_major i) (i_minor i) (i_nlink i) (i_size i) (i_addrs i).
Definition load_dinode (x : dinode) (i : inode) : inode :=
  Inode (i_dev i) (i_inum i) (i_ref i) (i_lock i) (i_valid i)
    (d_type x) (d_major x) (d_minor x) (d_nlink x) (d_size x) (d_addrs x).

(** The bit of block [bi] in a bitmap block. *)
Definition bit_clear (d : list Z) (bi : Z) : bool :=
  Z.land (ld8 d (bi / 8)) (Z.shiftl 1 (bi mod 8)) =? 0.
Definition bit_set (d : list Z) (bi : Z) : list Z :=
  st8 d (bi / 8) (Z.lor (ld8 d (bi / 8)) (Z.shiftl 1 (bi mod 8))).
Definition bit_reset (d : list Z) (bi : Z) : list Z :=
  st8 d (bi / 8) (Z.land (ld8 d (bi / 8)) (Z.lnot (Z.shiftl 1 (bi mod 8)))).

(** The inner loop of [balloc], [k] bits to go. *)
Fixpoint find_free (k : nat) (d : list Z) (b bi size : Z) : option Z :=
  match k with
  | O => None
  | S k' =>
      if negb (b + bi <? size) then None
      else if bit_clear d bi then Some bi
      else find_free k' d b (bi + 1) size
  end.

(** Names in directory entries: [strncpy(de.name, name, DIRSIZ)] and
    [strncmp(s, t, DIRSIZ)] on byte lists that end at a NUL or at their end. *)
Fixpoint strncpy_name (n : nat) (s : list Z) : list Z :=
  match n with
  | O => []
  | S n' =>
      match s with
      | [] => replicate n 0
      | c :: s' => if c =? 0 then replicate n 0 else c :: strncpy_name n' s'
      end
  end.
Fixpoint strncmp_name (n : nat) (s t : list Z) : Z :=
  match n with
  | O => 0
  | S n' =>
      let c := hd 0 s in
      let c' := hd 0 t in
      if negb (c =? 0) && (c =? c') then strncmp_name n' (tl s) (tl t) else c - c'
  end.
(** [namecmp(s, t)] *)
Definition namecmp (s t : list Z) : Z := strncmp_name (Z.to_nat DIRSIZ) s t.

(** struct dirent *)
Definition de_inum (de : list Z) : Z := ld16 de 0.
Definition de_name (de : list Z) : list Z := drop 2 de.
Definition mk_dirent (inum : Z) (name : list Z) : list Z :=
  [u8 inum; u8 (inum / 256)] ++ strncpy_name (Z.to_nat DIRSIZ) name.

(** [skipelem(path, name)]: the rest of the path and the element, cut to
    DIRSIZ bytes. *)
Definition SLASH : Z := 47.
Fixpoint skip_slashes (path : list Z) : list Z :=
  match path with
  | c :: path' => if c =? SLASH then skip_slashes path' else path
  | [] => []
  end.
Fixpoint split_elem (path : list Z) : list Z * list Z :=
  match path with
  | c :: path' =>
      if c =? SLASH then ([], path)
      else let (e, r) := split_elem path' in (c :: e, r)
  | [] => ([], [])
  end.
Definition skipelem (path : list Z) : option (list Z * list Z) :=
  match skip_slashes path with
  | [] => None
  | p => let (e, r) := split_elem p in Some (skip_slashes r, take (Z.to_nat DIRSIZ) e)
  end.

Section Fs.
Context {St : Type} `{BL : BlockLayer St}.

Abbreviation FM := (M (fsstate St)).

(** The device switch: what a major number's read and write do. *)
Context (devsw_read : Z -> option (Z -> Z -> FM (Z * list Z))).
Context (devsw_write : Z -> option (Z -> list Z -> Z -> FM Z)).

Definition lift {A} (m : M St A) : FM A :=
  zoom fs_blk (fun b s => FsState b (fs_sb s) (fs_icache s) (fs_pid s) (fs_cwd s)) m.
Definition bread (dev n : Z) : FM Z := lift (blk_read dev n).
Definition bdata (b : Z) : FM (list Z) := lift (blk_data b).
Definition bset (b : Z) (d : list Z) : FM unit := lift (blk_set b d).
Definition log_write (b : Z) : FM unit := lift (blk_log b).
Definition brelse (b : Z) : FM unit := lift (blk_release b).

Definition get_sb : FM superblock := gets fs_sb.
Definition get_inode (ip : Z) : FM inode := gets (fun s => fs_icache s ip).
Definition mod_inode (ip : Z) (f : inode -> inode) : FM unit :=
  modify (fun s => FsState (fs_blk s) (fs_sb s)
                     (fupd (fs_icache s) ip (f (fs_icache s ip))) (fs_pid s) (fs_cwd s)).

(** [readsb(dev, &sb)] *)
Definition readsb (dev : Z) : FM unit :=
  let! bp := bread dev 1 in
  let! d := bdata bp in
  modify (fun s => FsState (fs_blk s) (decode_sb d) (fs_icache s) (fs_pid s) (fs_cwd s)) ;;
  brelse bp.

(** [bzero(dev, bno)] *)
Definition bzero (dev bno : Z) : FM unit :=
  let! bp := bread dev bno in
  bset bp zeros ;;
  log_write bp ;;
  brelse bp.

(** [balloc(dev)]; the outer loop has [k] bitmap blocks to go. *)
Fixpoint balloc_loop (k : nat) (dev b : Z) : FM Z :=
  let! sb := get_sb in
  if b <? sb_size sb then
    match k with
    | O => stop_with NoFuel
    | S k' =>
        let! bp := bread dev (BBLOCK b sb) in
        let! d := bdata bp in
        match find_free (Z.to_nat BPB) d b 0 (sb_size sb) with
        | Some bi =>
            bset bp (bit_set d bi) ;;
            log_write bp ;;
            brelse bp ;;
            bzero dev (b + bi) ;;
            ret (b + bi)
        | None =>
            brelse bp ;;
            balloc_loop k' dev (b + BPB)
        end
    end
  else panic "balloc: out of blocks".
Definition balloc (dev : Z) : FM Z :=
  let! sb := get_sb in
  balloc_loop (Z.to_nat (sb_size sb / BPB + 1)) dev 0.

(** [bfree(dev, b)] *)
Definition bfree (dev b : Z) : FM unit :=
  readsb dev ;;
  let! sb := get_sb in
  let! bp := bread dev (BBLOCK b sb) in
  let! d := bdata bp in
  let bi := b mod BPB in
  if bit_clear d bi then panic "freeing free block" else
  bset bp (bit_reset d bi) ;;
  log_write bp ;;
  brelse bp.

(** [iinit(dev)] (the printed line aside) *)
Definition iinit (dev : Z) : FM unit :=
  mfor (seqZ 0 NINODE) (fun i => mod_inode i (set_ilock initsleeplock)) ;;
  readsb dev.

(** The loop of [iget]: the cached entry, or the first empty slot. *)
Fixpoint iget_scan (l : list Z) (ic : Z -> inode) (dev inum : Z) (empty : option Z) : Z + option Z :=
  match l with
  | [] => inr empty
  | ip :: l' =>
      if (0 <? i_ref (ic ip)) && (i_dev (ic ip) =? dev) && (i_inum (ic ip) =? inum) then inl ip
      else
        iget_scan l' ic dev inum
          (match empty with
           | None => if i_ref (ic ip) =? 0 then Some ip else None
           | Some e => Some e
           end)
  end.

(** [iget(dev, inum)] *)
Definition iget (dev inum : Z) : FM Z :=
  let! ic := gets fs_icache in
  match iget_scan (seqZ 0 NINODE) ic dev inum None with
  | inl ip => mod_inode ip (fun i => set_ref (i_ref i + 1) i) ;; ret ip
  | inr None => panic "iget: no inodes"
  | inr (Some ip) =>
      mod_inode ip (fun i => Inode dev inum 1 (i_lock i) 0 (i_type i) (i_major i) (i_minor i)
                               (i_nlink i) (i_size i) (i_addrs i)) ;;
      ret ip
  end.

(** [ialloc(dev, type)]; [l] the inode numbers to go. *)
Fixpoint ialloc_loop (l : list Z) (dev type : Z) : FM Z :=
  match l with
  | [] => panic "ialloc: no inodes"
  | inum :: l' =>
      let! sb := get_sb in
      let! bp := bread dev (IBLOCK inum sb) in
      let! d := bdata bp in
      if d_type (read_dinode d (inum mod IPB)) =? 0 then
        bset bp (write_dinode d (inum mod IPB) (Dinode type 0 0 0 0 (replicate 13 0))) ;;
        log_write bp ;;
        brelse bp ;;
        iget dev inum
      else
        brelse bp ;;
        ialloc_loop l' dev type
  end.
Definition ialloc (dev type : Z) : FM Z :=
  let! sb := get_sb in
  ialloc_loop (seqZ 1 (sb_ninodes sb - 1)) dev type.

(** [iupdate(ip)] *)
Definition iupdate (ip : Z) : FM unit :=
  let! i := get_inode ip in
  let! sb := get_sb in
  let! bp := bread (i_dev i) (IBLOCK (i_inum i) sb) in
  let! d := bdata bp in
  bset bp (write_dinode d (i_inum i mod IPB) (dinode_of i)) ;;
  log_write bp ;;
  brelse bp.

(** [idup(ip)] *)
Definition idup (ip : Z) : FM Z :=
  mod_inode ip (fun i => set_ref (i_ref i + 1) i) ;;
  ret ip.

(** [acquiresleep], [releasesleep] and [holdingsleep] on [ip->lock] *)
Definition INODECHAN (ip : Z) : Z := 1000 + ip.
Definition acquiresleep (ip : Z) : FM unit :=
  let! i := get_inode ip in
  if negb (sl_locked (i_lock i) =? 0) then stop_with (Slept (INODECHAN ip))
  else
    let! pid := gets fs_pid in
    mod_inode ip (set_ilock (Sleeplock 1 pid)).
Definition releasesleep (ip : Z) : FM unit := mod_inode ip (set_ilock (Sleeplock 0 0)).
Definition holdingsleep (ip : Z) : FM Z :=
  let! i := get_inode ip in ret (sl_locked (i_lock i)).

(** [ilock(ip)] *)
Definition ilock (ip : Z) : FM unit :=
  let! i := get_inode ip in
  if (ip =? NULL) || (i_ref i <? 1) then panic "ilock" else
  acquiresleep ip ;;
  let! i := get_inode ip in
  when (i_valid i =? 0)
    (let! sb := get_sb in
     let! bp := bread (i_dev i) (IBLOCK (i_inum i) sb) in
     let! d := bdata bp in
     let x := read_dinode d (i_inum i mod IPB) in
     mod_inode ip (load_dinode x) ;;
     brelse bp ;;
     mod_inode ip (set_valid 1) ;;
     let! i := get_inode ip in
     if i_type i =? 0 then panic "ilock: no type" else ret tt).

(** [iunlock(ip)] *)
Definition iunlock (ip : Z) : FM unit :=
  let! i := get_inode ip in
  let! h := holdingsleep ip in
  if (ip =? NULL) || (h =? 0) || (i_ref i <? 1) then panic "iunlock" else
  releasesleep ip.

(** [bmap(ip, bn)] *)
Definition bmap (ip bn : Z) : FM Z :=
  let! i := get_inode ip in
  if bn <? NDIRECT then
    let addr := nthZ 0 (i_addrs i) bn in
    if addr =? 0 then
      let! addr := balloc (i_dev i) in
      mod_inode ip (fun i => set_addrs (updZ (i_addrs i) bn addr) i) ;;
      ret addr
    else ret addr
  else
    let bn := bn - NDIRECT in
    if bn <? NINDIRECT then
      let addr := nthZ 0 (i_addrs i) NDIRECT in
      let! addr :=
        (if addr =? 0 then
           let! addr := balloc (i_dev i) in
           mod_inode ip (fun i => set_addrs (updZ (i_addrs i) NDIRECT addr) i) ;;
           ret addr
         else ret addr) in
      let! bp := bread (i_dev i) addr in
      let! a := bdata bp in
      let addr := ld32 a (4 * bn) in
      let! addr :=
        (if addr =? 0 then
           let! addr := balloc (i_dev i) in
           let! a := bdata bp in
           bset bp (st32 a (4 * bn) addr) ;;
           log_write bp ;;
           ret addr
         else ret addr) in
      brelse bp ;;
      ret addr
    else panic "bmap: out of range".

(** [itrunc(ip)] *)
Definition itrunc_direct (ip i : Z) : FM unit :=
  let! x := get_inode ip in
  let a := nthZ 0 (i_addrs x) i in
  when (negb (a =? 0))
    (bfree (i_dev x) a ;;
     mod_inode ip (fun x => set_addrs (updZ (i_addrs x) i 0) x)).
Definition itrunc (ip : Z) : FM unit :=
  mfor (seqZ 0 NDIRECT) (itrunc_direct ip) ;;
  let! x := get_inode ip in
  let ind := nthZ 0 (i_addrs x) NDIRECT in
  when (negb (ind =? 0))
    (let! bp := bread (i_dev x) ind in
     let! a := bdata bp in
     mfor (seqZ 0 NINDIRECT) (fun j =>
       when (negb (ld32 a (4 * j) =? 0)) (bfree (i_dev x) (ld32 a (4 * j)))) ;;
     brelse bp ;;
     bfree (i_dev x) ind ;;
     mod_inode ip (fun x => set_addrs (updZ (i_addrs x) NDIRECT 0) x)) ;;
  mod_inode ip (set_size 0) ;;
  iupdate ip.

(** [iput(ip)] *)
Definition iput (ip : Z) : FM unit :=
  acquiresleep ip ;;
  let! i := get_inode ip in
  when (negb (i_valid i =? 0) && (i_nlink i =? 0) && (i_ref i =? 1))
    (itrunc ip ;;
     mod_inode ip (set_type 0) ;;
     iupdate ip ;;
     mod_inode ip (set_valid 0)) ;;
  releasesleep ip ;;
  mod_inode ip (fun i => set_ref (i_ref i - 1) i).

(** [iunlockput(ip)] *)
Definition iunlockput (ip : Z) : FM unit := iunlock ip ;; iput ip.

(** [stati(ip, st)] *)
Definition stati (ip : Z) : FM stat :=
  let! i := get_inode ip in
  ret (Stat (i_type i) (i32 (i_dev i)) (i_inum i) (i_nlink i) (i_size i)).

(** The loop of [readi]; [fuel] iterations to go. *)
Fixpoint readi_loop (fuel : nat) (ip off n tot : Z) : FM (list Z) :=
  if tot <? n then
    match fuel with
    | O => stop_with NoFuel
    | S fuel' =>
        let! i := get_inode ip in
        let! addr := bmap ip (off / BSIZE) in
        let! bp := bread (i_dev i) addr in
        let m := Z.min (n - tot) (BSIZE - off mod BSIZE) in
        let! d := bdata bp in
        brelse bp ;;
        let! rest := readi_loop fuel' ip (off + m) n (tot + m) in
        ret (sub d (off mod BSIZE) m ++ rest)
    end
  else ret [].

(** Blocks a transfer of [n] bytes can touch. *)
Definition io_fuel (n : Z) : nat := Z.to_nat (n / BSIZE + 2).

(** [readi(ip, dst, off, n)]: the result and the bytes stored at [dst]. *)
Definition readi (ip off n : Z) : FM (Z * list Z) :=
  let! i := get_inode ip in
  if i_type i =? T_DEV then
    if (i_major i <? 0) || (NDEV <=? i_major i) then ret (-1, [])
    else match devsw_read (i_major i) with
         | None => ret (-1, [])
         | Some f => f ip n
         end
  else if (i_size i <? off) || (u32 (off + n) <? off) then ret (-1, [])
  else
    let n := if i_size i <? u32 (off + n) then i_size i - off else n in
    let! bytes := readi_loop (io_fuel n) ip off n 0 in
    ret (i32 n, bytes).

(** The loop of [writei]: the offset reached. *)
Fixpoint writei_loop (fuel : nat) (ip : Z) (src : list Z) (off n tot : Z) : FM Z :=
  if tot <? n then
    match fuel with
    | O => stop_with NoFuel
    | S fuel' =>
        let! i := get_inode ip in
        let! addr := bmap ip (off / BSIZE) in
        let! bp := bread (i_dev i) addr in
        let m := Z.min (n - tot) (BSIZE - off mod BSIZE) in
        let! d := bdata bp in
        bset bp (splice d (off mod BSIZE) (sub src tot m)) ;;
        log_write bp ;;
        brelse bp ;;
        writei_loop fuel' ip src (off + m) n (tot + m)
    end
  else ret off.

(** [writei(ip, src, off, n)] *)
Definition writei (ip : Z) (src : list Z) (off n : Z) : FM Z :=
  let! i := get_inode ip in
  if i_type i =? T_DEV then
    if (i_major i <? 0) || (NDEV <=? i_major i) then ret (-1)
    else match devsw_write (i_major i) with
         | None => ret (-1)
         | Some f => f ip src n
         end
  else if (i_size i <? off) || (u32 (off + n) <? off) then ret (-1)
  else if MAXFILE * BSIZE <? u32 (off + n) then ret (-1)
  else
    let! off := writei_loop (io_fuel n) ip src off n 0 in
    let! i := get_inode ip in
    when ((0 <? n) && (i_size i <? off))
      (mod_inode ip (set_size off) ;; iupdate ip) ;;
    ret (i32 n).

(** The loop of [dirlookup] from byte [off]. *)
Fixpoint dirlookup_loop (fuel : nat) (dp : Z) (name : list Z) (off : Z) : FM (option (Z * Z)) :=
  let! i := get_inode dp in
  if off <? i_size i then
    match fuel with
    | O => stop_with NoFuel
    | S fuel' =>
        let! (r, de) := readi dp off DIRENT in
        if negb (r =? DIRENT) then panic "dirlookup read" else
        if de_inum de =? 0 then dirlookup_loop fuel' dp name (off + DIRENT)
        else if namecmp name (de_name de) =? 0 then
          let! ip := iget (i_dev i) (de_inum de) in
          ret (Some (ip, off))
        else dirlookup_loop fuel' dp name (off + DIRENT)
    end
  else ret None.
Definition dir_fuel (size : Z) : nat := Z.to_nat (size / DIRENT + 1).

(** [dirlookup(dp, name, poff)]: the inode and the entry's offset. *)
Definition dirlookup (dp : Z) (name : list Z) : FM (option (Z * Z)) :=
  let! i := get_inode dp in
  if negb (i_type i =? T_DIR) then panic "dirlookup not DIR" else
  dirlookup_loop (dir_fuel (i_size i)) dp name 0.

(** The loop of [dirlink]: the first empty entry, or the end. *)
Fixpoint dirlink_loop (fuel : nat) (dp off : Z) : FM Z :=
  let! i := get_inode dp in
  if off <? i_size i then
    match fuel with
    | O => stop_with NoFuel
    | S fuel' =>
        let! (r, de) := readi dp off DIRENT in
        if negb (r =? DIRENT) then panic "dirlink read" else
        if de_inum de =? 0 then ret off
        else dirlink_loop fuel' dp (off + DIRENT)
    end
  else ret off.

(** [dirlink(dp, name, inum)] *)
Definition dirlink (dp : Z) (name : list Z) (inum : Z) : FM Z :=
  let! r := dirlookup dp name in
  match r with
  | Some (ip, _) => iput ip ;; ret (-1)
  | None =>
      let! i := get_inode dp in
      let! off := dirlink_loop (dir_fuel (i_size i)) dp 0 in
      let! r := writei dp (mk_dirent inum name) off DIRENT in
      if negb (r =? DIRENT) then panic "dirlink" else ret 0
  end.

(** The loop of [namex]. *)
Fixpoint namex_loop (fuel : nat) (ip : Z) (path : list Z) (nameiparent : bool) (name : list Z)
    : FM (option (Z * list Z)) :=
  match skipelem path with
  | None => if nameiparent then iput ip ;; ret None else ret (Some (ip, name))
  | Some (path', name') =>
      match fuel with
      | O => stop_with NoFuel
      | S fuel' =>
          ilock ip ;;
          let! i := get_inode ip in
          if negb (i_type i =? T_DIR) then iunlockput ip ;; ret None else
          if nameiparent && match path' with [] => true | _ => false end
          then iunlock ip ;; ret (Some (ip, name')) else
          let! r := dirlookup ip name' in
          match r with
          | None => iunlockput ip ;; ret None
          | Some (next, _) => iunlockput ip ;; namex_loop fuel' next path' nameiparent name'
          end
      end
  end.

(** [namex(path, nameiparent, name)], [namei] and [nameiparent] *)
Definition namex (path : list Z) (nameiparent : bool) : FM (option (Z * list Z)) :=
  let! ip :=
    (if nthZ 0 path 0 =? SLASH then iget ROOTDEV ROOTINO
     else let! cwd := gets fs_cwd in idup cwd) in
  namex_loop (length path) ip path nameiparent [].
Definition namei (path : list Z) : FM (option Z) :=
  let! r := namex path false in
  ret (option_map fst r).
Definition nameiparent (path : list Z) : FM (option (Z * list Z)) := namex path true.
End Fs.
