(* ===== verification/FsBlocks.v ===== *)
(** * The block allocator of fs.c: balloc, bfree, bzero

    The free bitmap as a predicate on the logged contents [V] of the disk,
    and what the allocator does to it. *)
From stdpp Require Import base numbers list gmap strings.
From S2P Require Import Prelude Block Bio Log Blk Fs.
Open Scope Z_scope.

(** ** Bits of a bitmap block *)

Lemma bit_clear_test d bi : bit_clear d bi = negb (Z.testbit (ld8 d (bi / 8)) (bi mod 8)).
Proof.
  unfold bit_clear. pose proof (Z.mod_pos_bound bi 8 ltac:(lia)).
  rewrite Z.shiftl_1_l, land_pow2 by lia.
  destruct (Z.testbit _ _); simpl; [|done]. apply Z.eqb_neq. lia.
Qed.

Lemma testbit_u8 a k : 0 <= k < 8 -> Z.testbit (u8 a) k = Z.testbit a k.
Proof. intros. unfold u8. change 256 with (2 ^ 8). apply Z.mod_pow2_bits_low; lia. Qed.

Definition is_bit (d : list Z) (bi : Z) : Prop := 0 <= bi < BPB /\ length d = 512%nat.

Lemma bit_of_st8 d bi bj v :
  is_bit d bi -> is_bit d bj ->
  bit_clear (st8 d (bi / 8) v) bj =
  if bj / 8 =? bi / 8 then negb (Z.testbit v (bj mod 8)) else bit_clear d bj.
Proof.
  intros [Hi Hl] [Hj _]. unfold BPB in *. rewrite !bit_clear_test, ld8_st8.
  - destruct (Z.eqb_spec (bj / 8) (bi / 8)); [|done]. rewrite testbit_u8; [done|].
    apply Z.mod_pos_bound. lia.
  - rewrite Hl. Z.div_mod_to_equations; lia.
Qed.

Lemma same_byte_bit bi bj : bj / 8 = bi / 8 -> (bj mod 8 = bi mod 8 <-> bj = bi).
Proof. intros. Z.div_mod_to_equations; lia. Qed.

Lemma bit_set_spec d bi bj :
  is_bit d bi -> is_bit d bj ->
  bit_clear (bit_set d bi) bj = if bj =? bi then false else bit_clear d bj.
Proof.
  intros Hi Hj. unfold bit_set. rewrite bit_of_st8 by done.
  destruct (Z.eqb_spec (bj / 8) (bi / 8)) as [E|E].
  - pose proof (Z.mod_pos_bound bi 8 ltac:(lia)).
    rewrite Z.lor_spec, Z.shiftl_1_l, Z.pow2_bits_eqb by lia.
    rewrite bit_clear_test, E. pose proof (same_byte_bit bi bj E).
    destruct (Z.eqb_spec (bi mod 8) (bj mod 8)); destruct (Z.eqb_spec bj bi); try (exfalso; lia).
    + by rewrite orb_true_r.
    + by rewrite orb_false_r.
  - destruct (Z.eqb_spec bj bi); [congruence|done].
Qed.

Lemma bit_reset_spec d bi bj :
  is_bit d bi -> is_bit d bj ->
  bit_clear (bit_reset d bi) bj = if bj =? bi then true else bit_clear d bj.
Proof.
  intros Hi Hj. unfold bit_reset. rewrite bit_of_st8 by done.
  destruct (Z.eqb_spec (bj / 8) (bi / 8)) as [E|E].
  - pose proof (Z.mod_pos_bound bj 8 ltac:(lia)). pose proof (Z.mod_pos_bound bi 8 ltac:(lia)).
    rewrite Z.land_spec, Z.lnot_spec, Z.shiftl_1_l, Z.pow2_bits_eqb by lia.
    rewrite bit_clear_test, E. pose proof (same_byte_bit bi bj E).
    destruct (Z.eqb_spec (bi mod 8) (bj mod 8)); destruct (Z.eqb_spec bj bi); try (exfalso; lia).
    + by rewrite andb_false_r.
    + by rewrite andb_true_r.
  - destruct (Z.eqb_spec bj bi); [congruence|done].
Qed.

(** The search of [balloc] finds the first clear bit. *)
Lemma find_free_spec k d b bi size :
  match find_free k d b bi size with
  | Some r => bi <= r < bi + Z.of_nat k /\ b + r < size /\ bit_clear d r = true /\
      forall j, bi <= j < r -> bit_clear d j = false
  | None => forall j, bi <= j < bi + Z.of_nat k -> b + j < size -> bit_clear d j = false
  end.
Proof.
  revert bi. induction k as [|k IH]; intros bi; simpl; [intros; lia|].
  destruct (Z.ltb_spec (b + bi) size); simpl; [|intros; lia].
  destruct (bit_clear d bi) eqn:E; [split_and!; try lia; done|].
  specialize (IH (bi + 1)). destruct (find_free k d b (bi + 1) size).
  - destruct IH as (?&?&?&Hj). split_and!; try lia; [done|]. intros j Hr.
    destruct (Z.eq_dec j bi) as [->|]; [done|apply Hj; lia].
  - intros j Hr Hs. destruct (Z.eq_dec j bi) as [->|]; [done|apply IH; lia].
Qed.

(** ** The disk *)

Section blocks.
Context {St : Type} `{BL : BlockLayer St}.

Definition data_start (sb : superblock) : Z := sb_bmapstart sb + sb_size sb / BPB + 1.

(** The layout mkfs gives the disk: superblock, log, inodes, bitmap, data. *)
Record geometry (sb : superblock) : Prop := Geometry {
  ge_sb : blk_usable 1;
  ge_inodes : 1 < sb_inodestart sb;
  ge_ninodes : 1 <= sb_ninodes sb;
  ge_bmap : sb_inodestart sb + sb_ninodes sb / IPB + 1 <= sb_bmapstart sb;
  ge_pos : 0 <= sb_size sb;
  ge_size : data_start sb <= sb_size sb < 2 ^ 31;
  ge_use : forall n, sb_inodestart sb <= n < sb_size sb -> blk_usable n
}.

Definition in_use (V : Z -> list Z) (b : Z) : Prop :=
  bit_clear (V (BBLOCK b (decode_sb (V 1)))) (b mod BPB) = false.
Definition is_data (V : Z -> list Z) (b : Z) : Prop :=
  data_start (decode_sb (V 1)) <= b < sb_size (decode_sb (V 1)).

(** A disk as the file system keeps it. *)
Record disk_ok (V : Z -> list Z) : Prop := DiskOk {
  dk_geo : geometry (decode_sb (V 1));
  dk_blocks : forall n, is_block_data (V n);
  dk_meta : forall b, 0 <= b < data_start (decode_sb (V 1)) -> in_use V b
}.

(** The state represents the contents [V], held buffers [L], inode cache [ic]. *)
Definition frep (s : fsstate St) (V : Z -> list Z) (L : gmap Z (Z * list Z)) (ic : Z -> inode) : Prop :=
  blk_rep (fs_blk s) V L /\ (forall k, fs_icache s k = ic k) /\ fs_sb s = decode_sb (V 1).

(** Lifting the laws of the layer. *)
Lemma safe_lift {A} E (m : M St A) s Q :
  safe E m (fs_blk s) (fun a b => Q a (FsState b (fs_sb s) (fs_icache s) (fs_pid s) (fs_cwd s))) ->
  safe E (lift m) s Q.
Proof. unfold safe, lift, zoom. by destruct (m (fs_blk s)). Qed.

Lemma safe_weaken {S A} (E E' : stop -> Prop) (m : M S A) s Q :
  (forall e, E e -> E' e) -> safe E m s Q -> safe E' m s Q.
Proof. unfold safe. destruct (m s); auto. Qed.

Abbreviation FM := (M (fsstate St)).
Context (E : stop -> Prop) (HE : forall e, blk_full e -> E e).

Lemma f_bread s V L ic n :
  frep s V L ic -> unlent L n -> blk_usable n ->
  safe E (bread 1 n) s (fun b s' => L !! b = None /\ frep s' V (<[b := (n, V n)]> L) ic).
Proof.
  intros (Hr&Hi&Hs) Hu Hn. eapply safe_weaken; [exact HE|]. apply safe_lift.
  eapply safe_conseq; [by apply (blk_read_law _ V L)|]. intros b s' [? ?]. by split_and!.
Qed.

Lemma f_bdata s V L ic b n d :
  frep s V L ic -> L !! b = Some (n, d) -> bdata b s = Ret d s.
Proof.
  intros (Hr&_&_) HL. unfold bdata, lift, zoom. erewrite blk_data_law by eauto. by destruct s.
Qed.

Lemma f_bset s V L ic b n d d' :
  frep s V L ic -> L !! b = Some (n, d) -> length d' = length d ->
  safe E (bset b d') s (fun _ s' => frep s' V (<[b := (n, d')]> L) ic).
Proof.
  intros (Hr&Hi&Hs) HL Hlen. apply safe_lift. destruct (blk_set_law _ V L b n d d' Hr HL Hlen) as (s'&E'&H).
  by eapply safe_run.
Qed.

Lemma f_log s V L ic b n d :
  frep s V L ic -> L !! b = Some (n, d) -> blk_usable n -> n <> 1 ->
  safe E (log_write b) s (fun _ s' => frep s' (fupd V n d) L ic).
Proof.
  intros (Hr&Hi&Hs) HL Hn H1. eapply safe_weaken; [exact HE|]. apply safe_lift.
  eapply safe_conseq; [by apply (blk_log_law _ V L b n d)|]. intros [] s' ?.
  split_and!; try done. simpl. by rewrite fupd_ne.
Qed.

Lemma f_brelse s V L ic b n :
  frep s V L ic -> L !! b = Some (n, V n) ->
  safe E (brelse b) s (fun _ s' => frep s' V (delete b L) ic).
Proof.
  intros (Hr&Hi&Hs) HL. apply safe_lift. destruct (blk_release_law _ V L b n Hr HL) as (s'&E'&H).
  by eapply safe_run.
Qed.

(** ** Allocation *)

Definition alloc_disk (V : Z -> list Z) (r : Z) : Z -> list Z :=
  let bb := BBLOCK r (decode_sb (V 1)) in
  fupd (fupd V bb (bit_set (V bb) (r mod BPB))) r zeros.

Lemma BBLOCK_range V b :
  disk_ok V -> 0 <= b < sb_size (decode_sb (V 1)) ->
  let bb := BBLOCK b (decode_sb (V 1)) in
  1 < bb /\ sb_bmapstart (decode_sb (V 1)) <= bb < data_start (decode_sb (V 1)) /\ blk_usable bb.
Proof.
  intros [[Hu Hi Hni Hb Hp Hs Hall] _ _] Hr bb. unfold bb, BBLOCK, data_start, BPB, IPB in *.
  assert (0 <= b / 4096) by (apply Z.div_pos; lia).
  assert (b / 4096 <= sb_size (decode_sb (V 1)) / 4096) by (apply Z.div_le_mono; lia).
  assert (0 <= sb_ninodes (decode_sb (V 1)) / 8) by (apply Z.div_pos; lia).
  split_and!; try lia. apply Hall. lia.
Qed.

Lemma BBLOCK_inj sb b b' : BBLOCK b sb = BBLOCK b' sb -> b mod BPB = b' mod BPB -> b = b'.
Proof. unfold BBLOCK, BPB. intros. Z.div_mod_to_equations; lia. Qed.

Lemma mod_is_bit V b : disk_ok V -> forall n, is_bit (V n) (b mod BPB).
Proof.
  intros Hok n. split; [apply Z.mod_pos_bound; unfold BPB; lia|]. apply (dk_blocks _ Hok).
Qed.

Record allocated (V : Z -> list Z) (r : Z) (V' : Z -> list Z) : Prop := Allocated {
  al_ok : disk_ok V';
  al_sb : V' 1 = V 1;
  al_data : is_data V r;
  al_fresh : ~ in_use V r;
  al_zero : V' r = zeros;
  al_use : forall b, 0 <= b < sb_size (decode_sb (V 1)) -> in_use V' b <-> b = r \/ in_use V b;
  al_keep : forall n, n <> r ->
    ~ (sb_bmapstart (decode_sb (V 1)) <= n < data_start (decode_sb (V 1))) -> V' n = V n
}.

(** Setting the bit of a free block and clearing its contents. *)
Lemma alloc_disk_ok V r :
  disk_ok V -> 0 <= r < sb_size (decode_sb (V 1)) -> ~ in_use V r ->
  allocated V r (alloc_disk V r).
Proof.
  intros Hok Hr Hf. set (sb := decode_sb (V 1)) in *. set (bb := BBLOCK r sb).
  assert (Hd : is_data V r).
  { unfold is_data. fold sb. split; [|lia]. destruct (Z.le_gt_cases (data_start sb) r); [done|].
    destruct Hf. apply (dk_meta _ Hok). fold sb. lia. }
  destruct (BBLOCK_range V r Hok Hr) as (Hb1&Hb2&Hbu). fold sb bb in Hb1, Hb2, Hbu.
  assert (Hne : r <> bb) by (unfold is_data in Hd; fold sb in Hd; lia).
  assert (HV : forall n, n <> r -> n <> bb -> alloc_disk V r n = V n).
  { intros n H1 H2. unfold alloc_disk. fold sb bb. by rewrite !fupd_ne. }
  assert (H1 : alloc_disk V r 1 = V 1).
  { apply HV; [|lia]. destruct (dk_geo _ Hok). unfold is_data in Hd. fold sb in Hd. lia. }
  assert (Hbb : alloc_disk V r bb = bit_set (V bb) (r mod BPB)).
  { unfold alloc_disk. fold sb bb. rewrite fupd_ne by done. apply fupd_eq. }
  assert (Huse : forall b, 0 <= b < sb_size sb -> in_use (alloc_disk V r) b <-> b = r \/ in_use V b).
  { intros b Hb. unfold in_use. rewrite H1. fold sb.
    destruct (BBLOCK_range V b Hok Hb) as (_&Hc2&_). fold sb in Hc2.
    assert (BBLOCK b sb <> r) by (unfold is_data in Hd; fold sb in Hd; lia).
    destruct (Z.eq_dec (BBLOCK b sb) bb) as [E1|E1].
    - rewrite E1, Hbb, bit_set_spec by (by apply mod_is_bit).
      destruct (Z.eqb_spec (b mod BPB) (r mod BPB)) as [Em|Em].
      + split; [|done]. intros _. left. by apply (BBLOCK_inj sb).
      + split; [by right|]. intros [->|]; done.
    - rewrite HV by done. split; [by right|]. intros [->|]; done. }
  split; try done.
  - split; rewrite ?H1; [apply Hok| |].
    + intros n. destruct (Z.eq_dec n r) as [->|Hnr].
      { unfold alloc_disk. rewrite fupd_eq. apply zeros_block. }
      destruct (Z.eq_dec n bb) as [->|]; [rewrite Hbb; apply st8_block|rewrite HV by done]; apply Hok.
    + intros b Hb. apply Huse; [|right; by apply (dk_meta _ Hok)].
      pose proof (ge_size _ (dk_geo _ Hok)) as Hs. fold sb in Hb, Hs |- *. lia.
  - unfold alloc_disk. apply fupd_eq.
  - intros n Hn Hnb. apply HV; [done|]. fold sb in Hnb. lia.
Qed.

(** Held buffers are data blocks in use. *)
Definition held_ok (V : Z -> list Z) (L : gmap Z (Z * list Z)) : Prop :=
  forall b n d, L !! b = Some (n, d) -> is_data V n /\ in_use V n.

Lemma held_unlent V L n : held_ok V L -> ~ is_data V n \/ ~ in_use V n -> unlent L n.
Proof. intros H Hn b d HL. destruct (H _ _ _ HL). tauto. Qed.

Lemma del_ins (L : gmap Z (Z * list Z)) b x y :
  L !! b = None -> delete b (<[b := y]> (<[b := x]> L)) = L.
Proof. intros H. rewrite insert_insert_eq. by apply delete_insert_id. Qed.

(** Read a block. *)
Lemma f_load {A} s V L ic n (k : Z -> list Z -> FM A) Q :
  frep s V L ic -> unlent L n -> blk_usable n ->
  (forall b s1, L !! b = None -> frep s1 V (<[b := (n, V n)]> L) ic -> safe E (k b (V n)) s1 Q) ->
  safe E (let! b := bread 1 n in let! d := bdata b in k b d) s Q.
Proof.
  intros Hf Hu Hn Hk. eapply safe_bind; [by apply (f_bread s V L ic n)|].
  intros b s1 [HLb Hf1]. unfold safe, bind at 1. erewrite f_bdata by (eauto; apply lookup_insert_eq).
  by apply Hk.
Qed.

(** The tail [bset; log_write; brelse; k] of an update. *)
Lemma f_update {A} s V L ic b n d' (k : FM A) Q :
  L !! b = None -> frep s V (<[b := (n, V n)]> L) ic -> blk_usable n -> n <> 1 -> length d' = length (V n) ->
  (forall s', frep s' (fupd V n d') L ic -> safe E k s' Q) ->
  safe E (bset b d' ;; log_write b ;; brelse b ;; k) s Q.
Proof.
  intros HLb Hf Hn H1 Hl Hk.
  eapply safe_bind; [eapply f_bset; [done|apply lookup_insert_eq|done]|]. intros [] s2 Hf2.
  eapply safe_bind; [eapply f_log; [done|apply lookup_insert_eq|done..]|]. intros [] s3 Hf3.
  eapply safe_bind.
  { eapply (f_brelse _ _ _ _ b n); [done|]. rewrite fupd_eq. apply lookup_insert_eq. }
  intros [] s4 Hf4. rewrite del_ins in Hf4 by done. by apply Hk.
Qed.

Lemma f_update_last s V L ic b n d' Q :
  L !! b = None -> frep s V (<[b := (n, V n)]> L) ic -> blk_usable n -> n <> 1 -> length d' = length (V n) ->
  (forall s', frep s' (fupd V n d') L ic -> Q tt s') ->
  safe E (bset b d' ;; log_write b ;; brelse b) s Q.
Proof.
  intros HLb Hf Hn H1 Hl Hk. pose proof (f_update s V L ic b n d' (ret tt) Q HLb Hf Hn H1 Hl) as H.
  assert (Hr : forall s', frep s' (fupd V n d') L ic -> safe E (ret tt) s' Q) by (intros; by apply Hk).
  specialize (H Hr). unfold safe, bind, ret in *.
  destruct (bset b d' s) as [[] s1|]; [|done]. destruct (log_write b s1) as [[] s2|]; [|done].
  by destruct (brelse b s2) as [[] s3|].
Qed.

Lemma bzero_ok s V L ic n :
  frep s V L ic -> unlent L n -> blk_usable n -> n <> 1 -> length (V n) = 512%nat ->
  safe E (bzero 1 n) s (fun _ s' => frep s' (fupd V n zeros) L ic).
Proof.
  intros Hf Hu Hn H1 Hl. unfold bzero. eapply safe_bind; [by apply (f_bread s V L ic n)|].
  intros b s1 [HLb Hf1]. eapply f_update_last; try done.
Qed.

Lemma data_usable V n : disk_ok V -> is_data V n -> blk_usable n /\ n <> 1 /\ 1 < n.
Proof.
  intros [[? ? ? ? ? ? Hu] _ _] [Hn Hn2]. unfold data_start, BPB, IPB in *.
  set (sb := decode_sb (V 1)) in *.
  assert (0 <= sb_ninodes sb / 8) by (apply Z.div_pos; lia).
  assert (0 <= sb_size sb / 4096) by (apply Z.div_pos; lia).
  split; [apply Hu|]; lia.
Qed.

(** The branch of [balloc] that takes the free block [r]. *)
Lemma balloc_take s V L ic bp r :
  let bb := BBLOCK r (decode_sb (V 1)) in
  L !! bp = None -> frep s V (<[bp := (bb, V bb)]> L) ic -> disk_ok V -> held_ok V L ->
  0 <= r < sb_size (decode_sb (V 1)) -> ~ in_use V r ->
  safe E (bset bp (bit_set (V bb) (r mod BPB)) ;; log_write bp ;; brelse bp ;; bzero 1 r ;; ret r) s
    (fun r' s' => exists V', allocated V r' V' /\ frep s' V' L ic).
Proof.
  intros bb HLb Hf Hok Hh Hr Hnu. pose proof (alloc_disk_ok V r Hok Hr Hnu) as Hal.
  pose proof (al_data _ _ _ Hal) as Hrd. destruct (data_usable V r Hok Hrd) as (Hu&H1&_).
  destruct (BBLOCK_range V r Hok Hr) as (Hb1&Hb2&Hbu). fold bb in Hb1, Hb2, Hbu.
  assert (r <> bb) by (unfold is_data in Hrd; lia).
  eapply f_update; try done; [lia|unfold bit_set; by rewrite length_st8|]. intros s2 Hf2.
  eapply safe_bind.
  - eapply (bzero_ok s2 _ L ic r); [done| |done|done|].
    + eapply held_unlent; [done|]. by right.
    + rewrite fupd_ne by done. apply (dk_blocks _ Hok).
  - intros [] s3 Hf3. apply safe_ret. by exists (alloc_disk V r).
Qed.

Lemma balloc_loop_ok k s V L ic b :
  frep s V L ic -> disk_ok V -> held_ok V L -> 0 <= b -> b mod BPB = 0 ->
  (forall j, 0 <= j < b -> j < sb_size (decode_sb (V 1)) -> in_use V j) ->
  sb_size (decode_sb (V 1)) < b + BPB * Z.of_nat k ->
  ((forall b, 0 <= b < sb_size (decode_sb (V 1)) -> in_use V b) -> E (Panicked "balloc: out of blocks")) ->
  safe E (balloc_loop k 1 b) s (fun r s' =>
    exists V', allocated V r V' /\ frep s' V' L ic).
Proof.
  revert s b. induction k as [|k IH]; intros s b Hf Hok Hh Hb Hm Hpre Hk HEout; cbn [balloc_loop];
    apply safe_gets; rewrite (proj2 (proj2 Hf)); set (sb := decode_sb (V 1)) in *;
    (destruct (Z.ltb_spec b (sb_size sb)); [|apply HEout; intros j Hj; apply Hpre; fold sb in Hj; lia]).
  { lia. }
  destruct (BBLOCK_range V b Hok ltac:(fold sb; lia)) as (Hb1&Hb2&Hbu). fold sb in Hb1, Hb2, Hbu.
  assert (Hnd : ~ is_data V (BBLOCK b sb)) by (unfold is_data; fold sb; lia).
  eapply f_load; [done|by eapply held_unlent; [|left]|done|]. intros bp s1 HLb Hf1.
  pose proof (find_free_spec (Z.to_nat BPB) (V (BBLOCK b sb)) b 0 (sb_size sb)) as Hff.
  rewrite Z2Nat.id in Hff by (unfold BPB; lia).
  assert (Hbit : forall bi, 0 <= bi < BPB -> BBLOCK (b + bi) sb = BBLOCK b sb /\ (b + bi) mod BPB = bi).
  { intros bi Hbi. unfold BBLOCK, BPB in *. Z.div_mod_to_equations; lia. }
  destruct (find_free _ _ _ _ _) as [bi|].
  - destruct Hff as (Hr1&Hr2&Hc&_). destruct (Hbit bi) as [Eb Em]; [lia|].
    pose proof (balloc_take s1 V L ic bp (b + bi)) as H'. cbv zeta in H'. fold sb in H'.
    rewrite Eb, Em in H'. apply H'; try done; [lia|]. unfold in_use. fold sb. rewrite Eb, Em. congruence.
  - eapply safe_bind; [eapply (f_brelse _ _ _ _ bp (BBLOCK b sb)); [done|apply lookup_insert_eq]|].
    intros [] s2 Hf2. rewrite delete_insert_id in Hf2 by done. apply IH; try done.
    + unfold BPB. lia.
    + unfold BPB in *. Z.div_mod_to_equations; lia.
    + intros j Hj Hjs. destruct (Z.lt_ge_cases j b); [apply Hpre; lia|].
      destruct (Hbit (j - b)) as [Eb Em]; [lia|]. replace (b + (j - b)) with j in * by lia.
      unfold in_use. fold sb. rewrite Eb, Em. apply Hff; lia.
    + lia.
Qed.

(** [balloc] takes a free data block, marks it in use and clears it; it panics
    only when every block is in use. *)
Lemma balloc_ok s V L ic :
  frep s V L ic -> disk_ok V -> held_ok V L ->
  ((forall b, 0 <= b < sb_size (decode_sb (V 1)) -> in_use V b) -> E (Panicked "balloc: out of blocks")) ->
  safe E (balloc 1) s (fun r s' => exists V', allocated V r V' /\ frep s' V' L ic).
Proof.
  intros Hf Hok Hh HEout. unfold balloc. apply safe_gets. rewrite (proj2 (proj2 Hf)).
  pose proof (ge_size _ (dk_geo _ Hok)) as [Hs Hs2].
  pose proof (ge_pos _ (dk_geo _ Hok)).
  apply balloc_loop_ok; try done.
  - intros; lia.
  - unfold BPB. rewrite Z2Nat.id by (Z.div_mod_to_equations; lia). Z.div_mod_to_equations; lia.
Qed.

Record freed (V : Z -> list Z) (r : Z) (V' : Z -> list Z) : Prop := Freed {
  fr_ok : disk_ok V';
  fr_sb : V' 1 = V 1;
  fr_use : forall b, 0 <= b < sb_size (decode_sb (V 1)) -> in_use V' b <-> b <> r /\ in_use V b;
  fr_keep : forall n, n <> BBLOCK r (decode_sb (V 1)) -> V' n = V n
}.

Lemma free_disk_ok V r :
  disk_ok V -> is_data V r ->
  let bb := BBLOCK r (decode_sb (V 1)) in
  freed V r (fupd V bb (bit_reset (V bb) (r mod BPB))).
Proof.
  intros Hok Hd bb. destruct (data_usable V r Hok Hd) as (_&_&Hr1). destruct Hd as [Hd1 Hd2].
  destruct (BBLOCK_range V r Hok ltac:(lia)) as (Hb1&Hb2&Hbu). fold bb in Hb1, Hb2, Hbu.
  set (V' := fupd _ _ _). assert (H1 : V' 1 = V 1) by (apply fupd_ne; lia).
  set (sb := decode_sb (V 1)) in *.
  assert (Huse : forall b, 0 <= b < sb_size sb -> in_use V' b <-> b <> r /\ in_use V b).
  { intros b Hb. unfold in_use. rewrite H1. fold sb. unfold V'. rewrite fupd_at.
    destruct (Z.eqb_spec (BBLOCK b sb) bb) as [E1|E1].
    - rewrite bit_reset_spec, E1 by (by apply mod_is_bit).
      destruct (Z.eqb_spec (b mod BPB) (r mod BPB)) as [Em|Em].
      + split; [done|]. intros [Hbr _]. destruct Hbr. by apply (BBLOCK_inj sb).
      + split; [|tauto]. intros ?. split; [by intros ->|done].
    - split; [|tauto]. intros ?. split; [by intros ->|done]. }
  split; try done.
  - split; rewrite ?H1; [apply Hok| |].
    + intros n. unfold V'. rewrite fupd_at. destruct (Z.eqb_spec n bb); [apply st8_block|]; apply Hok.
    + intros b Hb. pose proof (ge_size _ (dk_geo _ Hok)) as Hs. fold sb in Hs, Hb. apply Huse; [lia|].
      split; [lia|]. apply (dk_meta _ Hok). by fold sb.
  - intros n Hn. by apply fupd_ne.
Qed.

Lemma fs_readsb_ok s V L ic :
  frep s V L ic -> unlent L 1 -> blk_usable 1 ->
  safe E (readsb 1) s (fun _ s' => frep s' V L ic).
Proof.
  intros Hf Hu H1. unfold readsb. eapply f_load; [done..|]. intros b s1 HLb Hf1. apply safe_modify.
  assert (Hf2 : frep (FsState (fs_blk s1) (decode_sb (V 1)) (fs_icache s1) (fs_pid s1) (fs_cwd s1)) V
    (<[b := (1, V 1)]> L) ic) by (destruct Hf1 as (?&?&?); by split_and!).
  eapply safe_conseq; [eapply (f_brelse _ _ _ _ b 1); [done|apply lookup_insert_eq]|].
  intros [] s2 Hf3. by rewrite delete_insert_id in Hf3.
Qed.

(** [bfree] of a data block clears its bit; freeing a free block panics. *)
Lemma bfree_ok s V L ic r :
  frep s V L ic -> disk_ok V -> held_ok V L -> is_data V r ->
  (~ in_use V r -> E (Panicked "freeing free block")) ->
  safe E (bfree 1 r) s (fun _ s' => in_use V r /\ exists V', freed V r V' /\ frep s' V' L ic).
Proof.
  intros Hf Hok Hh Hd HEfree. pose proof (dk_geo _ Hok) as Hg. pose proof (ge_inodes _ Hg) as Hi.
  destruct (data_usable V r Hok Hd) as (_&_&Hr1). pose proof Hd as [Hd1 Hd2].
  destruct (BBLOCK_range V r Hok ltac:(lia)) as (Hb1&Hb2&Hbu).
  assert (Hu1 : unlent L 1).
  { eapply held_unlent; [done|]. left. intros Hd'. by destruct (data_usable V 1 Hok Hd') as (_&?&_). }
  assert (Hub : unlent L (BBLOCK r (decode_sb (V 1)))).
  { eapply held_unlent; [done|]. left. unfold is_data. lia. }
  unfold bfree. eapply safe_bind; [apply (fs_readsb_ok s V L ic); [done|done|apply Hg]|].
  intros [] s1 Hf1. apply safe_gets. rewrite (proj2 (proj2 Hf1)).
  eapply f_load; [done|done|done|]. intros bp s2 HLb Hf2.
  destruct (bit_clear _ _) eqn:Ec.
  - apply HEfree. unfold in_use. congruence.
  - eapply f_update_last; try done; [lia|unfold bit_reset; by rewrite length_st8|].
    intros s3 Hf3. split; [done|]. eexists. split; [by apply free_disk_ok|done].
Qed.
End blocks.
