(* ===== verification/FsInode.v ===== *)
(** * Inodes: the on-disk form, the inode cache, iupdate and ilock *)
From stdpp Require Import base numbers list gmap strings.
From S2P Require Import Prelude Block Bio Log Blk Fs FsBlocks.
Open Scope Z_scope.

(** ** The on-disk inode *)

Record dinode_ok (x : dinode) : Prop := DinodeOk {
  do_type : -32768 <= d_type x < 32768;
  do_major : -32768 <= d_major x < 32768;
  do_minor : -32768 <= d_minor x < 32768;
  do_nlink : -32768 <= d_nlink x < 32768;
  do_size : is_u32 (d_size x);
  do_len : length (d_addrs x) = 13%nat;
  do_addrs : Forall is_u32 (d_addrs x)
}.

Lemma length_write_addrs d o a : length (write_addrs d o a) = length d.
Proof. revert d o. induction a; intros; simpl; [done|]. by rewrite IHa, length_st32. Qed.

Lemma length_write_dinode d k x : length (write_dinode d k x) = length d.
Proof. unfold write_dinode. by rewrite length_write_addrs, length_st32, !length_st16. Qed.

Lemma write_addrs_block d o a : is_block_data d -> is_block_data (write_addrs d o a).
Proof. revert d o. induction a; intros; simpl; [done|]. by apply IHa, st32_block. Qed.

Lemma write_dinode_block d k x : is_block_data d -> is_block_data (write_dinode d k x).
Proof. intros. unfold write_dinode. apply write_addrs_block, st32_block. by do 4 apply st16_block. Qed.

Lemma write_addrs_ne d o a p :
  0 <= o -> o + 4 * Z.of_nat (length a) <= Z.of_nat (length d) ->
  p < o \/ o + 4 * Z.of_nat (length a) <= p -> ld8 (write_addrs d o a) p = ld8 d p.
Proof.
  revert d o. induction a as [|x a IH]; intros d o Ho Hl Hp; simpl in *; [done|].
  rewrite IH by (rewrite ?length_st32; lia). apply ld8_st32_ne; lia.
Qed.

Lemma write_addrs_at d o a j x :
  0 <= o -> o + 4 * Z.of_nat (length a) <= Z.of_nat (length d) -> a !! j = Some x ->
  ld32 (write_addrs d o a) (o + 4 * Z.of_nat j) = u32 x.
Proof.
  revert d o j. induction a as [|y a IH]; intros d o j Ho Hl Hj; [done|]. destruct j as [|j]; simpl in *.
  - injection Hj as ->. rewrite Z.mul_0_r, Z.add_0_r. unfold ld32, ld16.
    rewrite !write_addrs_ne by (rewrite ?length_st32; lia). fold (ld16 (st32 d o x) o).
    apply (ld32_st32 d o x); lia.
  - replace (o + 4 * Z.of_nat (S j)) with (o + 4 + 4 * Z.of_nat j) by lia.
    apply IH; [lia|rewrite length_st32; lia|done].
Qed.

Lemma i16_u16 z : -32768 <= z < 32768 -> i16 (u16 z) = z.
Proof. intros. word. Qed.

(** The header of the inode at offset [o], before the addresses. *)
Lemma write_dinode_ne d k x p :
  0 <= k < IPB -> length d = 512%nat -> length (d_addrs x) = 13%nat ->
  p < 64 * k \/ 64 * k + 64 <= p -> ld8 (write_dinode d k x) p = ld8 d p.
Proof.
  intros Hk Hl Ha Hp. unfold write_dinode, IPB in *.
  rewrite write_addrs_ne by (rewrite ?length_st32, ?length_st16, ?Ha; lia).
  rewrite ld8_st32_ne by (rewrite ?length_st16; lia).
  rewrite !ld8_st16_ne by (rewrite ?length_st16; lia). done.
Qed.

(** The fields before the addresses. *)
Definition dinode_head (d : list Z) (o : Z) (x : dinode) : list Z :=
  st32 (st16 (st16 (st16 (st16 d o (d_type x)) (o + 2) (d_major x)) (o + 4) (d_minor x))
    (o + 6) (d_nlink x)) (o + 8) (d_size x).

Lemma dinode_head_fields d o x :
  0 <= o -> o + 64 <= Z.of_nat (length d) ->
  ld16 (dinode_head d o x) o = u16 (d_type x) /\ ld16 (dinode_head d o x) (o + 2) = u16 (d_major x) /\
  ld16 (dinode_head d o x) (o + 4) = u16 (d_minor x) /\ ld16 (dinode_head d o x) (o + 6) = u16 (d_nlink x) /\
  ld32 (dinode_head d o x) (o + 8) = u32 (d_size x).
Proof.
  intros Ho Hl. unfold dinode_head. split_and!.
  - rewrite ld16_st32_ne, !ld16_st16_ne, ld16_st16 by (rewrite ?length_st16; lia). done.
  - rewrite ld16_st32_ne by (rewrite ?length_st16; lia).
    do 2 rewrite ld16_st16_ne by (rewrite ?length_st16; lia). apply ld16_st16; rewrite ?length_st16; lia.
  - rewrite ld16_st32_ne by (rewrite ?length_st16; lia).
    rewrite ld16_st16_ne by (rewrite ?length_st16; lia). apply ld16_st16; rewrite ?length_st16; lia.
  - rewrite ld16_st32_ne by (rewrite ?length_st16; lia). apply ld16_st16; rewrite ?length_st16; lia.
  - apply ld32_st32; rewrite ?length_st16; lia.
Qed.

(** What [iupdate] stores, [ilock] loads. *)
Lemma dinode_rw d k x :
  0 <= k < IPB -> length d = 512%nat -> dinode_ok x -> read_dinode (write_dinode d k x) k = x.
Proof.
  intros Hk Hl [Ht Hma Hmi Hnl Hs Ha Haa]. unfold IPB in *. set (o := 64 * k).
  assert (Hlh : length (dinode_head d o x) = 512%nat) by (unfold dinode_head; by rewrite length_st32, !length_st16).
  assert (H8 : forall p, p < o + 12 -> ld8 (write_dinode d k x) p = ld8 (dinode_head d o x) p).
  { intros p Hp. unfold write_dinode. fold o. apply write_addrs_ne; rewrite ?length_st32, ?length_st16, ?Ha; lia. }
  assert (H16 : forall p, p + 2 <= o + 12 -> ld16 (write_dinode d k x) p = ld16 (dinode_head d o x) p).
  { intros p Hp. unfold ld16. rewrite !H8 by lia. done. }
  assert (H32 : ld32 (write_dinode d k x) (o + 8) = ld32 (dinode_head d o x) (o + 8)).
  { unfold ld32. rewrite !H16 by lia. done. }
  destruct (dinode_head_fields d o x) as (F1&F2&F3&F4&F5); [lia..|].
  unfold read_dinode. fold o. rewrite !H16, H32, F1, F2, F3, F4, F5 by lia.
  rewrite !i16_u16, u32_small by done. destruct x as [t ma mi nl sz ad].
  cbn [d_type d_major d_minor d_nlink d_size d_addrs] in *. f_equal.
  apply list_eq_same_length with 13%nat; [done|done|]. intros j y z Hj Hy Hz.
  rewrite list_lookup_fmap, lookup_seqZ_lt in Hy by lia. injection Hy as <-.
  unfold write_dinode. fold o. cbn [d_addrs]. rewrite Z.add_0_l.
  rewrite (write_addrs_at _ (o + 12) ad j z); [|lia|rewrite ?length_st32, ?length_st16, Ha; lia|done].
  apply u32_small. by eapply Forall_lookup_1.
Qed.

Lemma dinode_other d k x j :
  0 <= k < IPB -> 0 <= j -> j <> k -> length d = 512%nat -> length (d_addrs x) = 13%nat ->
  read_dinode (write_dinode d k x) j = read_dinode d j.
Proof.
  intros Hk Hj Hne Hl Ha.
  assert (H8 : forall p, 64 * j <= p < 64 * j + 64 -> ld8 (write_dinode d k x) p = ld8 d p).
  { intros p Hp. apply write_dinode_ne; try done. lia. }
  unfold read_dinode, ld32, ld16. rewrite !H8 by lia. f_equal. apply list_fmap_ext. intros n y Hn.
  apply list_elem_of_lookup_2, elem_of_seqZ in Hn. by rewrite !H8 by lia.
Qed.

Section inodes.
Context {St : Type} `{BL : BlockLayer St}.
Abbreviation FM := (M (fsstate St)).
Context (E : stop -> Prop) (HE : forall e, blk_full e -> E e).

Lemma frep_ext s V L ic ic' : (forall k, ic' k = ic k) -> frep s V L ic -> frep s V L ic'.
Proof. intros Ei (?&Hi&?). split_and!; try done. intros k. by rewrite Hi. Qed.

Lemma f_get_inode {A} s V L ic ip (k : inode -> FM A) Q :
  frep s V L ic -> safe E (k (ic ip)) s Q -> safe E (bind (get_inode ip) k) s Q.
Proof. intros (_&Hi&_) H. apply safe_gets. by rewrite Hi. Qed.

Lemma f_mod_inode {A} s V L ic ip f (k : FM A) Q :
  frep s V L ic ->
  (forall s', frep s' V L (fupd ic ip (f (ic ip))) -> safe E k s' Q) ->
  safe E (mod_inode ip f ;; k) s Q.
Proof.
  intros (Hr&Hi&Hs) Hk. apply safe_modify. apply Hk. split_and!; try done.
  intros j. simpl. rewrite !fupd_at, !Hi. by destruct (j =? ip).
Qed.


(** Inode blocks lie between the superblock and the bitmap. *)
Definition inode_block (V : Z -> list Z) (n : Z) : Prop :=
  sb_inodestart (decode_sb (V 1)) <= n < sb_bmapstart (decode_sb (V 1)).

Lemma IBLOCK_range V inum :
  disk_ok V -> 0 <= inum < sb_ninodes (decode_sb (V 1)) ->
  inode_block V (IBLOCK inum (decode_sb (V 1))) /\ 0 <= inum mod IPB < IPB.
Proof.
  intros [[? ? ? ? ? ? ?] _ _] Hn. unfold inode_block, IBLOCK, IPB in *.
  assert (0 <= inum / 8) by (apply Z.div_pos; lia).
  assert (inum / 8 <= sb_ninodes (decode_sb (V 1)) / 8) by (apply Z.div_le_mono; lia).
  split; [lia|]. apply Z.mod_pos_bound. lia.
Qed.

Lemma inode_block_usable V n : disk_ok V -> inode_block V n -> blk_usable n /\ n <> 1 /\ ~ is_data V n.
Proof.
  intros [[? ? ? ? ? ? Hu] _ _] Hn. unfold inode_block, is_data, data_start, BPB in *.
  assert (0 <= sb_size (decode_sb (V 1)) / 4096) by (apply Z.div_pos; lia).
  split_and!; [apply Hu|..]; lia.
Qed.

(** Writing an inode block leaves layout, bitmap and data alone. *)
Lemma inode_write_ok V n d :
  disk_ok V -> inode_block V n -> is_block_data d ->
  disk_ok (fupd V n d) /\ fupd V n d 1 = V 1 /\
  (forall b, 0 <= b < sb_size (decode_sb (V 1)) -> in_use (fupd V n d) b <-> in_use V b).
Proof.
  intros Hok Hn Hd. destruct (inode_block_usable V n Hok Hn) as (_&Hn1&_).
  assert (H1 : fupd V n d 1 = V 1) by (apply fupd_ne; lia).
  assert (Hu : forall b, 0 <= b < sb_size (decode_sb (V 1)) -> in_use (fupd V n d) b <-> in_use V b).
  { intros b Hbr. unfold in_use. rewrite H1, fupd_ne; [done|].
    destruct (BBLOCK_range V b Hok Hbr) as (_&?&_). unfold inode_block in Hn. lia. }
  split_and!; try done. split; rewrite ?H1; [apply Hok| |].
  - intros m. rewrite fupd_at. destruct (m =? n); [done|apply Hok].
  - intros b Hbr. pose proof (ge_size _ (dk_geo _ Hok)). apply Hu; [lia|]. by apply Hok.
Qed.

(** [iupdate] stores the cached inode in its slot. *)
Lemma iupdate_ok s V ic ip :
  frep s V ∅ ic -> disk_ok V -> i_dev (ic ip) = 1 -> 0 <= i_inum (ic ip) < sb_ninodes (decode_sb (V 1)) ->
  let ib := IBLOCK (i_inum (ic ip)) (decode_sb (V 1)) in
  let d := write_dinode (V ib) (i_inum (ic ip) mod IPB) (dinode_of (ic ip)) in
  safe E (iupdate ip) s (fun _ s' => frep s' (fupd V ib d) ∅ ic /\ disk_ok (fupd V ib d)).
Proof.
  intros Hf Hok Hdev Hn ib d. destruct (IBLOCK_range V _ Hok Hn) as [Hib Hsl]. fold ib in Hib.
  destruct (inode_block_usable V ib Hok Hib) as (Hu&H1&_).
  unfold iupdate. eapply f_get_inode; [done|]. apply safe_gets. rewrite (proj2 (proj2 Hf)), Hdev. fold ib.
  eapply f_load; [exact HE|done|apply unlent_empty|done|]. intros b s1 HLb Hf1.
  eapply f_update_last; try done; [by apply length_write_dinode|]. intros s2 Hf2. split; [done|].
  apply inode_write_ok; try done. apply write_dinode_block, Hok.
Qed.

(** [ilock] of an unlocked inode takes the lock and, when the entry is not
    valid, loads the inode from its slot on the disk. *)
Lemma ilock_ok s V ic ip :
  frep s V ∅ ic -> disk_ok V -> ip <> NULL -> 1 <= i_ref (ic ip) -> sl_locked (i_lock (ic ip)) = 0 ->
  i_dev (ic ip) = 1 -> 0 <= i_inum (ic ip) < sb_ninodes (decode_sb (V 1)) ->
  let i := set_ilock (Sleeplock 1 (fs_pid s)) (ic ip) in
  let x := read_dinode (V (IBLOCK (i_inum i) (decode_sb (V 1)))) (i_inum i mod IPB) in
  (i_valid i = 0 -> d_type x = 0 -> E (Panicked "ilock: no type")) ->
  safe E (ilock ip) s (fun _ s' =>
    frep s' V ∅ (fupd ic ip (if i_valid i =? 0 then set_valid 1 (load_dinode x i) else i))).
Proof.
  intros Hf Hok Hnull Href Hlk Hdev Hn i x Hx. destruct (IBLOCK_range V _ Hok Hn) as [Hib _].
  destruct (inode_block_usable V _ Hok Hib) as (Hu&_&_).
  unfold ilock. eapply f_get_inode; [done|].
  destruct (Z.eqb_spec ip NULL); [done|]. destruct (Z.ltb_spec (i_ref (ic ip)) 1); [lia|]. cbn [orb].
  eapply safe_bind with (R := fun _ s' => frep s' V ∅ (fupd ic ip i)).
  { unfold acquiresleep. eapply f_get_inode; [done|]. rewrite Hlk. simpl. apply safe_gets.
    destruct Hf as (Hr&Hi&Hs). unfold safe, mod_inode, modify. split_and!; try done.
    intros k. simpl. rewrite !fupd_at, !Hi. by destruct (k =? ip). }
  intros [] s1 Hf1. eapply f_get_inode; [done|]. rewrite fupd_eq.
  destruct (Z.eqb_spec (i_valid i) 0) as [Hv|Hv]; [|by apply safe_ret].
  unfold when. apply safe_gets. rewrite (proj2 (proj2 Hf1)). change (i_dev i) with (i_dev (ic ip)). rewrite Hdev.
  eapply f_load; [exact HE|done|apply unlent_empty|done|]. intros bp s2 HLb Hf2. fold x.
  eapply f_mod_inode; [done|]. intros s3 Hf3. rewrite fupd_eq in Hf3.
  eapply safe_bind; [eapply (f_brelse _ _ _ _ _ bp); [done|apply lookup_insert_eq]|]. intros [] s4 Hf4.
  rewrite delete_insert_id in Hf4 by apply lookup_empty.
  eapply f_mod_inode; [done|]. intros s5 Hf5. eapply f_get_inode; [done|]. rewrite !fupd_eq in *.
  change (i_type (set_valid 1 (load_dinode x i))) with (d_type x).
  destruct (Z.eqb_spec (d_type x) 0) as [Ht|Ht]; [by apply Hx|]. apply safe_ret.
  eapply frep_ext; [|done]. intros k. rewrite !fupd_at. by destruct (k =? ip).
Qed.

(** ** The inode cache *)

Definition in_cache (ip : Z) : Prop := 0 <= ip < NINODE.

(** Every referenced inode has one entry. *)
Record icache_ok (ic : Z -> inode) : Prop := IcacheOk {
  ic_ref : forall ip, in_cache ip -> 0 <= i_ref (ic ip);
  ic_uniq : forall ip jp, in_cache ip -> in_cache jp -> 0 < i_ref (ic ip) -> 0 < i_ref (ic jp) ->
    i_dev (ic ip) = i_dev (ic jp) -> i_inum (ic ip) = i_inum (ic jp) -> ip = jp
}.

Definition is_entry (ic : Z -> inode) (dev inum ip : Z) : Prop :=
  0 < i_ref (ic ip) /\ i_dev (ic ip) = dev /\ i_inum (ic ip) = inum.

Lemma iget_scan_spec l ic dev inum empty :
  match iget_scan l ic dev inum empty with
  | inl ip => ip ∈ l /\ is_entry ic dev inum ip
  | inr e => (forall ip, ip ∈ l -> ~ is_entry ic dev inum ip) /\
      match empty with
      | Some x => e = Some x
      | None =>
          match e with
          | Some ip => ip ∈ l /\ i_ref (ic ip) = 0
          | None => forall ip, ip ∈ l -> i_ref (ic ip) <> 0
          end
      end
  end.
Proof.
  revert empty. induction l as [|ip l IH]; intros empty; simpl.
  { split; [intros ? H; by apply elem_of_nil in H|]. destruct empty; [done|]. intros ? H. by apply elem_of_nil in H. }
  destruct ((0 <? i_ref (ic ip)) && (i_dev (ic ip) =? dev) && (i_inum (ic ip) =? inum)) eqn:Ec.
  - apply andb_true_iff in Ec as [[?%Z.ltb_lt ?%Z.eqb_eq]%andb_true_iff ?%Z.eqb_eq]. split; [left|done].
  - assert (Hne : ~ is_entry ic dev inum ip).
    { intros (H1&H2&H3). apply Z.ltb_lt in H1. apply Z.eqb_eq in H2, H3. by rewrite H1, H2, H3 in Ec. }
    specialize (IH (match empty with None => if i_ref (ic ip) =? 0 then Some ip else None | Some e => Some e end)).
    destruct (iget_scan _ _ _ _ _) as [jp|e]; [destruct IH; split; [by right|done]|].
    destruct IH as [Hall He]. split; [intros jp [->|?]%elem_of_cons; auto|].
    destruct empty as [x|]; [done|]. destruct (Z.eqb_spec (i_ref (ic ip)) 0) as [Hr|Hr].
    + subst e. split; [left|done].
    + destruct e as [jp|]; [destruct He; split; [by right|done]|].
      intros jp [->|?]%elem_of_cons; auto.
Qed.

Lemma icache_put ic ip i' :
  icache_ok ic -> 0 < i_ref i' ->
  (forall jp, in_cache jp -> jp <> ip -> 0 < i_ref (ic jp) -> i_dev (ic jp) = i_dev i' -> i_inum (ic jp) <> i_inum i') ->
  icache_ok (fupd ic ip i').
Proof.
  intros [Hc1 Hc2] Hp Hoth. split.
  - intros jp Hj. rewrite fupd_at. destruct (jp =? ip); [lia|auto].
  - intros a b Ha Hb. rewrite !fupd_at. destruct (Z.eqb_spec a ip) as [->|], (Z.eqb_spec b ip) as [->|]; try done.
    + intros _ ? E1 E2. destruct (Hoth b); auto.
    + intros ? _ E1 E2. destruct (Hoth a); auto.
    + auto.
Qed.

(** The stop of [iget]: the inode is not cached and every entry is in use. *)
Definition cache_full (ic : Z -> inode) (dev inum : Z) (e : stop) : Prop :=
  e = Panicked "iget: no inodes" /\
  forall ip, in_cache ip -> 0 < i_ref (ic ip) /\ ~ is_entry ic dev inum ip.

Lemma iget_ok s V L ic dev inum :
  frep s V L ic -> icache_ok ic ->
  safe (cache_full ic dev inum) (iget dev inum) s (fun ip s' =>
    exists i', in_cache ip /\ frep s' V L (fupd ic ip i') /\ icache_ok (fupd ic ip i') /\
      i_dev i' = dev /\ i_inum i' = inum /\ i_ref i' = i_ref (ic ip) + 1 /\
      i' = (if 0 <? i_ref (ic ip) then set_ref (i_ref (ic ip) + 1) (ic ip)
            else set_valid 0 (set_ref 1 (Inode dev inum 0 (i_lock (ic ip)) 0 (i_type (ic ip)) (i_major (ic ip))
              (i_minor (ic ip)) (i_nlink (ic ip)) (i_size (ic ip)) (i_addrs (ic ip)))))).
Proof.
  intros Hf Hic. pose proof Hf as (Hr&Hi&Hs). unfold iget. apply safe_gets.
  pose proof (iget_scan_spec (seqZ 0 NINODE) (fs_icache s) dev inum None) as Hsc.
  assert (Hin : forall ip, ip ∈ seqZ 0 NINODE <-> in_cache ip)
    by (intros ip; rewrite elem_of_seqZ; unfold in_cache; lia).
  assert (Hmod : forall ip f, frep (FsState (fs_blk s) (fs_sb s) (fupd (fs_icache s) ip (f (fs_icache s ip)))
      (fs_pid s) (fs_cwd s)) V L (fupd ic ip (f (ic ip)))).
  { intros ip f. split_and!; try done. intros k. simpl. rewrite !fupd_at, !Hi. by destruct (k =? ip). }
  destruct (iget_scan _ _ _ _ _) as [ip|[ip|]].
  - destruct Hsc as [Hip%Hin (Href&Hd&Hm)]. rewrite Hi in Href, Hd, Hm. unfold mod_inode. apply safe_modify, safe_ret.
    exists (set_ref (i_ref (ic ip) + 1) (ic ip)).
    assert (Hlt : (0 <? i_ref (ic ip)) = true) by (by apply Z.ltb_lt). rewrite Hlt.
    split_and!; try done; [apply (Hmod ip (fun i => set_ref (i_ref i + 1) i))|].
    apply icache_put; [done|simpl; lia|].
    intros jp Hj Hne Hjr E1 E2. apply Hne. apply (ic_uniq _ Hic); simpl in *; congruence || done.
  - destruct Hsc as [Hall [Hip%Hin Hz]]. rewrite Hi in Hz. unfold mod_inode. apply safe_modify, safe_ret.
    eexists. split; [done|]. split.
    { apply (Hmod ip (fun i => Inode dev inum 1 (i_lock i) 0 (i_type i) (i_major i) (i_minor i)
        (i_nlink i) (i_size i) (i_addrs i))). }
    assert (Hlt : (0 <? i_ref (ic ip)) = false) by (apply Z.ltb_ge; lia). rewrite Hlt, Hz.
    split_and!; try done. apply icache_put; [done|simpl; lia|]. intros jp Hj Hne Hjr E1 E2.
    apply (Hall jp); [by apply Hin|]. unfold is_entry. rewrite Hi. simpl in *. auto.
  - destruct Hsc as [Hall Hz]. split; [done|]. intros ip Hip. split.
    + pose proof (Hz ip ltac:(by apply Hin)) as H. rewrite Hi in H. pose proof (ic_ref _ Hic ip Hip). lia.
    + pose proof (Hall ip ltac:(by apply Hin)) as H. unfold is_entry in *. by rewrite Hi in H.
Qed.
End inodes.
