(* ===== verification/FsFile.v ===== *)
(** * File contents: bmap, readi, writei

    The blocks an inode points to, directly and through its indirect block,
    and the bytes they make up.  [edits] is what work on one file may
    do to the disk, [grows] the part of it that keeps the file's contents, as
    [bmap] does when it allocates blocks for holes. *)
From stdpp Require Import base numbers list gmap strings.
From S2P Require Import Prelude Block Bio Log Blk Fs FsBlocks FsInode.
Open Scope Z_scope.

Definition ind_of (i : inode) : Z := nthZ 0 (i_addrs i) NDIRECT.

(** The address of block [bn] of the file, 0 for a hole. *)
Definition blkno (V : Z -> list Z) (i : inode) (bn : Z) : Z :=
  if bn <? NDIRECT then nthZ 0 (i_addrs i) bn
  else if ind_of i =? 0 then 0 else ld32 (V (ind_of i)) (4 * (bn - NDIRECT)).

(** Byte [o] of the file; holes read as zero. *)
Definition byte_at (V : Z -> list Z) (i : inode) (o : Z) : Z :=
  let a := blkno V i (o / BSIZE) in
  if a =? 0 then 0 else ld8 (V a) (o mod BSIZE).

Definition in_file (bn : Z) : Prop := 0 <= bn < MAXFILE.

Section file.
Context {St : Type} `{BL : BlockLayer St}.

Record inode_ok (V : Z -> list Z) (i : inode) : Prop := InodeOk {
  io_dev : i_dev i = 1;
  io_len : length (i_addrs i) = 13%nat;
  io_ind : ind_of i <> 0 -> is_data V (ind_of i) /\ in_use V (ind_of i);
  io_blk : forall bn, in_file bn -> blkno V i bn <> 0 ->
    is_data V (blkno V i bn) /\ in_use V (blkno V i bn);
  io_inj : forall bn bn', in_file bn -> in_file bn' -> blkno V i bn <> 0 ->
    blkno V i bn = blkno V i bn' -> bn = bn';
  io_ne : forall bn, in_file bn -> blkno V i bn <> 0 -> blkno V i bn <> ind_of i
}.

(** What work on a file may do to the disk: allocate blocks for its holes and
    change its own blocks, nothing else that is in use. *)
Record edits (V : Z -> list Z) (i : inode) (V' : Z -> list Z) (i' : inode) : Prop := Edits {
  gr_ok : disk_ok V';
  gr_inode : inode_ok V' i';
  gr_fields : i' = set_addrs (i_addrs i') i;
  gr_blk : forall bn, in_file bn -> blkno V i bn <> 0 -> blkno V' i' bn = blkno V i bn;
  gr_newb : forall bn, in_file bn -> blkno V i bn = 0 -> blkno V' i' bn <> 0 ->
    ~ in_use V (blkno V' i' bn);
  gr_ind : ind_of i <> 0 -> ind_of i' = ind_of i;
  gr_new : ind_of i = 0 -> ind_of i' <> 0 -> ~ in_use V (ind_of i');
  gr_use : forall b, 0 <= b < sb_size (decode_sb (V 1)) -> in_use V b -> in_use V' b;
  gr_keep : forall n, is_data V n -> in_use V n -> n <> ind_of i ->
    (forall bn, in_file bn -> blkno V i bn <> n) -> V' n = V n;
  gr_meta : forall n, n < sb_bmapstart (decode_sb (V 1)) -> V' n = V n
}.

(** The same with the contents of the file unchanged. *)
Definition grows (V : Z -> list Z) (i : inode) (V' : Z -> list Z) (i' : inode) : Prop :=
  edits V i V' i' /\ forall o, 0 <= o < MAXFILE * BSIZE -> byte_at V' i' o = byte_at V i o.

Lemma data_range V n : disk_ok V -> is_data V n -> 0 <= n < sb_size (decode_sb (V 1)) /\ 0 < n /\ is_i32 n.
Proof.
  intros Hok Hd. destruct (data_usable V n Hok Hd) as (_&_&?). destruct Hd as [? ?].
  pose proof (ge_size _ (dk_geo _ Hok)). unfold is_i32. lia.
Qed.

Lemma is_data_sb V V' n : V' 1 = V 1 -> is_data V' n <-> is_data V n.
Proof. intros H. unfold is_data. by rewrite H. Qed.

(** Blocks in use survive an allocation. *)
Lemma alloc_keeps V r V' n : disk_ok V -> allocated V r V' -> is_data V n -> in_use V n ->
  V' n = V n /\ in_use V' n /\ is_data V' n /\ n <> r.
Proof.
  intros Hok [? Hsb ? Hfr ? Huse Hk] Hd Hu.
  assert (n <> r) by (by intros ->). destruct (data_range V n Hok Hd) as (?&?&?).
  split_and!; try done.
  - apply Hk; [done|]. unfold is_data in Hd. lia.
  - apply Huse; [done|]. by right.
  - by apply (is_data_sb V).
Qed.

Lemma alloc_new V r V' : disk_ok V -> allocated V r V' -> is_data V' r /\ in_use V' r /\ 0 < r /\ is_i32 r.
Proof.
  intros Hok [? Hsb Hd Hfr ? Huse Hk]. destruct (data_range V r Hok Hd) as (?&?&?).
  split_and!; try done; try lia; [by apply (is_data_sb V)|]. apply Huse; [done|by left].
Qed.

Lemma blkno_alloc V r V' i bn :
  disk_ok V -> allocated V r V' -> inode_ok V i -> blkno V' i bn = blkno V i bn.
Proof.
  intros Hok Hal Hi. unfold blkno. destruct (bn <? NDIRECT); [done|].
  destruct (Z.eqb_spec (ind_of i) 0); [done|]. destruct (io_ind _ _ Hi); [done|].
  by destruct (alloc_keeps V r V' (ind_of i)) as (->&_).
Qed.

(** The bytes of a file depend on its addresses and blocks. *)
Lemma byte_at_same V i V' i' o :
  blkno V' i' (o / BSIZE) = blkno V i (o / BSIZE) ->
  (blkno V i (o / BSIZE) <> 0 -> V' (blkno V i (o / BSIZE)) = V (blkno V i (o / BSIZE))) ->
  byte_at V' i' o = byte_at V i o.
Proof. intros E H. unfold byte_at. rewrite E. destruct (Z.eqb_spec (blkno V i (o / BSIZE)) 0); [done|]. by rewrite H. Qed.

Lemma byte_at_zero V i V' i' o :
  blkno V i (o / BSIZE) = 0 -> V' (blkno V' i' (o / BSIZE)) = zeros ->
  byte_at V' i' o = byte_at V i o.
Proof.
  intros E H. unfold byte_at. rewrite E, H, ld8_zeros. simpl. by destruct (_ =? 0).
Qed.

Lemma block_in_file o : 0 <= o < MAXFILE * BSIZE -> in_file (o / BSIZE).
Proof. unfold in_file, BSIZE. intros. Z.div_mod_to_equations; lia. Qed.


(** A data block rewritten leaves the bitmap and the layout alone. *)
Lemma data_write_ok V n d :
  disk_ok V -> is_data V n -> is_block_data d ->
  disk_ok (fupd V n d) /\ fupd V n d 1 = V 1 /\
  (forall b, 0 <= b < sb_size (decode_sb (V 1)) -> in_use (fupd V n d) b <-> in_use V b).
Proof.
  intros Hok Hd Hb. destruct (data_usable V n Hok Hd) as (_&Hn1&_).
  assert (H1 : fupd V n d 1 = V 1) by (apply fupd_ne; lia).
  assert (Hu : forall b, 0 <= b < sb_size (decode_sb (V 1)) -> in_use (fupd V n d) b <-> in_use V b).
  { intros b Hbr. unfold in_use. rewrite H1. rewrite fupd_ne; [done|].
    destruct (BBLOCK_range V b Hok Hbr) as (_&?&_). unfold is_data in Hd. lia. }
  split_and!; try done. split; rewrite ?H1; [apply Hok| |].
  - intros m. rewrite fupd_at. destruct (m =? n); [done|apply Hok].
  - intros b Hbr. pose proof (ge_size _ (dk_geo _ Hok)). apply Hu; [lia|]. by apply Hok.
Qed.

(** Filling a hole: the fresh block [r] becomes the file's block [hole], or
    its indirect block; of the other blocks in use only the indirect block
    may change. *)
Section grow.
Context (V V' V2 : Z -> list Z) (i i' : inode) (r hole : Z).
Context (Hok : disk_ok V) (Hi : inode_ok V i) (Hal : allocated V r V').
Context (Hok2 : disk_ok V2) (H21 : V2 1 = V' 1).
Context (Huse2 : forall b, 0 <= b < sb_size (decode_sb (V 1)) -> in_use V2 b <-> in_use V' b).
Context (HV2 : forall n, n <> ind_of i \/ ind_of i = 0 -> V2 n = V' n).
Context (Hf : i' = set_addrs (i_addrs i') i) (Hl : length (i_addrs i') = 13%nat).
Context (Hb : forall bn, in_file bn -> blkno V2 i' bn = if bn =? hole then r else blkno V i bn).
Context (Hh : in_file hole -> blkno V i hole = 0).
Context (Hind : ind_of i' = ind_of i \/ (ind_of i = 0 /\ ind_of i' = r /\ ~ in_file hole)).

Local Lemma keep2 n : is_data V n -> in_use V n -> in_use V2 n /\ is_data V2 n /\ n <> r.
Proof.
  intros Hd Hu. destruct (alloc_keeps V r V' n Hok Hal Hd Hu) as (_&?&?&?).
  destruct (data_range V n Hok Hd) as (?&_). split_and!; try done; [by apply Huse2|].
  by apply (is_data_sb V').
Qed.
Local Lemma new2 : is_data V2 r /\ in_use V2 r.
Proof.
  destruct (alloc_new V r V' Hok Hal) as (Hd&Hu&_). split; [by apply (is_data_sb V')|].
  apply Huse2; [|done]. apply (data_range V r Hok), Hal.
Qed.
Local Lemma same2 n : is_data V n -> in_use V n -> n <> ind_of i -> V2 n = V n.
Proof.
  intros Hd Hu Hn. rewrite HV2 by (by left). by destruct (alloc_keeps V r V' n Hok Hal Hd Hu) as (?&_).
Qed.

Lemma grow_inode_ok : inode_ok V2 i'.
Proof.
  pose proof new2 as [Hrd Hru]. destruct (alloc_new V r V' Hok Hal) as (_&_&Hr0&_).
  split; [rewrite Hf; apply Hi|done|..].
  - destruct Hind as [E|(_&E&_)]; rewrite E; [|done]. intros Hn.
    destruct (io_ind _ _ Hi Hn) as [? ?]. by destruct (keep2 (ind_of i)) as (?&?&_).
  - intros bn Hbn. rewrite Hb by done. destruct (bn =? hole); [done|]. intros Hn.
    destruct (io_blk _ _ Hi bn Hbn Hn) as [? ?]. by destruct (keep2 (blkno V i bn)) as (?&?&_).
  - intros bn bn' Hbn Hbn'. rewrite !Hb by done.
    destruct (Z.eqb_spec bn hole) as [->|], (Z.eqb_spec bn' hole) as [->|]; try done.
    + intros _ E. exfalso. destruct (io_blk _ _ Hi bn' Hbn') as [? ?]; [lia|].
      by destruct (keep2 (blkno V i bn')) as (_&_&?).
    + intros Hn E. exfalso. destruct (io_blk _ _ Hi bn Hbn Hn) as [? ?].
      by destruct (keep2 (blkno V i bn)) as (_&_&?).
    + by apply (io_inj _ _ Hi).
  - intros bn Hbn. rewrite Hb by done. destruct Hind as [E|(_&E&Hnf)]; rewrite E.
    + destruct (bn =? hole); [|by apply (io_ne _ _ Hi)]. intros _ E'.
      destruct (io_ind _ _ Hi) as [? ?]; [lia|]. by destruct (keep2 (ind_of i)) as (_&_&?).
    + destruct (Z.eqb_spec bn hole) as [->|]; [done|]. intros Hn.
      destruct (io_blk _ _ Hi bn Hbn Hn) as [? ?]. by destruct (keep2 (blkno V i bn)) as (_&_&?).
Qed.

Lemma grow_bytes o : 0 <= o < MAXFILE * BSIZE -> byte_at V2 i' o = byte_at V i o.
Proof.
  intros Ho. pose proof (block_in_file o Ho) as Hfl.
  destruct (Z.eq_dec (o / BSIZE) hole) as [E|E].
  - apply byte_at_zero; [rewrite E in *; auto|]. rewrite Hb, E, Z.eqb_refl by done.
    rewrite HV2; [apply Hal|]. destruct (Z.eq_dec (ind_of i) 0); [by right|left].
    intros Er. destruct (io_ind _ _ Hi) as [? ?]; [done|]. destruct (keep2 (ind_of i)) as (_&_&Hx); congruence.
  - apply byte_at_same; [rewrite Hb by done; by destruct (Z.eqb_spec (o / BSIZE) hole)|]. intros Hn.
    destruct (io_blk _ _ Hi _ Hfl Hn) as [? ?]. apply same2; [done..|]. by apply (io_ne _ _ Hi).
Qed.

Lemma grow_alloc : grows V i V2 i'.
Proof.
  split; [|exact grow_bytes].
  destruct (alloc_new V r V' Hok Hal) as (_&_&Hr0&_). split; try done.
  - apply grow_inode_ok.
  - intros bn Hbn Hn. rewrite Hb by done. destruct (Z.eqb_spec bn hole) as [->|]; [|done].
    by rewrite Hh in Hn.
  - intros bn Hbn H0. rewrite Hb by done. destruct (bn =? hole); [intros _; apply Hal|done].
  - intros Hn. by destruct Hind as [|(?&_)].
  - intros E E'. destruct Hind as [E2|(_&->&_)]; [congruence|apply Hal].
  - intros b Hbr Hu. apply Huse2; [done|]. apply (al_use _ _ _ Hal); [done|by right].
  - intros n Hd Hu Hn _. by apply same2.
  - intros n Hn. pose proof (ge_pos _ (dk_geo _ Hok)).
    assert (0 <= sb_size (decode_sb (V 1)) / BPB) by (apply Z.div_pos; unfold BPB; lia).
    rewrite HV2; [apply (al_keep _ _ _ Hal); [|lia]|].
    + pose proof (al_data _ _ _ Hal) as [? _]. unfold data_start in *. lia.
    + destruct (Z.eq_dec (ind_of i) 0) as [|Hne]; [by right|left]. intros ->.
      destruct (io_ind _ _ Hi Hne) as [[? _] _]. unfold data_start in *. lia.
Qed.
End grow.

Lemma ind_updZ i k r : length (i_addrs i) = 13%nat -> 0 <= k < NDIRECT ->
  ind_of (set_addrs (updZ (i_addrs i) k r) i) = ind_of i.
Proof. intros. unfold ind_of. simpl. apply nthZ_updZ_ne. lia. Qed.

(** [bmap] fills a hole among the direct blocks. *)
Lemma grow_direct V i k r V' :
  disk_ok V -> inode_ok V i -> 0 <= k < NDIRECT -> nthZ 0 (i_addrs i) k = 0 -> allocated V r V' ->
  let i' := set_addrs (updZ (i_addrs i) k r) i in
  grows V i V' i' /\ blkno V' i' k = r.
Proof.
  intros Hok Hi Hk H0 Hal i'.
  pose proof (ind_updZ i k r (io_len _ _ Hi) Hk) as Eind. fold i' in Eind.
  assert (Hb : forall bn, blkno V' i' bn = if bn =? k then r else blkno V i bn).
  { intros bn. rewrite <- (blkno_alloc V r V' i bn) by done. unfold blkno. rewrite Eind.
    unfold i'. simpl. destruct (Z.ltb_spec bn NDIRECT).
    - destruct (Z.eqb_spec bn k) as [->|]; [|by apply nthZ_updZ_ne].
      apply nthZ_updZ_eq. rewrite (io_len _ _ Hi). unfold NDIRECT in *. lia.
    - destruct (Z.eqb_spec bn k); [lia|done]. }
  split; [|by rewrite Hb, Z.eqb_refl].
  apply (grow_alloc V V' V' i i' r k); try done.
  - apply Hal.
  - unfold i'. simpl. by rewrite length_updZ, (io_len _ _ Hi).
  - intros _. unfold blkno. destruct (Z.ltb_spec k NDIRECT); [done|lia].
  - by left.
Qed.

(** It allocates the indirect block. *)
Lemma grow_indirect V i r V' :
  disk_ok V -> inode_ok V i -> ind_of i = 0 -> allocated V r V' ->
  let i' := set_addrs (updZ (i_addrs i) NDIRECT r) i in
  grows V i V' i' /\ ind_of i' = r.
Proof.
  intros Hok Hi H0 Hal i'. assert (Eind : ind_of i' = r).
  { unfold ind_of, i'. simpl. apply nthZ_updZ_eq. rewrite (io_len _ _ Hi). unfold NDIRECT. lia. }
  split; [|done]. apply (grow_alloc V V' V' i i' r (-1)); try done.
  - apply Hal.
  - unfold i'. simpl. by rewrite length_updZ, (io_len _ _ Hi).
  - intros bn Hbn. unfold in_file in Hbn. destruct (Z.eqb_spec bn (-1)); [lia|].
    unfold blkno. rewrite Eind, H0. destruct (Z.ltb_spec bn NDIRECT).
    + unfold i'. simpl. apply nthZ_updZ_ne. lia.
    + simpl. rewrite (al_zero _ _ _ Hal), ld32_zeros. by destruct (_ =? _).
  - right. split_and!; try done. unfold in_file. lia.
Qed.

(** It fills a hole of the indirect block. *)
Lemma grow_entry V i k r V' :
  disk_ok V -> inode_ok V i -> NDIRECT <= k < MAXFILE -> ind_of i <> 0 -> blkno V i k = 0 ->
  allocated V r V' ->
  let V2 := fupd V' (ind_of i) (st32 (V (ind_of i)) (4 * (k - NDIRECT)) r) in
  grows V i V2 i /\ blkno V2 i k = r.
Proof.
  intros Hok Hi Hk Hn H0 Hal V2. destruct (io_ind _ _ Hi Hn) as [Hid Hiu].
  destruct (alloc_keeps V r V' _ Hok Hal Hid Hiu) as (Eid&Hiu'&Hid'&Hir).
  destruct (alloc_new V r V' Hok Hal) as (Hrd&_&Hr0&Hri).
  pose proof (dk_blocks _ Hok (ind_of i)) as [Hlen Hby].
  assert (Hd : is_block_data (st32 (V (ind_of i)) (4 * (k - NDIRECT)) r)).
  { by apply st32_block. }
  destruct (data_write_ok V' (ind_of i) _ (al_ok _ _ _ Hal) Hid' Hd) as (Hok2&H1&Hu2).
  rewrite (al_sb _ _ _ Hal) in Hu2.
  assert (Hb : forall bn, in_file bn -> blkno V2 i bn = if bn =? k then r else blkno V i bn).
  { intros bn Hbn. unfold blkno, V2. unfold MAXFILE, NDIRECT, NINDIRECT, in_file in *.
    destruct (Z.ltb_spec bn 12); [destruct (Z.eqb_spec bn k); [lia|done]|].
    destruct (Z.eqb_spec (ind_of i) 0); [done|]. rewrite fupd_eq.
    unfold MAXFILE, NDIRECT, NINDIRECT in Hbn.
    destruct (Z.eqb_spec bn k) as [->|].
    - rewrite ld32_st32 by lia. apply u32_small. unfold is_u32, is_i32 in *. lia.
    - rewrite ld32_st32_ne by lia. done. }
  split; [|by rewrite Hb, Z.eqb_refl by (unfold in_file, NDIRECT in *; lia)].
  apply (grow_alloc V V' V2 i i r k); try done.
  - intros n [?|?]; [by apply fupd_ne|done].
  - by destruct i.
  - apply Hi.
  - by left.
Qed.

Lemma grows_refl V i : disk_ok V -> inode_ok V i -> grows V i V i.
Proof. intros. split; [|done]. split; try done. by destruct i. Qed.

Lemma edits_sb V i V' i' : disk_ok V -> edits V i V' i' -> V' 1 = V 1.
Proof.
  intros Hok H. apply (gr_meta _ _ _ _ H). pose proof (dk_geo _ Hok) as [? ? ? ? ? ? ?]. unfold IPB in *.
  assert (0 <= sb_ninodes (decode_sb (V 1)) / 8) by (apply Z.div_pos; lia). lia.
Qed.

Lemma edits_trans V i V1 i1 V2 i2 :
  disk_ok V -> inode_ok V i -> edits V i V1 i1 -> edits V1 i1 V2 i2 -> edits V i V2 i2.
Proof.
  intros Hok Hi H1 H2. pose proof (edits_sb _ _ _ _ Hok H1) as S1.
  pose proof (edits_sb _ _ _ _ (gr_ok _ _ _ _ H1) H2) as S2.
  assert (Hnew : ind_of i = 0 -> ind_of i1 <> 0 -> ~ in_use V (ind_of i1)) by apply H1.
  assert (Hdat : ind_of i2 <> 0 -> 0 <= ind_of i2 < sb_size (decode_sb (V 1))).
  { intros Hn. destruct (io_ind _ _ (gr_inode _ _ _ _ H2) Hn) as [Hd _].
    rewrite <- S1, <- S2. by apply (data_range V2 _ (gr_ok _ _ _ _ H2)). }
  split; try apply H2.
  - rewrite (gr_fields _ _ _ _ H2) at 1. by rewrite (gr_fields _ _ _ _ H1) at 1.
  - intros bn Hbn Hn. rewrite (gr_blk _ _ _ _ H2); try done; [by apply (gr_blk _ _ _ _ H1)|].
    by rewrite (gr_blk _ _ _ _ H1).
  - intros bn Hbn E0 Hn2. destruct (Z.eq_dec (blkno V1 i1 bn) 0) as [E1|E1].
    + intros Hu. apply (gr_newb _ _ _ _ H2 bn Hbn E1 Hn2). apply (gr_use _ _ _ _ H1); [|done].
      destruct (io_blk _ _ (gr_inode _ _ _ _ H2) bn Hbn Hn2) as [Hd _].
      rewrite <- S1, <- S2. by apply (data_range V2 _ (gr_ok _ _ _ _ H2)).
    + rewrite (gr_blk _ _ _ _ H2) by done. by apply (gr_newb _ _ _ _ H1).
  - intros Hn. rewrite <- (gr_ind _ _ _ _ H1 Hn). apply (gr_ind _ _ _ _ H2).
    by rewrite (gr_ind _ _ _ _ H1 Hn).
  - intros E Hn2. destruct (Z.eq_dec (ind_of i1) 0) as [E1|E1].
    + intros Hu. apply (gr_new _ _ _ _ H2 E1 Hn2). apply (gr_use _ _ _ _ H1); auto.
    + rewrite (gr_ind _ _ _ _ H2 E1). by apply Hnew.
  - intros b Hb Hu. apply (gr_use _ _ _ _ H2); [by rewrite S1|]. by apply (gr_use _ _ _ _ H1).
  - intros n Hd Hu Hn Hbn. destruct (data_range V n Hok Hd) as (?&?&_).
    rewrite (gr_keep _ _ _ _ H2);
      [by apply (gr_keep _ _ _ _ H1)|by apply (is_data_sb V)|by apply (gr_use _ _ _ _ H1)| |].
    + destruct (Z.eq_dec (ind_of i) 0) as [E|E]; [|by rewrite (gr_ind _ _ _ _ H1 E)].
      destruct (Z.eq_dec (ind_of i1) 0); [lia|]. intros ->. by apply Hnew.
    + intros bn Hf E. destruct (Z.eq_dec (blkno V i bn) 0) as [E0|E0].
      * apply (gr_newb _ _ _ _ H1 bn Hf E0); rewrite E; [lia|done].
      * rewrite (gr_blk _ _ _ _ H1) in E by done. by apply (Hbn bn).
  - intros n Hn. rewrite (gr_meta _ _ _ _ H2) by (by rewrite S1). by apply (gr_meta _ _ _ _ H1).
Qed.

Lemma grows_trans V i V1 i1 V2 i2 :
  disk_ok V -> inode_ok V i -> grows V i V1 i1 -> grows V1 i1 V2 i2 -> grows V i V2 i2.
Proof.
  intros Hok Hi [H1 B1] [H2 B2]. split; [by eapply edits_trans|].
  intros o Ho. rewrite B2 by done. by apply B1.
Qed.

(** ** bmap *)

Abbreviation FM := (M (fsstate St)).

Context (E : stop -> Prop) (HE : forall e, blk_full e -> E e).
Context (HEout : forall V, disk_ok V -> (forall b, 0 <= b < sb_size (decode_sb (V 1)) -> in_use V b) ->
  E (Panicked "balloc: out of blocks")).

Lemma held_empty V : held_ok V ∅.
Proof. intros b n d H. by rewrite lookup_empty in H. Qed.

(** The indirect block, allocated if needed. *)
Lemma bmap_ind_ok s V ic ip :
  frep s V ∅ ic -> disk_ok V -> inode_ok V (ic ip) ->
  safe E (if ind_of (ic ip) =? 0 then
            let! addr := balloc (i_dev (ic ip)) in
            mod_inode ip (fun i => set_addrs (updZ (i_addrs i) NDIRECT addr) i) ;;
            ret addr
          else ret (ind_of (ic ip))) s
    (fun addr s' => exists V' i', grows V (ic ip) V' i' /\ frep s' V' ∅ (fupd ic ip i') /\
       ind_of i' = addr /\ addr <> 0).
Proof.
  intros Hf Hok Hi. destruct (Z.eqb_spec (ind_of (ic ip)) 0) as [E0|E0].
  - rewrite (io_dev _ _ Hi).
    eapply safe_bind; [eapply balloc_ok; [exact HE|done|done|apply held_empty|by apply HEout]|].
    intros r s1 (V'&Hal&Hf1). destruct (grow_indirect V (ic ip) r V' Hok Hi E0 Hal) as [Hg Hind].
    eapply f_mod_inode; [done|]. intros s2 Hf2. apply safe_ret.
    exists V', (set_addrs (updZ (i_addrs (ic ip)) NDIRECT r) (ic ip)). split_and!; try done.
    destruct (alloc_new V r V' Hok Hal) as (_&_&?&_). lia.
  - apply safe_ret. exists V, (ic ip). split_and!; try done; [by apply grows_refl|].
    eapply frep_ext; [|done]. intros k. apply fupd_same_at.
Qed.

(** The entry [k] of the held indirect block, allocated if needed. *)
Lemma bmap_entry_ok s V ic ip bp k :
  NDIRECT <= k < MAXFILE -> disk_ok V -> inode_ok V (ic ip) -> ind_of (ic ip) <> 0 ->
  frep s V (<[bp := (ind_of (ic ip), V (ind_of (ic ip)))]> ∅) ic ->
  safe E (let! addr :=
            (if blkno V (ic ip) k =? 0 then
               let! addr := balloc (i_dev (ic ip)) in
               let! a := bdata bp in
               bset bp (st32 a (4 * (k - NDIRECT)) addr) ;;
               log_write bp ;;
               ret addr
             else ret (blkno V (ic ip) k)) in
          brelse bp ;; ret addr) s
    (fun addr s' => exists V', grows V (ic ip) V' (ic ip) /\ frep s' V' ∅ ic /\
       blkno V' (ic ip) k = addr /\ addr <> 0).
Proof.
  intros Hk Hok Hi Hn Hf. destruct (io_ind _ _ Hi Hn) as [Hid Hiu]. set (ind := ind_of (ic ip)) in *.
  destruct (data_usable V _ Hok Hid) as (Hus&Hn1&_).
  apply safe_bind with (R := fun addr s' => exists V', grows V (ic ip) V' (ic ip) /\
    frep s' V' (<[bp := (ind, V' ind)]> ∅) ic /\ blkno V' (ic ip) k = addr /\ addr <> 0).
  - destruct (Z.eqb_spec (blkno V (ic ip) k) 0) as [E0|E0].
    + rewrite (io_dev _ _ Hi). eapply safe_bind.
      { eapply balloc_ok; [exact HE|done|done| |by apply HEout].
        intros b n d H. apply lookup_insert_Some in H as [[_ [= <- _]]|[_ H]]; [done|by rewrite lookup_empty in H]. }
      intros r s1 (V'&Hal&Hf1). destruct (grow_entry V (ic ip) k r V' Hok Hi Hk Hn E0 Hal) as [Hg Hb].
      fold ind in Hg, Hb. unfold safe, bind at 1. erewrite f_bdata by (eauto; apply lookup_insert_eq).
      fold (safe E (bset bp (st32 (V ind) (4 * (k - NDIRECT)) r) ;; log_write bp ;; ret r) s1
        (fun addr s' => exists V', grows V (ic ip) V' (ic ip) /\
           frep s' V' (<[bp := (ind, V' ind)]> ∅) ic /\ blkno V' (ic ip) k = addr /\ addr <> 0)).
      eapply safe_bind; [eapply f_bset; [done|apply lookup_insert_eq|by rewrite length_st32]|]. intros [] s2 Hf2.
      eapply safe_bind; [eapply f_log; [exact HE|done|apply lookup_insert_eq|done|done]|]. intros [] s3 Hf3.
      apply safe_ret. eexists. split; [exact Hg|]. split_and!; try done.
      * rewrite fupd_eq. by rewrite insert_insert_eq in Hf3.
      * destruct (alloc_new V r V' Hok Hal) as (_&_&?&_). lia.
    + apply safe_ret. exists V. split_and!; try done. by apply grows_refl.
  - intros addr s1 (V'&Hg&Hf1&Hb&Hne).
    eapply safe_bind; [eapply (f_brelse _ _ _ _ _ bp ind); [done|apply lookup_insert_eq]|]. intros [] s2 Hf2.
    apply safe_ret. exists V'. rewrite delete_insert_id in Hf2 by apply lookup_empty. done.
Qed.

(** [bmap] returns the address of the file's block, which it allocates when it
    is a hole; the contents of the file do not change. *)
Lemma bmap_ok s V ic ip bn :
  frep s V ∅ ic -> disk_ok V -> inode_ok V (ic ip) -> in_file bn ->
  safe E (bmap ip bn) s (fun addr s' => exists V' i', grows V (ic ip) V' i' /\
    frep s' V' ∅ (fupd ic ip i') /\ blkno V' i' bn = addr /\ addr <> 0).
Proof.
  intros Hf Hok Hi Hbn. unfold bmap. eapply f_get_inode; [done|].
  destruct (Z.ltb_spec bn NDIRECT).
  - assert (Eb : blkno V (ic ip) bn = nthZ 0 (i_addrs (ic ip)) bn)
      by (unfold blkno; destruct (Z.ltb_spec bn NDIRECT); [done|lia]).
    destruct (Z.eqb_spec (nthZ 0 (i_addrs (ic ip)) bn) 0) as [E0|E0].
    + rewrite (io_dev _ _ Hi).
      eapply safe_bind; [eapply balloc_ok; [exact HE|done|done|apply held_empty|by apply HEout]|].
      intros r s1 (V'&Hal&Hf1).
      destruct (grow_direct V (ic ip) bn r V' Hok Hi ltac:(unfold in_file in *; lia) E0 Hal) as [Hg Hb].
      eapply f_mod_inode; [done|]. intros s2 Hf2. apply safe_ret. eexists _, _. split_and!; try done.
      destruct (alloc_new V r V' Hok Hal) as (_&_&?&_). lia.
    + apply safe_ret. exists V, (ic ip). split_and!; try done; [by apply grows_refl|].
      eapply frep_ext; [|done]. intros k. apply fupd_same_at.
  - unfold in_file, MAXFILE in Hbn. destruct (Z.ltb_spec (bn - NDIRECT) NINDIRECT); [|lia].
    eapply safe_bind; [by apply (bmap_ind_ok s V ic ip)|].
    intros addr s1 (V1&i1&Hg1&Hf1&Hind&Hne).
    pose proof (gr_inode _ _ _ _ (proj1 Hg1)) as Hi1. pose proof (gr_ok _ _ _ _ (proj1 Hg1)) as Hok1.
    destruct (io_ind _ _ Hi1) as [Hd Hu]; [by rewrite Hind|]. rewrite Hind in Hd, Hu.
    rewrite (io_dev _ _ Hi).
    eapply f_load; [exact HE|done|apply unlent_empty|by apply (data_usable V1)|]. intros bp s2 _ Hf2.
    assert (Eb : ld32 (V1 addr) (4 * (bn - NDIRECT)) = blkno V1 (fupd ic ip i1 ip) bn).
    { rewrite fupd_eq. unfold blkno. destruct (Z.ltb_spec bn NDIRECT); [lia|]. rewrite Hind.
      by destruct (Z.eqb_spec addr 0). }
    rewrite Eb. rewrite <- (io_dev _ _ Hi1).
    pose proof (bmap_entry_ok s2 V1 (fupd ic ip i1) ip bp bn) as He. rewrite fupd_eq, Hind in He.
    eapply safe_conseq; [rewrite fupd_eq; apply He; unfold MAXFILE; try done; lia|].
    intros a s3 (V2&Hg2&Hf3&Hb&Ha). exists V2, i1. split_and!; try done.
    by eapply grows_trans.
Qed.

(** ** readi *)


(** The bytes [off, off + n) of a file. *)
Definition file_bytes (V : Z -> list Z) (i : inode) (off n : Z) : list Z :=
  map (byte_at V i) (seqZ off n).

Lemma file_bytes_app V i off m n : 0 <= m -> 0 <= n ->
  file_bytes V i off (m + n) = file_bytes V i off m ++ file_bytes V i (off + m) n.
Proof. intros. unfold file_bytes. rewrite seqZ_app by lia. apply map_app. Qed.

Lemma file_bytes_ext V i V' i' off n :
  (forall o, off <= o < off + n -> byte_at V' i' o = byte_at V i o) ->
  file_bytes V' i' off n = file_bytes V i off n.
Proof.
  intros H. unfold file_bytes. apply list_fmap_ext. intros j o Hj.
  apply list_elem_of_lookup_2, elem_of_seqZ in Hj. apply H. lia.
Qed.

(** One block's worth. *)
Definition chunk (off n tot : Z) : Z := Z.min (n - tot) (BSIZE - off mod BSIZE).

Lemma chunk_range off n tot : 0 <= off -> tot < n ->
  0 < chunk off n tot <= n - tot /\ off mod BSIZE + chunk off n tot <= BSIZE /\
  (forall j, 0 <= j < chunk off n tot -> (off + j) / BSIZE = off / BSIZE /\ (off + j) mod BSIZE = off mod BSIZE + j) /\
  (chunk off n tot = n - tot \/
   chunk off n tot = BSIZE - off mod BSIZE /\ (off + chunk off n tot) mod BSIZE = 0).
Proof.
  intros. unfold chunk, BSIZE. split_and!; try (Z.div_mod_to_equations; lia).
  intros j Hj. Z.div_mod_to_equations; lia.
Qed.

Lemma sub_bytes V i off m addr :
  blkno V i (off / BSIZE) = addr -> addr <> 0 ->
  (forall j, 0 <= j < m -> (off + j) / BSIZE = off / BSIZE /\ (off + j) mod BSIZE = off mod BSIZE + j) ->
  sub (V addr) (off mod BSIZE) m = file_bytes V i off m.
Proof.
  intros Hb Hn Hj. unfold sub, file_bytes.
  replace (seqZ off m) with (Z.add off <$> seqZ 0 m) by (rewrite fmap_add_seqZ; f_equal; lia).
  rewrite <- list_fmap_compose. apply list_fmap_ext. intros k j Hk.
  apply list_elem_of_lookup_2, elem_of_seqZ in Hk. destruct (Hj j) as [E1 E2]; [lia|].
  simpl. unfold byte_at. rewrite E1, E2, Hb. by destruct (Z.eqb_spec addr 0).
Qed.

Lemma fupd_fupd {A} (f : Z -> A) k x y j : fupd (fupd f k x) k y j = fupd f k y j.
Proof. rewrite !fupd_at. by destruct (j =? k). Qed.

Lemma readi_loop_ok fuel s V ic ip off n tot :
  frep s V ∅ ic -> disk_ok V -> inode_ok V (ic ip) -> 0 <= off -> 0 <= tot <= n ->
  off + (n - tot) <= MAXFILE * BSIZE -> n - tot <= BSIZE * Z.of_nat fuel - off mod BSIZE \/ tot = n ->
  safe E (readi_loop fuel ip off n tot) s (fun bytes s' =>
    bytes = file_bytes V (ic ip) off (n - tot) /\
    exists V' i', grows V (ic ip) V' i' /\ frep s' V' ∅ (fupd ic ip i')).
Proof.
  revert s V ic off tot. induction fuel as [|fuel IH]; intros s V ic off tot Hf Hok Hi Ho Ht Hm Hfu;
    cbn [readi_loop]; (destruct (Z.ltb_spec tot n) as [Hlt|Hge];
      [|apply safe_ret; replace (n - tot) with 0 by lia; split; [done|];
        exists V, (ic ip); split; [by apply grows_refl|]; eapply frep_ext; [|done]; intros k; apply fupd_same_at]).
  { pose proof (Z.mod_pos_bound off BSIZE ltac:(unfold BSIZE; lia)). lia. }
  destruct (chunk_range off n tot Ho Hlt) as (Hc1&Hc2&Hc3&Hc4). fold (chunk off n tot).
  set (m := chunk off n tot) in *. eapply f_get_inode; [done|].
  assert (Hbn : in_file (off / BSIZE)) by (apply block_in_file; lia).
  eapply safe_bind; [by apply (bmap_ok s V ic ip)|]. intros addr s1 (V1&i1&Hg1&Hf1&Hb&Hne).
  pose proof (gr_inode _ _ _ _ (proj1 Hg1)) as Hi1. pose proof (gr_ok _ _ _ _ (proj1 Hg1)) as Hok1.
  destruct (io_blk _ _ Hi1 _ Hbn ltac:(by rewrite Hb)) as [Hd Hu]. rewrite Hb in Hd, Hu.
  rewrite (io_dev _ _ Hi). eapply f_load; [exact HE|done|apply unlent_empty|by apply (data_usable V1)|].
  intros bp s2 _ Hf2.
  eapply safe_bind; [eapply (f_brelse _ _ _ _ _ bp addr); [done|apply lookup_insert_eq]|]. intros [] s3 Hf3.
  rewrite delete_insert_id in Hf3 by apply lookup_empty.
  eapply safe_bind.
  { eapply (IH s3 V1 (fupd ic ip i1) (off + m) (tot + m)); rewrite ?fupd_eq; try done; lia. }
  intros rest s4 (->&V2&i2&Hg2&Hf4). rewrite fupd_eq in Hg2 |- *. apply safe_ret. split.
  - rewrite (sub_bytes V1 i1 off m addr) by (done || apply Hc3).
    replace (n - tot) with (m + (n - (tot + m))) by lia. rewrite file_bytes_app by lia.
    f_equal; apply file_bytes_ext; intros o Hor; apply Hg1; lia.
  - exists V2, i2. split; [by eapply grows_trans|]. eapply frep_ext; [|done]. intros k. by rewrite fupd_fupd.
Qed.

Lemma io_fuel_enough n off : 0 <= n -> 0 <= off ->
  n - 0 <= BSIZE * Z.of_nat (io_fuel n) - off mod BSIZE \/ 0 = n.
Proof.
  intros. unfold io_fuel. rewrite Z2Nat.id by (unfold BSIZE; Z.div_mod_to_equations; lia).
  left. unfold BSIZE. Z.div_mod_to_equations; lia.
Qed.

Section readi.
Context (devsw_read : Z -> option (Z -> Z -> FM (Z * list Z))).

(** What [readi] delivers: the bytes of the file from [off], cut at its size. *)
Lemma readi_ok s V ic ip off n :
  frep s V ∅ ic -> disk_ok V -> inode_ok V (ic ip) -> i_type (ic ip) <> T_DEV ->
  0 <= i_size (ic ip) <= MAXFILE * BSIZE -> is_u32 off -> is_u32 n ->
  safe E (readi devsw_read ip off n) s (fun '(r, bytes) s' =>
    if (i_size (ic ip) <? off) || (4294967296 <=? off + n) then r = -1 /\ bytes = [] /\ s' = s
    else r = Z.min n (i_size (ic ip) - off) /\ bytes = file_bytes V (ic ip) off r /\
      exists V' i', grows V (ic ip) V' i' /\ frep s' V' ∅ (fupd ic ip i')).
Proof.
  intros Hf Hok Hi Ht Hs Ho Hn. unfold readi. eapply f_get_inode; [done|].
  destruct (Z.eqb_spec (i_type (ic ip)) T_DEV); [done|].
  assert (Hov : (u32 (off + n) <? off) = (4294967296 <=? off + n)).
  { unfold is_u32, u32 in *. destruct (Z.leb_spec 4294967296 (off + n)).
    - apply Z.ltb_lt. Z.div_mod_to_equations; lia.
    - apply Z.ltb_ge. rewrite Z.mod_small; lia. }
  rewrite Hov. destruct (Z.ltb_spec (i_size (ic ip)) off); [by apply safe_ret|].
  destruct (Z.leb_spec 4294967296 (off + n)); [by apply safe_ret|]. cbn [orb].
  unfold is_u32 in *. rewrite u32_small by (unfold is_u32; lia).
  set (n' := if i_size (ic ip) <? off + n then i_size (ic ip) - off else n).
  assert (En : n' = Z.min n (i_size (ic ip) - off)).
  { unfold n'. destruct (Z.ltb_spec (i_size (ic ip)) (off + n)); lia. }
  eapply safe_bind.
  - eapply (readi_loop_ok (io_fuel n') s V ic ip off n' 0); try done; try lia. apply io_fuel_enough; lia.
  - intros bytes s1 (->&HV). apply safe_ret. rewrite Z.sub_0_r in *.
    rewrite i32_small by (unfold is_i32, MAXFILE, BSIZE, NDIRECT, NINDIRECT in *; lia).
    by rewrite <- En.
Qed.
End readi.

(** ** writei *)


Lemma splice_block d o bs : is_block_data d -> Forall is_u8 bs -> is_block_data (splice d o bs).
Proof.
  intros [Hl Hd] Hb. split; [by rewrite length_splice|]. clear Hl. revert d o Hd.
  induction bs as [|x bs IH]; intros d o Hd; simpl; [done|].
  apply Forall_cons in Hb as [Hx Hb]. apply IH; [done|]. unfold updZ.
  destruct (o <? 0); [done|]. by apply Forall_insert.
Qed.

Lemma sub_u8 src o n : Forall is_u8 src -> Forall is_u8 (sub src o n).
Proof.
  intros H. unfold sub. apply Forall_fmap, Forall_forall. intros j _. simpl. unfold ld8, nthZ.
  destruct (_ <? 0); [unfold is_u8; lia|]. rewrite nth_lookup.
  destruct (src !! Z.to_nat (o + j)) as [x|] eqn:Ex; simpl; [|unfold is_u8; lia].
  by eapply Forall_lookup_1.
Qed.

(** Rewriting one block of a file. *)
Lemma edit_block V i bn d :
  disk_ok V -> inode_ok V i -> in_file bn -> blkno V i bn <> 0 -> is_block_data d ->
  let V' := fupd V (blkno V i bn) d in
  edits V i V' i /\
  (forall o, 0 <= o < MAXFILE * BSIZE ->
     byte_at V' i o = if o / BSIZE =? bn then ld8 d (o mod BSIZE) else byte_at V i o).
Proof.
  intros Hok Hi Hbn Hn Hd V'. destruct (io_blk _ _ Hi bn Hbn Hn) as [Hda Hu].
  pose proof (io_ne _ _ Hi bn Hbn Hn) as Hind.
  destruct (data_write_ok V (blkno V i bn) d Hok Hda Hd) as (Hok'&H1&Huse). fold V' in Hok', H1, Huse.
  assert (Hb : forall k, blkno V' i k = blkno V i k).
  { intros k. unfold blkno. destruct (k <? NDIRECT); [done|].
    destruct (Z.eqb_spec (ind_of i) 0); [done|]. unfold V'. rewrite fupd_ne by congruence. done. }
  split.
  - split; try done.
    + destruct Hi as [I1 I2 I3 I4 I5 I6]. split; try done.
      * intros Hx. destruct (I3 Hx) as [A B]. rewrite is_data_sb by done. split; [done|].
        apply Huse; [|done]. by apply (data_range V).
      * intros k Hk. rewrite Hb. intros Hx. destruct (I4 k Hk Hx) as [A B]. rewrite is_data_sb by done.
        split; [done|]. apply Huse; [|done]. by apply (data_range V).
      * intros k k' Hk Hk'. rewrite !Hb. by apply I5.
      * intros k Hk. rewrite Hb. by apply I6.
    + by destruct i.
    + intros k Hk E0. rewrite Hb. done.
    + intros b Hbr ?. by apply Huse.
    + intros n _ _ _ Hx. apply fupd_ne. intros ->. by apply (Hx bn).
    + intros n Hx. apply fupd_ne. intros ->. destruct Hda as [? _]. unfold data_start in *.
      pose proof (ge_pos _ (dk_geo _ Hok)).
      assert (0 <= sb_size (decode_sb (V 1)) / BPB) by (apply Z.div_pos; unfold BPB; lia). lia.
  - intros o Ho. pose proof (block_in_file o Ho) as Hf. unfold byte_at. rewrite Hb.
    destruct (Z.eqb_spec (o / BSIZE) bn) as [<-|Hne].
    + destruct (Z.eqb_spec (blkno V i (o / BSIZE)) 0); [done|]. unfold V'. by rewrite fupd_eq.
    + destruct (Z.eqb_spec (blkno V i (o / BSIZE)) 0); [done|]. unfold V'. rewrite fupd_ne; [done|].
      intros E'. apply Hne. by apply (io_inj _ _ Hi).
Qed.

(** The file after [n] bytes of [src] from index [k] went to offset [off]. *)
Definition overwritten (V : Z -> list Z) (i : inode) (src : list Z) (k off n : Z) (o : Z) : Z :=
  if (off <=? o) && (o <? off + n) then nthZ 0 src (k + (o - off)) else byte_at V i o.

(** The chunk written into the block at [off]. *)
Lemma splice_chunk V i addr src k off m o :
  blkno V i (off / BSIZE) = addr -> addr <> 0 -> length (V addr) = 512%nat ->
  0 <= off -> 0 < m -> off mod BSIZE + m <= BSIZE ->
  (forall j, 0 <= j < m -> (off + j) / BSIZE = off / BSIZE /\ (off + j) mod BSIZE = off mod BSIZE + j) ->
  0 <= o ->
  (if o / BSIZE =? off / BSIZE then ld8 (splice (V addr) (off mod BSIZE) (sub src k m)) (o mod BSIZE)
   else byte_at V i o) = overwritten V i src k off m o.
Proof.
  intros Hb Hne Hl Ho Hm Hc Hj Hoo. unfold overwritten.
  pose proof (Z.mod_pos_bound off BSIZE ltac:(unfold BSIZE; lia)).
  destruct (Z.eqb_spec (o / BSIZE) (off / BSIZE)) as [E'|E'].
  - assert (Hlen : Z.of_nat (length (sub src k m)) = m) by (apply length_sub; lia).
    rewrite ld8_splice by (rewrite ?Hlen; unfold BSIZE in *; lia). rewrite Hlen.
    assert (Hcond : (off mod BSIZE <=? o mod BSIZE) && (o mod BSIZE <? off mod BSIZE + m) =
                    (off <=? o) && (o <? off + m)).
    { apply eq_bool_prop_intro. rewrite !andb_True, !Is_true_true, !Z.leb_le, !Z.ltb_lt.
      unfold BSIZE in *. Z.div_mod_to_equations; lia. }
    rewrite Hcond. destruct ((off <=? o) && (o <? off + m)) eqn:Ein.
    + apply andb_true_iff in Ein as [?%Z.leb_le ?%Z.ltb_lt].
      replace (o mod BSIZE - off mod BSIZE) with (o - off) by (unfold BSIZE in *; Z.div_mod_to_equations; lia).
      unfold sub. apply nthZ_lookup; [lia|]. rewrite list_lookup_fmap, lookup_seqZ_lt by lia. simpl.
      unfold ld8. do 2 f_equal. lia.
    + unfold byte_at. rewrite E', Hb. by destruct (Z.eqb_spec addr 0).
  - destruct ((off <=? o) && (o <? off + m)) eqn:Ein; [|done].
    apply andb_true_iff in Ein as [?%Z.leb_le ?%Z.ltb_lt].
    destruct (Hj (o - off)) as [E1 _]; [lia|]. replace (off + (o - off)) with o in E1 by lia. done.
Qed.

Lemma overwritten_join V i V1 i1 src k off m n o :
  0 <= m -> 0 <= n -> byte_at V1 i1 o = overwritten V i src k off m o ->
  overwritten V1 i1 src (k + m) (off + m) n o = overwritten V i src k off (m + n) o.
Proof.
  intros Hm Hn Hb. unfold overwritten in *. rewrite Hb.
  destruct (Z.leb_spec (off + m) o), (Z.ltb_spec o (off + m + n)), (Z.leb_spec off o),
    (Z.ltb_spec o (off + m)), (Z.ltb_spec o (off + (m + n))); cbn [andb]; try lia; try done.
  f_equal. lia.
Qed.

Lemma overwritten_ext V i V1 i1 src k off n o :
  byte_at V1 i1 o = byte_at V i o -> overwritten V1 i1 src k off n o = overwritten V i src k off n o.
Proof. intros H. unfold overwritten. by rewrite H. Qed.

Lemma writei_loop_ok fuel s V ic ip src off n tot :
  frep s V ∅ ic -> disk_ok V -> inode_ok V (ic ip) -> Forall is_u8 src -> 0 <= off -> 0 <= tot <= n ->
  off + (n - tot) <= MAXFILE * BSIZE -> n - tot <= BSIZE * Z.of_nat fuel - off mod BSIZE \/ tot = n ->
  safe E (writei_loop fuel ip src off n tot) s (fun r s' =>
    r = off + (n - tot) /\
    exists V' i', edits V (ic ip) V' i' /\ frep s' V' ∅ (fupd ic ip i') /\
      forall o, 0 <= o < MAXFILE * BSIZE -> byte_at V' i' o = overwritten V (ic ip) src tot off (n - tot) o).
Proof.
  revert s V ic off tot. induction fuel as [|fuel IH]; intros s V ic off tot Hf Hok Hi Hsrc Ho Ht Hm Hfu;
    cbn [writei_loop]; (destruct (Z.ltb_spec tot n) as [Hlt|Hge];
      [|apply safe_ret; replace (n - tot) with 0 by lia; split; [lia|];
        exists V, (ic ip); split_and!; [by apply grows_refl|eapply frep_ext; [|done]; intros k; apply fupd_same_at|];
        intros o Hor; unfold overwritten; destruct (Z.leb_spec off o), (Z.ltb_spec o (off + 0)); cbn [andb]; lia || done]).
  { pose proof (Z.mod_pos_bound off BSIZE ltac:(unfold BSIZE; lia)). lia. }
  destruct (chunk_range off n tot Ho Hlt) as (Hc1&Hc2&Hc3&Hc4). fold (chunk off n tot).
  set (m := chunk off n tot) in *. eapply f_get_inode; [done|].
  assert (Hbn : in_file (off / BSIZE)) by (apply block_in_file; lia).
  eapply safe_bind; [by apply (bmap_ok s V ic ip)|]. intros addr s1 (V1&i1&[Hg1 HB1]&Hf1&Hb&Hne).
  pose proof (gr_inode _ _ _ _ Hg1) as Hi1. pose proof (gr_ok _ _ _ _ Hg1) as Hok1.
  destruct (io_blk _ _ Hi1 _ Hbn ltac:(by rewrite Hb)) as [Hd Hu]. rewrite Hb in Hd, Hu.
  destruct (data_usable V1 addr Hok1 Hd) as (Hus&Hn1&_).
  rewrite (io_dev _ _ Hi). eapply f_load; [exact HE|done|apply unlent_empty|done|]. intros bp s2 HLb Hf2.
  set (d := splice (V1 addr) (off mod BSIZE) (sub src tot m)).
  assert (Hdb : is_block_data d) by (apply splice_block; [apply Hok1|by apply sub_u8]).
  destruct (edit_block V1 i1 (off / BSIZE) d Hok1 Hi1 Hbn ltac:(by rewrite Hb) Hdb) as [Hed HB2].
  rewrite Hb in Hed, HB2.
  eapply f_update; [exact HE|done|done|done|done|by unfold d; rewrite length_splice|]. intros s3 Hf3.
  set (V2 := fupd V1 addr d) in *.
  pose proof (edits_trans _ _ _ _ _ _ Hok Hi Hg1 Hed) as Hed2.
  assert (HB3 : forall o, 0 <= o < MAXFILE * BSIZE -> byte_at V2 i1 o = overwritten V (ic ip) src tot off m o).
  { intros o Hor. rewrite HB2 by done. unfold d.
    rewrite (splice_chunk V1 i1 addr src tot off m o) by (done || lia || apply Hok1).
    by apply overwritten_ext, HB1. }
  eapply safe_conseq.
  { eapply (IH s3 V2 (fupd ic ip i1) (off + m) (tot + m)); rewrite ?fupd_eq; try done; try lia; apply Hed. }
  intros r s4 (->&V3&i3&Hed3&Hf4&HB4). rewrite fupd_eq in *. split; [lia|].
  exists V3, i3. split_and!; [by eapply edits_trans|eapply frep_ext; [|done]; intros k; by rewrite fupd_fupd|].
  intros o Hor. rewrite HB4 by done.
  replace (n - tot) with (m + (n - (tot + m))) by lia. apply overwritten_join; [lia..|auto].
Qed.

(** An inode block written: files keep their blocks and bytes. *)
Lemma inode_write_file V n d i :
  disk_ok V -> inode_ok V i -> inode_block V n -> is_block_data d ->
  inode_ok (fupd V n d) i /\
  (forall o, 0 <= o < MAXFILE * BSIZE -> byte_at (fupd V n d) i o = byte_at V i o) /\
  (forall m, is_data V m -> fupd V n d m = V m).
Proof.
  intros Hok Hi Hn Hd. destruct (inode_write_ok V n d Hok Hn Hd) as (Hok'&H1&Huse).
  destruct (inode_block_usable V n Hok Hn) as (_&_&Hnd).
  assert (Hk : forall m, is_data V m -> fupd V n d m = V m) by (intros m Hm; apply fupd_ne; by intros ->).
  assert (Hb : forall k, blkno (fupd V n d) i k = blkno V i k).
  { intros k. unfold blkno. destruct (k <? NDIRECT); [done|].
    destruct (Z.eqb_spec (ind_of i) 0); [done|]. rewrite Hk; [done|]. by apply (io_ind _ _ Hi). }
  split_and!; [|intros o Ho|done].
  - destruct Hi as [I1 I2 I3 I4 I5 I6]. split; try done.
    + intros Hx. destruct (I3 Hx) as [A B]. rewrite is_data_sb by done. split; [done|].
      apply Huse; [|done]. by apply (data_range V).
    + intros k Hkf. rewrite Hb. intros Hx. destruct (I4 k Hkf Hx) as [A B]. rewrite is_data_sb by done.
      split; [done|]. apply Huse; [|done]. by apply (data_range V).
    + intros k k' Hkf Hk'. rewrite !Hb. by apply I5.
    + intros k Hkf. rewrite Hb. by apply I6.
  - apply byte_at_same; [done|]. intros Hx. apply Hk. apply (io_blk _ _ Hi _ (block_in_file o Ho) Hx).
Qed.

Lemma inode_ok_size V i n : inode_ok V (set_size n i) <-> inode_ok V i.
Proof. split; intros [? ? ? ? ? ?]; by split. Qed.

Definition write_error (i : inode) (off n : Z) : bool :=
  (i_size i <? off) || (4294967296 <=? off + n) || (MAXFILE * BSIZE <? off + n).

Record write_post (V : Z -> list Z) (i : inode) (src : list Z) (off n : Z) (V' : Z -> list Z) (i' : inode) : Prop :=
  WritePost {
  wp_ok : disk_ok V';
  wp_inode : inode_ok V' i';
  wp_fields : i' = set_size (if (0 <? n) && (i_size i <? off + n) then off + n else i_size i)
                     (set_addrs (i_addrs i') i);
  wp_bytes : forall o, 0 <= o < MAXFILE * BSIZE -> byte_at V' i' o = overwritten V i src 0 off n o;
  wp_frame : forall m, is_data V m -> in_use V m -> m <> ind_of i ->
    (forall bn, in_file bn -> blkno V i bn <> m) -> V' m = V m;
  wp_disk : 0 < n -> i_size i < off + n -> dinode_ok (dinode_of i') ->
    read_dinode (V' (IBLOCK (i_inum i) (decode_sb (V 1)))) (i_inum i mod IPB) = dinode_of i'
}.

Section write_posts.
Context (V V1 : Z -> list Z) (i i1 : inode) (src : list Z) (off n : Z).
Context (Hok : disk_ok V) (Hi : inode_ok V i) (Hed : edits V i V1 i1).
Context (HB : forall o, 0 <= o < MAXFILE * BSIZE -> byte_at V1 i1 o = overwritten V i src 0 off n o).

Lemma write_post_kept :
  (0 <? n) && (i_size i <? off + n) = false -> write_post V i src off n V1 i1.
Proof.
  intros Eg. split; try apply Hed; try done.
  - rewrite Eg. rewrite (gr_fields _ _ _ _ Hed) at 1. by destruct i.
  - intros H1 H2. apply Z.ltb_lt in H1, H2. by rewrite H1, H2 in Eg.
Qed.

Lemma write_post_grown :
  (0 <? n) && (i_size i <? off + n) = true -> 0 <= i_inum i < sb_ninodes (decode_sb (V 1)) ->
  let i2 := set_size (off + n) i1 in
  let ib := IBLOCK (i_inum i) (decode_sb (V 1)) in
  let d := write_dinode (V1 ib) (i_inum i mod IPB) (dinode_of i2) in
  write_post V i src off n (fupd V1 ib d) i2.
Proof.
  intros Eg Hn i2 ib d. pose proof (edits_sb _ _ _ _ Hok Hed) as Hsb.
  pose proof (gr_ok _ _ _ _ Hed) as Hok1. pose proof (gr_inode _ _ _ _ Hed) as Hi1.
  destruct (IBLOCK_range V _ Hok Hn) as [Hib Hsl]. fold ib in Hib.
  assert (Hib1 : inode_block V1 ib) by (unfold inode_block; by rewrite Hsb).
  assert (Hd : is_block_data d) by apply write_dinode_block, Hok1.
  destruct (inode_write_file V1 ib d i2 Hok1) as (Hi2&HB2&Hk); try done; [by apply inode_ok_size|].
  destruct (inode_write_ok V1 ib d Hok1 Hib1 Hd) as (Hok2&_&_).
  split; try done.
  - rewrite Eg. unfold i2. rewrite (gr_fields _ _ _ _ Hed) at 1. done.
  - intros o Ho. rewrite HB2 by done. change (byte_at V1 i2 o) with (byte_at V1 i1 o). by apply HB.
  - intros m Hm Hu H1 H2. rewrite Hk by (by apply (is_data_sb V)). by apply (gr_keep _ _ _ _ Hed).
  - intros _ _ Hx. fold ib. rewrite fupd_eq. unfold d. apply dinode_rw; try done. apply Hok1.
Qed.
End write_posts.

Section writei.
Context (devsw_write : Z -> option (Z -> list Z -> Z -> FM Z)).

(** [writei]: the bytes of [src] at [off], the size grown to their end and
    stored on the disk, every other file's blocks untouched. *)
Lemma writei_ok s V ic ip src off n :
  frep s V ∅ ic -> disk_ok V -> inode_ok V (ic ip) -> i_type (ic ip) <> T_DEV ->
  0 <= i_inum (ic ip) < sb_ninodes (decode_sb (V 1)) ->
  0 <= i_size (ic ip) <= MAXFILE * BSIZE -> is_u32 off -> is_u32 n -> Forall is_u8 src ->
  safe E (writei devsw_write ip src off n) s (fun r s' =>
    if write_error (ic ip) off n then r = -1 /\ s' = s
    else r = n /\ exists V' i', write_post V (ic ip) src off n V' i' /\ frep s' V' ∅ (fupd ic ip i')).
Proof.
  intros Hf Hok Hi Ht Hin Hs Ho Hn Hsrc. unfold writei. eapply f_get_inode; [done|].
  destruct (Z.eqb_spec (i_type (ic ip)) T_DEV); [done|].
  assert (Hov : (u32 (off + n) <? off) = (4294967296 <=? off + n)).
  { unfold is_u32, u32 in *. destruct (Z.leb_spec 4294967296 (off + n)).
    - apply Z.ltb_lt. Z.div_mod_to_equations; lia.
    - apply Z.ltb_ge. rewrite Z.mod_small; lia. }
  rewrite Hov. unfold write_error. destruct (Z.ltb_spec (i_size (ic ip)) off); [by apply safe_ret|].
  destruct (Z.leb_spec 4294967296 (off + n)); [by apply safe_ret|]. cbn [orb].
  unfold is_u32 in *. rewrite u32_small by (unfold is_u32; lia).
  destruct (Z.ltb_spec (MAXFILE * BSIZE) (off + n)); [by apply safe_ret|].
  rewrite i32_small by (unfold is_i32, MAXFILE, BSIZE, NDIRECT, NINDIRECT in *; lia).
  eapply safe_bind; [eapply (writei_loop_ok (io_fuel n) s V ic ip src off n 0); try done; try lia; apply io_fuel_enough; lia|].
  intros r s1 (->&V1&i1&Hed&Hf1&HB). rewrite Z.sub_0_r in *. eapply f_get_inode; [done|]. rewrite fupd_eq.
  assert (Hsz : i_size i1 = i_size (ic ip)) by (rewrite (gr_fields _ _ _ _ Hed); done).
  pose proof (edits_sb _ _ _ _ Hok Hed) as Hsb. pose proof (gr_ok _ _ _ _ Hed) as Hok1.
  assert (Hinum : i_inum i1 = i_inum (ic ip)) by (rewrite (gr_fields _ _ _ _ Hed); done).
  rewrite Hsz. apply safe_bind with (R := fun _ s' =>
    exists V' i', write_post V (ic ip) src off n V' i' /\ frep s' V' ∅ (fupd ic ip i')).
  2:{ intros [] s2 H'. apply safe_ret. done. }
  destruct ((0 <? n) && (i_size (ic ip) <? off + n)) eqn:Eg; cbn [when].
  - eapply f_mod_inode; [done|]. intros s2 Hf2. rewrite fupd_eq in Hf2.
    set (ic2 := fupd (fupd ic ip i1) ip (set_size (off + n) i1)) in *.
    assert (E2 : ic2 ip = set_size (off + n) i1) by apply fupd_eq.
    eapply safe_conseq; [eapply (iupdate_ok E HE s2 V1 ic2 ip); [done|done|..]|].
    + rewrite E2. apply (gr_inode _ _ _ _ Hed).
    + rewrite E2. simpl. by rewrite Hinum, Hsb.
    + intros [] s3 [Hf3 _]. rewrite E2 in Hf3. simpl in Hf3. rewrite Hinum, Hsb in Hf3.
      eexists _, _. split; [by apply (write_post_grown V V1 (ic ip) i1)|].
      eapply frep_ext; [|exact Hf3]. intros k. unfold ic2. by rewrite fupd_fupd.
  - apply safe_ret. exists V1, i1. split; [by apply write_post_kept|done].
Qed.
End writei.
End file.
