(* ===== verification/FsDir.v ===== *)
(** * Directories and path names: dirlookup, dirlink, skipelem *)
From stdpp Require Import base numbers list gmap strings.
From S2P Require Import Prelude Block Bio Log Blk Fs FsBlocks FsInode FsFile.
Open Scope Z_scope.

(** ** Names *)

Definition no_nul (s : list Z) : Prop := Forall (fun c => 0 < c < 256) s.

Lemma length_strncpy_name n s : length (strncpy_name n s) = n.
Proof.
  revert s. induction n as [|n IH]; intros s; simpl; [done|]. destruct s as [|c s]; simpl.
  - by rewrite length_replicate.
  - destruct (c =? 0); simpl; [by rewrite length_replicate|by rewrite IH].
Qed.

(** A name compares equal to what [strncpy] stored for it. *)
Lemma strncmp_strncpy_name n s : strncmp_name n s (strncpy_name n s) = 0.
Proof.
  revert s. induction n as [|n IH]; intros s; [done|]. cbn [strncmp_name strncpy_name].
  destruct s as [|c s]; simpl; [done|]. destruct (Z.eqb_spec c 0) as [->|Hc]; simpl; [done|].
  rewrite Z.eqb_refl. simpl. apply IH.
Qed.

Lemma strncpy_name_u8 n s : Forall is_u8 s -> Forall is_u8 (strncpy_name n s).
Proof.
  revert s. induction n as [|n IH]; intros s Hs; simpl; [done|].
  assert (Forall is_u8 (0 :: replicate n 0)) as Hz.
  { change (0 :: replicate n 0) with (replicate (S n) 0). apply Forall_replicate. unfold is_u8. lia. }
  destruct s as [|c s]; [done|]. destruct (c =? 0); [done|].
  apply Forall_cons in Hs as [? ?]. apply Forall_cons. auto.
Qed.

Lemma mk_dirent_u8 inum name : Forall is_u8 name -> Forall is_u8 (mk_dirent inum name).
Proof.
  intros. unfold mk_dirent. apply Forall_app. split; [|by apply strncpy_name_u8].
  repeat (apply Forall_cons; split; [apply u8_range|]). apply Forall_nil. done.
Qed.

Lemma length_mk_dirent inum name : length (mk_dirent inum name) = 16%nat.
Proof. unfold mk_dirent. rewrite length_app, length_strncpy_name. done. Qed.

Lemma mk_dirent_fields inum name : is_u16 inum ->
  de_inum (mk_dirent inum name) = inum /\ de_name (mk_dirent inum name) = strncpy_name (Z.to_nat DIRSIZ) name.
Proof.
  intros Hi. split; [|done]. unfold de_inum, ld16, ld8, nthZ, mk_dirent. simpl. unfold u8, is_u16 in *.
  Z.div_mod_to_equations; lia.
Qed.

(** ** Scanning a directory *)

Section dirs.
Context {St : Type} `{BL : BlockLayer St}.
Abbreviation FM := (M (fsstate St)).
Context (devsw_read : Z -> option (Z -> Z -> FM (Z * list Z))).
Context (E : stop -> Prop) (HE : forall e, blk_full e -> E e).
Context (HEout : forall V, disk_ok V -> (forall b, 0 <= b < sb_size (decode_sb (V 1)) -> in_use V b) ->
  E (Panicked "balloc: out of blocks")).
Context (HEic : E (Panicked "iget: no inodes")).

Definition dir_hit (name e : list Z) : bool :=
  negb (de_inum e =? 0) && (namecmp name (de_name e) =? 0).
Definition entry (V : Z -> list Z) (i : inode) (off : Z) : list Z := file_bytes V i off DIRENT.

(** The offsets of the entries from number [j] on. *)
Definition offsets (j size : Z) : list Z := map (fun k => DIRENT * k) (seqZ j (size / DIRENT - j)).
(** The first entry of that name. *)
Definition dir_find (V : Z -> list Z) (i : inode) (name : list Z) (l : list Z) : option Z :=
  find (fun off => dir_hit name (entry V i off)) l.

(** A directory file: whole entries, within the size of a file. *)
Record dir_ok (V : Z -> list Z) (i : inode) : Prop := DirOk {
  dr_inode : inode_ok V i;
  dr_type : i_type i = T_DIR;
  dr_size : 0 <= i_size i <= MAXFILE * BSIZE;
  dr_whole : i_size i mod DIRENT = 0
}.

Lemma dir_ok_grows V i V' i' : dir_ok V i -> grows V i V' i' -> dir_ok V' i'.
Proof.
  intros [Hi Ht Hs Hw] [Hg _]. pose proof (gr_fields _ _ _ _ Hg) as Hf.
  split; [apply Hg|rewrite Hf..]; done.
Qed.

Lemma offsets_cons j size :
  0 <= j -> size mod DIRENT = 0 -> DIRENT * j < size -> offsets j size = DIRENT * j :: offsets (j + 1) size.
Proof.
  intros Hj Hw Hlt. unfold offsets, DIRENT in *.
  rewrite seqZ_cons by (Z.div_mod_to_equations; lia). simpl. do 3 f_equal; lia.
Qed.
Lemma offsets_nil j size : size mod DIRENT = 0 -> size <= DIRENT * j -> offsets j size = [].
Proof.
  intros Hw Hge. unfold offsets. rewrite seqZ_nil; [done|]. unfold DIRENT in *. Z.div_mod_to_equations; lia.
Qed.

Lemma dir_find_grows V i V' i' name l :
  grows V i V' i' -> (forall off, off ∈ l -> 0 <= off /\ off + DIRENT <= MAXFILE * BSIZE) ->
  dir_find V' i' name l = dir_find V i name l.
Proof.
  intros [_ HB] Hl. unfold dir_find. induction l as [|off l IH]; [done|]. simpl.
  assert (entry V' i' off = entry V i off) as ->.
  { apply file_bytes_ext. intros o Ho. apply HB. destruct (Hl off); [left|]. lia. }
  rewrite IH; [done|]. intros x Hx. apply Hl. by right.
Qed.

(** Reading one entry. *)
Lemma read_entry_ok s V ic dp j :
  frep s V ∅ ic -> disk_ok V -> dir_ok V (ic dp) -> 0 <= j -> DIRENT * j < i_size (ic dp) ->
  safe E (readi devsw_read dp (DIRENT * j) DIRENT) s (fun '(r, de) s' =>
    r = DIRENT /\ de = entry V (ic dp) (DIRENT * j) /\
    exists V' i', grows V (ic dp) V' i' /\ frep s' V' ∅ (fupd ic dp i')).
Proof.
  intros Hf Hok [Hi Ht Hs Hw] Hj Hlt.
  assert (DIRENT * j + DIRENT <= i_size (ic dp)) by (unfold DIRENT in *; Z.div_mod_to_equations; lia).
  unfold MAXFILE, NDIRECT, NINDIRECT, BSIZE in Hs.
  eapply safe_conseq; [eapply (readi_ok E HE HEout devsw_read s V ic dp); try done|].
  - rewrite Ht. done.
  - unfold is_u32, DIRENT in *. lia.
  - intros [r de] s'. destruct (Z.ltb_spec (i_size (ic dp)) (DIRENT * j)); [lia|].
    destruct (Z.leb_spec 4294967296 (DIRENT * j + DIRENT)); [unfold DIRENT in *; lia|]. cbn [orb].
    intros (->&->&HV). rewrite Z.min_l by lia. done.
Qed.

(** What a successful lookup leaves: a reference to the entry's inode. *)
Definition got_inode (ic : Z -> inode) (inum ip : Z) (ic' : Z -> inode) : Prop :=
  in_cache ip /\ exists i', (forall k, ic' k = fupd ic ip i' k) /\
    i_dev i' = 1 /\ i_inum i' = inum /\ i_ref i' = i_ref (ic ip) + 1.

Definition lookup_post (V : Z -> list Z) (ic : Z -> inode) (dp : Z) (name : list Z) (l : list Z)
    (r : option (Z * Z)) (s' : fsstate St) : Prop :=
  exists V' i' ic', grows V (ic dp) V' i' /\ frep s' V' ∅ ic' /\ icache_ok ic' /\
    match dir_find V (ic dp) name l with
    | None => r = None /\ forall k, ic' k = fupd ic dp i' k
    | Some off => exists ip, r = Some (ip, off) /\
        got_inode (fupd ic dp i') (de_inum (entry V (ic dp) off)) ip ic'
    end.

Lemma icache_ok_same ic dp i' :
  icache_ok ic -> i_ref i' = i_ref (ic dp) -> i_dev i' = i_dev (ic dp) -> i_inum i' = i_inum (ic dp) ->
  icache_ok (fupd ic dp i').
Proof.
  intros [H1 H2] Er Ed Ei. split.
  - intros ip Hip. rewrite fupd_at. destruct (Z.eqb_spec ip dp) as [->|]; [rewrite Er|]; auto.
  - intros a b Ha Hb. rewrite !fupd_at.
    destruct (Z.eqb_spec a dp) as [->|], (Z.eqb_spec b dp) as [->|]; rewrite ?Er, ?Ed, ?Ei; auto.
Qed.

Lemma icache_ok_grows V ic dp V' i' : icache_ok ic -> grows V (ic dp) V' i' -> icache_ok (fupd ic dp i').
Proof.
  intros Hic [Hg _]. pose proof (gr_fields _ _ _ _ Hg) as Hf. apply icache_ok_same; [done|rewrite Hf; done..].
Qed.

Definition in_dir (l : list Z) : Prop :=
  forall off, off ∈ l -> 0 <= off /\ off + DIRENT <= MAXFILE * BSIZE.

Lemma offsets_in_dir V i j : dir_ok V i -> 0 <= j -> in_dir (offsets j (i_size i)).
Proof.
  intros Hd Hj off (k&->&Hk%elem_of_seqZ)%list_elem_of_fmap. pose proof (dr_size _ _ Hd).
  unfold DIRENT in *. Z.div_mod_to_equations; lia.
Qed.

(** The rest of a scan, after reading an entry. *)
Lemma lookup_post_step V ic dp V1 i1 name l r s' :
  disk_ok V -> dir_ok V (ic dp) -> grows V (ic dp) V1 i1 -> in_dir l ->
  lookup_post V1 (fupd ic dp i1) dp name l r s' -> lookup_post V ic dp name l r s'.
Proof.
  intros Hok Hd Hg1 Hl (V2&i2&ic2&Hg2&Hf2&Hic2&Hr). rewrite fupd_eq in *.
  exists V2, i2, ic2. split; [eapply grows_trans; [done|apply Hd|done..]|]. split; [done|]. split; [done|].
  rewrite (dir_find_grows V (ic dp) V1 i1) in Hr by done.
  destruct (dir_find V (ic dp) name _) as [off|] eqn:Ef.
  - destruct Hr as (ip&->&Hin&i3&Hi3&A&B&C). exists ip. split; [done|].
    assert (Hent : entry V1 i1 off = entry V (ic dp) off).
    { apply find_some in Ef as [Hoff%list_elem_of_In _]. apply file_bytes_ext. intros o Ho. apply Hg1.
      destruct (Hl off Hoff). lia. }
    split; [done|]. exists i3. rewrite Hent in B. split_and!; try done.
    + intros k. rewrite Hi3, !fupd_at. by destruct (k =? ip), (k =? dp).
    + rewrite C, !fupd_at. by destruct (ip =? dp).
  - destruct Hr as [-> Hr]. split; [done|]. intros k. rewrite Hr, !fupd_at. by destruct (k =? dp).
Qed.

Lemma dirlookup_loop_ok fuel s V ic dp name j :
  frep s V ∅ ic -> disk_ok V -> dir_ok V (ic dp) -> icache_ok ic -> 0 <= j ->
  i_size (ic dp) <= DIRENT * (j + Z.of_nat fuel) ->
  safe E (dirlookup_loop devsw_read fuel dp name (DIRENT * j)) s
    (lookup_post V ic dp name (offsets j (i_size (ic dp)))).
Proof.
  revert s V ic j. induction fuel as [|fuel IH]; intros s V ic j Hf Hok Hd Hic Hj Hfu; cbn [dirlookup_loop];
    (eapply f_get_inode; [done|]); pose proof (dr_whole _ _ Hd) as Hw;
    (destruct (Z.ltb_spec (DIRENT * j) (i_size (ic dp))) as [Hlt|Hge];
      [|apply safe_ret; exists V, (ic dp), ic; rewrite offsets_nil by done;
        split_and!; [apply grows_refl; [done|apply Hd]|done|done|split; [done|intros k; by rewrite fupd_same_at]]]).
  { lia. }
  eapply safe_bind; [by apply (read_entry_ok s V ic dp j)|]. intros [r de] s1 (->&->&V1&i1&Hg1&Hf1).
  cbn [negb]. rewrite Z.eqb_refl. cbn [negb]. rewrite offsets_cons by done. unfold lookup_post, dir_find. cbn [find].
  unfold dir_hit at 1.
  pose proof (dir_ok_grows _ _ _ _ Hd Hg1) as Hd1. pose proof (icache_ok_grows _ _ _ _ _ Hic Hg1) as Hic1.
  assert (Hsz : i_size i1 = i_size (ic dp)) by (rewrite (gr_fields _ _ _ _ (proj1 Hg1)); done).
  assert (Hnext : safe E (dirlookup_loop devsw_read fuel dp name (DIRENT * j + DIRENT)) s1
    (lookup_post V ic dp name (offsets (j + 1) (i_size (ic dp))))).
  { replace (DIRENT * j + DIRENT) with (DIRENT * (j + 1)) by lia.
    eapply safe_conseq; [apply (IH s1 V1 (fupd ic dp i1) (j + 1)); rewrite ?fupd_eq; try done; [apply Hg1|lia|lia]|].
    intros r s2 Hp. rewrite fupd_eq, Hsz in Hp. eapply lookup_post_step; try done. apply (offsets_in_dir V); [done|lia]. }
  destruct (Z.eqb_spec (de_inum (entry V (ic dp) (DIRENT * j))) 0) as [Hz|Hz]; cbn [negb andb]; [exact Hnext|].
  destruct (namecmp name (de_name (entry V (ic dp) (DIRENT * j))) =? 0); [|exact Hnext].
  rewrite (io_dev _ _ (dr_inode _ _ Hd)).
  eapply safe_bind.
  { eapply safe_weaken; [|by apply (iget_ok s1 V1 ∅ (fupd ic dp i1))]. intros e [-> _]. exact HEic. }
  intros ip s2 (i'&Hip&Hf2&Hic2&A&B&C&_). apply safe_ret. exists V1, i1, (fupd (fupd ic dp i1) ip i').
  split; [done|]. split; [done|]. split; [done|]. exists ip. split; [done|]. split; [done|]. by exists i'.
Qed.

Lemma dir_fuel_enough size : 0 <= size -> size <= DIRENT * (0 + Z.of_nat (dir_fuel size)).
Proof.
  intros. unfold dir_fuel, DIRENT. rewrite Z2Nat.id; Z.div_mod_to_equations; lia.
Qed.

(** [dirlookup] finds the first entry of the name, in directory order. *)
Lemma dirlookup_ok s V ic dp name :
  frep s V ∅ ic -> disk_ok V -> dir_ok V (ic dp) -> icache_ok ic ->
  safe E (dirlookup devsw_read dp name) s (lookup_post V ic dp name (offsets 0 (i_size (ic dp)))).
Proof.
  intros Hf Hok Hd Hic. unfold dirlookup. eapply f_get_inode; [done|]. rewrite (dr_type _ _ Hd). simpl.
  change 0 with (DIRENT * 0) at 1. apply dirlookup_loop_ok; try done. apply dir_fuel_enough, Hd.
Qed.

(** The slot [dirlink] takes: the first free entry, else the end. *)
Definition free_slot (V : Z -> list Z) (i : inode) (l : list Z) : Z :=
  match find (fun off => de_inum (entry V i off) =? 0) l with
  | Some off => off
  | None => i_size i
  end.

Lemma free_slot_grows V i V' i' l : grows V i V' i' -> in_dir l -> free_slot V' i' l = free_slot V i l.
Proof.
  intros Hg Hl. pose proof (gr_fields _ _ _ _ (proj1 Hg)) as Hf.
  assert (Hs : i_size i' = i_size i) by (by rewrite Hf). unfold free_slot. rewrite Hs. clear Hf Hs.
  enough (find (fun off => de_inum (entry V' i' off) =? 0) l = find (fun off => de_inum (entry V i off) =? 0) l) as ->; [done|].
  induction l as [|off l IH]; [done|]. simpl.
  assert (entry V' i' off = entry V i off) as ->.
  { apply file_bytes_ext. intros o Ho. apply Hg. destruct (Hl off); [left|]. lia. }
  rewrite IH; [done|]. intros x Hx. apply Hl. by right.
Qed.

Lemma dirlink_loop_ok fuel s V ic dp j :
  frep s V ∅ ic -> disk_ok V -> dir_ok V (ic dp) -> 0 <= j ->
  i_size (ic dp) <= DIRENT * (j + Z.of_nat fuel) -> DIRENT * j <= i_size (ic dp) ->
  safe E (dirlink_loop devsw_read fuel dp (DIRENT * j)) s (fun off s' =>
    off = free_slot V (ic dp) (offsets j (i_size (ic dp))) /\
    exists V' i', grows V (ic dp) V' i' /\ frep s' V' ∅ (fupd ic dp i')).
Proof.
  revert s V ic j. induction fuel as [|fuel IH]; intros s V ic j Hf Hok Hd Hj Hfu Hle; cbn [dirlink_loop];
    (eapply f_get_inode; [done|]); pose proof (dr_whole _ _ Hd) as Hw;
    (destruct (Z.ltb_spec (DIRENT * j) (i_size (ic dp))) as [Hlt|Hge];
      [|apply safe_ret; rewrite offsets_nil by done; split; [unfold free_slot; simpl; lia|];
        exists V, (ic dp); split; [apply grows_refl; [done|apply Hd]|];
        eapply frep_ext; [|done]; intros k; apply fupd_same_at]).
  { lia. }
  eapply safe_bind; [by apply (read_entry_ok s V ic dp j)|]. intros [r de] s1 (->&->&V1&i1&Hg1&Hf1).
  rewrite Z.eqb_refl. cbn [negb]. rewrite offsets_cons by done. unfold free_slot at 1. cbn [find].
  destruct (Z.eqb_spec (de_inum (entry V (ic dp) (DIRENT * j))) 0) as [Hz|Hz]; [apply safe_ret; eauto|].
  pose proof (dir_ok_grows _ _ _ _ Hd Hg1) as Hd1.
  assert (Hsz : i_size i1 = i_size (ic dp)) by (rewrite (gr_fields _ _ _ _ (proj1 Hg1)); done).
  replace (DIRENT * j + DIRENT) with (DIRENT * (j + 1)) by lia.
  eapply safe_conseq.
  - apply (IH s1 V1 (fupd ic dp i1) (j + 1)); rewrite ?fupd_eq; try done; try lia; [apply Hg1|].
    rewrite Hsz. unfold DIRENT in *. Z.div_mod_to_equations; lia.
  - intros off s2 (->&V2&i2&Hg2&Hf2). rewrite fupd_eq in *. split.
    + rewrite Hsz. apply free_slot_grows; [done|]. apply (offsets_in_dir V); [done|lia].
    + exists V2, i2. split; [eapply grows_trans; [done|apply Hd|done..]|].
      eapply frep_ext; [|done]. intros k. by rewrite fupd_fupd.
Qed.

(** ** dirlink *)

Lemma file_bytes_list V i off (l : list Z) :
  (forall k, 0 <= k < Z.of_nat (length l) -> byte_at V i (off + k) = nthZ 0 l k) ->
  file_bytes V i off (Z.of_nat (length l)) = l.
Proof.
  intros H. unfold file_bytes. apply list_eq_same_length with (length l); [done|rewrite length_map, length_seqZ; lia|].
  intros k x y Hk Hx Hy. rewrite list_lookup_fmap, lookup_seqZ_lt in Hx by lia. injection Hx as <-.
  rewrite H by lia. apply nthZ_lookup; [lia|]. by rewrite Nat2Z.id.
Qed.

(** The entries after [dirlink] wrote the slot [off0]. *)
Lemma entry_written V i inum name off0 V' i' :
  write_post V i (mk_dirent inum name) off0 DIRENT V' i' ->
  0 <= off0 -> off0 + DIRENT <= MAXFILE * BSIZE ->
  entry V' i' off0 = mk_dirent inum name /\
  forall off, 0 <= off -> off + DIRENT <= MAXFILE * BSIZE -> off + DIRENT <= off0 \/ off0 + DIRENT <= off ->
    entry V' i' off = entry V i off.
Proof.
  intros Hw H0 H1. split.
  - unfold entry. pose proof (length_mk_dirent inum name) as Hl.
    replace DIRENT with (Z.of_nat (length (mk_dirent inum name))) by (by rewrite Hl).
    apply file_bytes_list. intros k Hk. rewrite Hl in Hk. unfold DIRENT in *.
    rewrite (wp_bytes _ _ _ _ _ _ _ Hw) by lia. unfold overwritten.
    destruct (Z.leb_spec off0 (off0 + k)), (Z.ltb_spec (off0 + k) (off0 + 16)); cbn [andb]; try lia.
    f_equal. lia.
  - intros off Ho Ho2 Hd. apply file_bytes_ext. intros o Hor. unfold DIRENT in *.
    rewrite (wp_bytes _ _ _ _ _ _ _ Hw) by lia. unfold overwritten.
    destruct (Z.leb_spec off0 o), (Z.ltb_spec o (off0 + 16)); cbn [andb]; lia || done.
Qed.

Lemma find_split {A} (p : A -> bool) l x :
  find p l = Some x -> exists l1 l2, l = l1 ++ x :: l2 /\ p x = true /\ forall y, y ∈ l1 -> p y = false.
Proof.
  induction l as [|a l IH]; simpl; [done|]. destruct (p a) eqn:Ea.
  - intros [= <-]. exists [], l. split_and!; try done. intros y Hy. by apply elem_of_nil in Hy.
  - intros (l1&l2&->&Hx&Hall)%IH. exists (a :: l1), l2. split_and!; try done.
    intros y [->|Hy]%elem_of_cons; auto.
Qed.

Lemma find_middle {A} (p : A -> bool) l1 x l2 :
  (forall y, y ∈ l1 -> p y = false) -> p x = true -> find p (l1 ++ x :: l2) = Some x.
Proof.
  intros H Hx. induction l1 as [|a l1 IH]; simpl; [by rewrite Hx|].
  rewrite H by left. apply IH. intros y Hy. apply H. by right.
Qed.

Lemma offsets_snoc size : 0 <= size -> size mod DIRENT = 0 ->
  offsets 0 (size + DIRENT) = offsets 0 size ++ [size].
Proof.
  intros Hs Hw. unfold offsets, DIRENT in *.
  replace ((size + 16) / 16 - 0) with (size / 16 - 0 + 1) by (Z.div_mod_to_equations; lia).
  rewrite seqZ_app by (Z.div_mod_to_equations; lia). rewrite map_app. f_equal.
  rewrite (seqZ_cons _ 1) by lia. rewrite seqZ_nil by lia. simpl. f_equal. Z.div_mod_to_equations; lia.
Qed.

Lemma elem_offsets off size : off ∈ offsets 0 size -> 0 <= off /\ off + DIRENT <= size /\ off mod DIRENT = 0.
Proof.
  intros (k&->&Hk%elem_of_seqZ)%list_elem_of_fmap. unfold DIRENT in *. Z.div_mod_to_equations; lia.
Qed.

Lemma offsets_nodup j size : NoDup (offsets j size).
Proof. unfold offsets. apply NoDup_fmap_2; [intros a b ?; unfold DIRENT in *; lia|apply NoDup_seqZ]. Qed.

(** The slot and the list of offsets after it is written. *)
Lemma free_slot_split V i :
  dir_ok V i -> let l := offsets 0 (i_size i) in let off0 := free_slot V i l in
  exists l1 l2, offsets 0 (i_size i `max` (off0 + DIRENT)) = l1 ++ off0 :: l2 /\
    (forall y, y ∈ l1 -> y ∈ l) /\ 0 <= off0 <= i_size i /\ off0 mod DIRENT = 0.
Proof.
  intros Hd l off0. pose proof (dr_size _ _ Hd). pose proof (dr_whole _ _ Hd) as Hw. unfold off0, free_slot.
  destruct (find _ l) as [off|] eqn:Ef.
  - apply find_split in Ef as (l1&l2&El&_&_). destruct (elem_offsets off (i_size i)) as (?&?&?).
    { fold l. rewrite El. set_solver. }
    rewrite Z.max_l by lia. fold l. exists l1, l2. split_and!; try done; try (unfold DIRENT in *; lia).
    intros y Hy. rewrite El. set_solver.
  - rewrite Z.max_r by (unfold DIRENT; lia). rewrite offsets_snoc by (done || lia).
    exists l, []. split_and!; try done; lia.
Qed.

(** After the write, looking the name up finds the new entry. *)
Lemma dir_find_written V i inum name V' i' :
  dir_ok V i -> let l := offsets 0 (i_size i) in let off0 := free_slot V i l in
  write_post V i (mk_dirent inum name) off0 DIRENT V' i' ->
  off0 + DIRENT <= MAXFILE * BSIZE -> is_u16 inum -> inum <> 0 -> dir_find V i name l = None ->
  i_size i' = i_size i `max` (off0 + DIRENT) /\ dir_ok V' i' /\
  dir_find V' i' name (offsets 0 (i_size i')) = Some off0 /\ de_inum (entry V' i' off0) = inum.
Proof.
  intros Hd l off0 Hw Hcap Hin Hnz Hnone. destruct (free_slot_split V i Hd) as (l1&l2&El&Hl1&Hoff&Hmod).
  fold l off0 in El, Hl1, Hoff, Hmod. destruct (entry_written V i inum name off0 V' i' Hw) as [He Hoth]; [lia|done|].
  destruct (mk_dirent_fields inum name Hin) as [Fi Fn].
  assert (Hsz : i_size i' = i_size i `max` (off0 + DIRENT)).
  { rewrite (wp_fields _ _ _ _ _ _ _ Hw). simpl. change (0 <? DIRENT) with true. cbn [andb].
    destruct (Z.ltb_spec (i_size i) (off0 + DIRENT)); lia. }
  split; [done|]. split; [|split; [|by rewrite He]].
  - destruct Hd as [_ Ht Hs Hwh]. split; [apply Hw|by rewrite (wp_fields _ _ _ _ _ _ _ Hw)|lia|].
    rewrite Hsz. unfold DIRENT in *. Z.div_mod_to_equations; lia.
  - rewrite Hsz, El. apply find_middle.
    + intros y Hy. pose proof (Hl1 y Hy) as Hyl. destruct (elem_offsets y _ Hyl) as (Y1&Y2&Y3).
      assert (y <> off0).
      { pose proof (offsets_nodup 0 (i_size i `max` (off0 + DIRENT))) as Hnd. rewrite El in Hnd.
        apply NoDup_app in Hnd as (_&Hnd&_). intros ->. apply (Hnd off0 Hy). left. }
      rewrite Hoth; [|lia|pose proof (dr_size _ _ Hd); lia|unfold DIRENT in *; Z.div_mod_to_equations; lia].
      apply list_elem_of_In in Hyl. exact (find_none _ _ Hnone y Hyl).
    + rewrite He. unfold dir_hit. rewrite Fi, Fn. destruct (Z.eqb_spec inum 0); [done|].
      unfold namecmp. by rewrite strncmp_strncpy_name.
Qed.

Record linked_in (V : Z -> list Z) (i : inode) (name : list Z) (inum : Z) (V' : Z -> list Z) (i' : inode) (off0 : Z)
    : Prop := LinkedIn {
  li_ok : disk_ok V';
  li_dir : dir_ok V' i';
  li_slot : off0 = free_slot V i (offsets 0 (i_size i));
  li_size : i_size i' = i_size i `max` (off0 + DIRENT);
  li_found : dir_find V' i' name (offsets 0 (i_size i')) = Some off0;
  li_inum : de_inum (entry V' i' off0) = inum;
  li_other : forall off, off ∈ offsets 0 (i_size i) -> off <> off0 -> entry V' i' off = entry V i off
}.

(** The write of [dirlink] on a directory without the name. *)
Lemma linked_in_write V i name inum V1 i1 V' i' :
  dir_ok V i -> grows V i V1 i1 -> dir_find V i name (offsets 0 (i_size i)) = None ->
  i_size i + DIRENT <= MAXFILE * BSIZE -> is_u16 inum -> inum <> 0 ->
  let off0 := free_slot V i (offsets 0 (i_size i)) in
  write_post V1 i1 (mk_dirent inum name) off0 DIRENT V' i' ->
  linked_in V i name inum V' i' off0.
Proof.
  intros Hd Hg Hnone Hcap Hin Hnz off0 Hw.
  assert (Hsz : i_size i1 = i_size i) by (rewrite (gr_fields _ _ _ _ (proj1 Hg)); done).
  pose proof (offsets_in_dir V i 0 Hd ltac:(lia)) as Hdir. pose proof (dr_size _ _ Hd) as Hbound.
  destruct (free_slot_split V i Hd) as (_&_&_&_&Hoff&Hmod). fold off0 in Hoff, Hmod.
  assert (Hs : free_slot V1 i1 (offsets 0 (i_size i1)) = off0) by (rewrite Hsz; by apply free_slot_grows).
  destruct (dir_find_written V1 i1 inum name V' i') as (S1&S2&S3&S4); rewrite ?Hs; try done; try lia.
  { by eapply dir_ok_grows. }
  { rewrite Hsz. by rewrite (dir_find_grows V i). }
  rewrite Hs, Hsz in *. split; try done; [apply Hw|].
  intros off Ho Hne. destruct (elem_offsets off _ Ho) as (O1&O2&O3).
  destruct (entry_written V1 i1 inum name off0 V' i' Hw) as [_ Hoth]; [lia|lia|].
  rewrite Hoth; [|lia|lia|unfold DIRENT in *; Z.div_mod_to_equations; lia].
  apply file_bytes_ext. intros o Hor. apply Hg. lia.
Qed.

Context (devsw_write : Z -> option (Z -> list Z -> Z -> FM Z)).

(** [dirlink] of a new name into a directory with room. *)
Lemma dirlink_ok s V ic dp name inum :
  frep s V ∅ ic -> disk_ok V -> dir_ok V (ic dp) -> icache_ok ic ->
  0 <= i_inum (ic dp) < sb_ninodes (decode_sb (V 1)) -> Forall is_u8 name ->
  is_u16 inum -> inum <> 0 -> i_size (ic dp) + DIRENT <= MAXFILE * BSIZE ->
  dir_find V (ic dp) name (offsets 0 (i_size (ic dp))) = None ->
  safe E (dirlink devsw_read devsw_write dp name inum) s (fun r s' =>
    r = 0 /\ exists V' i' off0, frep s' V' ∅ (fupd ic dp i') /\ linked_in V (ic dp) name inum V' i' off0).
Proof.
  intros Hf Hok Hd Hic Hnum Hname Hin Hnz Hcap Hnone. unfold dirlink.
  eapply safe_bind; [by apply (dirlookup_ok s V ic dp name)|].
  intros r s1 (V1&i1&ic1&Hg1&Hf1&_&Hr). rewrite Hnone in Hr. destruct Hr as [-> Hic1].
  pose proof (dir_ok_grows _ _ _ _ Hd Hg1) as Hd1. apply (frep_ext _ _ _ _ (fupd ic dp i1)) in Hf1; [|done].
  eapply f_get_inode; [done|]. rewrite fupd_eq.
  assert (Hsz : i_size i1 = i_size (ic dp)) by (rewrite (gr_fields _ _ _ _ (proj1 Hg1)); done).
  eapply safe_bind.
  { change 0 with (DIRENT * 0) at 1. apply (dirlink_loop_ok _ s1 V1 (fupd ic dp i1) dp 0); rewrite ?fupd_eq; try done.
    - apply Hg1.
    - apply dir_fuel_enough, Hd1.
    - pose proof (dr_size _ _ Hd1). lia. }
  intros off s2 (->&V2&i2&Hg2&Hf2). rewrite fupd_eq in *.
  pose proof (grows_trans _ _ _ _ _ _ Hok (dr_inode _ _ Hd) Hg1 Hg2) as Hg.
  pose proof (dir_ok_grows _ _ _ _ Hd Hg) as Hd2.
  apply (frep_ext _ _ _ _ (fupd ic dp i2)) in Hf2; [|intros k; by rewrite fupd_fupd].
  assert (Hsz2 : i_size i2 = i_size (ic dp)) by (rewrite (gr_fields _ _ _ _ (proj1 Hg)); done).
  assert (Hnum2 : i_inum i2 = i_inum (ic dp)) by (rewrite (gr_fields _ _ _ _ (proj1 Hg)); done).
  rewrite Hsz, (free_slot_grows V (ic dp) V1 i1) by (done || (apply (offsets_in_dir V); [done|lia])).
  set (off0 := free_slot V (ic dp) _). destruct (free_slot_split V (ic dp) Hd) as (_&_&_&_&Hoff&_). fold off0 in Hoff.
  pose proof (dr_size _ _ Hd) as Hbound.
  eapply safe_bind.
  { apply (writei_ok E HE HEout devsw_write s2 V2 (fupd ic dp i2) dp); rewrite ?fupd_eq; try done.
    - apply Hg.
    - apply Hd2.
    - by rewrite (dr_type _ _ Hd2).
    - by rewrite Hnum2, (edits_sb _ _ _ _ Hok (proj1 Hg)).
    - apply Hd2.
    - unfold is_u32, MAXFILE, NDIRECT, NINDIRECT, BSIZE in *. lia.
    - by apply mk_dirent_u8. }
  intros r s3 Hr. rewrite fupd_eq in Hr. unfold write_error in Hr. rewrite Hsz2 in Hr.
  unfold MAXFILE, NDIRECT, NINDIRECT, BSIZE in Hbound, Hcap.
  replace ((i_size (ic dp) <? off0) || (4294967296 <=? off0 + DIRENT) || (MAXFILE * BSIZE <? off0 + DIRENT))
    with false in Hr.
  2:{ symmetry. apply orb_false_iff. rewrite orb_false_iff, !Z.ltb_ge, Z.leb_gt.
      unfold MAXFILE, NDIRECT, NINDIRECT, BSIZE, DIRENT in *. lia. }
  destruct Hr as (->&V3&i3&Hw&Hf3). rewrite Z.eqb_refl. cbn [negb]. apply safe_ret. split; [done|].
  exists V3, i3, off0. split; [eapply frep_ext; [|done]; intros k; by rewrite fupd_fupd|].
  by eapply linked_in_write.
Qed.
End dirs.

(** ** Path names *)

(** The elements of a path: its parts between slashes, empty parts dropped. *)
Fixpoint components (fuel : nat) (path : list Z) : list (list Z) :=
  match fuel with
  | O => []
  | S fuel' =>
      match skip_slashes path with
      | [] => []
      | p => let (e, r) := split_elem p in e :: components fuel' r
      end
  end.
Definition path_elems (path : list Z) : list (list Z) := components (length path) path.

Lemma skip_slashes_length p : (length (skip_slashes p) <= length p)%nat.
Proof. induction p as [|c p IH]; simpl; [lia|]. destruct (c =? SLASH); simpl; lia. Qed.

Lemma split_elem_app p : let (e, r) := split_elem p in p = e ++ r /\ (SLASH ∉ e) /\ (r = [] \/ hd 0 r = SLASH).
Proof.
  induction p as [|c p IH]; simpl; [split_and!; [done|apply not_elem_of_nil|by left]|].
  destruct (Z.eqb_spec c SLASH) as [->|Hc]; [split_and!; [done|apply not_elem_of_nil|by right]|].
  destruct (split_elem p) as [e r]. destruct IH as (->&?&?). split_and!; [done| |done].
  apply not_elem_of_cons. done.
Qed.

Lemma skip_slashes_hd p : match skip_slashes p with [] => True | c :: _ => c <> SLASH end.
Proof. induction p as [|c p IH]; simpl; [done|]. by destruct (Z.eqb_spec c SLASH). Qed.

Lemma skip_slashes_idem p : skip_slashes (skip_slashes p) = skip_slashes p.
Proof.
  pose proof (skip_slashes_hd p). destruct (skip_slashes p) as [|c q]; [done|]. simpl.
  by destruct (Z.eqb_spec c SLASH).
Qed.

Lemma skip_split_shorter p e r :
  skip_slashes p <> [] -> split_elem (skip_slashes p) = (e, r) -> e <> [] /\ (length r < length p)%nat.
Proof.
  intros Hne Es. pose proof (split_elem_app (skip_slashes p)) as H. rewrite Es in H. destruct H as (Hp&_&Hr).
  pose proof (skip_slashes_hd p) as Hh. pose proof (skip_slashes_length p) as Hl.
  destruct e as [|c e].
  - simpl in Hp. rewrite Hp in Hne, Hh. destruct Hr as [->|Hr]; [done|]. destruct r; [done|]. simpl in *. congruence.
  - split; [done|]. rewrite Hp, length_app in Hl. simpl in Hl. lia.
Qed.

Lemma components_fuel f f' p :
  (length p <= f)%nat -> (length p <= f')%nat -> components f p = components f' p.
Proof.
  revert f' p. induction f as [|f IH]; intros f' p Hf Hf'.
  - destruct p; [|simpl in Hf; lia]. destruct f'; done.
  - destruct f' as [|f']; [destruct p; [done|simpl in Hf'; lia]|]. cbn [components].
    destruct (skip_slashes p) as [|c q] eqn:Ep; [done|].
    destruct (split_elem (c :: q)) as [e r] eqn:Es.
    destruct (skip_split_shorter p e r) as [_ Hlt]; [by rewrite Ep|by rewrite Ep|].
    f_equal. apply IH; lia.
Qed.

Lemma components_skip f p : components f (skip_slashes p) = components f p.
Proof. destruct f; simpl; [done|]. by rewrite skip_slashes_idem. Qed.

(** [skipelem] takes the path apart element by element. *)
Lemma skipelem_elems path :
  match skipelem path with
  | None => path_elems path = []
  | Some (rest, name) => exists e, path_elems path = e :: path_elems rest /\
      name = take (Z.to_nat DIRSIZ) e /\ e <> [] /\ (SLASH ∉ e) /\ (length rest < length path)%nat
  end.
Proof.
  unfold skipelem. destruct (skip_slashes path) as [|c q] eqn:Ep.
  - unfold path_elems. destruct path; [done|]. cbn [length components]. by rewrite Ep.
  - destruct (split_elem (c :: q)) as [e r] eqn:Es.
    destruct (skip_split_shorter path e r) as [He Hlt]; [by rewrite Ep|by rewrite Ep|].
    pose proof (split_elem_app (c :: q)) as H. rewrite Es in H. destruct H as (_&Hns&_).
    pose proof (skip_slashes_length r). exists e. split_and!; try done; [|lia].
    unfold path_elems. destruct (length path) as [|n] eqn:En; [lia|]. cbn [components]. rewrite Ep, Es. f_equal.
    rewrite <- (components_skip n r). apply components_fuel; lia.
Qed.
