(* ===== verification/FsProps.v ===== *)
(** * Properties of the file system

    The theorems about fs.c, stated over any [BlockLayer], and their witnesses
    on a disk as mkfs formats it, over the real buffer cache and log. *)
From stdpp Require Import base numbers list gmap strings.
From S2P Require Import Prelude Block Bio Log Blk Fs FsBlocks FsInode FsFile FsDir.
Open Scope Z_scope.

(** Running out of buffers, log space, disk blocks or cached inodes. *)
Definition fs_stop {St} `{BL : BlockLayer St} (e : stop) : Prop :=
  blk_full e \/ e = Panicked "balloc: out of blocks" \/ e = Panicked "iget: no inodes".

Section props.
Context {St : Type} `{BL : BlockLayer St}.
Context (devsw_read : Z -> option (Z -> Z -> M (fsstate St) (Z * list Z))).
Context (devsw_write : Z -> option (Z -> list Z -> Z -> M (fsstate St) Z)).

(** [balloc] returns a block that was free and is a data block, marks it
    and no other in use, clears it, and changes nothing else; it panics only
    when every block of the disk is in use. *)
Theorem balloc_takes_free_block s V L ic
  (Hf : frep s V L ic) (Hok : disk_ok V) (Hh : held_ok V L) :
  safe (fun e => blk_full e \/ e = Panicked "balloc: out of blocks" /\
                   forall b, 0 <= b < sb_size (decode_sb (V 1)) -> in_use V b)
    (balloc 1) s (fun r s' => exists V', allocated V r V' /\ frep s' V' L ic).
Proof. apply balloc_ok; auto. Qed.

(** [bfree] of a block in use clears its bit and nothing else, and
    freeing a block that is already free panics. *)
Theorem bfree_clears_bit s V L ic r
  (Hf : frep s V L ic) (Hok : disk_ok V) (Hh : held_ok V L) (Hd : is_data V r) :
  safe (fun e => blk_full e \/ e = Panicked "freeing free block" /\ ~ in_use V r)
    (bfree 1 r) s (fun _ s' => in_use V r /\ exists V', freed V r V' /\ frep s' V' L ic).
Proof. apply bfree_ok; auto. Qed.

(** [iget] keeps one cache entry per referenced inode: it takes a reference
    on the entry of the inode if there is one and otherwise recycles a free
    entry, marking it not valid; it panics only when no entry is free. *)
Theorem iget_one_entry s V L ic dev inum (Hf : frep s V L ic) (Hic : icache_ok ic) :
  safe (cache_full ic dev inum) (iget dev inum) s (fun ip s' =>
    exists i', in_cache ip /\ frep s' V L (fupd ic ip i') /\ icache_ok (fupd ic ip i') /\
      i_dev i' = dev /\ i_inum i' = inum /\ i_ref i' = i_ref (ic ip) + 1 /\
      (i_ref (ic ip) = 0 -> i_valid i' = 0)).
Proof.
  eapply safe_conseq; [by apply iget_ok|]. intros ip s' (i'&?&?&?&?&?&?&E'). exists i'.
  split_and!; try done. intros Hz. rewrite E', Hz. done.
Qed.

(** [readi] delivers the bytes of the file from [off], as many as asked for
    or as the file has; an offset past the end or a range that wraps around is
    an error; the file's contents do not change. *)
Theorem readi_delivers s V ic ip off n
  (Hf : frep s V ∅ ic) (Hok : disk_ok V) (Hi : inode_ok V (ic ip)) (Ht : i_type (ic ip) <> T_DEV)
  (Hs : 0 <= i_size (ic ip) <= MAXFILE * BSIZE) (Ho : is_u32 off) (Hn : is_u32 n) :
  safe fs_stop (readi devsw_read ip off n) s (fun '(r, bytes) s' =>
    if (i_size (ic ip) <? off) || (4294967296 <=? off + n) then r = -1 /\ bytes = [] /\ s' = s
    else r = Z.min n (i_size (ic ip) - off) /\ bytes = file_bytes V (ic ip) off r /\
      exists V' i', grows V (ic ip) V' i' /\ frep s' V' ∅ (fupd ic ip i')).
Proof. apply readi_ok; unfold fs_stop; auto. Qed.



(** [dirlookup] returns a reference to the inode of the first entry of
    that name and the entry's offset, and null exactly when no entry in use
    has the name. *)
Theorem dirlookup_first_entry s V ic dp name
  (Hf : frep s V ∅ ic) (Hok : disk_ok V) (Hd : dir_ok V (ic dp)) (Hic : icache_ok ic) :
  safe fs_stop (dirlookup devsw_read dp name) s
    (lookup_post V ic dp name (offsets 0 (i_size (ic dp)))).
Proof. apply dirlookup_ok; unfold fs_stop; auto. Qed.


(** [ilock] after [iupdate] of the same inode through a recycled cache
    entry loads exactly what was stored. *)
Theorem iupdate_ilock_roundtrip s V ic ip jp
  (Hf : frep s V ∅ ic) (Hok : disk_ok V) (Hdev : i_dev (ic ip) = 1)
  (Hin : 0 <= i_inum (ic ip) < sb_ninodes (decode_sb (V 1))) (Hx : dinode_ok (dinode_of (ic ip)))
  (Ht : i_type (ic ip) <> 0) (Hne : jp <> ip) (Hj : jp <> NULL) (Hr : 1 <= i_ref (ic jp))
  (Hl : sl_locked (i_lock (ic jp)) = 0) (Hjd : i_dev (ic jp) = 1)
  (Hji : i_inum (ic jp) = i_inum (ic ip)) (Hv : i_valid (ic jp) = 0) :
  safe blk_full (iupdate ip ;; ilock jp) s (fun _ s' =>
    exists V' ic', frep s' V' ∅ ic' /\ dinode_of (ic' jp) = dinode_of (ic ip) /\
      i_valid (ic' jp) = 1 /\ sl_locked (i_lock (ic' jp)) = 1).
Proof.
  eapply safe_bind; [by apply (iupdate_ok blk_full (fun _ H => H) s V ic ip)|].
  intros [] s1 [Hf1 Hok1]. set (ib := IBLOCK (i_inum (ic ip)) (decode_sb (V 1))) in *.
  set (V1 := fupd V ib _) in *. destruct (IBLOCK_range V _ Hok Hin) as [Hib Hsl]. fold ib in Hib.
  destruct (inode_block_usable V ib Hok Hib) as (_&Hn1&_).
  assert (Hsb : V1 1 = V 1) by (apply fupd_ne; lia).
  assert (Hrd : read_dinode (V1 ib) (i_inum (ic ip) mod IPB) = dinode_of (ic ip)).
  { unfold V1. rewrite fupd_eq. apply dinode_rw; [done|apply Hok|done]. }
  eapply safe_conseq.
  - apply (ilock_ok blk_full (fun _ H => H) s1 V1 ic jp); try done; cbn [i_inum i_valid set_ilock]; rewrite ?Hji, ?Hsb; try done.
    fold ib. intros _ Hz. exfalso. apply Ht. by rewrite Hrd in Hz.
  - intros [] s2 Hf2. cbn beta zeta in Hf2. eexists _, _. split; [exact Hf2|]. rewrite !fupd_eq.
    cbn [i_inum i_valid set_ilock]. rewrite Hv, Hji, Hsb. fold ib. rewrite Hrd. by destruct (ic ip).
Qed.
End props.

(** [skipelem] takes the elements of a path off one by one, whatever the
    number of slashes, each cut to DIRSIZ bytes, and returns null exactly when
    there is none left. *)
Theorem skipelem_splits_path path :
  match skipelem path with
  | None => path_elems path = []
  | Some (rest, name) => exists e, path_elems path = e :: path_elems rest /\
      name = take (Z.to_nat DIRSIZ) e /\ e <> [] /\ (SLASH ∉ e) /\ (length rest < length path)%nat
  end.
Proof. apply skipelem_elems. Qed.

(** ** A disk as mkfs formats it

    1000 blocks, 200 inodes, a log of 30 blocks at 2, inodes at 32, the bitmap
    at 58 with the 59 metadata blocks in use. *)
Definition root_sb : list Z :=
  st32 (st32 (st32 (st32 (st32 (st32 (st32 zeros 0 1000) 4 941) 8 200) 12 30) 16 2) 20 32) 24 58.
Definition root_bitmap : list Z := st8 (splice zeros 0 (replicate 7 255)) 7 7.
Definition root_disk (n : Z) : list Z :=
  if n =? 1 then root_sb else if n =? 58 then root_bitmap else zeros.

#[local] Instance root_layer : BlockLayer bstate := logged_layer 2 30 1000.

Lemma root_geometry : geometry (decode_sb (root_disk 1)).
Proof.
  assert (decode_sb (root_disk 1) = Superblock 1000 941 200 30 2 32 58) as -> by (vm_compute; reflexivity).
  split; unfold data_start, IPB, BPB; cbn; try lia; try done.
  - split; lia.
  - intros n Hn. split; lia.
Qed.

Lemma root_disk_ok : disk_ok root_disk.
Proof.
  split.
  - apply root_geometry.
  - intros n. unfold root_disk.
    destruct (n =? 1); [unfold root_sb; do 7 apply st32_block; apply zeros_block|].
    destruct (n =? 58); [|apply zeros_block]. unfold root_bitmap. apply st8_block, splice_block; [apply zeros_block|].
    apply Forall_replicate. unfold is_u8. lia.
  - intros b Hb.
    assert (Hall : forallb (fun b => negb (bit_clear (root_disk (BBLOCK b (decode_sb (root_disk 1)))) (b mod BPB)))
      (seqZ 0 59) = true) by (vm_compute; reflexivity).
    rewrite forallb_forall in Hall. unfold in_use. apply negb_true_iff, (Hall b).
    apply list_elem_of_In, elem_of_seqZ. change (data_start (decode_sb (root_disk 1))) with 59 in Hb. lia.
Qed.

Lemma root_sb_describes : sb_describes root_disk 1000 2 30.
Proof. split; [reflexivity|reflexivity|lia]. Qed.
Lemma root_hdr : hdr_valid fmt_log 1000 (root_disk 2).
Proof.
  split; [reflexivity|vm_compute; intuition discriminate|].
  intros b Hb. vm_compute in Hb. by apply elem_of_nil in Hb.
Qed.

(** The cache and the log booted on it, inside a transaction. *)
Lemma root_transaction : exists s, blk_rep s root_disk ∅.
Proof.
  destruct (boot_logged root_disk 1000 fmt_log root_sb_describes root_hdr) as (s0&g0&_&Hlg0&Hst&Hsz&Ho&Hc);
    [done|lia|].
  destruct (begin_op_logged _ _ _ _ _ _ _ _ Hlg0 Hc) as (s1&_&Hlg1); [rewrite Ho; done|].
  exists s1. apply (blk_rep_ext s1 (recovered fmt_log root_disk)).
  - intros n. unfold recovered, recover_writes. change (install_writes _ _ _ _) with (@nil (Z * list Z)). simpl.
    rewrite fupd_at. change (log_start fmt_log) with 2. destruct (Z.eqb_spec n 2) as [->|]; [|done].
    vm_compute. reflexivity.
  - eexists _, _, _, _. split; [exact Hlg1|]. simpl. rewrite Ho, Hst, Hsz. done.
Qed.

(** Entry 0 is an empty file, entry 1 the empty root directory, the rest is
    free. *)
Definition root_icache (ip : Z) : inode :=
  if ip =? 0 then Inode 1 5 1 (Sleeplock 1 1) 1 T_FILE 0 0 1 0 (replicate 13 0)
  else if ip =? 1 then Inode 1 1 1 (Sleeplock 1 1) 1 T_DIR 0 0 1 0 (replicate 13 0)
  else Inode 0 0 0 (Sleeplock 0 0) 0 0 0 0 0 0 (replicate 13 0).
Definition root_fs (b : bstate) : fsstate bstate := FsState b (decode_sb (root_disk 1)) root_icache 1 1.

Lemma root_frep : exists b, frep (root_fs b) root_disk ∅ root_icache.
Proof. destruct root_transaction as [b Hb]. exists b. by split_and!. Qed.

Lemma empty_inode_ok V i : i_dev i = 1 -> i_addrs i = replicate 13 0 -> inode_ok V i.
Proof.
  intros Hd Ha. assert (Hind : ind_of i = 0) by (unfold ind_of; by rewrite Ha).
  assert (Hb : forall bn, in_file bn -> blkno V i bn = 0).
  { intros bn Hbn. unfold blkno. rewrite Hind, Ha. destruct (Z.ltb_spec bn NDIRECT); [|done].
    unfold in_file, NDIRECT in *. apply nthZ_lookup; [lia|]. apply lookup_replicate. split; [done|lia]. }
  split; try done.
  - by rewrite Ha.
  - intros bn Hbn Hx. by rewrite Hb in Hx.
  - intros bn bn' Hbn _ Hx. by rewrite Hb in Hx.
  - intros bn Hbn Hx. by rewrite Hb in Hx.
Qed.

Lemma root_icache_ok : icache_ok root_icache.
Proof.
  split; unfold root_icache.
  - intros ip _. destruct (ip =? 0); [simpl; lia|]. destruct (ip =? 1); simpl; lia.
  - intros ip jp _ _. destruct (Z.eqb_spec ip 0), (Z.eqb_spec jp 0); try (subst; lia);
      destruct (Z.eqb_spec ip 1), (Z.eqb_spec jp 1); simpl; lia.
Qed.

Lemma root_dir_ok : dir_ok root_disk (root_icache 1).
Proof. split; [by apply empty_inode_ok|done|unfold MAXFILE, NDIRECT, NINDIRECT, BSIZE; simpl; lia|done]. Qed.

(** No device drivers. *)
Definition no_read : Z -> option (Z -> Z -> M (fsstate bstate) (Z * list Z)) := fun _ => None.
Definition no_write : Z -> option (Z -> list Z -> Z -> M (fsstate bstate) Z) := fun _ => None.

Lemma balloc_takes_free_block_witness :
  exists b, safe (fun e => blk_full e \/ e = Panicked "balloc: out of blocks" /\
                   forall n, 0 <= n < sb_size (decode_sb (root_disk 1)) -> in_use root_disk n)
    (balloc 1) (root_fs b) (fun r s' => exists V', allocated root_disk r V' /\ frep s' V' ∅ root_icache).
Proof.
  destruct root_frep as [b Hf]. exists b.
  exact (balloc_takes_free_block (root_fs b) root_disk ∅ root_icache Hf root_disk_ok (held_empty root_disk)).
Defined.

Lemma bfree_clears_bit_witness :
  exists b, safe (fun e => blk_full e \/ e = Panicked "freeing free block" /\ ~ in_use root_disk 100)
    (bfree 1 100) (root_fs b)
    (fun _ s' => in_use root_disk 100 /\ exists V', freed root_disk 100 V' /\ frep s' V' ∅ root_icache).
Proof.
  destruct root_frep as [b Hf]. exists b.
  apply (bfree_clears_bit (root_fs b) root_disk ∅ root_icache 100 Hf root_disk_ok (held_empty root_disk)).
  split; vm_compute; congruence.
Defined.

Lemma iget_one_entry_witness :
  exists b, safe (cache_full root_icache 1 5) (iget 1 5) (root_fs b) (fun ip s' =>
    exists i', in_cache ip /\ frep s' root_disk ∅ (fupd root_icache ip i') /\ icache_ok (fupd root_icache ip i') /\
      i_dev i' = 1 /\ i_inum i' = 5 /\ i_ref i' = i_ref (root_icache ip) + 1 /\
      (i_ref (root_icache ip) = 0 -> i_valid i' = 0)).
Proof.
  destruct root_frep as [b Hf]. exists b.
  exact (iget_one_entry (root_fs b) root_disk ∅ root_icache 1 5 Hf root_icache_ok).
Defined.

Lemma readi_delivers_witness :
  exists b, safe fs_stop (readi no_read 0 0 10) (root_fs b) (fun '(r, bytes) s' =>
    r = 0 /\ bytes = [] /\ exists V' i', grows root_disk (root_icache 0) V' i' /\ frep s' V' ∅ (fupd root_icache 0 i')).
Proof.
  destruct root_frep as [b Hf]. exists b.
  pose proof (readi_delivers no_read (root_fs b) root_disk root_icache 0 0 10 Hf root_disk_ok
    (empty_inode_ok root_disk (root_icache 0) eq_refl eq_refl)) as H.
  eapply safe_conseq; [apply H; unfold is_u32; simpl; try lia; done|].
  intros [r bytes] s'. simpl. intros (->&->&HV). split; [reflexivity|]. split; [reflexivity|exact HV].
Defined.



Lemma dirlookup_first_entry_witness :
  exists b, safe fs_stop (dirlookup no_read 1 [97]) (root_fs b) (lookup_post root_disk root_icache 1 [97] []).
Proof.
  destruct root_frep as [b Hf]. exists b.
  exact (dirlookup_first_entry no_read (root_fs b) root_disk root_icache 1 [97] Hf root_disk_ok root_dir_ok root_icache_ok).
Defined.


Lemma iupdate_ilock_roundtrip_witness :
  let ic := fupd root_icache 2 (Inode 1 5 1 (Sleeplock 0 0) 0 0 0 0 0 0 (replicate 13 0)) in
  exists b, safe blk_full (iupdate 0 ;; ilock 2) (FsState b (decode_sb (root_disk 1)) ic 1 1) (fun _ s' =>
    exists V' ic', frep s' V' ∅ ic' /\ dinode_of (ic' 2) = dinode_of (ic 0) /\
      i_valid (ic' 2) = 1 /\ sl_locked (i_lock (ic' 2)) = 1).
Proof.
  intros ic. destruct root_transaction as [b Hb]. exists b.
  apply (iupdate_ilock_roundtrip (FsState b (decode_sb (root_disk 1)) ic 1 1) root_disk ic 0 2);
    try reflexivity; try discriminate.
  - split; [exact Hb|]. split; reflexivity.
  - apply root_disk_ok.
  - split; vm_compute; congruence.
  - split; try (split; vm_compute; congruence).
    apply (bool_decide_unpack (Forall (fun x => 0 <= x < 4294967296) (replicate 13 0))). vm_compute. exact I.
Defined.
