(* ===== verification/Vm.v ===== *)
(** * vm.c: page tables and user memory

    The code of vm.c over any [PageAllocator].  A page directory and its page
    tables are pages of the one memory; [pgdir], [va] and the pages are the
    addresses the C code computes with.  [data] (kernel.ld), the frame buffer
    of the boot loader and [readi] are parameters. *)
From stdpp Require Import base numbers list gmap strings.
From S2P Require Import Prelude Memory StringC Spinlock Mmu Kalloc.
Open Scope Z_scope.

(** struct kmap: a range of the kernel part of every address space. *)
Record kmap := Kmap { k_virt : Z; k_phys_start : Z; k_phys_end : Z; k_perm : Z }.

(** struct gpu (graphic.h), as far as vm.c reads it. *)
Record gpu := Gpu { pvram_addr : Z; vram_size : Z }.

Section Vm.
Context {S : Type} {page_ok : Z -> Prop} `{PA : PageAllocator S page_ok}.
Abbreviation VM := (M S).

(** [*(uint* )a] and [*(uint* )a = v] *)
Definition vload (a : Z) : VM Z := gets (fun s => load32 (al_mem s) a).
Definition vstore (a v : Z) : VM unit :=
  modify (fun s => al_set_mem (store32 (al_mem s) a v) s).
Definition vmem (f : mem -> mem) : VM unit := modify (fun s => al_set_mem (f (al_mem s)) s).

(** [walkpgdir(pgdir, va, alloc)]; 0 is the null pointer. *)
Definition walkpgdir (pgdir va : Z) (alloc : bool) : VM Z :=
  let pde := pgdir + 4 * PDX va in
  let! e := vload pde in
  if negb (Z.land e PTE_P =? 0) then ret (P2V (PTE_ADDR e) + 4 * PTX va)
  else if negb alloc then ret 0
  else
    let! pgtab := al_kalloc in
    if pgtab =? 0 then ret 0
    else
      vmem (memset pgtab 0 PGSIZE) ;;
      vstore pde (Z.lor (Z.lor (Z.lor (V2P pgtab) PTE_P) PTE_W) PTE_U) ;;
      ret (pgtab + 4 * PTX va).

(** The loop of [mappages], from page [a] to page [last] inclusive. *)
Fixpoint mappages_loop (fuel : nat) (pgdir a last pa perm : Z) : VM Z :=
  match fuel with
  | O => stop_with NoFuel
  | Datatypes.S fuel' =>
      let! pte := walkpgdir pgdir a true in
      if pte =? 0 then ret (-1)
      else
        let! e := vload pte in
        if negb (Z.land e PTE_P =? 0) then panic "remap"
        else
          vstore pte (Z.lor (Z.lor pa perm) PTE_P) ;;
          if a =? last then ret 0
          else mappages_loop fuel' pgdir (a +u PGSIZE) last (pa +u PGSIZE) perm
  end.

(** [mappages(pgdir, va, size, pa, perm)]; the loop runs once per page from
    the first to the last, around the end of the address space if need be. *)
Definition mappages (pgdir va size pa perm : Z) : VM Z :=
  let a := PGROUNDDOWN va in
  let last := PGROUNDDOWN (u32 (va + size - 1)) in
  mappages_loop (Datatypes.S (Z.to_nat (u32 (last - a) / PGSIZE))) pgdir a last pa perm.

(** The loop of [deallocuvm]. *)
Fixpoint deallocuvm_loop (fuel : nat) (pgdir a oldsz : Z) : VM unit :=
  match fuel with
  | O => stop_with NoFuel
  | Datatypes.S fuel' =>
      if a <? oldsz then
        let! pte := walkpgdir pgdir a false in
        if pte =? 0 then
          let a := PGADDR (PDX a + 1) 0 0 -u PGSIZE in
          deallocuvm_loop fuel' pgdir (a +u PGSIZE) oldsz
        else
          let! e := vload pte in
          when (negb (Z.land e PTE_P =? 0))
            (let pa := PTE_ADDR e in
             if pa =? 0 then panic "kfree"
             else al_kfree (P2V pa) ;; vstore pte 0) ;;
          deallocuvm_loop fuel' pgdir (a +u PGSIZE) oldsz
      else ret tt
  end.

(** [deallocuvm(pgdir, oldsz, newsz)]; every round advances by a page or more. *)
Definition deallocuvm (pgdir oldsz newsz : Z) : VM Z :=
  if oldsz <=? newsz then ret oldsz
  else
    deallocuvm_loop (Z.to_nat (oldsz / PGSIZE + 2)) pgdir (PGROUNDUP newsz) oldsz ;;
    ret newsz.

(** [freevm(pgdir)] *)
Definition freevm (pgdir : Z) : VM unit :=
  if pgdir =? 0 then panic "freevm: no pgdir"
  else
    deallocuvm pgdir KERNBASE 0 ;;
    mfor (seqZ 0 NPDENTRIES) (fun i =>
      let! e := vload (pgdir + 4 * i) in
      when (negb (Z.land e PTE_P =? 0)) (al_kfree (P2V (PTE_ADDR e)))) ;;
    al_kfree pgdir.

(** The loop of [allocuvm]. *)
Fixpoint allocuvm_loop (fuel : nat) (pgdir oldsz newsz a : Z) : VM Z :=
  match fuel with
  | O => stop_with NoFuel
  | Datatypes.S fuel' =>
      if a <? newsz then
        let! m := al_kalloc in
        if m =? 0 then
          deallocuvm pgdir newsz oldsz ;;
          ret 0
        else
          vmem (memset m 0 PGSIZE) ;;
          let! r := mappages pgdir a PGSIZE (V2P m) (Z.lor PTE_W PTE_U) in
          if r <? 0 then
            deallocuvm pgdir newsz oldsz ;;
            al_kfree m ;;
            ret 0
          else allocuvm_loop fuel' pgdir oldsz newsz (a +u PGSIZE)
      else ret newsz
  end.

(** [allocuvm(pgdir, oldsz, newsz)] (the console messages aside) *)
Definition allocuvm (pgdir oldsz newsz : Z) : VM Z :=
  if KERNBASE <=? newsz then ret 0
  else if newsz <? oldsz then ret oldsz
  else allocuvm_loop (Z.to_nat (newsz / PGSIZE + 2)) pgdir oldsz newsz (PGROUNDUP oldsz).

(** [inituvm(pgdir, init, sz)]; [init] is an address of the kernel image. *)
Definition inituvm (pgdir init sz : Z) : VM unit :=
  if PGSIZE <=? sz then panic "inituvm: more than a page"
  else
    let! m := al_kalloc in
    vmem (memset m 0 PGSIZE) ;;
    mappages pgdir 0 PGSIZE (V2P m) (Z.lor PTE_W PTE_U) ;;
    vmem (memmove m init sz).

(** [clearpteu(pgdir, uva)] *)
Definition clearpteu (pgdir uva : Z) : VM unit :=
  let! pte := walkpgdir pgdir uva false in
  if pte =? 0 then panic "clearpteu"
  else
    let! e := vload pte in
    vstore pte (Z.land e (Z.lnot PTE_U)).

(** [uva2ka(pgdir, uva)]; the entry is read without a test of [pte]. *)
Definition uva2ka (pgdir uva : Z) : VM Z :=
  let! pte := walkpgdir pgdir uva false in
  if pte =? 0 then stop_with (Faulted "uva2ka: null pte")
  else
    let! e := vload pte in
    if Z.land e PTE_P =? 0 then ret 0
    else if Z.land e PTE_U =? 0 then ret 0
    else ret (P2V (PTE_ADDR e)).

(** The loop of [copyout]; [src] holds the bytes still to be copied. *)
Fixpoint copyout_loop (fuel : nat) (pgdir va : Z) (src : list Z) : VM Z :=
  match fuel with
  | O => stop_with NoFuel
  | Datatypes.S fuel' =>
      let len := Z.of_nat (length src) in
      if 0 <? len then
        let va0 := PGROUNDDOWN va in
        let! pa0 := uva2ka pgdir va0 in
        if pa0 =? 0 then ret (-1)
        else
          let n := PGSIZE - (va - va0) in
          let n := if len <? n then len else n in
          vmem (fun m => store_bytes m (pa0 + (va - va0)) (take (Z.to_nat n) src)) ;;
          copyout_loop fuel' pgdir (va0 +u PGSIZE) (drop (Z.to_nat n) src)
      else ret 0
  end.

(** [copyout(pgdir, va, p, len)] of the bytes [src] at [p]; the loop runs at
    most once more than [len] fills pages. *)
Definition copyout (pgdir va : Z) (src : list Z) : VM Z :=
  copyout_loop (Z.to_nat (Z.of_nat (length src) / PGSIZE + 3)) pgdir va src.

(** [loaduvm(pgdir, addr, ip, offset, sz)], with the file read [readi]
    that delivers into kernel memory. *)
Fixpoint loaduvm_loop (readi : Z -> Z -> Z -> Z -> VM Z) (fuel : nat)
    (pgdir addr ip offset sz i : Z) : VM Z :=
  match fuel with
  | O => stop_with NoFuel
  | Datatypes.S fuel' =>
      if i <? sz then
        let! pte := walkpgdir pgdir (addr +u i) false in
        if pte =? 0 then panic "loaduvm: address should exist"
        else
          let! e := vload pte in
          let pa := PTE_ADDR e in
          let n := if sz - i <? PGSIZE then sz - i else PGSIZE in
          let! r := readi ip (P2V pa) (offset +u i) n in
          if negb (r =? n) then ret (-1)
          else loaduvm_loop readi fuel' pgdir addr ip offset sz (i +u PGSIZE)
      else ret 0
  end.
Definition loaduvm (readi : Z -> Z -> Z -> Z -> VM Z) (pgdir addr ip offset sz : Z) : VM Z :=
  if negb (addr mod PGSIZE =? 0) then panic "loaduvm: addr must be page aligned"
  else loaduvm_loop readi (Z.to_nat (sz / PGSIZE + 2)) pgdir addr ip offset sz 0.

Section kernel_map.
Context (data : Z) (g : gpu).

(** [kmap[]], with the entry [setupkvm] fills in for the frame buffer. *)
Definition kmaps : list kmap :=
  [ Kmap KERNBASE 0 EXTMEM PTE_W;
    Kmap KERNLINK (V2P KERNLINK) (V2P data) 0;
    Kmap data (V2P data) PHYSTOP PTE_W;
    Kmap (DEVSPACE -u vram_size g) (pvram_addr g) (pvram_addr g +u vram_size g) PTE_W;
    Kmap (PCI_BAR_BASE +u PCI_VP_OFFSET) PCI_BAR_BASE (0x10000000 +u PCI_BAR_BASE) PTE_W;
    Kmap DEVSPACE DEVSPACE 0 PTE_W ].

(** The loop of [setupkvm]. *)
Fixpoint setupkvm_loop (pgdir : Z) (l : list kmap) : VM Z :=
  match l with
  | [] => ret pgdir
  | k :: l' =>
      let! r := mappages pgdir (k_virt k) (k_phys_end k -u k_phys_start k) (k_phys_start k) (k_perm k) in
      if r <? 0 then freevm pgdir ;; ret 0
      else setupkvm_loop pgdir l'
  end.

(** [setupkvm()] *)
Definition setupkvm : VM Z :=
  let! pgdir := al_kalloc in
  if pgdir =? 0 then ret 0
  else
    vmem (memset pgdir 0 PGSIZE) ;;
    if DEVSPACE <? P2V PHYSTOP then panic "PHYSTOP too high"
    else setupkvm_loop pgdir kmaps.

(** The loop of [copyuvm], with [bad:]. *)
Fixpoint copyuvm_loop (fuel : nat) (pgdir d sz i : Z) : VM Z :=
  match fuel with
  | O => stop_with NoFuel
  | Datatypes.S fuel' =>
      if i <? sz then
        let! pte := walkpgdir pgdir i false in
        if pte =? 0 then panic "copyuvm: pte should exist"
        else
          let! e := vload pte in
          if Z.land e PTE_P =? 0 then panic "copyuvm: page not present"
          else
            let pa := PTE_ADDR e in
            let flags := PTE_FLAGS e in
            let! m := al_kalloc in
            if m =? 0 then freevm d ;; ret 0
            else
              vmem (memmove m (P2V pa) PGSIZE) ;;
              let! r := mappages d i PGSIZE (V2P m) flags in
              if r <? 0 then freevm d ;; ret 0
              else copyuvm_loop fuel' pgdir d sz (i +u PGSIZE)
      else ret d
  end.

(** [copyuvm(pgdir, sz)] *)
Definition copyuvm (pgdir sz : Z) : VM Z :=
  let! d := setupkvm in
  if d =? 0 then ret 0
  else copyuvm_loop (Z.to_nat (sz / PGSIZE + 2)) pgdir d sz 0.
End kernel_map.
End Vm.
