(* ===== verification/VmTable.v ===== *)
(** * vm.c: page tables as maps

    [ptab s l F d T ent]: in state [s] with free pages [l], the directory page
    [d] and the table pages [T] (by directory index) hold the entries [ent]
    (by virtual page number); [F] are further pages in use.  Every page is
    accounted for once. *)
From stdpp Require Import base numbers list gmap strings.
From S2P Require Import Prelude Memory StringC Spinlock Mmu Kalloc Vm.
Open Scope Z_scope.

Definition present (e : Z) : Prop := Z.land e PTE_P <> 0.

#[export] Instance present_dec e : Decision (present e).
Proof. unfold present. apply _. Defined.

(** The pages of a directory's tables. *)
Definition tabs (T : gmap Z Z) : list Z := (map_to_list T).*2.

(** Virtual page numbers: 2^20 of them, the lower half for the user. *)
Definition NPAGES : Z := 1048576.
Definition UPAGES : Z := 524288.

Section table.
Context {S : Type} {page_ok : Z -> Prop} `{PA : PageAllocator S page_ok}.

Record ptab (s : S) (l F : list Z) (d : Z) (T : gmap Z Z) (ent : Z -> Z) : Prop := Ptab {
  pt_free : al_free s l;
  pt_nodup : NoDup (d :: tabs T ++ F ++ l);
  pt_pages : Forall page_ok (d :: tabs T ++ F);
  pt_dom : forall i t, T !! i = Some t -> 0 <= i < 1024;
  pt_dir : forall i, 0 <= i < 1024 ->
    load32 (al_mem s) (d + 4 * i) = match T !! i with Some t => Z.lor (V2P t) 7 | None => 0 end;
  pt_tab : forall i t j, T !! i = Some t -> 0 <= j < 1024 ->
    load32 (al_mem s) (t + 4 * j) = ent (1024 * i + j);
  pt_none : forall i j, T !! i = None -> 0 <= i < 1024 -> 0 <= j < 1024 -> ent (1024 * i + j) = 0;
  pt_ent : forall q, is_u32 (ent q)
}.

(** Only bytes of the given pages differ. *)
Definition changes (P : list Z) (s s' : S) : Prop :=
  forall x, (forall v, v ∈ P -> ~ in_page v x) -> al_mem s' x = al_mem s x.

Lemma changes_refl P s : changes P s s.
Proof. by intros x _. Qed.
Lemma changes_trans P s1 s2 s3 : changes P s1 s2 -> changes P s2 s3 -> changes P s1 s3.
Proof. intros H1 H2 x Hx. rewrite H2, H1; done. Qed.
Lemma changes_incl P Q s s' : P ⊆ Q -> changes P s s' -> changes Q s s'.
Proof. intros HPQ H x Hx. apply H. intros v Hv. apply Hx. by apply HPQ. Qed.
Lemma changes_mem_eq P s s' : al_mem s' = al_mem s -> changes P s s'.
Proof. intros E x _. by rewrite E. Qed.

(** ** Pages and entries *)

Lemma page_shape v : page_ok v -> v mod 4096 = 0 /\ 2147483648 < v <= 2684350464.
Proof.
  intros H. destruct (al_page_aligned v H). unfold PGSIZE, KERNBASE, PHYSTOP in *.
  split; [done|]. Z.div_mod_to_equations. lia.
Qed.

Lemma page_nz v : page_ok v -> v <> 0.
Proof. intros [_ ?]%page_shape. lia. Qed.

Lemma V2P_page v : page_ok v -> V2P v = v - 2147483648 /\ V2P v mod 4096 = 0.
Proof.
  intros [Ha Hr]%page_shape. unfold V2P, KERNBASE. rewrite u32_small by (unfold is_u32; lia).
  split; [done|]. Z.div_mod_to_equations. lia.
Qed.

Lemma P2V_page v : page_ok v -> P2V (V2P v) = v.
Proof. intros [Ha Hr]%page_shape. apply P2V_V2P. unfold is_u32. lia. Qed.

Lemma slot_in_page d i : 0 <= i < 1024 -> forall x, d + 4 * i <= x < d + 4 * i + 4 -> in_page d x.
Proof. unfold in_page, PGSIZE. lia. Qed.

Lemma page_apart v w x : page_ok v -> page_ok w -> v <> w -> in_page v x -> ~ in_page w x.
Proof.
  intros Hv Hw Hne Hx Hy. apply Hne.
  eapply pages_disjoint; [apply (al_page_aligned v Hv)|apply (al_page_aligned w Hw)|done|done].
Qed.

Lemma land1 e : Z.land e 1 = e mod 2.
Proof. apply (land_mask e 1). lia. Qed.

(** A page address, permission bits and PTE_P make a present entry. *)
Lemma entry_split a f :
  a mod 4096 = 0 -> is_u32 a -> 0 <= f < 4096 -> 
  let e := Z.lor (Z.lor a f) PTE_P in
  present e /\ PTE_ADDR e = a /\ PTE_FLAGS e = Z.lor f 1 /\ is_u32 e.
Proof.
  intros Ha Hu Hf. cbn zeta. unfold PTE_P. rewrite <- Z.lor_assoc.
  assert (Hf1 : 0 <= Z.lor f 1 < 4096).
  { split; [apply Z.lor_nonneg; lia|]. destruct (decide (f = 0)) as [->|]; [done|].
    apply (Z.log2_lt_pow2 _ 12); [|rewrite Z.log2_lor by lia].
    - assert (Z.lor f 1 <> 0) by (rewrite Z.lor_eq_0_iff; lia).
      assert (0 <= Z.lor f 1) by (apply Z.lor_nonneg; lia). lia.
    - apply Z.max_lub_lt; [apply Z.log2_lt_pow2; lia|done]. }
  destruct (PTE_split a _ Ha Hf1) as [E1 E2]. split_and!; try done.
  - unfold present, PTE_P. intros H. apply (f_equal (fun z => Z.testbit z 0)) in H.
    rewrite Z.land_spec, !Z.lor_spec, Z.bits_0 in H. by rewrite !orb_true_r in H.
  - unfold is_u32. rewrite lor_page by done. unfold is_u32 in Hu. Z.div_mod_to_equations. lia.
Qed.

Lemma pde_split t : page_ok t ->
  present (Z.lor (V2P t) 7) /\ P2V (PTE_ADDR (Z.lor (V2P t) 7)) = t /\ is_u32 (Z.lor (V2P t) 7).
Proof.
  intros Ht. destruct (V2P_page t Ht) as [E Ea]. destruct (page_shape t Ht) as [_ ?].
  destruct (entry_split (V2P t) 6 Ea) as (?&EA&_&?); [unfold is_u32; lia|lia|].
  unfold PTE_P in *. rewrite <- Z.lor_assoc in *. change (Z.lor 6 1) with 7 in *.
  rewrite EA, P2V_page by done. done.
Qed.

Lemma pde_value t : Z.lor (Z.lor (Z.lor (V2P t) PTE_P) PTE_W) PTE_U = Z.lor (V2P t) 7.
Proof. rewrite <- !Z.lor_assoc. done. Qed.

(** ** Page numbers *)

Lemma PDX_page q : 0 <= q < NPAGES -> PDX (4096 * q) = q / 1024.
Proof. unfold NPAGES. intros. rewrite PDX_div. Z.div_mod_to_equations. lia. Qed.
Lemma PTX_page q : 0 <= q < NPAGES -> PTX (4096 * q) = q mod 1024.
Proof. unfold NPAGES. intros. rewrite PTX_div. Z.div_mod_to_equations. lia. Qed.
Lemma page_index q : 1024 * (q / 1024) + q mod 1024 = q.
Proof. Z.div_mod_to_equations. lia. Qed.
Lemma dir_index q : 0 <= q < NPAGES -> 0 <= q / 1024 < 1024 /\ 0 <= q mod 1024 < 1024.
Proof. unfold NPAGES. intros. Z.div_mod_to_equations. lia. Qed.

Lemma index_inj i j i' j' : 0 <= j < 1024 -> 0 <= j' < 1024 ->
  1024 * i + j = 1024 * i' + j' -> i = i' /\ j = j'.
Proof. intros. lia. Qed.

(** ** Table pages *)

Lemma tabs_insert T i t : T !! i = None -> tabs (<[i := t]> T) ≡ₚ t :: tabs T.
Proof. intros. unfold tabs. rewrite map_to_list_insert by done. done. Qed.

Lemma tabs_elem T i t : T !! i = Some t -> t ∈ tabs T.
Proof.
  intros. unfold tabs. apply list_elem_of_fmap. exists (i, t). split; [done|].
  by apply elem_of_map_to_list.
Qed.

Lemma tabs_elem_inv T t : t ∈ tabs T -> exists i, T !! i = Some t.
Proof.
  unfold tabs. intros ([i t']&->&H)%list_elem_of_fmap. exists i. by apply elem_of_map_to_list.
Qed.

Lemma tabs_delete T i t : T !! i = Some t -> tabs T ≡ₚ t :: tabs (delete i T).
Proof. intros H. rewrite <- (insert_delete_id T i t) at 1 by done. apply tabs_insert, lookup_delete_eq. Qed.

(** Different indices have different tables. *)
Lemma tabs_inj T i j t : NoDup (tabs T) -> T !! i = Some t -> T !! j = Some t -> i = j.
Proof.
  intros Hn Hi Hj. destruct (decide (i = j)) as [|Hne]; [done|]. exfalso.
  rewrite (tabs_delete T i t Hi), NoDup_cons in Hn. apply (proj1 Hn).
  apply tabs_elem with j. by rewrite lookup_delete_ne.
Qed.

(** ** Keeping the tables *)

Section keep.
Context (s : S) (l F : list Z) (d : Z) (T : gmap Z Z) (ent : Z -> Z).
Context (Hp : ptab s l F d T ent).

Lemma ptab_in v : v ∈ d :: tabs T ++ F -> page_ok v /\ v ∉ l.
Proof.
  intros Hv. split; [exact (proj1 (Forall_forall _ _) (pt_pages _ _ _ _ _ _ Hp) v Hv)|].
  pose proof (pt_nodup _ _ _ _ _ _ Hp) as Hn.
  change (d :: tabs T ++ F ++ l) with ((d :: tabs T) ++ F ++ l) in Hn.
  rewrite app_assoc, NoDup_app in Hn. apply (proj1 (proj2 Hn)). exact Hv.
Qed.

Lemma ptab_free_pages v : v ∈ l -> page_ok v.
Proof.
  intros Hv. destruct (al_free_pages s l (pt_free _ _ _ _ _ _ Hp)) as (_&Hf&_).
  by apply (proj1 (Forall_forall _ _) Hf).
Qed.

Lemma ptab_wf : mem_wf (al_mem s).
Proof. apply (al_free_pages s l (pt_free _ _ _ _ _ _ Hp)). Qed.

Lemma ptab_tab i t : T !! i = Some t -> page_ok t /\ t <> d /\ t ∉ F ++ l /\ 0 <= i < 1024.
Proof.
  intros Ht. pose proof (tabs_elem _ _ _ Ht) as Hin. split_and!; try apply (pt_dom _ _ _ _ _ _ Hp i t Ht).
  - apply ptab_in. set_solver.
  - intros ->. pose proof (pt_nodup _ _ _ _ _ _ Hp) as Hn. apply NoDup_cons in Hn as [Hn _]. set_solver.
  - pose proof (pt_nodup _ _ _ _ _ _ Hp) as Hn. apply NoDup_cons in Hn as [_ Hn].
    apply NoDup_app in Hn as (_&Hn&_). auto.
Qed.

Lemma ptab_tabs_nodup : NoDup (tabs T).
Proof.
  pose proof (pt_nodup _ _ _ _ _ _ Hp) as Hn. apply NoDup_cons in Hn as [_ Hn].
  by apply NoDup_app in Hn as (Hn&_).
Qed.

(** Pages move between the free list and the rest, bytes outside the tables
    change: the tables stay. *)
Lemma ptab_frame s' l' F' :
  al_free s' l' -> F' ++ l' ≡ₚ F ++ l -> Forall page_ok F' ->
  (forall v x, v ∈ d :: tabs T -> in_page v x -> al_mem s' x = al_mem s x) ->
  ptab s' l' F' d T ent.
Proof.
  intros Hf HP HF Hm. pose proof Hp as [_ Hn Hpg Hdom Hdir Htab Hnone Hent]. split; try done.
  - by rewrite HP.
  - rewrite app_comm_cons, Forall_app in Hpg |- *. split; [apply Hpg|done].
  - intros i Hi. rewrite <- Hdir by done. apply load32_ext. intros x Hx. apply (Hm d); [left|].
    by apply (slot_in_page d i).
  - intros i t j Ht Hj. rewrite <- (Htab i t j) by done. apply load32_ext. intros x Hx. apply (Hm t).
    + right. by apply tabs_elem with i.
    + by apply (slot_in_page t j).
Qed.

Lemma ptab_perm F' : F' ≡ₚ F -> ptab s l F' d T ent.
Proof.
  intros HP. apply ptab_frame; try done; [apply Hp|by rewrite HP|].
  rewrite HP. pose proof (pt_pages _ _ _ _ _ _ Hp) as Hpg. rewrite app_comm_cons, Forall_app in Hpg. apply Hpg.
Qed.

Lemma ptab_F_pages : Forall page_ok F.
Proof. pose proof (pt_pages _ _ _ _ _ _ Hp) as Hpg. rewrite app_comm_cons, Forall_app in Hpg. apply Hpg. Qed.

(** A page that is neither the directory nor a table. *)
Lemma ptab_apart v w x : v ∈ d :: tabs T -> w ∈ F ++ l -> in_page v x -> ~ in_page w x.
Proof.
  intros Hv Hw. apply page_apart.
  - apply ptab_in. set_solver.
  - apply elem_of_app in Hw as [Hw|Hw]; [|by apply ptab_free_pages].
    exact (proj1 (Forall_forall _ _) ptab_F_pages w Hw).
  - intros ->. pose proof (pt_nodup _ _ _ _ _ _ Hp) as Hn. rewrite app_comm_cons in Hn.
    apply NoDup_app in Hn as (_&Hn&_). by apply (Hn w Hv).
Qed.

(** Writes inside pages in use. *)
Lemma ptab_write m : mem_wf m ->
  (forall x, (forall v, v ∈ F -> ~ in_page v x) -> m x = al_mem s x) ->
  ptab (al_set_mem m s) l F d T ent.
Proof.
  intros Hwf Hm. apply ptab_frame; try done.
  - apply al_free_frame; [apply Hp|done|]. intros v x Hv Hx. apply Hm. intros w Hw Hwx.
    assert (w ∉ l) by (apply ptab_in; set_solver).
    assert (page_ok w) by (apply ptab_in; set_solver). pose proof (ptab_free_pages v Hv).
    eapply (page_apart v w x); try done. intros ->. done.
  - apply ptab_F_pages.
  - intros v x Hv Hx. rewrite al_mem_set. apply Hm. intros w Hw. apply (ptab_apart v w x); set_solver.
Qed.

Lemma ptab_kfree v F' : F ≡ₚ v :: F' ->
  exists s', al_kfree v s = Ret tt s' /\ ptab s' (v :: l) F' d T ent /\ changes [v] s s'.
Proof.
  intros HP. assert (v ∈ F) as Hv by (rewrite HP; left).
  destruct (ptab_in v) as [Hvp Hvl]; [set_solver|].
  destruct (al_kfree_ok s v l (pt_free _ _ _ _ _ _ Hp) Hvp Hvl) as (s'&E&Hf&Hm).
  exists s'. split; [done|]. split.
  - apply ptab_frame; try done.
    + rewrite HP. symmetry. apply Permutation_middle.
    + pose proof ptab_F_pages as HF. rewrite HP in HF. by inversion HF.
    + intros w x Hw Hx. apply Hm. apply (ptab_apart w v x); set_solver.
  - intros x Hx. apply Hm. apply Hx. left.
Qed.

(** An entry is stored. *)
Lemma ptab_set i j t e : T !! i = Some t -> 0 <= j < 1024 -> is_u32 e ->
  ptab (al_set_mem (store32 (al_mem s) (t + 4 * j) e) s) l F d T (fupd ent (1024 * i + j) e) /\
  changes [t] s (al_set_mem (store32 (al_mem s) (t + 4 * j) e) s).
Proof.
  intros Ht Hj He. destruct (ptab_tab i t Ht) as (Htp&Htd&HtF&Hi).
  assert (Hch : forall x, ~ in_page t x -> store32 (al_mem s) (t + 4 * j) e x = al_mem s x).
  { intros x Hx. apply store32_other. unfold in_page, PGSIZE in Hx. lia. }
  split; [|intros x Hx; rewrite al_mem_set; apply Hch, Hx; left].
  pose proof Hp as [Hf Hn Hpg Hdom Hdir Htab Hnone Hent]. split; try done.
  - apply al_free_frame; [done|apply store32_wf, ptab_wf|]. intros v x Hv Hx. apply Hch.
    apply (page_apart v t x); try done; [by apply ptab_free_pages|set_solver].
  - intros k Hk. rewrite al_mem_set, <- Hdir by done. apply load32_ext. intros x Hx. apply Hch.
    apply (page_apart d t x); [apply ptab_in; set_solver|done|done|by apply (slot_in_page d k)].
  - intros i' t' j' Ht' Hj'. rewrite al_mem_set. unfold fupd. destruct (decide (t' = t)) as [->|Hne].
    + assert (i' = i) as -> by (eapply tabs_inj; eauto using ptab_tabs_nodup).
      destruct (Z.eqb_spec (1024 * i + j') (1024 * i + j)).
      * replace j' with j by lia. rewrite load_store32_eq. by apply u32_small.
      * rewrite load_store32_ne by lia. by apply Htab.
    + destruct (Z.eqb_spec (1024 * i' + j') (1024 * i + j)) as [E|E].
      { apply index_inj in E as [-> ->]; [|done..]. congruence. }
      rewrite <- (Htab i' t' j') by done. apply load32_ext. intros x Hx. apply Hch.
      apply (page_apart t' t x); [by apply (ptab_tab i')|done|done|by apply (slot_in_page t' j')].
  - intros i' j' Hi' Hr Hj'. unfold fupd. destruct (Z.eqb_spec (1024 * i' + j') (1024 * i + j)) as [E|E].
    + apply index_inj in E as [-> ->]; [|done..]. congruence.
    + by apply Hnone.
  - intros q. unfold fupd. by destruct (Z.eqb_spec q (1024 * i + j)).
Qed.
End keep.

Lemma ptab_take s l F d T ent v : ptab s (v :: l) F d T ent ->
  exists s', al_kalloc s = Ret v s' /\ ptab s' l (v :: F) d T ent /\ al_mem s' = al_mem s /\ page_ok v.
Proof.
  intros Hp. destruct (al_kalloc_some s v l (pt_free _ _ _ _ _ _ Hp)) as (s'&E&Hf&Hm).
  assert (page_ok v) by (eapply ptab_free_pages; [done|left]).
  exists s'. split_and!; try done. eapply ptab_frame; try done.
  - simpl. apply Permutation_middle.
  - constructor; [done|]. by eapply ptab_F_pages.
  - intros. by rewrite Hm.
Qed.

Lemma ptab_out s F d T ent : ptab s [] F d T ent ->
  exists s', al_kalloc s = Ret 0 s' /\ ptab s' [] F d T ent /\ al_mem s' = al_mem s.
Proof.
  intros Hp. destruct (al_kalloc_none s (pt_free _ _ _ _ _ _ Hp)) as (s'&E&Hf&Hm).
  exists s'. split_and!; try done. eapply ptab_frame; try done; [by eapply ptab_F_pages|].
  intros. by rewrite Hm.
Qed.
End table.
