(* ===== verification/VmMap.v ===== *)
(** * vm.c: walking and mapping

    What [walkpgdir] and [mappages] do to the page-table view of VmTable. *)
From stdpp Require Import base numbers list gmap strings.
From S2P Require Import Prelude Memory StringC Spinlock Mmu Kalloc Vm VmTable.
Open Scope Z_scope.

(** [n] pages from page [p] mapped to consecutive frames from [pa]. *)
Definition map_range (ent : Z -> Z) (p n pa perm : Z) : Z -> Z := fun q =>
  if (p <=? q) && (q <? p + n) then Z.lor (Z.lor (pa + 4096 * (q - p)) perm) PTE_P else ent q.

Section map.
Context {S : Type} {page_ok : Z -> Prop} `{PA : PageAllocator S page_ok}.

Lemma ptab_ext s l F d T ent ent' :
  ptab s l F d T ent -> (forall q, ent' q = ent q) -> ptab s l F d T ent'.
Proof.
  intros [] He. split; try done.
  - intros. rewrite He. auto.
  - intros. rewrite He. auto.
  - intros. rewrite He. auto.
Qed.

(** A page in use is cleared. *)
Lemma ptab_zero s l F d T ent v : ptab s l F d T ent -> v ∈ F ->
  let s' := al_set_mem (memset v 0 PGSIZE (al_mem s)) s in
  ptab s' l F d T ent /\ changes [v] s s' /\ (forall x, in_page v x -> al_mem s' x = 0).
Proof.
  intros Hp Hv s'. destruct (ptab_in _ _ _ _ _ _ Hp v) as [Hvp _]; [set_solver|].
  destruct (page_shape v Hvp) as [_ Hr].
  assert (Hm : memset v 0 PGSIZE (al_mem s) ≡ fill (al_mem s) v PGSIZE 0).
  { apply memset_fill; unfold PGSIZE; lia. }
  unfold s'. split_and!.
  - apply ptab_write; [done| |].
    + intros x. rewrite (Hm x). apply fill_wf. by eapply ptab_wf.
    + intros x Hx. rewrite (Hm x). apply fill_out. specialize (Hx v Hv). unfold in_page in Hx. lia.
  - intros x Hx. rewrite al_mem_set, (Hm x). apply fill_out.
    specialize (Hx v). unfold in_page in Hx. set_solver by lia.
  - intros x Hx. rewrite al_mem_set, (Hm x). by rewrite fill_in.
Qed.

(** A cleared page becomes a table. *)
Lemma ptab_link s l F d T ent v i :
  ptab s l (v :: F) d T ent -> (forall x, in_page v x -> al_mem s x = 0) ->
  T !! i = None -> 0 <= i < 1024 ->
  let s' := al_set_mem (store32 (al_mem s) (d + 4 * i) (Z.lor (V2P v) 7)) s in
  ptab s' l F d (<[i := v]> T) ent /\ changes [d] s s'.
Proof.
  intros Hp Hz Hi Hr s'.
  destruct (ptab_in _ _ _ _ _ _ Hp v) as [Hvp Hvl]; [set_solver|].
  destruct (ptab_in _ _ _ _ _ _ Hp d) as [Hdp Hdl]; [set_solver|].
  assert (Hch : forall x, ~ in_page d x ->
    store32 (al_mem s) (d + 4 * i) (Z.lor (V2P v) 7) x = al_mem s x).
  { intros x Hx. apply store32_other. unfold in_page, PGSIZE in Hx. lia. }
  assert (Hne : v <> d).
  { intros ->. pose proof (pt_nodup _ _ _ _ _ _ Hp) as Hn. apply NoDup_cons in Hn as [Hn _]. set_solver. }
  assert (Hload : forall w j, page_ok w -> w <> d -> 0 <= j < 1024 ->
    load32 (store32 (al_mem s) (d + 4 * i) (Z.lor (V2P v) 7)) (w + 4 * j) = load32 (al_mem s) (w + 4 * j)).
  { intros w j Hw Hwd Hj. apply load32_ext. intros x Hx. apply Hch.
    apply (page_apart w d x); try done. by apply (slot_in_page w j). }
  split; [|intros x Hx; unfold s'; rewrite al_mem_set; apply Hch, Hx; left].
  pose proof Hp as [Hf Hn Hpg Hdom Hdir Htab Hnone Hent].
  assert (HP : tabs (<[i:=v]> T) ++ F ≡ₚ tabs T ++ v :: F).
  { rewrite tabs_insert by done. simpl. apply Permutation_middle. }
  unfold s'. split; try done.
  - apply al_free_frame; [done|apply store32_wf; by eapply ptab_wf|]. intros w x Hw Hx. apply Hch.
    apply (page_apart w d x); try done; [by eapply ptab_free_pages|congruence].
  - rewrite !app_assoc, HP, <- app_assoc. done.
  - rewrite Forall_cons. split; [done|]. rewrite HP. by inversion Hpg.
  - intros k t [[<- <-]|[_ Ht]]%lookup_insert_Some; [done|by apply (Hdom k t)].
  - intros k Hk. rewrite al_mem_set. destruct (decide (k = i)) as [->|Hki].
    + rewrite lookup_insert_eq, load_store32_eq. apply u32_small. by apply pde_split.
    + rewrite lookup_insert_ne, load_store32_ne by lia. by apply Hdir.
  - intros k t j [[<- <-]|[Hki Ht]]%lookup_insert_Some Hj; rewrite al_mem_set.
    + rewrite Hload by done. rewrite Hnone by done. unfold load32. rewrite !load_bytes_S.
      rewrite !Hz by (unfold in_page, PGSIZE; lia). done.
    + destruct (ptab_tab _ _ _ _ _ _ Hp k t Ht) as (?&?&_). rewrite Hload by done. by apply Htab.
  - intros k j [Hk _]%lookup_insert_None. by apply Hnone.
Qed.

(** ** [walkpgdir] *)

Section walk.
Context (s : S) (l F : list Z) (d : Z) (T : gmap Z Z) (ent : Z -> Z) (q : Z).
Context (Hp : ptab s l F d T ent) (Hq : 0 <= q < NPAGES).

Lemma walk_hit t b : T !! (q / 1024) = Some t ->
  walkpgdir d (4096 * q) b s = Ret (t + 4 * (q mod 1024)) s.
Proof.
  intros Ht. destruct (dir_index q Hq) as [Hd Hm]. unfold walkpgdir, vload. mred.
  rewrite PDX_page, PTX_page by done. rewrite (pt_dir _ _ _ _ _ _ Hp) by done. rewrite Ht.
  destruct (pde_split t) as (Hpr&Ha&_); [by apply (ptab_tab _ _ _ _ _ _ Hp _ _ Ht)|].
  destruct (Z.eqb_spec (Z.land (Z.lor (V2P t) 7) PTE_P) 0); [done|]. simpl. by rewrite Ha.
Qed.

Lemma walk_null : T !! (q / 1024) = None -> walkpgdir d (4096 * q) false s = Ret 0 s.
Proof.
  intros Ht. destruct (dir_index q Hq) as [Hd Hm]. unfold walkpgdir, vload. mred.
  rewrite PDX_page by done. rewrite (pt_dir _ _ _ _ _ _ Hp) by done. by rewrite Ht.
Qed.

(** Following a null directory entry with [alloc] makes a table of a free
    page, or fails when there is none. *)
Lemma walk_alloc : T !! (q / 1024) = None ->
  match l with
  | [] => exists s', walkpgdir d (4096 * q) true s = Ret 0 s' /\ ptab s' [] F d T ent /\
            al_mem s' = al_mem s
  | v :: l' => exists s', walkpgdir d (4096 * q) true s = Ret (v + 4 * (q mod 1024)) s' /\
      ptab s' l' F d (<[q / 1024 := v]> T) ent /\ changes [d; v] s s'
  end.
Proof.
  intros Ht. destruct (dir_index q Hq) as [Hd Hm]. unfold walkpgdir, vload.
  assert (Hz : Z.land (load32 (al_mem s) (d + 4 * PDX (4096 * q))) PTE_P = 0).
  { rewrite PDX_page by done. rewrite (pt_dir _ _ _ _ _ _ Hp) by done. by rewrite Ht. }
  destruct l as [|v l'].
  - destruct (ptab_out _ _ _ _ _ Hp) as (s1&E&Hp1&Hm1). exists s1. split; [|done].
    mred. rewrite Hz. simpl. mcall E. done.
  - destruct (ptab_take _ _ _ _ _ _ _ Hp) as (s1&E&Hp1&Hm1&Hv).
    destruct (ptab_zero _ _ _ _ _ _ v Hp1) as (Hp2&Hc2&Hz2); [left|].
    destruct (ptab_link _ _ _ _ _ _ _ (q / 1024) Hp2 Hz2 Ht Hd) as [Hp3 Hc3].
    eexists. split; [|split; [exact Hp3|]].
    + mred. rewrite Hz. simpl. mcall E.
      destruct (Z.eqb_spec v 0); [by apply page_nz in Hv|].
      unfold vmem, vstore. mred. rewrite pde_value, PDX_page, PTX_page by done. done.
    + eapply changes_trans; [by apply changes_mem_eq|].
      eapply changes_trans; [eapply changes_incl, Hc2|eapply changes_incl, Hc3]; set_solver.
Qed.

(** The entry a walk that found a table points to. *)
Lemma walk_slot t : T !! (q / 1024) = Some t ->
  load32 (al_mem s) (t + 4 * (q mod 1024)) = ent q.
Proof.
  intros Ht. destruct (dir_index q Hq). rewrite (pt_tab _ _ _ _ _ _ Hp (q / 1024)) by done.
  by rewrite page_index.
Qed.

(** Tables grew out of the free list. *)
Definition extends (T : gmap Z Z) (l : list Z) (T' : gmap Z Z) (l' : list Z) : Prop :=
  T ⊆ T' /\ tabs T' ++ l' ≡ₚ tabs T ++ l.

Lemma walk_true :
  exists r s', walkpgdir d (4096 * q) true s = Ret r s' /\
    ((r = 0 /\ l = [] /\ ptab s' [] F d T ent /\ al_mem s' = al_mem s) \/
     exists t l' T', r = t + 4 * (q mod 1024) /\ r <> 0 /\ T' !! (q / 1024) = Some t /\
       ptab s' l' F d T' ent /\ extends T l T' l' /\ changes (d :: tabs T') s s').
Proof.
  destruct (dir_index q Hq) as [Hd Hm]. destruct (T !! (q / 1024)) as [t|] eqn:Ht.
  - eexists _, _. split; [by apply walk_hit|]. right. exists t, l, T. split_and!; try done.
    destruct (ptab_tab _ _ _ _ _ _ Hp _ _ Ht) as [Htp _]. apply page_shape in Htp. lia.
  - pose proof (walk_alloc Ht) as Hw. destruct l as [|v l'].
    + destruct Hw as (s'&E&?&?). exists 0, s'. split; [done|]. by left.
    + destruct Hw as (s'&E&Hp'&Hc). eexists _, s'. split; [done|]. right.
      exists v, l', (<[q / 1024 := v]> T). rewrite lookup_insert_eq. split_and!; try done.
      * destruct (ptab_tab _ _ _ _ _ _ Hp' (q / 1024) v) as [Hv _]; [apply lookup_insert_eq|].
        apply page_shape in Hv. lia.
      * split; [by apply insert_subseteq|].
        rewrite tabs_insert by done. simpl. apply Permutation_middle.
      * eapply changes_incl, Hc. rewrite tabs_insert by done. set_solver.
Qed.
End walk.

Lemma extends_trans T1 l1 T2 l2 T3 l3 :
  extends T1 l1 T2 l2 -> extends T2 l2 T3 l3 -> extends T1 l1 T3 l3.
Proof. intros [? H1] [? H2]. split; [by etrans|]. by rewrite H2. Qed.

Lemma extends_refl T l : extends T l T l.
Proof. done. Qed.

Lemma tabs_mono T T' : T ⊆ T' -> tabs T ⊆ tabs T'.
Proof.
  intros HT t Ht. apply tabs_elem_inv in Ht as [i Hi]. apply tabs_elem with i.
  by eapply lookup_weaken.
Qed.

(** ** [mappages] *)

(** The outcome of mapping [n] pages: all of them, or the first [k] when the
    free pages ran out. *)
Definition map_post (s : S) (l F : list Z) (d : Z) (T : gmap Z Z) (ent : Z -> Z) (p n pa perm : Z)
    (r : Z) (s' : S) : Prop :=
  exists l' T' k, ptab s' l' F d T' (map_range ent p k pa perm) /\ extends T l T' l' /\
    changes (d :: tabs T') s s' /\
    ((r = 0 /\ k = n) \/ (r = -1 /\ 0 <= k < n /\ l' = [])).

Definition remaps (ent : Z -> Z) (p n : Z) (e : stop) : Prop :=
  e = Panicked "remap" /\ exists q, p <= q < p + n /\ present (ent q).

Lemma map_range_step ent p k pa perm q :
  0 <= k -> map_range (fupd ent p (Z.lor (Z.lor pa perm) PTE_P)) (p + 1) k (pa + 4096) perm q =
  map_range ent p (k + 1) pa perm q.
Proof.
  intros Hk. unfold map_range, fupd.
  destruct (Z.leb_spec (p + 1) q), (Z.ltb_spec q (p + 1 + k)), (Z.leb_spec p q),
    (Z.ltb_spec q (p + (k + 1))), (Z.eqb_spec q p); cbn [andb]; try lia; try done.
  - do 2 f_equal. lia.
  - subst. do 2 f_equal. lia.
Qed.

Lemma map_range_0 ent p pa perm q : map_range ent p 0 pa perm q = ent q.
Proof. unfold map_range. destruct (Z.leb_spec p q), (Z.ltb_spec q (p + 0)); cbn [andb]; done || lia. Qed.

Lemma mappages_loop_ok n s l F d T ent p pa perm :
  ptab s l F d T ent -> 0 <= p -> p + Z.of_nat n < NPAGES ->
  pa mod 4096 = 0 -> 0 <= pa -> pa + 4096 * Z.of_nat n < 4294967296 -> 0 <= perm < 4096 ->
  let m := Z.of_nat n + 1 in
  safe (remaps ent p m) (mappages_loop (Datatypes.S n) d (4096 * p) (4096 * (p + Z.of_nat n)) pa perm) s
    (map_post s l F d T ent p m pa perm).
Proof.
  revert s l T ent p pa. induction n as [|n IH]; intros s l T ent p pa Hp Hp0 Hpn Ha Hpa Hpan Hperm m.
  all: assert (Hq : 0 <= p < NPAGES) by lia; destruct (dir_index p Hq) as [Hd Hm].
  all: change (mappages_loop (Datatypes.S ?n)) with (fun pgdir a last pa perm =>
      let! pte := walkpgdir pgdir a true in
      if pte =? 0 then ret (-1) else
        let! e := vload pte in
        if negb (Z.land e PTE_P =? 0) then panic "remap"
        else vstore pte (Z.lor (Z.lor pa perm) PTE_P) ;;
          if a =? last then ret 0
          else mappages_loop n pgdir (a +u PGSIZE) last (pa +u PGSIZE) perm); cbn beta.
  all: destruct (walk_true s l F d T ent p Hp Hq) as (r&s1&E&[(->&->&Hp1&Hm1)|(t&l1&T1&->&Hnz&Ht&Hp1&Hx1&Hc1)]).
  all: unfold safe; rewrite (bind_run _ _ _ _ _ E).
  1,3: cbn; eexists [], T, 0; split_and!; [by eapply ptab_ext; [exact Hp1|intros; apply map_range_0]|done|
    by apply changes_mem_eq|right; unfold m; split_and!; lia || done].
  all: destruct (Z.eqb_spec (t + 4 * (p mod 1024)) 0); [lia|].
  all: unfold vload; rewrite bind_gets, (walk_slot s1 l1 F d T1 ent p Hp1 Hq t Ht).
  all: destruct (Z.eqb_spec (Z.land (ent p) PTE_P) 0) as [Hn|Hpr]; cbn [negb];
    [|split; [done|]; exists p; split; [unfold m; lia|exact Hpr]].
  all: destruct (entry_split pa perm Ha) as (He1&He2&He3&He4); [unfold is_u32; lia|done|].
  all: destruct (ptab_set s1 l1 F d T1 ent Hp1 _ (p mod 1024) t _ Ht Hm He4) as [Hp2 Hc2].
  all: rewrite page_index in Hp2; unfold vstore; rewrite bind_modify.
  all: set (s2 := al_set_mem _ s1) in *.
  all: assert (Hcs : changes (d :: tabs T1) s s2) by
    (eapply changes_trans; [exact Hc1|eapply changes_incl, Hc2];
     apply tabs_elem in Ht; set_solver).
  - replace (p + Z.of_nat 0) with p by lia. rewrite Z.eqb_refl. cbn. exists l1, T1, 1.
    split_and!; try done; [|left; done].
    eapply ptab_ext; [exact Hp2|]. intros q. rewrite <- (map_range_step ent p 0) by lia. by rewrite map_range_0.
  - destruct (Z.eqb_spec (4096 * p) (4096 * (p + Z.of_nat (Datatypes.S n)))); [lia|].
    rewrite !u32_small by (unfold is_u32, PGSIZE, NPAGES in *; lia). unfold PGSIZE.
    replace (4096 * p + 4096) with (4096 * (p + 1)) by lia.
    replace (p + Z.of_nat (Datatypes.S n)) with (p + 1 + Z.of_nat n) by lia.
    specialize (IH s2 l1 T1 _ (p + 1) (pa + 4096) Hp2).
    assert (Hq1 : forall q, p + 1 <= q -> fupd ent p (Z.lor (Z.lor pa perm) PTE_P) q = ent q).
    { intros q Hq1. apply fupd_ne. lia. }
    unfold safe in IH. destruct (mappages_loop _ _ _ _ _ _ s2) as [r s3|e s3].
    + destruct IH as (l2&T2&k&Hp3&Hx3&Hc3&Hr); [lia|lia|Z.div_mod_to_equations; lia|lia|lia|done|].
      exists l2, T2, (k + 1).
      assert (0 <= k) by (destruct Hr as [[_ ->]|(_&?&_)]; lia).
      split_and!; [|by eapply extends_trans| |].
      * eapply ptab_ext; [exact Hp3|]. intros q. by rewrite map_range_step.
      * eapply changes_trans; [|exact Hc3]. eapply changes_incl, Hcs.
        pose proof (tabs_mono _ _ (proj1 Hx3)). set_solver.
      * unfold m. destruct Hr as [[-> ->]|(->&?&?)]; [left|right]; split_and!; lia || done.
    + destruct IH as [-> (q&Hqr&Hpr)]; [lia|lia|Z.div_mod_to_equations; lia|lia|lia|done|].
      split; [done|]. exists q. split; [unfold m; lia|]. rewrite Hq1 in Hpr by lia. done.
Qed.

Lemma mappages_ok s l F d T ent va size pa perm :
  ptab s l F d T ent -> 0 <= va -> 1 <= size -> va + size <= 4294967296 ->
  let p := va / 4096 in
  let n := (va + size - 1) / 4096 - p + 1 in
  pa mod 4096 = 0 -> 0 <= pa -> pa + 4096 * n <= 4294967296 -> 0 <= perm < 4096 ->
  safe (remaps ent p n) (mappages d va size pa perm) s (map_post s l F d T ent p n pa perm).
Proof.
  intros Hp Hva Hsz Hend p n Ha Hpa Hpn Hperm. unfold mappages. rewrite !PGROUNDDOWN_eq.
  rewrite (u32_small (va + size - 1)) by (unfold is_u32; lia).
  assert (Hn : 0 <= n - 1) by (unfold n, p; Z.div_mod_to_equations; lia).
  pose proof (mappages_loop_ok (Z.to_nat (n - 1)) s l F d T ent p pa perm Hp) as Hl.
  rewrite Z2Nat.id in Hl by done. replace (n - 1 + 1) with n in Hl by lia.
  assert (Ea : va - va mod 4096 = 4096 * p) by (unfold p; Z.div_mod_to_equations; lia).
  assert (El : va + size - 1 - (va + size - 1) mod 4096 = 4096 * (p + (n - 1)))
    by (unfold n, p; Z.div_mod_to_equations; lia).
  rewrite Ea, El.
  replace (u32 (4096 * (p + (n - 1)) - 4096 * p) / PGSIZE) with (n - 1).
  - apply Hl; try done; try lia; unfold n, p, NPAGES; Z.div_mod_to_equations; lia.
  - replace (4096 * (p + (n - 1)) - 4096 * p) with ((n - 1) * 4096) by lia.
    rewrite u32_small; [by rewrite Z.div_mul|]. unfold is_u32, n, p. Z.div_mod_to_equations. lia.
Qed.

(** A single page. *)
Lemma mappages_page s l F d T ent q pa perm :
  ptab s l F d T ent -> 0 <= q < NPAGES -> ~ present (ent q) ->
  pa mod 4096 = 0 -> 0 <= pa -> pa + 4096 <= 4294967296 -> 0 <= perm < 4096 ->
  exists r s' l' T', mappages d (4096 * q) PGSIZE pa perm s = Ret r s' /\
    extends T l T' l' /\ changes (d :: tabs T') s s' /\
    ((r = 0 /\ ptab s' l' F d T' (fupd ent q (Z.lor (Z.lor pa perm) PTE_P))) \/
     (r = -1 /\ ptab s' l' F d T' ent)).
Proof.
  intros Hp Hq Hn Ha Hpa Hpn Hperm. unfold NPAGES in Hq.
  pose proof (mappages_ok s l F d T ent (4096 * q) PGSIZE pa perm Hp) as Hm.
  assert (E1 : 4096 * q / 4096 = q) by (rewrite Z.mul_comm; apply Z.div_mul; lia).
  assert (E2 : (4096 * q + PGSIZE - 1) / 4096 - q + 1 = 1) by (unfold PGSIZE; Z.div_mod_to_equations; lia).
  cbv zeta in Hm. rewrite E1, E2 in Hm. unfold safe in Hm. unfold PGSIZE in *.
  destruct (mappages d (4096 * q) 4096 pa perm s) as [r s'|e s'].
  - destruct Hm as (l'&T'&k&Hp'&Hx&Hc&Hr); try lia; try done. exists r, s', l', T'. split_and!; try done.
    destruct Hr as [[-> ->]|(->&Hk&_)]; [left|right]; (split; [done|]); eapply ptab_ext; try exact Hp'; intros q'.
    + rewrite <- (map_range_step ent q 0) by lia. by rewrite map_range_0.
    + replace k with 0 by lia. by rewrite map_range_0.
  - exfalso. destruct Hm as [_ (q'&?&Hpr)]; try lia; try done. by replace q' with q in Hpr by lia.
Qed.
End map.
