(* ===== verification/VmUser.v ===== *)
(** * vm.c: user memory

    [user_ok U ent]: the user half of the entries maps page [q] to the frame
    [U !! q] and nothing else.  Growing, shrinking, freeing and copying
    address spaces move whole pages between [U], the tables and the free list,
    and lose none. *)
From stdpp Require Import base numbers list gmap strings.
From S2P Require Import Prelude Memory StringC Spinlock Mmu Kalloc Vm VmTable VmMap.
Open Scope Z_scope.

Record user_ok (U : gmap Z Z) (ent : Z -> Z) : Prop := UserOk {
  uo_dom : forall q v, U !! q = Some v -> 0 <= q < UPAGES;
  uo_ent : forall q, 0 <= q < UPAGES ->
    match U !! q with
    | Some v => present (ent q) /\ PTE_ADDR (ent q) = V2P v
    | None => ~ present (ent q)
    end
}.

(** The pages of [U] outside [lo, hi). *)
Definition without (U : gmap Z Z) (lo hi : Z) (U' : gmap Z Z) : Prop :=
  forall q, U' !! q = if decide (lo <= q < hi) then None else U !! q.

(** Entries outside [lo, hi) stay; the ones inside are not present. *)
Definition unmapped (ent : Z -> Z) (lo hi : Z) (ent' : Z -> Z) : Prop :=
  forall q, (lo <= q < hi -> ~ present (ent' q)) /\ (~ lo <= q < hi -> ent' q = ent q).

Lemma user_ok_unmapped U ent lo hi U' ent' :
  user_ok U ent -> without U lo hi U' -> unmapped ent lo hi ent' -> user_ok U' ent'.
Proof.
  intros [Hd He] HU Hu. split.
  - intros q v. rewrite HU. destruct (decide _); [done|apply Hd].
  - intros q Hq. rewrite HU. specialize (Hu q) as [Hu1 Hu2]. destruct (decide _); [auto|].
    rewrite Hu2 by done. by apply He.
Qed.

Lemma not_present_0 : ~ present 0.
Proof. by intros H. Qed.

Section user.
Context {S : Type} {page_ok : Z -> Prop} `{PA : PageAllocator S page_ok}.

(** ** [deallocuvm] *)

(** The frames [R] of [lo, hi) went from [U] to the free list. *)
Record released (l : list Z) (U : gmap Z Z) (lo hi : Z) (l' : list Z) (U' : gmap Z Z) (R : list Z) : Prop :=
  Released {
    re_without : without U lo hi U';
    re_free : l' ≡ₚ R ++ l;
    re_frames : tabs U ≡ₚ R ++ tabs U';
    re_from : forall v, v ∈ R -> exists q, lo <= q < hi /\ U !! q = Some v
  }.

(** What shrinking leaves: the pages of [lo, hi) are back on the free list. *)
Definition dealloc_post (s : S) (l F : list Z) (d : Z) (T U : gmap Z Z) (ent : Z -> Z) (lo hi : Z)
    (s' : S) : Prop :=
  exists l' U' ent' R, ptab s' l' (tabs U' ++ F) d T ent' /\ released l U lo hi l' U' R /\
    unmapped ent lo hi ent' /\ changes (tabs T ++ R) s s'.

Lemma released_none l U lo hi : without U lo hi U -> released l U lo hi l U [].
Proof. intros. split; try done. by intros ? ?%not_elem_of_nil. Qed.

(** One page: freed if mapped. *)
Lemma dealloc_page s l F d T U ent q t :
  ptab s l (tabs U ++ F) d T ent -> user_ok U ent -> 0 <= q < UPAGES -> T !! (q / 1024) = Some t ->
  exists s', when (negb (Z.land (ent q) PTE_P =? 0))
      (let pa := PTE_ADDR (ent q) in
       if pa =? 0 then panic "kfree"
       else al_kfree (P2V pa) ;; vstore (t + 4 * (q mod 1024)) 0) s = Ret tt s' /\
    dealloc_post s l F d T U ent q (q + 1) s'.
Proof.
  intros Hp Hu Hq Ht. assert (Hqn : 0 <= q < NPAGES) by (unfold UPAGES, NPAGES in *; lia).
  destruct (dir_index q Hqn) as [Hd Hm].
  pose proof (uo_ent _ _ Hu q Hq) as He. unfold when.
  destruct (U !! q) as [v|] eqn:Ev.
  - destruct He as [Hpr Ha]. destruct (Z.eqb_spec (Z.land (ent q) PTE_P) 0); [done|]. cbn [negb].
    assert (Hv : page_ok v).
    { apply (ptab_in _ _ _ _ _ _ Hp). apply tabs_elem in Ev. set_solver. }
    rewrite Ha. destruct (V2P_page v Hv) as [Ev2 _]. destruct (page_shape v Hv) as [_ Hvr].
    destruct (Z.eqb_spec (V2P v) 0); [lia|]. rewrite P2V_page by done.
    destruct (ptab_kfree _ _ _ _ _ _ Hp v (tabs (delete q U) ++ F)) as (s1&E&Hp1&Hc1).
    { by rewrite (tabs_delete U q v). }
    rewrite (bind_run _ _ _ _ _ E).
    destruct (ptab_set _ _ _ _ _ _ Hp1 (q / 1024) (q mod 1024) t 0 Ht Hm) as [Hp2 Hc2]; [unfold is_u32; lia|].
    eexists. split; [done|]. exists (v :: l), (delete q U), (fupd ent q 0), [v]. rewrite page_index in Hp2.
    split_and!; try done.
    + split; try done.
      * intros q'. destruct (decide _).
        -- replace q' with q by lia. apply lookup_delete_eq.
        -- apply lookup_delete_ne. lia.
      * by apply tabs_delete.
      * intros w ->%list_elem_of_singleton. exists q. split; [lia|done].
    + intros q'. split; intros Hq'.
      * replace q' with q by lia. rewrite fupd_eq. apply not_present_0.
      * apply fupd_ne. lia.
    + apply tabs_elem in Ht.
      eapply changes_trans; eapply changes_incl; [|exact Hc1| |exact Hc2]; set_solver.
  - destruct (Z.eqb_spec (Z.land (ent q) PTE_P) 0); [|done]. cbn [negb].
    eexists. split; [done|]. exists l, U, ent, []. split_and!; try done.
    + apply released_none. intros q'. destruct (decide _); [|done]. by replace q' with q by lia.
    + intros q'. split; [|done]. intros. by replace q' with q by lia.
Qed.

Lemma dealloc_post_trans s l F d T U ent lo mid hi s1 l1 U1 ent1 R1 s2 :
  lo <= mid <= hi -> released l U lo mid l1 U1 R1 -> unmapped ent lo mid ent1 ->
  changes (tabs T ++ R1) s s1 ->
  dealloc_post s1 l1 F d T U1 ent1 mid hi s2 -> dealloc_post s l F d T U ent lo hi s2.
Proof.
  intros Hr [HU1 Hl1 Hf1 Hq1] Hu1 Hc1 (l2&U2&ent2&R2&Hp2&[HU2 Hl2 Hf2 Hq2]&Hu2&Hc2).
  exists l2, U2, ent2, (R1 ++ R2). split_and!; try done.
  - split.
    + intros q. rewrite HU2, HU1. repeat destruct (decide _); done || lia.
    + rewrite Hl2, Hl1, !app_assoc. by rewrite (Permutation_app_comm R2).
    + by rewrite Hf1, Hf2, app_assoc.
    + intros v [Hv|Hv]%elem_of_app; [apply Hq1 in Hv as (q&?&?)|apply Hq2 in Hv as (q&?&Hv)]; exists q.
      * split; [lia|done].
      * rewrite HU1 in Hv. destruct (decide _); [done|]. split; [lia|done].
  - intros q. specialize (Hu1 q) as [Ha1 Hb1]. specialize (Hu2 q) as [Ha2 Hb2]. split; intros Hq.
    + destruct (decide (mid <= q < hi)); [auto|]. rewrite Hb2 by done. apply Ha1. lia.
    + rewrite Hb2, Hb1 by lia. done.
  - eapply changes_trans; eapply changes_incl; [|exact Hc1| |exact Hc2]; set_solver.
Qed.

(** Skipping the range of a missing table frees nothing. *)
Lemma dealloc_skip s l F d T U ent lo hi :
  ptab s l (tabs U ++ F) d T ent -> user_ok U ent -> 0 <= lo -> hi <= UPAGES ->
  (forall q, lo <= q < hi -> T !! (q / 1024) = None) ->
  without U lo hi U /\ unmapped ent lo hi ent.
Proof.
  intros Hp Hu Hlo Hhi HT. 
  assert (Hz : forall q, lo <= q < hi -> ent q = 0).
  { intros q Hq. destruct (dir_index q) as [? ?]; [unfold UPAGES, NPAGES in *; lia|].
    rewrite <- (page_index q). apply (pt_none _ _ _ _ _ _ Hp); auto. }
  split.
  - intros q. destruct (decide _) as [Hq|]; [|done]. pose proof (uo_ent _ _ Hu q) as He.
    rewrite (Hz q Hq) in He. destruct (U !! q); [|done].
    exfalso. apply not_present_0, He. lia.
  - intros q. split; [|done]. intros Hq. rewrite (Hz q Hq). apply not_present_0.
Qed.

Lemma next_table q : 0 <= q < UPAGES ->
  u32 (PGADDR (PDX (4096 * q) + 1) 0 0 -u PGSIZE + PGSIZE) = 4096 * (1024 * (q / 1024 + 1)).
Proof.
  unfold UPAGES. intros Hq. rewrite PDX_page by (unfold NPAGES; lia).
  assert (Hk : 1 <= q / 1024 + 1 <= 512) by (Z.div_mod_to_equations; lia).
  set (k := q / 1024 + 1) in *. unfold PGADDR, PGSIZE, PDXSHIFT, PTXSHIFT.
  rewrite Z.shiftl_0_l, !Z.lor_0_r, Z.shiftl_mul_pow2 by lia. change (2 ^ 22) with 4194304.
  rewrite (u32_small (k * 4194304)) by (unfold is_u32; lia).
  rewrite (u32_small (k * 4194304 - 4096)) by (unfold is_u32; lia).
  rewrite u32_small by (unfold is_u32; lia). lia.
Qed.

Lemma deallocuvm_loop_ok fuel s l F d T U ent p oldsz :
  ptab s l (tabs U ++ F) d T ent -> user_ok U ent -> 0 <= p -> 0 <= oldsz <= KERNBASE ->
  (Z.to_nat (oldsz / PGSIZE + 2 - p) <= fuel)%nat -> (0 < fuel)%nat ->
  exists s', deallocuvm_loop fuel d (4096 * p) oldsz s = Ret tt s' /\
    dealloc_post s l F d T U ent p (Z.max p ((oldsz + 4095) / 4096)) s'.
Proof.
  revert s l U ent p. induction fuel as [|fuel IH]; intros s l U ent p Hp Hu Hp0 Ho Hf Hf0; [lia|].
  cbn [deallocuvm_loop]. unfold PGSIZE, KERNBASE in Ho, Hf. destruct (Z.ltb_spec (4096 * p) oldsz).
  2: { eexists. split; [done|]. rewrite Z.max_l by (Z.div_mod_to_equations; lia).
       exists l, U, ent, []. split_and!; try done.
       - apply released_none. intros q. by destruct (decide _); [lia|].
       - intros q. split; [lia|done]. }
  set (hi := Z.max p ((oldsz + 4095) / 4096)).
  assert (Hhi : p < hi <= UPAGES) by (unfold hi, UPAGES; Z.div_mod_to_equations; lia).
  assert (Hq : 0 <= p < UPAGES) by lia.
  assert (Hqn : 0 <= p < NPAGES) by (unfold UPAGES, NPAGES in *; lia).
  destruct (T !! (p / 1024)) as [t|] eqn:Ht.
  - rewrite (bind_run _ _ _ _ _ (walk_hit s l _ d T ent p Hp Hqn t false Ht)).
    destruct (ptab_tab _ _ _ _ _ _ Hp _ _ Ht) as [Htp _]. destruct (page_shape t Htp) as [_ ?].
    destruct (dir_index p Hqn). destruct (Z.eqb_spec (t + 4 * (p mod 1024)) 0); [lia|].
    unfold vload. rewrite bind_gets, (walk_slot s l _ d T ent p Hp Hqn t Ht).
    destruct (dealloc_page s l F d T U ent p t Hp Hu Hq Ht) as (s1&E1&Hd1).
    rewrite (bind_run _ _ _ _ _ E1). rewrite u32_small by (unfold is_u32, PGSIZE; lia). unfold PGSIZE.
    replace (4096 * p + 4096) with (4096 * (p + 1)) by lia.
    destruct Hd1 as (l1&U1&ent1&R1&Hp1&HU1&Hu1&Hc1).
    destruct (IH s1 l1 U1 ent1 (p + 1)) as (s2&E2&Hd2); try done;
      [by eapply user_ok_unmapped; [|apply HU1|]|lia|unfold PGSIZE; lia|Z.div_mod_to_equations; lia|].
    exists s2. split; [done|]. replace (Z.max (p + 1) _) with hi in Hd2 by lia.
    eapply dealloc_post_trans; [|done..]. lia.
  - rewrite (bind_run _ _ _ _ _ (walk_null s l _ d T ent p Hp Hqn Ht)), Z.eqb_refl.
    cbv zeta. rewrite next_table by done. set (p' := 1024 * (p / 1024 + 1)).
    assert (Hp' : p < p' /\ forall q, p <= q < p' -> q / 1024 = p / 1024).
    { unfold p'. split; intros; Z.div_mod_to_equations; lia. }
    destruct Hp' as [Hpp Hin].
    destruct (Z.le_gt_cases hi p') as [Hge|Hlt].
    + exists s. split.
      * destruct fuel as [|fuel]; [Z.div_mod_to_equations; lia|]. cbn [deallocuvm_loop].
        destruct (Z.ltb_spec (4096 * p') oldsz); [|done]. exfalso. unfold hi in Hge. Z.div_mod_to_equations. lia.
      * destruct (dealloc_skip s l F d T U ent p hi Hp Hu) as [HU1 Hu1]; [lia|lia| |by exists l, U, ent, []; split_and!; try apply released_none].
        intros q Hqk. rewrite Hin by lia. done.
    + destruct (IH s l U ent p') as (s2&E2&Hd2); try done;
        [lia|unfold PGSIZE; Z.div_mod_to_equations; lia|Z.div_mod_to_equations; lia|].
      exists s2. split; [done|]. replace (Z.max p' _) with hi in Hd2 by lia.
      destruct (dealloc_skip s l F d T U ent p p' Hp Hu) as [HU1 Hu1]; [lia|lia| |].
      { intros q Hqk. rewrite Hin by lia. done. }
      eapply (dealloc_post_trans s l F d T U ent p p' hi s); [lia|by apply released_none|done|done|done].
Qed.

Lemma deallocuvm_ok s l F d T U ent oldsz newsz :
  ptab s l (tabs U ++ F) d T ent -> user_ok U ent -> 0 <= newsz < oldsz -> oldsz <= KERNBASE ->
  exists s', deallocuvm d oldsz newsz s = Ret newsz s' /\
    dealloc_post s l F d T U ent ((newsz + 4095) / 4096)
      (Z.max ((newsz + 4095) / 4096) ((oldsz + 4095) / 4096)) s'.
Proof.
  intros Hp Hu Hn Ho. unfold deallocuvm. destruct (Z.leb_spec oldsz newsz); [lia|].
  assert (E : PGROUNDUP newsz = 4096 * ((newsz + 4095) / 4096)).
  { rewrite PGROUNDUP_eq. unfold KERNBASE in Ho. rewrite u32_small by (unfold is_u32; lia).
    Z.div_mod_to_equations. lia. }
  destruct (deallocuvm_loop_ok (Z.to_nat (oldsz / PGSIZE + 2)) s l F d T U ent ((newsz + 4095) / 4096) oldsz)
    as (s'&E'&Hd); try done; unfold PGSIZE; try (Z.div_mod_to_equations; lia).
  exists s'. split; [|done]. rewrite E. by rewrite (bind_run _ _ _ _ _ E').
Qed.

(** ** [freevm] *)

(** The directory still names tables [R] that are to be freed. *)
Record dying (s : S) (l F : list Z) (d i : Z) (T R : gmap Z Z) : Prop := Dying {
  dy_free : al_free s l;
  dy_nodup : NoDup (d :: tabs R ++ F ++ l);
  dy_pages : Forall page_ok (d :: tabs R);
  dy_rest : forall k, R !! k = if decide (k < i) then None else T !! k;
  dy_dir : forall k, 0 <= k < 1024 ->
    load32 (al_mem s) (d + 4 * k) = match T !! k with Some t => Z.lor (V2P t) 7 | None => 0 end
}.

Lemma freevm_loop n s l F d i T R :
  dying s l F d i T R -> 0 <= i -> i + Z.of_nat n = 1024 ->
  exists s' l' R', mfor (seqZ i (Z.of_nat n)) (fun i =>
      let! e := vload (d + 4 * i) in
      when (negb (Z.land e PTE_P =? 0)) (al_kfree (P2V (PTE_ADDR e)))) s = Ret tt s' /\
    dying s' l' F d 1024 T R' /\ tabs R' ++ l' ≡ₚ tabs R ++ l /\ changes (tabs R) s s'.
Proof.
  revert s l i R. induction n as [|n IH]; intros s l i R Hd Hi Hn.
  { exists s, l, R. replace i with 1024 in * by lia. done. }
  rewrite seqZ_cons by lia. cbn [mfor]. replace (Z.pred (Z.of_nat (Datatypes.S n))) with (Z.of_nat n) by lia.
  unfold vload at 1. rewrite bind_assoc, bind_gets. rewrite (dy_dir _ _ _ _ _ _ _ Hd) by lia.
  pose proof (dy_rest _ _ _ _ _ _ _ Hd i) as Hr. destruct (decide (i < i)); [lia|].
  destruct (T !! i) as [t|] eqn:Ht.
  - pose proof (tabs_delete R i t Hr) as HP.
    assert (Htp : page_ok t).
    { pose proof (dy_pages _ _ _ _ _ _ _ Hd) as Hp. rewrite HP in Hp. by inversion Hp as [|?? _ Hp']; inversion Hp'. }
    destruct (pde_split t Htp) as (Hpr&Ha&_). unfold when.
    destruct (Z.eqb_spec (Z.land (Z.lor (V2P t) 7) PTE_P) 0); [done|]. cbn [negb]. rewrite Ha.
    pose proof (dy_nodup _ _ _ _ _ _ _ Hd) as Hnd. rewrite HP in Hnd.
    destruct (al_kfree_ok s t l (dy_free _ _ _ _ _ _ _ Hd) Htp) as (s1&E&Hf&Hm).
    { apply NoDup_cons in Hnd as [_ Hnd]. apply NoDup_cons in Hnd as [Hnd _]. set_solver. }
    rewrite (bind_run _ _ _ _ _ E).
    destruct (IH s1 (t :: l) (i + 1) (delete i R)) as (s2&l2&R2&E2&Hd2&HP2&Hc2); [|lia|lia|].
    + split; try done.
      * replace (d :: tabs (delete i R) ++ F ++ t :: l) with ((d :: tabs (delete i R) ++ F) ++ t :: l)
          by (simpl; by rewrite <- app_assoc).
        rewrite <- Permutation_middle. simpl. rewrite <- app_assoc.
        simpl in Hnd. by rewrite Permutation_swap.
      * pose proof (dy_pages _ _ _ _ _ _ _ Hd) as Hp. rewrite HP in Hp.
        inversion Hp as [|?? H1 Hp']; inversion Hp'. by constructor.
      * intros k. destruct (decide (k = i)) as [->|].
        -- rewrite lookup_delete_eq. by destruct (decide _); [|lia].
        -- rewrite lookup_delete_ne, (dy_rest _ _ _ _ _ _ _ Hd) by done. repeat destruct (decide _); done || lia.
      * intros k Hk. rewrite <- (dy_dir _ _ _ _ _ _ _ Hd) by done. apply load32_ext. intros x Hx. apply Hm.
        apply (page_apart d t x); [|done| |by apply (slot_in_page d k)].
        -- pose proof (dy_pages _ _ _ _ _ _ _ Hd) as Hp. by inversion Hp.
        -- apply NoDup_cons in Hnd as [Hnd _]. set_solver.
    + exists s2, l2, R2. split_and!; try done.
      * rewrite HP2, HP. simpl. symmetry. apply Permutation_middle.
      * apply tabs_elem in Hr. eapply changes_trans; [intros x Hx; apply Hm, Hx; done|].
        eapply changes_incl, Hc2. intros v Hv. rewrite HP. by right.
  - cbn. mred. destruct (IH s l (i + 1) R) as (s2&l2&R2&E2&Hd2&HP2&Hc2); [|lia|lia|].
    + destruct Hd as [? ? ? Hrest ?]. split; try done. intros k. rewrite Hrest.
      repeat destruct (decide _); try done; try lia. by replace k with i by lia.
    + by exists s2, l2, R2.
Qed.

Lemma tabs_empty T : (forall q, T !! q = None) -> tabs T = [].
Proof. intros H. by rewrite (proj2 (map_empty T) H). Qed.

Lemma freevm_ok s l F d T U ent :
  ptab s l (tabs U ++ F) d T ent -> user_ok U ent ->
  exists s' l', freevm d s = Ret tt s' /\ al_free s' l' /\ l' ≡ₚ d :: tabs T ++ tabs U ++ l /\
    changes (d :: tabs T ++ tabs U) s s'.
Proof.
  intros Hp Hu. destruct (ptab_in _ _ _ _ _ _ Hp d) as [Hdp Hdl]; [set_solver|].
  unfold freevm. destruct (Z.eqb_spec d 0); [by apply page_nz in Hdp|].
  destruct (deallocuvm_ok s l F d T U ent KERNBASE 0 Hp Hu) as (s1&E1&l1&U1&ent1&R1&Hp1&[HU1 Hl1 Hf1' _]&_&Hc1);
    [unfold KERNBASE; lia|done|].
  rewrite (bind_run _ _ _ _ _ E1).
  assert (HUe : tabs U1 = []).
  { apply tabs_empty. intros q. rewrite HU1. destruct (decide _) as [|Hq]; [done|].
    destruct (U !! q) as [v|] eqn:Ev; [|done]. exfalso. apply Hq, (uo_dom _ _ Hu q v Ev). }
  rewrite HUe, ?app_nil_r in *. cbn [app] in *.
  pose proof Hp1 as [Hf1 Hnd1 Hpg1 Hdom1 Hdir1 _ _ _].
  destruct (freevm_loop 1024 s1 l1 F d 0 T T) as (s2&l2&R2&E2&[Hf2 Hn2 Hpg2 Hrest2 _]&HP2&Hc2); [|done|done|].
  { split; try done.
    - rewrite app_comm_cons, Forall_app in Hpg1. apply Hpg1.
    - intros k. destruct (decide _); [|done]. destruct (T !! k) eqn:Ek; [|done]. apply Hdom1 in Ek. lia. }
  change (Z.of_nat 1024) with NPDENTRIES in E2. rewrite (bind_run _ _ _ _ _ E2). clear E1 E2.
  assert (HRe : tabs R2 = []).
  { apply tabs_empty. intros q. rewrite Hrest2. destruct (decide _); [done|].
    destruct (T !! q) eqn:Eq; [|done]. apply Hdom1 in Eq. lia. }
  rewrite HRe in *. cbn [app] in *.
  destruct (al_kfree_ok s2 d l2 Hf2 Hdp) as (s3&E3&Hf3&Hm3).
  { apply NoDup_cons in Hn2 as [Hn2 _]. set_solver. }
  exists s3, (d :: l2). split_and!; try done.
  - constructor. by rewrite HP2, Hl1, Hf1'.
  - eapply changes_trans; [eapply changes_incl, Hc1; rewrite Hf1'; set_solver|].
    eapply changes_trans; [eapply changes_incl, Hc2; set_solver|].
    intros x Hx. apply Hm3, Hx. left.
Qed.
End user.
