(* ===== verification/VmGrow.v ===== *)
(** * vm.c: growing, creating and copying address spaces *)
From stdpp Require Import base numbers list gmap strings.
From S2P Require Import Prelude Memory StringC Spinlock Mmu Kalloc Vm VmTable VmMap VmUser.
Open Scope Z_scope.

(** The first page at or above a size. *)
Definition pgup (n : Z) : Z := (n + 4095) / 4096.

(** The entry [allocuvm] makes for frame [v]. *)
Definition user_entry (v : Z) : Z := Z.lor (Z.lor (V2P v) (Z.lor PTE_W PTE_U)) PTE_P.

Lemma user_ok_fupd U ent q v e :
  user_ok U ent -> 0 <= q < UPAGES -> present e -> PTE_ADDR e = V2P v ->
  user_ok (<[q := v]> U) (fupd ent q e).
Proof.
  intros [Hd He] Hq Hp Ha. split.
  - intros q' w [[<- _]|[_ ?]]%lookup_insert_Some; [done|by eapply Hd].
  - intros q' Hq'. rewrite fupd_at. destruct (Z.eqb_spec q' q) as [->|Hne].
    + by rewrite lookup_insert_eq.
    + rewrite lookup_insert_ne by done. by apply He.
Qed.

Section grow.
Context {S : Type} {page_ok : Z -> Prop} `{PA : PageAllocator S page_ok}.

(** ** [allocuvm] *)

(** An address space that got zeroed frames at the pages [lo, p) and is
    otherwise what it was; [X] are pages on their way. *)
Record grown (s0 : S) (l0 F : list Z) (d : Z) (T0 U0 : gmap Z Z) (ent0 : Z -> Z) (lo p : Z) (X : list Z)
    (s : S) (l : list Z) (T U : gmap Z Z) (ent : Z -> Z) : Prop := Grown {
  gr_tab : ptab s l (tabs U ++ X ++ F) d T ent;
  gr_user : user_ok U ent;
  gr_pages : tabs T ++ tabs U ++ X ++ l ≡ₚ tabs T0 ++ tabs U0 ++ l0;
  gr_from : tabs T ++ X ++ l ⊆ tabs T0 ++ l0;
  gr_changes : changes (d :: tabs T0 ++ l0) s0 s;
  gr_out : forall q, ~ lo <= q < p -> U !! q = U0 !! q /\ ent q = ent0 q;
  gr_in : forall q, lo <= q < p -> exists v, U !! q = Some v /\ v ∈ tabs T0 ++ l0 /\ ent q = user_entry v /\
    forall x, in_page v x -> al_mem s x = 0
}.

(** An address space in which only tables were added. *)
Record kept (s0 : S) (l0 F : list Z) (d : Z) (T0 U0 : gmap Z Z) (ent0 : Z -> Z) (X : list Z)
    (s : S) (l : list Z) (T U : gmap Z Z) (ent : Z -> Z) : Prop := Kept {
  ke_tab : ptab s l (tabs U ++ X ++ F) d T ent;
  ke_user : user_ok U ent;
  ke_pages : tabs T ++ tabs U ++ X ++ l ≡ₚ tabs T0 ++ tabs U0 ++ l0;
  ke_changes : changes (d :: tabs T0 ++ l0) s0 s;
  ke_frames : forall q, U !! q = U0 !! q;
  ke_ents : forall q, present (ent q) \/ present (ent0 q) -> ent q = ent0 q
}.

Definition alloc_post (s0 : S) (l0 F : list Z) (d : Z) (T0 U0 : gmap Z Z) (ent0 : Z -> Z)
    (oldsz newsz : Z) (r : Z) (s : S) : Prop :=
  exists l T U ent,
    (r = newsz /\ grown s0 l0 F d T0 U0 ent0 (pgup oldsz) (Z.max (pgup oldsz) (pgup newsz)) [] s l T U ent) \/
    (r = 0 /\ kept s0 l0 F d T0 U0 ent0 [] s l T U ent).

Lemma user_entry_ok v : page_ok v ->
  present (user_entry v) /\ PTE_ADDR (user_entry v) = V2P v.
Proof.
  intros Hv. destruct (V2P_page v Hv) as [E Ha]. destruct (page_shape v Hv) as [_ ?].
  destruct (entry_split (V2P v) (Z.lor PTE_W PTE_U) Ha) as (?&?&_); [unfold is_u32; lia|done|done].
Qed.

Section alloc.
Context (s0 : S) (l0 F : list Z) (d : Z) (T0 U0 : gmap Z Z) (ent0 : Z -> Z) (oldsz newsz : Z).
Context (Hu0 : user_ok U0 ent0) (Hsz : 0 <= oldsz <= newsz) (Hk : newsz < KERNBASE).
Let lo := pgup oldsz.
Let hi := Z.max lo (pgup newsz).
Context (Hnone : forall q, lo <= q < hi -> U0 !! q = None).
Abbreviation grown0 := (grown s0 l0 F d T0 U0 ent0 lo).
Abbreviation kept0 := (kept s0 l0 F d T0 U0 ent0).

Lemma alloc_range : 0 <= lo <= hi /\ hi <= UPAGES.
Proof. unfold lo, hi, pgup, UPAGES, KERNBASE in *. Z.div_mod_to_equations. lia. Qed.

(** Giving up: the frames that were added are freed again. *)
Lemma alloc_rollback p X s l T U ent :
  grown0 p X s l T U ent -> p <= hi -> oldsz < newsz ->
  exists s' l' U' ent', deallocuvm d newsz oldsz s = Ret oldsz s' /\ kept0 X s' l' T U' ent'.
Proof.
  intros [Hp Hu HP Hfr Hc Ho Hi] Hph Hlt. pose proof alloc_range.
  destruct (deallocuvm_ok s l (X ++ F) d T U ent newsz oldsz Hp Hu)
    as (s'&E&l'&U'&ent'&R&Hp'&[HU' Hl' Hf' Hq']&Hun&Hc'); [lia|lia|].
  fold (pgup oldsz) (pgup newsz) in HU', Hq', Hun. fold lo in HU', Hq', Hun. fold hi in HU', Hq', Hun.
  exists s', l', U', ent'. split; [done|].
  assert (HUq : forall q, U' !! q = U0 !! q).
  { intros q. rewrite HU'. destruct (decide _); [by rewrite Hnone|]. apply Ho. lia. }
  split; try done.
  - by eapply user_ok_unmapped.
  - rewrite <- HP, Hl', Hf'. rewrite (Permutation_app_comm R (tabs U')), <- !app_assoc.
    rewrite (app_assoc X R l), (Permutation_app_comm X R), <- app_assoc. done.
  - eapply changes_trans; [exact Hc|]. eapply changes_incl, Hc'.
    intros v [Hv|(q&Hq&HUv)%Hq']%elem_of_app; [set_solver|].
    destruct (decide (lo <= q < p)) as [Hin|Hout].
    + destruct (Hi q Hin) as (w&Hw&Hwl&_). right. congruence.
    + exfalso. rewrite (proj1 (Ho q Hout)), Hnone in HUv by lia. done.
  - intros q Hpr. specialize (Hun q) as [Hun1 Hun2].
    destruct (decide (lo <= q < hi)) as [Hin|Hout].
    + destruct Hpr as [Hpr|Hpr]; [by apply Hun1 in Hin|]. exfalso.
      pose proof (uo_ent _ _ Hu0 q) as He. rewrite (Hnone q Hin) in He. apply He; [lia|done].
    + rewrite Hun2 by done. apply Ho. lia.
Qed.

(** A page taken from the free list, cleared. *)
Lemma alloc_take p s l T U ent v :
  grown0 p [] s (v :: l) T U ent ->
  exists s1, al_kalloc s = Ret v s1 /\ page_ok v /\
    let s2 := al_set_mem (memset v 0 PGSIZE (al_mem s1)) s1 in
    grown0 p [v] s2 l T U ent /\ forall x, in_page v x -> al_mem s2 x = 0.
Proof.
  intros [Hp Hu HP Hfr Hc Ho Hi]. destruct (ptab_take _ _ _ _ _ _ _ Hp) as (s1&E&Hp1&Hm1&Hv).
  exists s1. split; [done|]. split; [done|]. intros s2.
  destruct (ptab_zero _ _ _ _ _ _ v Hp1) as (Hp2&Hc2&Hz2); [left|]. split; [|done].
  assert (Hcs : changes [v] s s2).
  { eapply changes_trans; [by apply changes_mem_eq|]. exact Hc2. }
  split; try done.
  - apply (ptab_perm _ _ _ _ _ _ Hp2). simpl. symmetry. apply Permutation_middle.
  - eapply changes_trans; [exact Hc|]. eapply changes_incl, Hcs. set_solver.
  - intros q Hq. destruct (Hi q Hq) as (w&Hw&?&?&Hz). exists w. split_and!; try done.
    intros x Hx. rewrite Hcs; [by apply Hz|]. intros v' ->%list_elem_of_singleton.
    apply (page_apart w v x); try done.
    + apply (ptab_in _ _ _ _ _ _ Hp). apply tabs_elem in Hw. set_solver.
    + intros ->. apply (ptab_in _ _ _ _ _ _ Hp v); [apply tabs_elem in Hw; set_solver|left].
Qed.

(** Pages of the tables are not frames. *)
Lemma grown_apart p X s l T U ent q v x w :
  grown0 p X s l T U ent -> U !! q = Some v -> w ∈ d :: tabs T -> in_page v x -> ~ in_page w x.
Proof.
  intros Hg Hv Hw Hx Hwx. pose proof (gr_tab _ _ _ _ _ _ _ _ _ _ _ _ _ _ _ Hg) as Hp.
  eapply (ptab_apart _ _ _ _ _ _ Hp w v x); try done. apply tabs_elem in Hv. set_solver.
Qed.

(** The cleared page mapped at [p], or the tables ran out of pages. *)
Lemma alloc_map p s l T U ent v :
  grown0 p [v] s l T U ent -> (forall x, in_page v x -> al_mem s x = 0) -> lo <= p < hi ->
  exists r s' l' T', mappages d (4096 * p) PGSIZE (V2P v) (Z.lor PTE_W PTE_U) s = Ret r s' /\
    ((r = 0 /\ exists U' ent', grown0 (p + 1) [] s' l' T' U' ent') \/
     (r = -1 /\ grown0 p [v] s' l' T' U ent)).
Proof.
  intros Hg Hz Hr. pose proof Hg as [Hp Hu HP Hfr Hc Ho Hi]. pose proof alloc_range as [? ?].
  assert (Hv : page_ok v) by (apply (ptab_in _ _ _ _ _ _ Hp); set_solver).
  destruct (V2P_page v Hv) as [Ev Ea]. destruct (page_shape v Hv) as [_ Hvr].
  assert (HUp : U !! p = None) by (rewrite (proj1 (Ho p ltac:(lia))); by apply Hnone).
  assert (Hnp : ~ present (ent p)).
  { pose proof (uo_ent _ _ Hu p) as He. rewrite HUp in He. apply He. lia. }
  destruct (mappages_page s l _ d T ent p (V2P v) (Z.lor PTE_W PTE_U) Hp) as (r&s'&l'&T'&E&[Hx1 Hx2]&Hc'&Hr'); try done;
    try (unfold UPAGES, NPAGES in *; lia).
  exists r, s', l', T'. split; [done|].
  assert (Hchg : changes (d :: tabs T0 ++ l0) s0 s').
  { eapply changes_trans; [exact Hc|]. eapply changes_incl, Hc'.
    assert (tabs T' ⊆ tabs T ++ l); [rewrite <- Hx2; set_solver|set_solver]. }
  assert (Hkeep : forall q w x, U !! q = Some w \/ w = v -> (r = 0 \/ r = -1) -> in_page w x ->
    al_mem s' x = al_mem s x).
  { intros q w x Hw Hr0 Hx. apply Hc'. intros t Ht Htx.
    assert (HpT : exists ent', ptab s' l' (tabs U ++ [v] ++ F) d T' ent') by (destruct Hr' as [[_ ?]|[_ ?]]; eauto).
    destruct HpT as [ent' HpT]. eapply (ptab_apart _ _ _ _ _ _ HpT t w x); try done.
    destruct Hw as [Hw%tabs_elem| ->]; set_solver. }
  assert (HPx : tabs T' ++ tabs U ++ [v] ++ l' ≡ₚ tabs T0 ++ tabs U0 ++ l0).
  { rewrite <- HP. rewrite (Permutation_app_comm (tabs U)), (Permutation_app_comm (tabs U) ([v] ++ l)).
    rewrite !app_assoc, (Permutation_app_comm (tabs T')), (Permutation_app_comm (tabs T) [v]), <- !app_assoc.
    rewrite !(app_assoc (tabs T')), !(app_assoc (tabs T)), Hx2. done. }
  assert (HFx : tabs T' ++ [v] ++ l' ⊆ tabs T0 ++ l0).
  { rewrite !app_assoc, (Permutation_app_comm (tabs T')), <- app_assoc, Hx2. set_solver. }
  assert (Hin' : forall q, lo <= q < p -> (r = 0 \/ r = -1) -> exists w, U !! q = Some w /\ w ∈ tabs T0 ++ l0 /\
    ent q = user_entry w /\ forall x, in_page w x -> al_mem s' x = 0).
  { intros q Hq Hr0. destruct (Hi q Hq) as (w&Hw&?&?&Hzw). exists w. split_and!; try done.
    intros x Hx. rewrite (Hkeep q w x); auto. }
  destruct Hr' as [[-> Hp']|[-> Hp']]; [left|right]; (split; [done|]).
  - exists (<[p := v]> U), (fupd ent p (user_entry v)).
    assert (HUt : tabs (<[p := v]> U) ≡ₚ v :: tabs U) by by apply tabs_insert.
    destruct (user_entry_ok v Hv). split; try done.
    + apply (ptab_perm _ _ _ _ _ _ Hp'). rewrite HUt. simpl. apply Permutation_middle.
    + apply user_ok_fupd; try done. lia.
    + rewrite HUt. cbn [app]. rewrite <- HPx. cbn [app]. by rewrite (Permutation_middle (tabs U)).
    + set_solver.
    + intros q Hq. rewrite lookup_insert_ne, fupd_ne by lia. apply Ho. lia.
    + intros q Hq. rewrite fupd_at. destruct (Z.eqb_spec q p) as [->|Hne].
      * exists v. rewrite lookup_insert_eq. split_and!; try done; [set_solver|].
        intros x Hx. rewrite (Hkeep p v x); auto.
      * rewrite lookup_insert_ne by done. apply Hin'; [lia|by left].
  - split; try done. auto.
Qed.

(** Freeing the page that could not be mapped. *)
Lemma kept_kfree v s l T U ent :
  kept0 [v] s l T U ent -> v ∈ tabs T0 ++ l0 -> exists s', al_kfree v s = Ret tt s' /\ kept0 [] s' (v :: l) T U ent.
Proof.
  intros [Hp Hu HP Hc Hf He] Hv. destruct (ptab_kfree _ _ _ _ _ _ Hp v (tabs U ++ F)) as (s'&E&Hp'&Hc').
  { cbn [app]. symmetry. apply Permutation_middle. }
  exists s'. split; [done|]. split; try done.
  eapply changes_trans; [exact Hc|]. eapply changes_incl, Hc'. set_solver.
Qed.

Lemma pgup_round n : 0 <= n < KERNBASE -> PGROUNDUP n = 4096 * pgup n.
Proof.
  unfold KERNBASE. intros. rewrite PGROUNDUP_eq. rewrite u32_small by (unfold is_u32; lia).
  unfold pgup. Z.div_mod_to_equations. lia.
Qed.

Lemma allocuvm_loop_ok fuel p s l T U ent :
  grown0 p [] s l T U ent -> lo <= p <= hi -> (Z.to_nat (hi - p) < fuel)%nat ->
  exists r s', allocuvm_loop fuel d oldsz newsz (4096 * p) s = Ret r s' /\
    alloc_post s0 l0 F d T0 U0 ent0 oldsz newsz r s'.
Proof.
  revert p s l T U ent. induction fuel as [|fuel IH]; intros p s l T U ent Hg Hp Hf; [lia|].
  pose proof alloc_range. cbn [allocuvm_loop]. destruct (Z.ltb_spec (4096 * p) newsz) as [Hlt|Hge].
  2: { exists newsz, s. split; [done|]. exists l, T, U, ent. left. split; [done|].
       fold lo. fold hi. replace hi with p; [done|].
       unfold hi, lo, pgup in *. Z.div_mod_to_equations. lia. }
  assert (Hph : p < hi) by (unfold hi, pgup; Z.div_mod_to_equations; lia).
  assert (Hlt' : oldsz < newsz) by (unfold lo, pgup in *; Z.div_mod_to_equations; lia).
  destruct l as [|v l].
  - destruct (ptab_out _ _ _ _ _ (gr_tab _ _ _ _ _ _ _ _ _ _ _ _ _ _ _ Hg)) as (s1&E1&Hp1&Hm1).
    rewrite (bind_run _ _ _ _ _ E1), Z.eqb_refl.
    destruct (alloc_rollback p [] s1 [] T U ent) as (s2&l2&U2&ent2&E2&Hk2); [|lia|done|].
    { destruct Hg as [? ? ? ? Hc ? Hi]. split; try done.
      - eapply changes_trans; [exact Hc|by apply changes_mem_eq].
      - intros q Hq. by rewrite Hm1; apply Hi. }
    rewrite (bind_run _ _ _ _ _ E2). exists 0, s2. split; [done|]. exists l2, T, U2, ent2. by right.
  - destruct (alloc_take p s l T U ent v Hg) as (s1&E1&Hv&Hg2&Hz2).
    rewrite (bind_run _ _ _ _ _ E1). destruct (Z.eqb_spec v 0); [by apply page_nz in Hv|].
    unfold vmem. rewrite bind_modify. set (s2 := al_set_mem _ s1) in *.
    destruct (alloc_map p s2 l T U ent v Hg2 Hz2) as (r&s3&l3&T3&E3&Hr); [lia|].
    rewrite (bind_run _ _ _ _ _ E3). destruct Hr as [[-> (U'&ent'&Hg3)]|[-> Hg3]].
    + destruct (Z.ltb_spec 0 0); [lia|]. unfold PGSIZE.
      rewrite u32_small by (unfold is_u32, UPAGES in *; lia).
      replace (4096 * p + 4096) with (4096 * (p + 1)) by lia.
      eapply IH; [exact Hg3|lia|lia].
    + destruct (Z.ltb_spec (-1) 0); [|lia].
      destruct (alloc_rollback p [v] s3 l3 T3 U ent Hg3) as (s4&l4&U4&ent4&E4&Hk4); [lia|done|].
      rewrite (bind_run _ _ _ _ _ E4).
      destruct (kept_kfree v s4 l4 T3 U4 ent4 Hk4) as (s5&E5&Hk5).
      { apply (gr_from _ _ _ _ _ _ _ _ _ _ _ _ _ _ _ Hg3). set_solver. }
      rewrite (bind_run _ _ _ _ _ E5). exists 0, s5. split; [done|]. exists (v :: l4), T3, U4, ent4. by right.
Qed.

Lemma allocuvm_ok : ptab s0 l0 (tabs U0 ++ F) d T0 ent0 ->
  exists r s', allocuvm d oldsz newsz s0 = Ret r s' /\ alloc_post s0 l0 F d T0 U0 ent0 oldsz newsz r s'.
Proof.
  intros Hp. unfold allocuvm. destruct (Z.leb_spec KERNBASE newsz); [lia|].
  destruct (Z.ltb_spec newsz oldsz); [lia|]. rewrite pgup_round by lia. fold lo.
  pose proof alloc_range as [? ?]. eapply allocuvm_loop_ok.
  - split; try done. intros. lia.
  - lia.
  - unfold hi, lo, pgup, PGSIZE. Z.div_mod_to_equations. lia.
Qed.
End alloc.
End grow.
