(* ===== verification/VmKernel.v ===== *)
(** * vm.c: the kernel half of an address space

    [setupkvm] builds a directory whose entries are exactly the ranges of
    [kmaps], or gives every page back. *)
From stdpp Require Import base numbers list gmap strings.
From S2P Require Import Prelude Memory StringC Spinlock Mmu Kalloc Vm VmTable VmMap VmUser VmGrow.
Open Scope Z_scope.

(** The pages of a range, and the entry of one of them. *)
Definition k_page (k : kmap) : Z := k_virt k / 4096.
Definition k_len (k : kmap) : Z := u32 (k_phys_end k - k_phys_start k) / 4096.
Definition k_has (k : kmap) (q : Z) : Prop := k_page k <= q < k_page k + k_len k.
Definition k_entry (k : kmap) (q : Z) : Z :=
  Z.lor (Z.lor (k_phys_start k + 4096 * (q - k_page k)) (k_perm k)) PTE_P.

#[export] Instance k_has_dec k q : Decision (k_has k q).
Proof. unfold k_has. apply _. Defined.

Record kmap_ok (k : kmap) : Prop := KmapOk {
  km_virt : k_virt k mod 4096 = 0 /\ KERNBASE <= k_virt k;
  km_size : 0 < k_len k /\ u32 (k_phys_end k - k_phys_start k) mod 4096 = 0;
  km_fits : k_virt k + 4096 * k_len k <= 4294967296;
  km_phys : k_phys_start k mod 4096 = 0 /\ 0 <= k_phys_start k /\
    k_phys_start k + 4096 * k_len k <= 4294967296;
  km_perm : 0 <= k_perm k < 4096
}.

(** The entries are those of the ranges [ks] and no others. *)
Definition realizes (ks : list kmap) (ent : Z -> Z) : Prop :=
  (forall k q, k ∈ ks -> k_has k q -> ent q = k_entry k q) /\
  (forall q, (forall k, k ∈ ks -> ~ k_has k q) -> ent q = 0).

(** No two ranges of a list share a page. *)
Fixpoint apart (ks : list kmap) : Prop :=
  match ks with
  | [] => True
  | k :: ks' => (forall k' q, k' ∈ ks' -> k_has k q -> ~ k_has k' q) /\ apart ks'
  end.

Lemma map_range_len ent p n pa perm q :
  (p <= q < p + n -> map_range ent p n pa perm q = Z.lor (Z.lor (pa + 4096 * (q - p)) perm) PTE_P) /\
  (~ p <= q < p + n -> map_range ent p n pa perm q = ent q).
Proof.
  unfold map_range. destruct (Z.leb_spec p q), (Z.ltb_spec q (p + n)); cbn [andb]; split; done || lia.
Qed.

Section kernel.
Context {S : Type} {page_ok : Z -> Prop} `{PA : PageAllocator S page_ok}.

(** A cleared page is a directory without tables. *)
Lemma ptab_new s l F d :
  al_free s l -> NoDup (d :: F ++ l) -> Forall page_ok (d :: F) ->
  (forall x, in_page d x -> al_mem s x = 0) -> ptab s l F d ∅ (fun _ => 0).
Proof.
  intros Hf Hn Hp Hz. split; try done.
  intros i Hi. rewrite lookup_empty. unfold load32. rewrite !load_bytes_S.
  rewrite !Hz by (unfold in_page, PGSIZE; lia). done.
Qed.

(** Kernel ranges leave the user half unmapped. *)
Lemma kernel_user_ok ks ent : Forall kmap_ok ks -> realizes ks ent -> user_ok ∅ ent.
Proof.
  intros Hks [_ Hz]. split; [by intros q v ?%lookup_empty_Some|].
  intros q Hq. rewrite lookup_empty, Hz; [apply not_present_0|].
  intros k Hk [Hlo _]. pose proof (proj1 (Forall_forall _ _) Hks k Hk) as [[_ Hv] _ _ _ _].
  unfold k_page, UPAGES, KERNBASE in *. Z.div_mod_to_equations. lia.
Qed.

(** What [setupkvm] leaves from free pages [l0]: a new directory, or
    everything given back. *)
Definition setup_post (s0 : S) (l0 F : list Z) (ks : list kmap) (r : Z) (s : S) : Prop :=
  changes l0 s0 s /\
  ((r = 0 /\ exists l, al_free s l /\ l ≡ₚ l0) \/
   (exists l T ent, ptab s l F r T ent /\ realizes ks ent /\ r :: tabs T ++ l ≡ₚ l0)).

Lemma setupkvm_loop_ok done ks s0 l0 s l F d T ent :
  ptab s l F d T ent -> changes l0 s0 s -> d :: tabs T ++ l ≡ₚ l0 ->
  Forall kmap_ok (done ++ ks) -> apart ks -> realizes done ent ->
  (forall k k' q, k ∈ done -> k' ∈ ks -> k_has k q -> ~ k_has k' q) ->
  exists r s', setupkvm_loop d ks s = Ret r s' /\ setup_post s0 l0 F (done ++ ks) r s'.
Proof.
  revert done s l T ent. induction ks as [|k ks IH]; intros dn s l T ent Hp Hc HP Hok Hap Hre Hd.
  { exists d, s. split; [done|]. split; [done|]. right. exists l, T, ent. by rewrite app_nil_r. }
  cbn [setupkvm_loop]. destruct Hap as [Hk Hap].
  assert (Hkok : kmap_ok k) by (apply (proj1 (Forall_forall _ _) Hok); set_solver).
  pose proof Hkok as [[Hv1 Hv2] [Hs1 Hs2] Hfit (Hp1&Hp2&Hp3) Hperm].
  unfold KERNBASE in Hv2.
  pose proof (mappages_ok s l F d T ent (k_virt k) (k_phys_end k -u k_phys_start k) (k_phys_start k) (k_perm k) Hp) as Hm.
  set (n := k_phys_end k -u k_phys_start k) in *. cbv zeta in Hm. fold (k_page k) in Hm.
  assert (Hnl : n = 4096 * k_len k) by (unfold k_len; fold n; Z.div_mod_to_equations; lia).
  replace ((k_virt k + n - 1) / 4096 - k_page k + 1) with (k_len k) in Hm
    by (unfold k_page; Z.div_mod_to_equations; lia).
  specialize (Hm ltac:(lia) ltac:(lia) ltac:(lia) Hp1 Hp2 Hp3 Hperm).
  assert (Hnp : forall q, k_has k q -> ~ present (ent q)).
  { intros q Hq. rewrite (proj2 Hre); [apply not_present_0|]. intros k' Hk' Hq'. by apply (Hd k' k q); [|left|..]. }
  unfold safe in Hm. destruct (mappages d (k_virt k) n (k_phys_start k) (k_perm k) s) as [r s1|e s1] eqn:E.
  2: { exfalso. destruct Hm as [_ (q&Hq&Hpr)]. by apply (Hnp q). }
  destruct Hm as (l1&T1&j&Hpt1&[HT1 HP1]&Hc1&Hr).
  assert (HP' : d :: tabs T1 ++ l1 ≡ₚ l0) by by rewrite HP1.
  assert (Hc' : changes l0 s0 s1).
  { eapply changes_trans; [exact Hc|]. eapply changes_incl, Hc1. rewrite <- HP'. set_solver. }
  rewrite (bind_run _ _ _ _ _ E). destruct Hr as [[-> ->]|(->&Hj&->)].
  - destruct (Z.ltb_spec 0 0); [lia|].
    assert (Hre' : realizes (dn ++ [k]) (map_range ent (k_page k) (k_len k) (k_phys_start k) (k_perm k))).
    { split.
      - intros k' q [Hk'| ->%list_elem_of_singleton]%elem_of_app Hq.
        + rewrite (proj2 (map_range_len _ _ _ _ _ q)); [by apply Hre|]. by apply (Hd k' k q); [|left|].
        + by apply map_range_len.
      - intros q Hq. rewrite (proj2 (map_range_len _ _ _ _ _ q)); [|by apply Hq; set_solver].
        apply Hre. intros k' Hk'. apply Hq. set_solver. }
    destruct (IH (dn ++ [k]) s1 l1 T1 _ Hpt1 Hc' HP') as (r&s2&E2&Hpost); try done.
    + by rewrite <- app_assoc.
    + intros k1 k2 q [Hk1| ->%list_elem_of_singleton]%elem_of_app Hk2 Hq.
      * apply (Hd k1 k2 q Hk1); [by right|done].
      * by apply (Hk k2 q).
    + exists r, s2. split; [done|]. by rewrite <- app_assoc in Hpost.
  - destruct (Z.ltb_spec (-1) 0); [|lia].
    assert (Hu : user_ok ∅ (map_range ent (k_page k) j (k_phys_start k) (k_perm k))).
    { assert (user_ok ∅ ent) as [_ He].
      { apply (kernel_user_ok dn); [|done]. by apply Forall_app in Hok as [? _]. }
      split; [by intros q v ?%lookup_empty_Some|]. intros q Hq. specialize (He q Hq). rewrite lookup_empty in *.
      rewrite (proj2 (map_range_len _ _ _ _ _ q)); [done|]. unfold k_page, UPAGES in *. Z.div_mod_to_equations. lia. }
    assert (Ht0 : tabs (∅ : gmap Z Z) = []) by (apply tabs_empty; intros; apply lookup_empty).
    edestruct (freevm_ok s1 [] F d T1 ∅) with (2 := Hu) as (s2&l2&E2&Hf2&HP2&Hc2); [by rewrite Ht0|]. rewrite Ht0 in HP2, Hc2.
    rewrite (bind_run _ _ _ _ _ E2). exists 0, s2. split; [done|]. split.
    + eapply changes_trans; [exact Hc'|]. eapply changes_incl, Hc2. rewrite <- HP'. set_solver.
    + left. split; [done|]. exists l2. split; [done|]. rewrite HP2, <- HP'. done.
Qed.

Section setup.
Context (data : Z) (g : gpu).

(** The layout the linker script and the boot loader establish. *)
Record layout_ok : Prop := LayoutOk {
  ly_data : data mod 4096 = 0 /\ KERNLINK < data < P2V PHYSTOP;
  ly_vram : vram_size g mod 4096 = 0 /\ 0 < vram_size g /\ PCI_BAR_BASE + PCI_VP_OFFSET + 0x10000000 <= DEVSPACE - vram_size g;
  ly_pvram : pvram_addr g mod 4096 = 0 /\ 0 <= pvram_addr g /\ pvram_addr g + vram_size g < 4294967296
}.

Lemma layout_sizes : layout_ok ->
  data mod 4096 = 0 /\ 2148532224 < data < 2684354560 /\ vram_size g mod 4096 = 0 /\
  0 < vram_size g <= 736 * 1048576 /\ pvram_addr g mod 4096 = 0 /\ 0 <= pvram_addr g /\
  pvram_addr g + vram_size g < 4294967296.
Proof.
  intros [[Hd1 Hd2] (Hv1&Hv2&Hv3) (Hp1&Hp2&Hp3)].
  change KERNLINK with 2148532224 in *. change (P2V PHYSTOP) with 2684354560 in *.
  unfold PCI_BAR_BASE, PCI_VP_OFFSET, DEVSPACE in Hv3. lia.
Qed.

(** First page and number of pages of the ranges. *)
Lemma kmaps_shape : layout_ok ->
  map (fun k => (k_page k, k_len k)) (kmaps data g) =
  [ (524288, 256); (524544, data / 4096 - 524544); (data / 4096, 655360 - data / 4096);
    (1040384 - vram_size g / 4096, vram_size g / 4096); (786432, 65536); (1040384, 8192) ].
Proof.
  intros (?&?&?&?&?&?&?)%layout_sizes.
  unfold kmaps, k_page, k_len, V2P, KERNLINK, KERNBASE, EXTMEM, PHYSTOP, DEVSPACE, PCI_BAR_BASE, PCI_VP_OFFSET.
  cbn [map k_virt k_phys_start k_phys_end].
  repeat f_equal; try reflexivity; unfold u32; Z.div_mod_to_equations; lia.
Qed.

Lemma kmaps_apart : layout_ok -> apart (kmaps data g).
Proof.
  intros Hl. pose proof (layout_sizes Hl) as (?&?&?&?&_). pose proof (kmaps_shape Hl) as Hs.
  assert (exists k0 k1 k2 k3 k4 k5, kmaps data g = [k0; k1; k2; k3; k4; k5]) as (k0&k1&k2&k3&k4&k5&E)
    by (unfold kmaps; eauto 10).
  rewrite E in *. cbn [map] in Hs. injection Hs as E0 ? E1 ? E2 ? E3 ? E4 ? E5 ?.
  cbn [apart]. split_and!; try done; intros k' q Hk' Hq; unfold k_has in *;
    repeat (apply elem_of_cons in Hk' as [-> | Hk']); try (by apply not_elem_of_nil in Hk');
    Z.div_mod_to_equations; lia.
Qed.

Lemma kmaps_ok : layout_ok -> Forall kmap_ok (kmaps data g).
Proof.
  intros Hl. pose proof (layout_sizes Hl) as (?&?&?&?&?&?&?). pose proof (kmaps_shape Hl) as Hs.
  unfold kmaps in *. cbn [map] in Hs. injection Hs. intros.
  repeat (apply Forall_cons; split); try apply Forall_nil; try done;
    (split; repeat match goal with H : k_len _ = _ |- _ => rewrite ?H; clear H | H : k_page _ = _ |- _ => clear H end);
    cbn [k_virt k_phys_start k_phys_end k_perm];
    unfold V2P, KERNLINK, KERNBASE, EXTMEM, PHYSTOP, DEVSPACE, PCI_BAR_BASE, PCI_VP_OFFSET, PTE_W, u32;
    Z.div_mod_to_equations; lia.
Qed.

(** From any free list, with [F] the other pages in use. *)
Lemma setupkvm_ok s l F :
  layout_ok -> al_free s l -> NoDup (F ++ l) -> Forall page_ok F ->
  exists r s', setupkvm data g s = Ret r s' /\ setup_post s l F (kmaps data g) r s'.
Proof.
  intros Hl Hf Hn HF. unfold setupkvm. destruct (al_free_pages s l Hf) as (_&Hlp&Hwf).
  destruct l as [|d l].
  - destruct (al_kalloc_none s Hf) as (s1&E1&Hf1&Hm1). rewrite (bind_run _ _ _ _ _ E1), Z.eqb_refl.
    exists 0, s1. split; [done|]. split; [by apply changes_mem_eq|]. left. eauto.
  - destruct (al_kalloc_some s d l Hf) as (s1&E1&Hf1&Hm1). rewrite (bind_run _ _ _ _ _ E1).
    apply Forall_cons in Hlp as [Hd Hlp]. destruct (page_shape d Hd) as [_ Hdr].
    destruct (Z.eqb_spec d 0); [lia|]. unfold vmem. rewrite bind_modify.
    change (DEVSPACE <? P2V PHYSTOP) with false. cbv iota.
    assert (Hfill : memset d 0 PGSIZE (al_mem s1) ≡ fill (al_mem s1) d PGSIZE 0)
      by (apply memset_fill; unfold PGSIZE; lia).
    set (s2 := al_set_mem _ s1).
    assert (Hc2 : changes [d] s s2).
    { intros x Hx. unfold s2. rewrite al_mem_set, (Hfill x), fill_out, Hm1; [done|].
      specialize (Hx d ltac:(left)). unfold in_page in Hx. lia. }
    assert (Hnd : d ∉ l /\ NoDup (d :: F ++ l)).
    { rewrite <- Permutation_middle in Hn. split; [|done]. apply NoDup_cons in Hn as [Hn _]. set_solver. }
    apply (setupkvm_loop_ok [] (kmaps data g) s (d :: l) s2 l F d ∅ (fun _ => 0)).
    + apply ptab_new; try apply Hnd.
      * apply al_free_frame; [done| |].
        -- intros x. rewrite (Hfill x). apply fill_wf. by rewrite Hm1.
        -- intros v x Hv Hx. rewrite (Hfill x). apply fill_out.
           assert (~ in_page d x); [|unfold in_page in *; lia].
           apply (page_apart v d x); try done; [|by intros ->; apply Hnd].
           by apply (proj1 (Forall_forall _ _) Hlp).
      * by constructor.
      * intros x Hx. unfold s2. rewrite al_mem_set, (Hfill x). by apply fill_in.
    + eapply changes_incl, Hc2. set_solver.
    + by rewrite (tabs_empty ∅) by (intros; apply lookup_empty).
    + by apply kmaps_ok.
    + by apply kmaps_apart.
    + split; [by intros k q ?%not_elem_of_nil|done].
    + by intros k k' q ?%not_elem_of_nil.
Qed.
End setup.
End kernel.
