(* ===== verification/VmCopy.v ===== *)
(** * vm.c: copying an address space for fork

    [copyuvm] builds an address space with the same user pages, flags and
    contents in fresh frames; the parent is not touched. *)
From stdpp Require Import base numbers list gmap strings.
From S2P Require Import Prelude Memory StringC Spinlock Mmu Kalloc Vm VmTable VmMap VmUser VmGrow VmKernel.
Open Scope Z_scope.

(** The entry of the child's frame [w] for a page with the parent's entry [e]. *)
Definition copy_entry (w e : Z) : Z := Z.lor (Z.lor (V2P w) (PTE_FLAGS e)) PTE_P.

Section copy.
Context {S : Type} {page_ok : Z -> Prop} `{PA : PageAllocator S page_ok}.
Context (data : Z) (g : gpu) (Hly : layout_ok data g).
Context (s0 : S) (l0 F : list Z) (pg : Z) (T U : gmap Z Z) (ent : Z -> Z) (sz : Z).
Context (Hp0 : ptab s0 l0 (tabs U ++ F) pg T ent) (Hu0 : user_ok U ent).
Context (Hsz : 0 <= sz <= KERNBASE).

(** The child after its pages below [p] were copied; [X] pages on their way. *)
Record copying (p : Z) (X : list Z) (s : S) (l : list Z) (d : Z) (Tc Uc : gmap Z Z) (entc : Z -> Z) : Prop :=
  Copying {
    cp_tab : ptab s l (tabs Uc ++ X ++ pg :: tabs T ++ tabs U ++ F) d Tc entc;
    cp_user : user_ok Uc entc;
    cp_pages : d :: tabs Tc ++ tabs Uc ++ X ++ l ≡ₚ l0;
    cp_changes : changes l0 s0 s;
    cp_kernel : forall k q, k ∈ kmaps data g -> k_has k q -> entc q = k_entry k q;
    cp_out : forall q, ~ 0 <= q < p -> Uc !! q = None;
    cp_in : forall q, 0 <= q < p -> exists v w, U !! q = Some v /\ Uc !! q = Some w /\
      entc q = copy_entry w (ent q) /\ forall k, 0 <= k < 4096 -> al_mem s (w + k) = al_mem s0 (v + k)
  }.

(** Nothing is lost except perhaps one page. *)
Definition copy_failed (s : S) : Prop :=
  changes l0 s0 s /\ exists l X, al_free s l /\ l ++ X ≡ₚ l0 /\ (length X <= 1)%nat.

Lemma parent_unchanged s v x : changes l0 s0 s -> v ∈ pg :: tabs T ++ tabs U ++ F -> in_page v x ->
  al_mem s x = al_mem s0 x.
Proof.
  intros Hc Hv Hx. apply Hc. intros w Hw. destruct (ptab_in _ _ _ _ _ _ Hp0 v Hv) as [Hvp Hvl].
  apply (page_apart v w x); try done; [by eapply ptab_free_pages|congruence].
Qed.

(** The parent's tables are still there. *)
Lemma parent_tab p X s l d Tc Uc entc :
  copying p X s l d Tc Uc entc ->
  ptab s l (tabs U ++ (d :: tabs Tc ++ tabs Uc ++ X) ++ F) pg T ent.
Proof.
  intros [Hp _ HP Hc _ _ _]. eapply (ptab_frame _ _ _ _ _ _ Hp0).
  - apply Hp.
  - rewrite <- HP. solve_Permutation.
  - assert (HF : Forall page_ok (tabs U ++ F)) by by eapply ptab_F_pages.
    assert (HF' : Forall page_ok (d :: tabs Tc ++ tabs Uc ++ X ++ l)).
    { rewrite HP. destruct (al_free_pages s0 l0 (pt_free _ _ _ _ _ _ Hp0)) as (_&?&_). done. }
    rewrite !Forall_app, !Forall_cons, !Forall_app in *. tauto.
  - intros v x Hv Hx. apply (parent_unchanged s v x Hc); [set_solver|done].
Qed.

Lemma copy_walk p X s l d Tc Uc entc q v :
  copying p X s l d Tc Uc entc -> 0 <= q < UPAGES -> U !! q = Some v ->
  exists t, walkpgdir pg (4096 * q) false s = Ret (t + 4 * (q mod 1024)) s /\ 0 < t /\
    load32 (al_mem s) (t + 4 * (q mod 1024)) = ent q.
Proof.
  intros Hcp Hq Hv. pose proof (parent_tab _ _ _ _ _ _ _ _ Hcp) as Hpt.
  assert (Hqn : 0 <= q < NPAGES) by (unfold UPAGES, NPAGES in *; lia).
  pose proof (uo_ent _ _ Hu0 q Hq) as He. rewrite Hv in He. destruct He as [Hpr _].
  destruct (T !! (q / 1024)) as [t|] eqn:Ht.
  - exists t. split; [by eapply walk_hit|]. split; [|by eapply walk_slot].
    destruct (ptab_tab _ _ _ _ _ _ Hpt _ _ Ht) as [Htp _]. apply page_shape in Htp. lia.
  - exfalso. destruct (dir_index q Hqn). rewrite <- (page_index q) in Hpr.
    rewrite (pt_none _ _ _ _ _ _ Hp0) in Hpr by done. by apply not_present_0 in Hpr.
Qed.

(** Giving up frees the child. *)
Lemma copy_abort p X s l d Tc Uc entc :
  copying p X s l d Tc Uc entc -> (length X <= 1)%nat ->
  exists s', freevm d s = Ret tt s' /\ copy_failed s'.
Proof.
  intros [Hp Hu HP Hc _ _ _] HX.
  destruct (freevm_ok s l _ d Tc Uc entc Hp Hu) as (s'&l'&E&Hf&HP'&Hc').
  exists s'. split; [done|]. split.
  - eapply changes_trans; [exact Hc|]. eapply changes_incl, Hc'. rewrite <- HP. set_solver.
  - exists l', X. split_and!; try done. rewrite HP', <- HP. solve_Permutation.
Qed.

(** A frame taken from the free list and filled from the parent's frame [v]. *)
Lemma copy_take p s w l d Tc Uc entc v :
  copying p [] s (w :: l) d Tc Uc entc -> v ∈ tabs U ->
  exists s1, al_kalloc s = Ret w s1 /\ page_ok w /\
    let s2 := al_set_mem (memmove w v PGSIZE (al_mem s1)) s1 in
    copying p [w] s2 l d Tc Uc entc /\
    forall k, 0 <= k < 4096 -> al_mem s2 (w + k) = al_mem s0 (v + k).
Proof.
  intros Hcp Hv. pose proof Hcp as [Hp Hu HP Hc Hk Ho Hi].
  destruct (ptab_take _ _ _ _ _ _ _ Hp) as (s1&E&Hp1&Hm1&Hw). exists s1. split; [done|]. split; [done|]. intros s2.
  assert (Hvp : page_ok v) by (apply (ptab_in _ _ _ _ _ _ Hp0); set_solver).
  destruct (page_shape w Hw) as [_ Hwr]. destruct (page_shape v Hvp) as [_ Hvr].
  assert (Hmv : memmove w v PGSIZE (al_mem s1) ≡ copied (al_mem s1) w v PGSIZE).
  { apply memmove_copied; unfold PGSIZE; try lia. by eapply ptab_wf. }
  assert (Hc2 : changes [w] s s2).
  { intros x Hx. unfold s2. rewrite al_mem_set, (Hmv x), copied_out, Hm1; [done|].
    specialize (Hx w ltac:(left)). unfold in_page in Hx. lia. }
  assert (Hcs : changes l0 s0 s2).
  { eapply changes_trans; [exact Hc|]. eapply changes_incl, Hc2. rewrite <- HP. set_solver. }
  split.
  - split; try done.
    + apply (ptab_perm s2 l (w :: tabs Uc ++ pg :: tabs T ++ tabs U ++ F)); [|solve_Permutation].
      apply ptab_write; [done| |].
      * intros x. rewrite (Hmv x). apply copied_wf. by eapply ptab_wf.
      * intros x Hx. rewrite (Hmv x), copied_out; [done|].
        specialize (Hx w ltac:(left)). unfold in_page in Hx. lia.
    + intros q Hq. destruct (Hi q Hq) as (v'&w'&?&Hw'&?&Hb). exists v', w'. split_and!; try done.
      intros k Hk'. rewrite Hc2; [by apply Hb|]. intros w2 ->%list_elem_of_singleton.
      apply (page_apart w' w); try done.
      * apply (ptab_in _ _ _ _ _ _ Hp). apply tabs_elem in Hw'. set_solver.
      * intros ->. apply (ptab_in _ _ _ _ _ _ Hp w); [apply tabs_elem in Hw'; set_solver|left].
      * unfold in_page, PGSIZE. lia.
  - intros k Hk'. unfold s2. rewrite al_mem_set, (Hmv _), copied_in by (unfold PGSIZE; lia).
    replace (v + (w + k - w)) with (v + k) by lia. rewrite Hm1.
    apply (parent_unchanged s v); [done|set_solver|unfold in_page, PGSIZE; lia].
Qed.

(** The frame mapped in the child. *)
Lemma copy_map p s l d Tc Uc entc w v :
  copying p [w] s l d Tc Uc entc -> 0 <= p < UPAGES -> U !! p = Some v ->
  (forall k, 0 <= k < 4096 -> al_mem s (w + k) = al_mem s0 (v + k)) ->
  exists r s' l' T', mappages d (4096 * p) PGSIZE (V2P w) (PTE_FLAGS (ent p)) s = Ret r s' /\
    ((r = 0 /\ exists U' ent', copying (p + 1) [] s' l' d T' U' ent') \/
     (r = -1 /\ copying p [w] s' l' d T' Uc entc)).
Proof.
  intros Hcp Hr Hv Hb. pose proof Hcp as [Hp Hu HP Hc Hk Ho Hi].
  assert (Hw : page_ok w) by (apply (ptab_in _ _ _ _ _ _ Hp); set_solver).
  destruct (V2P_page w Hw) as [Ew Ea]. destruct (page_shape w Hw) as [_ Hwr].
  assert (Hfl : 0 <= PTE_FLAGS (ent p) < 4096) by (rewrite PTE_FLAGS_eq; apply Z.mod_pos_bound; lia).
  assert (HUp : Uc !! p = None) by (apply Ho; lia).
  assert (Hnp : ~ present (entc p)).
  { pose proof (uo_ent _ _ Hu p Hr) as He. by rewrite HUp in He. }
  destruct (mappages_page s l _ d Tc entc p (V2P w) (PTE_FLAGS (ent p)) Hp)
    as (r&s'&l'&T'&E&[Hx1 Hx2]&Hc'&Hr'); try done; try (unfold UPAGES, NPAGES in *; lia).
  exists r, s', l', T'. split; [done|].
  assert (HPx : d :: tabs T' ++ tabs Uc ++ [w] ++ l' ≡ₚ l0).
  { rewrite <- HP. transitivity (d :: (tabs T' ++ l') ++ tabs Uc ++ [w]); [solve_Permutation|].
    rewrite Hx2. solve_Permutation. }
  assert (Hchg : changes l0 s0 s').
  { eapply changes_trans; [exact Hc|]. eapply changes_incl, Hc'. rewrite <- HPx. set_solver. }
  assert (HpT : exists ent', ptab s' l' (tabs Uc ++ [w] ++ pg :: tabs T ++ tabs U ++ F) d T' ent')
    by (destruct Hr' as [[_ ?]|[_ ?]]; eauto).
  destruct HpT as [ent1 HpT].
  assert (Hkeep : forall w', w' ∈ w :: tabs Uc -> forall k, 0 <= k < 4096 -> al_mem s' (w' + k) = al_mem s (w' + k)).
  { intros w' Hw' k Hk'. apply Hc'. intros t Ht Htx.
    eapply (ptab_apart _ _ _ _ _ _ HpT t w' (w' + k)); try done; [set_solver|unfold in_page, PGSIZE; lia]. }
  assert (Hin' : forall q, 0 <= q < p -> exists v w, U !! q = Some v /\ Uc !! q = Some w /\
    entc q = copy_entry w (ent q) /\ forall k, 0 <= k < 4096 -> al_mem s' (w + k) = al_mem s0 (v + k)).
  { intros q Hq. destruct (Hi q Hq) as (v'&w'&?&Hw'&?&Hb'). exists v', w'. split_and!; try done.
    intros k Hk'. rewrite Hkeep; [by apply Hb'| |done]. apply tabs_elem in Hw'. by right. }
  destruct Hr' as [[-> Hp']|[-> Hp']]; [left|right]; (split; [done|]).
  - exists (<[p := w]> Uc), (fupd entc p (copy_entry w (ent p))).
    assert (HUt : tabs (<[p := w]> Uc) ≡ₚ w :: tabs Uc) by by apply tabs_insert.
    destruct (entry_split (V2P w) (PTE_FLAGS (ent p)) Ea) as (?&?&_); [unfold is_u32; lia|done|].
    split; try done.
    + apply (ptab_perm _ _ _ _ _ _ Hp'). rewrite HUt. solve_Permutation.
    + by apply user_ok_fupd.
    + rewrite HUt, <- HPx. solve_Permutation.
    + intros k q Hk1 Hk2. rewrite fupd_ne; [by apply Hk|]. intros ->.
      pose proof (proj1 (Forall_forall _ _) (kmaps_ok data g Hly) k Hk1) as [[_ Hkv] _ _ _ _].
      unfold k_has, k_page, UPAGES, KERNBASE in *. Z.div_mod_to_equations. lia.
    + intros q Hq. rewrite lookup_insert_ne by lia. apply Ho. lia.
    + intros q Hq. rewrite fupd_at. destruct (Z.eqb_spec q p) as [->|Hne].
      * exists v, w. rewrite lookup_insert_eq. split_and!; try done.
        intros k Hk'. rewrite Hkeep; [by apply Hb|left|done].
      * rewrite lookup_insert_ne by done. apply Hin'. lia.
  - by split.
Qed.

(** A process has all pages below its size. *)
Context (Hall : forall q, 0 <= q < pgup sz -> is_Some (U !! q)).

Definition copy_post (r : Z) (s : S) : Prop :=
  (r = 0 /\ copy_failed s) \/ (exists l Tc Uc entc, copying (pgup sz) [] s l r Tc Uc entc).

Lemma copyuvm_loop_ok fuel p s l d Tc Uc entc :
  copying p [] s l d Tc Uc entc -> 0 <= p <= pgup sz -> (Z.to_nat (pgup sz - p) < fuel)%nat ->
  exists r s', copyuvm_loop fuel pg d sz (4096 * p) s = Ret r s' /\ copy_post r s'.
Proof.
  revert p s l Tc Uc entc. induction fuel as [|fuel IH]; intros p s l Tc Uc entc Hcp Hp Hf; [lia|].
  cbn [copyuvm_loop]. unfold KERNBASE in Hsz. destruct (Z.ltb_spec (4096 * p) sz) as [Hlt|Hge].
  2: { exists d, s. split; [done|]. right. exists l, Tc, Uc, entc.
       replace (pgup sz) with p; [done|]. unfold pgup in *. Z.div_mod_to_equations. lia. }
  assert (Hpg : p < pgup sz <= UPAGES) by (unfold pgup, UPAGES; Z.div_mod_to_equations; lia).
  destruct (Hall p) as [v Hv]; [lia|].
  destruct (copy_walk _ _ _ _ _ _ _ _ p v Hcp) as (t&Ew&Ht&El); [lia|done|].
  rewrite (bind_run _ _ _ _ _ Ew). pose proof (Z.mod_pos_bound p 1024 ltac:(lia)).
  destruct (Z.eqb_spec (t + 4 * (p mod 1024)) 0); [lia|]. unfold vload. rewrite bind_gets, El.
  pose proof (uo_ent _ _ Hu0 p) as He. rewrite Hv in He. destruct He as [Hpr Ha]; [lia|].
  destruct (Z.eqb_spec (Z.land (ent p) PTE_P) 0); [done|]. rewrite Ha.
  assert (Hvp : page_ok v) by (apply (ptab_in _ _ _ _ _ _ Hp0); apply tabs_elem in Hv; set_solver).
  rewrite P2V_page by done. destruct l as [|w l].
  - destruct (ptab_out _ _ _ _ _ (cp_tab _ _ _ _ _ _ _ _ Hcp)) as (s1&E1&Hp1&Hm1).
    rewrite (bind_run _ _ _ _ _ E1), Z.eqb_refl.
    destruct (copy_abort p [] s1 [] d Tc Uc entc) as (s2&E2&Hfail); [|simpl; lia|].
    { destruct Hcp as [? ? ? Hc ? ? Hi]. split; try done.
      - eapply changes_trans; [exact Hc|by apply changes_mem_eq].
      - intros q Hq. by rewrite Hm1; apply Hi. }
    rewrite (bind_run _ _ _ _ _ E2). exists 0, s2. split; [done|by left].
  - destruct (copy_take p s w l d Tc Uc entc v Hcp) as (s1&E1&Hw&Hcp2&Hb2); [by eapply tabs_elem|].
    rewrite (bind_run _ _ _ _ _ E1). destruct (Z.eqb_spec w 0); [by apply page_nz in Hw|].
    unfold vmem. rewrite bind_modify. set (s2 := al_set_mem _ s1) in *.
    destruct (copy_map p s2 l d Tc Uc entc w v Hcp2) as (r&s3&l3&T3&E3&Hr); [lia|done|done|].
    rewrite (bind_run _ _ _ _ _ E3). destruct Hr as [[-> (U'&ent'&Hg3)]|[-> Hg3]].
    + destruct (Z.ltb_spec 0 0); [lia|]. unfold PGSIZE.
      rewrite u32_small by (unfold is_u32, UPAGES in *; lia).
      replace (4096 * p + 4096) with (4096 * (p + 1)) by lia. eapply IH; [exact Hg3|lia|lia].
    + destruct (Z.ltb_spec (-1) 0); [|lia].
      destruct (copy_abort p [w] s3 l3 d T3 Uc entc Hg3) as (s4&E4&Hfail); [simpl; lia|].
      rewrite (bind_run _ _ _ _ _ E4). exists 0, s4. split; [done|by left].
Qed.

Lemma copyuvm_ok : exists r s', copyuvm data g pg sz s0 = Ret r s' /\ copy_post r s'.
Proof.
  unfold copyuvm.
  destruct (setupkvm_ok data g s0 l0 (pg :: tabs T ++ tabs U ++ F)) as (d&s1&E&Hc&Hs).
  - done.
  - apply Hp0.
  - pose proof (pt_nodup _ _ _ _ _ _ Hp0) as Hn. simpl. by rewrite <- !app_assoc in *.
  - apply Hp0.
  - rewrite (bind_run _ _ _ _ _ E). destruct Hs as [(->&l&Hf&HP)|(l&Tc&entc&Hpt&Hre&HP)].
    + exists 0, s1. split; [done|]. left. split; [done|]. split; [done|]. exists l, [].
      rewrite app_nil_r. split_and!; try done. simpl. lia.
    + destruct (ptab_in _ _ _ _ _ _ Hpt d) as [Hd _]; [left|].
      destruct (Z.eqb_spec d 0); [by apply page_nz in Hd|].
      assert (Ht0 : tabs (∅ : gmap Z Z) = []) by (apply tabs_empty; intros; apply lookup_empty).
      unfold KERNBASE in Hsz. apply (copyuvm_loop_ok _ 0 s1 l d Tc ∅ entc).
      * split; rewrite ?Ht0; try done.
        -- apply (kernel_user_ok (kmaps data g)); [by apply kmaps_ok|done].
        -- apply Hre.
        -- intros. lia.
      * unfold pgup. Z.div_mod_to_equations. lia.
      * unfold pgup, PGSIZE. Z.div_mod_to_equations. lia.
Qed.
End copy.
