(* ===== verification/VmProps.v ===== *)
(** * vm.c: properties of the page-table code *)
From stdpp Require Import base numbers list gmap strings.
From S2P Require Import Prelude Memory StringC Spinlock Mmu Kalloc Vm VmTable VmMap VmUser VmGrow VmKernel VmCopy.
Open Scope Z_scope.

Section props.
Context {S : Type} {page_ok : Z -> Prop} `{PA : PageAllocator S page_ok}.

(** C17. [mappages] enters consecutive frames for exactly the pages that
    [va, va+size) touches, page tables made of free pages where they were
    missing; it returns -1 only when the free pages ran out, with a prefix of
    the range mapped, and panics only when a page of the range was mapped. No
    other entry and no byte outside the directory and its tables changes. *)
Theorem mappages_maps_range s l F d T ent va size pa perm
  (Hp : ptab s l F d T ent) (Hva : 0 <= va) (Hsz : 1 <= size) (Hend : va + size <= 4294967296)
  (Ha : pa mod 4096 = 0) (Hpa : 0 <= pa)
  (Hpe : pa + 4096 * ((va + size - 1) / 4096 - va / 4096 + 1) <= 4294967296) (Hperm : 0 <= perm < 4096) :
  safe (remaps ent (va / 4096) ((va + size - 1) / 4096 - va / 4096 + 1)) (mappages d va size pa perm) s
    (map_post s l F d T ent (va / 4096) ((va + size - 1) / 4096 - va / 4096 + 1) pa perm).
Proof. by apply mappages_ok. Qed.


(** C19. [deallocuvm] and [freevm] terminate without a panic and lose no
    page: shrinking puts exactly the frames of the dropped pages on the free
    list and keeps the other mappings, freeing an address space puts its
    directory, its tables and all its frames there. *)
Theorem freevm_returns_pages s l F d T U ent oldsz newsz
  (Hp : ptab s l (tabs U ++ F) d T ent) (Hu : user_ok U ent) (Hsz : 0 <= newsz < oldsz) (Ho : oldsz <= KERNBASE) :
  (exists s', deallocuvm d oldsz newsz s = Ret newsz s' /\
     dealloc_post s l F d T U ent (pgup newsz) (Z.max (pgup newsz) (pgup oldsz)) s') /\
  (exists s' l', freevm d s = Ret tt s' /\ al_free s' l' /\ l' ≡ₚ d :: tabs T ++ tabs U ++ l /\
     changes (d :: tabs T ++ tabs U) s s').
Proof. split; [by apply deallocuvm_ok|by eapply freevm_ok]. Qed.


(** The page [copyuvm] may lose: with one free page left, no table for the
    page in the child and the child's table pages exhausted, the frame just
    allocated is neither mapped nor freed. *)
Lemma copyuvm_leaks_frame data g s0 l0 F pg T U ent sz s w d Tc entc v fuel
  (Hly : layout_ok data g) (Hp0 : ptab s0 l0 (tabs U ++ F) pg T ent) (Hu : user_ok U ent)
  (Hv : U !! 0 = Some v) (Hpos : 0 < sz) (Hsz : 0 <= sz <= KERNBASE)
  (Hc : copying data g s0 l0 F pg T U ent 0 [] s [w] d Tc ∅ entc) (HT : Tc !! 0 = None) :
  exists s' l', copyuvm_loop (Datatypes.S fuel) pg d sz 0 s = Ret 0 s' /\ al_free s' l' /\
    l' ++ [w] ≡ₚ l0.
Proof.
  cbn [copyuvm_loop]. destruct (Z.ltb_spec 0 sz); [|lia].
  destruct (copy_walk data g Hly s0 l0 F pg T U ent sz Hp0 Hu Hsz _ _ _ _ _ _ _ _ 0 v Hc) as (t&Ew&Ht&El); [unfold UPAGES; lia|done|].
  change (4096 * 0) with 0 in Ew. change (0 mod 1024) with 0 in *. rewrite (bind_run _ _ _ _ _ Ew).
  destruct (Z.eqb_spec (t + 4 * 0) 0); [lia|]. unfold vload. rewrite bind_gets, El.
  pose proof (uo_ent _ _ Hu 0 ltac:(unfold UPAGES; lia)) as He. rewrite Hv in He. destruct He as [Hpr Ha].
  destruct (Z.eqb_spec (Z.land (ent 0) PTE_P) 0); [done|]. rewrite Ha.
  assert (Hvp : page_ok v) by (apply (ptab_in _ _ _ _ _ _ Hp0); apply tabs_elem in Hv; set_solver).
  rewrite P2V_page by done.
  destruct (copy_take data g Hly s0 l0 F pg T U ent sz Hp0 Hu Hsz 0 s w [] d Tc ∅ entc v Hc) as (s1&E1&Hw&Hcp2&Hb2); [by eapply tabs_elem|].
  rewrite (bind_run _ _ _ _ _ E1). destruct (Z.eqb_spec w 0); [by apply page_nz in Hw|].
  unfold vmem. rewrite bind_modify. set (s2 := al_set_mem _ s1) in *.
  pose proof (cp_tab _ _ _ _ _ _ _ _ _ _ _ _ _ _ _ _ _ Hcp2) as Hp2.
  destruct (walk_alloc s2 [] _ d Tc entc 0 Hp2 ltac:(unfold NPAGES; lia) HT) as (s3&E3&Hp3&Hm3).
  assert (Em : mappages d 0 PGSIZE (V2P w) (PTE_FLAGS (ent 0)) s2 = Ret (-1) s3).
  { unfold mappages. change (PGROUNDDOWN 0) with 0. change (PGROUNDDOWN (u32 (0 + PGSIZE - 1))) with 0.
    change (Datatypes.S (Z.to_nat (u32 (0 - 0) / PGSIZE))) with 1%nat. cbn [mappages_loop].
    change (4096 * 0) with 0 in E3. rewrite (bind_run _ _ _ _ _ E3). done. }
  rewrite (bind_run _ _ _ _ _ Em). change (-1 <? 0) with true. cbv iota.
  pose proof Hcp2 as [_ Hu2 HP2 _ _ _ _].
  destruct (freevm_ok s3 [] _ d Tc ∅ entc Hp3 Hu2) as (s4&l4&E4&Hf4&HP4&_).
  rewrite (bind_run _ _ _ _ _ E4). exists s4, l4. split_and!; try done.
  rewrite HP4, <- HP2. solve_Permutation.
Qed.
End props.

(** ** Witnesses: an address space of one page on a machine with two free pages *)

Lemma demo_above : KERNBASE < demo_kend.
Proof. unfold KERNBASE, demo_kend. lia. Qed.

#[local] Instance demo_allocator : PageAllocator kmem (page_ok demo_kend) := kmem_allocator demo_kend demo_above.

Definition demo_dir : Z := 0x80103000.
Definition demo_tab : Z := 0x80104000.
Definition demo_frame : Z := 0x80105000.

(** The directory without tables, and with page 0 mapped. *)
Definition demo_space : kmem :=
  let s1 := al_set_mem (store32 (al_mem demo_kmem) (demo_dir + 4 * 0) (Z.lor (V2P demo_tab) 7)) demo_kmem in
  al_set_mem (store32 (al_mem s1) (demo_tab + 4 * 0) (user_entry demo_frame)) s1.
Definition demo_T : gmap Z Z := {[ 0 := demo_tab ]}.
Definition demo_U : gmap Z Z := {[ 0 := demo_frame ]}.
Definition demo_ent : Z -> Z := fupd (fun _ => 0) 0 (user_entry demo_frame).

Lemma demo_empty_tab : ptab demo_kmem demo_free [demo_tab; demo_frame] demo_dir ∅ (fun _ => 0).
Proof.
  apply ptab_new.
  - apply demo_kinv.
  - apply (bool_decide_unpack (NoDup (demo_dir :: [demo_tab; demo_frame] ++ demo_free))). vm_compute. exact I.
  - apply (bool_decide_unpack (Forall (page_ok demo_kend) [demo_dir; demo_tab; demo_frame])). vm_compute. exact I.
  - intros x Hx. unfold in_page, PGSIZE, demo_dir in Hx. simpl. rewrite store32_other by lia. reflexivity.
Qed.

Lemma demo_space_tab : ptab demo_space demo_free (tabs demo_U ++ []) demo_dir demo_T demo_ent.
Proof.
  destruct (ptab_link demo_kmem demo_free [demo_frame] demo_dir ∅ (fun _ => 0) demo_tab 0 demo_empty_tab) as [H1 _].
  - intros x Hx. unfold in_page, PGSIZE, demo_tab in Hx. simpl. rewrite store32_other by lia. reflexivity.
  - reflexivity.
  - lia.
  - refine (proj1 (ptab_set _ _ _ _ _ _ H1 0 0 demo_tab (user_entry demo_frame) _ _ _)).
    + apply lookup_insert_eq.
    + lia.
    + vm_compute. split; congruence.
Qed.

Lemma demo_user_ok : user_ok demo_U demo_ent.
Proof.
  split.
  - intros q v Hq. unfold demo_U in Hq. apply lookup_singleton_Some in Hq as [<- _]. unfold UPAGES. lia.
  - intros q Hq. unfold demo_ent. rewrite fupd_at. destruct (Z.eqb_spec q 0) as [->|Hne].
    + unfold demo_U. rewrite lookup_singleton_eq. apply (user_entry_ok (S := kmem) (page_ok := page_ok demo_kend)).
      apply (bool_decide_unpack (page_ok demo_kend demo_frame)). vm_compute. exact I.
    + unfold demo_U. rewrite lookup_singleton_ne by congruence. apply not_present_0.
Qed.

Lemma mappages_maps_range_witness :
  exists r s', mappages demo_dir 0x1000 0x1000 0x100000 6 demo_space = Ret r s' /\
    map_post demo_space demo_free (tabs demo_U ++ []) demo_dir demo_T demo_ent 1 1 0x100000 6 r s'.
Proof.
  pose proof (mappages_maps_range demo_space demo_free (tabs demo_U ++ []) demo_dir demo_T demo_ent 0x1000 0x1000
    0x100000 6 demo_space_tab) as H.
  change (0x1000 / 4096) with 1 in H. change ((0x1000 + 0x1000 - 1) / 4096 - 1 + 1) with 1 in H.
  specialize (H ltac:(lia) ltac:(lia) ltac:(lia) ltac:(reflexivity) ltac:(lia) ltac:(lia) ltac:(lia)).
  unfold safe in H. destruct (mappages _ _ _ _ _ _) as [r s'|e s'].
  - exists r, s'. split; [reflexivity|exact H].
  - exfalso. destruct H as [_ (q&Hq&Hpr)]. unfold demo_ent in Hpr. rewrite fupd_ne in Hpr by lia. by apply Hpr.
Defined.


Lemma freevm_returns_pages_witness :
  exists s' l', freevm demo_dir demo_space = Ret tt s' /\ al_free s' l' /\
    l' ≡ₚ [demo_dir; demo_tab; demo_frame] ++ demo_free.
Proof.
  destruct (freevm_returns_pages demo_space demo_free [] demo_dir demo_T demo_U demo_ent 0x1000 0 demo_space_tab demo_user_ok)
    as [_ (s'&l'&E&Hf&HP&_)].
  - lia.
  - unfold KERNBASE. lia.
  - exists s', l'. split; [exact E|]. split; [exact Hf|]. etransitivity; [exact HP|]. reflexivity.
Defined.

Definition demo_gpu : gpu := Gpu 0xB0000000 0x400000.

