(* ===== verification/Pipe.v ===== *)
(** * pipe.c: the ring buffer between two files

    [pipe] is the C struct (its lock is held throughout a segment of code, so
    segments are atomic).  A call of [pipewrite] or [piperead] that has to wait
    ends its segment asleep and runs another segment from the same point when
    it is woken; [woken] lists the channels a segment called [wakeup] on.  The
    byte counters are 32-bit and wrap around. *)
From stdpp Require Import base numbers list gmap strings.
From S2P Require Import Prelude.
Open Scope Z_scope.

Definition PIPESIZE : Z := 512.

Record pipe := Pipe {
  p_data : list Z; p_nread : Z; p_nwrite : Z; p_readopen : Z; p_writeopen : Z
}.

(** The channels [&p->nread] and [&p->nwrite]. *)
Inductive pchan := Nread | Nwrite.

Record pst := Pst { ps_pipe : pipe; woken : list pchan }.

Definition set_pipe (p : pipe) : M pst unit := modify (fun s => Pst p (woken s)).
Definition get_pipe : M pst pipe := gets ps_pipe.
Definition wakeup (c : pchan) : M pst unit := modify (fun s => Pst (ps_pipe s) (woken s ++ [c])).

(** What a segment of [pipewrite] ends with: all bytes stored, an error, or
    asleep with bytes left. *)
Inductive wres := WDone | WFail | WSleep (rest : list Z).

(** The loop of [pipewrite] up to its end or its next [sleep]; [killed] is
    what [myproc()->killed] reads. *)
Fixpoint pipewrite_loop (killed : bool) (src : list Z) : M pst wres :=
  match src with
  | [] => ret WDone
  | b :: src' =>
      let! p := get_pipe in
      if p_nwrite p =? p_nread p +u PIPESIZE then
        if (p_readopen p =? 0) || killed then ret WFail
        else wakeup Nread ;; ret (WSleep src)
      else
        set_pipe (Pipe (updZ (p_data p) (p_nwrite p mod PIPESIZE) b) (p_nread p) (p_nwrite p +u 1)
                    (p_readopen p) (p_writeopen p)) ;;
        pipewrite_loop killed src'
  end.

(** A segment of [pipewrite(p, addr, n)]. *)
Definition pipewrite (killed : bool) (src : list Z) : M pst wres :=
  let! r := pipewrite_loop killed src in
  match r with
  | WDone => wakeup Nread ;; ret WDone
  | _ => ret r
  end.

(** What a segment of [piperead] ends with: bytes, an error, or asleep. *)
Inductive rres := RDone (bytes : list Z) | RFail | RSleep.

(** The copying loop of [piperead]: at most [n] bytes. *)
Fixpoint piperead_loop (n : nat) : M pst (list Z) :=
  match n with
  | O => ret []
  | S n' =>
      let! p := get_pipe in
      if p_nread p =? p_nwrite p then ret []
      else
        set_pipe (Pipe (p_data p) (p_nread p +u 1) (p_nwrite p) (p_readopen p) (p_writeopen p)) ;;
        let! rest := piperead_loop n' in
        ret (nthZ 0 (p_data p) (p_nread p mod PIPESIZE) :: rest)
  end.

(** A segment of [piperead(p, addr, n)]. *)
Definition piperead (killed : bool) (n : Z) : M pst rres :=
  let! p := get_pipe in
  if (p_nread p =? p_nwrite p) && negb (p_writeopen p =? 0) then
    if killed then ret RFail else ret RSleep
  else
    let! bytes := piperead_loop (Z.to_nat n) in
    wakeup Nwrite ;;
    ret (RDone bytes).

(** [pipeclose(p, writable)], true when the page is to be freed. *)
Definition pipeclose (writable : bool) : M pst bool :=
  let! p := get_pipe in
  (if writable then
     set_pipe (Pipe (p_data p) (p_nread p) (p_nwrite p) (p_readopen p) 0) ;; wakeup Nread
   else
     set_pipe (Pipe (p_data p) (p_nread p) (p_nwrite p) 0 (p_writeopen p)) ;; wakeup Nwrite) ;;
  let! p := get_pipe in
  ret ((p_readopen p =? 0) && (p_writeopen p =? 0)).

(** The pipe [pipealloc] sets up in a fresh page with contents [data]. *)
Definition new_pipe (data : list Z) : pipe := Pipe data 0 0 1 1.

(** ** The queue in the ring

    [queue p B]: the bytes [B] are buffered, in this order. *)
Record queue (p : pipe) (B : list Z) : Prop := Queue {
  qu_len : length (p_data p) = 512%nat;
  qu_nread : is_u32 (p_nread p);
  qu_nwrite : p_nwrite p = u32 (p_nread p + Z.of_nat (length B));
  qu_room : Z.of_nat (length B) <= PIPESIZE;
  qu_bytes : forall i, 0 <= i < Z.of_nat (length B) ->
    nthZ 0 (p_data p) (u32 (p_nread p + i) mod PIPESIZE) = nthZ 0 B i
}.

(** Wrapping around 2^32 does not disturb positions in the ring. *)
Lemma ring_index z : u32 z mod PIPESIZE = z mod PIPESIZE.
Proof. unfold u32, PIPESIZE. apply Z.mod_mod_divide. exists 8388608. lia. Qed.

Lemma queue_empty p B : queue p B -> (p_nread p =? p_nwrite p) = match B with [] => true | _ => false end.
Proof.
  intros [_ Hr Hw Hl _]. unfold PIPESIZE in Hl. destruct B as [|b B].
  - apply Z.eqb_eq. rewrite Hw. simpl. rewrite Z.add_0_r. symmetry. by apply u32_small.
  - apply Z.eqb_neq. rewrite Hw. simpl length in *. word.
Qed.

Lemma queue_full p B : queue p B ->
  (p_nwrite p =? p_nread p +u PIPESIZE) = (Z.of_nat (length B) =? PIPESIZE).
Proof.
  intros [_ Hr Hw Hl _]. rewrite Hw. unfold PIPESIZE in *.
  destruct (Z.eqb_spec (Z.of_nat (length B)) 512) as [->|Hne]; [apply Z.eqb_refl|]. apply Z.eqb_neq. word.
Qed.

Lemma queue_push p B b : queue p B -> Z.of_nat (length B) < PIPESIZE ->
  queue (Pipe (updZ (p_data p) (p_nwrite p mod PIPESIZE) b) (p_nread p) (p_nwrite p +u 1)
           (p_readopen p) (p_writeopen p)) (B ++ [b]).
Proof.
  intros [Hl Hr Hw Hlen Hb] Hroom. split; cbn [p_data p_nread p_nwrite].
  - by rewrite length_updZ.
  - done.
  - rewrite Hw, u32_add_l, length_app. f_equal. simpl. lia.
  - rewrite length_app. simpl. lia.
  - intros i Hi. rewrite length_app in Hi. simpl in Hi. rewrite Hw, !ring_index.
    destruct (Z.eq_dec i (Z.of_nat (length B))) as [->|Hne].
    + rewrite nthZ_updZ_eq by (rewrite Hl; unfold PIPESIZE; pose proof (Z.mod_pos_bound (p_nread p + Z.of_nat (length B)) 512); lia).
      unfold nthZ. destruct (Z.ltb_spec (Z.of_nat (length B)) 0); [lia|]. rewrite Nat2Z.id. by rewrite nth_middle.
    + rewrite nthZ_updZ_ne.
      * rewrite <- ring_index, Hb by lia. unfold nthZ. destruct (Z.ltb_spec i 0); [done|]. rewrite app_nth1 by lia. done.
      * unfold PIPESIZE in *. intros E. Z.div_mod_to_equations. lia.
Qed.

Lemma queue_pop p b B : queue p (b :: B) ->
  nthZ 0 (p_data p) (p_nread p mod PIPESIZE) = b /\
  queue (Pipe (p_data p) (p_nread p +u 1) (p_nwrite p) (p_readopen p) (p_writeopen p)) B.
Proof.
  intros [Hl Hr Hw Hlen Hb]. simpl length in *. split.
  - specialize (Hb 0 ltac:(lia)). rewrite Z.add_0_r, (u32_small _ Hr) in Hb. done.
  - split; cbn [p_data p_nread p_nwrite]; try done; try lia.
    + apply u32_range.
    + rewrite Hw, u32_add_l. f_equal. lia.
    + intros i Hi. rewrite ring_index. rewrite <- (Z.add_mod_idemp_l (p_nread p +u 1)) by done.
      rewrite ring_index, Z.add_mod_idemp_l by done.
      replace (p_nread p + 1 + i) with (p_nread p + (i + 1)) by lia. rewrite <- ring_index, Hb by lia.
      unfold nthZ. destruct (Z.ltb_spec (i + 1) 0), (Z.ltb_spec i 0); try lia.
      replace (Z.to_nat (i + 1)) with (S (Z.to_nat i)) by lia. done.
Qed.

(** ** Segments *)

(** The bytes a segment stored: as many as fit. *)
Lemma pipewrite_loop_ok killed src s B :
  queue (ps_pipe s) B ->
  exists r s' k, pipewrite_loop killed src s = Ret r s' /\ (k <= length src)%nat /\
    queue (ps_pipe s') (B ++ take k src) /\
    p_nwrite (ps_pipe s') = u32 (p_nwrite (ps_pipe s) + Z.of_nat k) /\
    p_readopen (ps_pipe s') = p_readopen (ps_pipe s) /\ p_writeopen (ps_pipe s') = p_writeopen (ps_pipe s) /\
    match r with
    | WDone => k = length src /\ woken s' = woken s
    | WFail => (Z.of_nat (length B + k) = PIPESIZE /\ woken s' = woken s /\
                (p_readopen (ps_pipe s) = 0 \/ killed = true))
    | WSleep rest => rest = drop k src /\ rest <> [] /\ Z.of_nat (length B + k) = PIPESIZE /\
                     woken s' = woken s ++ [Nread] /\ p_readopen (ps_pipe s) <> 0
    end.
Proof.
  revert s B. induction src as [|b src IH]; intros s B Hq; cbn [pipewrite_loop].
  { exists WDone, s, O. rewrite app_nil_r, Z.add_0_r. split_and!; try done.
    rewrite u32_small; [done|]. destruct Hq as [_ _ -> _ _]. apply u32_range. }
  unfold get_pipe. rewrite bind_gets. rewrite (queue_full _ _ Hq).
  assert (Hw : u32 (p_nwrite (ps_pipe s)) = p_nwrite (ps_pipe s)).
  { destruct Hq as [_ _ -> _ _]. apply u32_idemp. }
  destruct (Z.eqb_spec (Z.of_nat (length B)) PIPESIZE) as [Hf|Hf].
  - destruct (Z.eqb_spec (p_readopen (ps_pipe s)) 0) as [Ho|Ho]; [|destruct killed]; cbn [orb].
    1,2: exists WFail, s, O; rewrite app_nil_r, Z.add_0_r, Nat.add_0_r; split_and!; auto; simpl; lia.
    eexists (WSleep (b :: src)), _, O. split; [done|].
    cbn [ps_pipe woken take drop]. rewrite app_nil_r, Z.add_0_r, Nat.add_0_r. split_and!; auto; simpl; lia.
  - unfold set_pipe. rewrite bind_modify.
    assert (Hroom : Z.of_nat (length B) < PIPESIZE) by (destruct Hq; lia).
    destruct (IH (Pst (Pipe (updZ (p_data (ps_pipe s)) (p_nwrite (ps_pipe s) mod PIPESIZE) b) (p_nread (ps_pipe s))
      (p_nwrite (ps_pipe s) +u 1) (p_readopen (ps_pipe s)) (p_writeopen (ps_pipe s))) (woken s)) (B ++ [b])
      (queue_push _ _ b Hq Hroom)) as (r&s'&k&E&Hk&Hq'&Hn&Hro&Hwo&Hr).
    exists r, s', (S k). cbn [ps_pipe p_nwrite p_readopen p_writeopen woken] in *.
    rewrite <- app_assoc in Hq'. rewrite Hn, u32_add_l, length_app in *. split_and!; try done.
    + simpl. lia.
    + f_equal. lia.
    + destruct r; simpl in *.
      * destruct Hr as [-> ?]. done.
      * destruct Hr as (?&?&?). split_and!; try done. lia.
      * destruct Hr as (->&?&?&?&?). split_and!; try done. lia.
Qed.

Lemma piperead_loop_ok n s B :
  queue (ps_pipe s) B ->
  exists s', piperead_loop n s = Ret (take n B) s' /\ queue (ps_pipe s') (drop n B) /\
    woken s' = woken s /\ p_readopen (ps_pipe s') = p_readopen (ps_pipe s) /\
    p_writeopen (ps_pipe s') = p_writeopen (ps_pipe s).
Proof.
  revert s B. induction n as [|n IH]; intros s B Hq; cbn [piperead_loop].
  { exists s. by rewrite take_0, drop_0. }
  unfold get_pipe. rewrite bind_gets, (queue_empty _ _ Hq). destruct B as [|b B]; [by exists s|].
  destruct (queue_pop _ _ _ Hq) as [Hb Hq']. unfold set_pipe. rewrite bind_modify.
  destruct (IH (Pst (Pipe (p_data (ps_pipe s)) (p_nread (ps_pipe s) +u 1) (p_nwrite (ps_pipe s))
    (p_readopen (ps_pipe s)) (p_writeopen (ps_pipe s))) (woken s)) B Hq') as (s'&E&?&?&?&?).
  exists s'. rewrite (bind_run _ _ _ _ _ E), Hb. done.
Qed.

(** ** Processes on a pipe

    Any number of processes call [pipewrite] and [piperead]; a process asleep
    becomes runnable when another one calls [wakeup] on its channel.  [c_in]
    and [c_out] record all bytes stored and delivered.  A process has an end
    open while it uses it. *)

Inductive thread := Idle | Writing (src : list Z) | Reading (n : Z) | WaitW (src : list Z) | WaitR (n : Z).

Record conf := Conf { c_pipe : pipe; c_thr : nat -> thread; c_in : list Z; c_out : list Z }.

Definition wake1 (t : thread) (c : pchan) : thread :=
  match c, t with
  | Nread, WaitR n => Reading n
  | Nwrite, WaitW src => Writing src
  | _, _ => t
  end.
Definition wakeup_all (cs : list pchan) (f : nat -> thread) : nat -> thread :=
  fun i => fold_left wake1 cs (f i).
Definition set_thr (f : nat -> thread) (i : nat) (t : thread) : nat -> thread :=
  fun j => if decide (j = i) then t else f j.

Definition after_write (r : wres) : thread := match r with WSleep rest => WaitW rest | _ => Idle end.
Definition after_read (n : Z) (r : rres) : thread := match r with RSleep => WaitR n | _ => Idle end.

(** The bytes a segment added. *)
Definition stored (p p' : pipe) (src : list Z) : list Z := take (Z.to_nat (p_nwrite p' -u p_nwrite p)) src.
Definition delivered (r : rres) : list Z := match r with RDone bytes => bytes | _ => [] end.

Definition uses_read (t : thread) : Prop := match t with Reading _ | WaitR _ => True | _ => False end.
Definition uses_write (t : thread) : Prop := match t with Writing _ | WaitW _ => True | _ => False end.

Inductive pipe_step : conf -> conf -> Prop :=
| call_write p f ci co i src : f i = Idle -> p_writeopen p <> 0 -> Z.of_nat (length src) < 2147483648 ->
    pipe_step (Conf p f ci co) (Conf p (set_thr f i (Writing src)) ci co)
| call_read p f ci co i n : f i = Idle -> p_readopen p <> 0 ->
    pipe_step (Conf p f ci co) (Conf p (set_thr f i (Reading n)) ci co)
| run_write p f ci co i src r s' : f i = Writing src -> pipewrite false src (Pst p []) = Ret r s' ->
    pipe_step (Conf p f ci co)
      (Conf (ps_pipe s') (wakeup_all (woken s') (set_thr f i (after_write r)))
         (ci ++ stored p (ps_pipe s') src) co)
| run_read p f ci co i n r s' : f i = Reading n -> piperead false n (Pst p []) = Ret r s' ->
    pipe_step (Conf p f ci co)
      (Conf (ps_pipe s') (wakeup_all (woken s') (set_thr f i (after_read n r))) ci (co ++ delivered r))
| close_write p f ci co r s' : (forall i, ~ uses_write (f i)) -> pipeclose true (Pst p []) = Ret r s' ->
    pipe_step (Conf p f ci co) (Conf (ps_pipe s') (wakeup_all (woken s') f) ci co)
| close_read p f ci co r s' : (forall i, ~ uses_read (f i)) -> pipeclose false (Pst p []) = Ret r s' ->
    pipe_step (Conf p f ci co) (Conf (ps_pipe s') (wakeup_all (woken s') f) ci co).

Record conf_ok (c : conf) (B : list Z) : Prop := ConfOk {
  co_queue : queue (c_pipe c) B;
  co_fifo : c_in c = c_out c ++ B;
  co_reader : forall i n, c_thr c i = WaitR n -> B = [] /\ p_writeopen (c_pipe c) <> 0;
  co_writer : forall i src, c_thr c i = WaitW src -> Z.of_nat (length B) = PIPESIZE /\ p_readopen (c_pipe c) <> 0;
  co_ruse : forall i, uses_read (c_thr c i) -> p_readopen (c_pipe c) <> 0;
  co_wuse : forall i, uses_write (c_thr c i) -> p_writeopen (c_pipe c) <> 0;
  co_src : forall i src, c_thr c i = Writing src \/ c_thr c i = WaitW src -> Z.of_nat (length src) < 2147483648
}.

Lemma wake_fold cs t :
  (forall n, fold_left wake1 cs t = WaitR n -> t = WaitR n /\ Nread ∉ cs) /\
  (forall src, fold_left wake1 cs t = WaitW src -> t = WaitW src /\ Nwrite ∉ cs) /\
  (forall src, fold_left wake1 cs t = Writing src \/ fold_left wake1 cs t = WaitW src -> t = Writing src \/ t = WaitW src) /\
  (uses_read (fold_left wake1 cs t) -> uses_read t) /\ (uses_write (fold_left wake1 cs t) -> uses_write t).
Proof.
  revert t. induction cs as [|c cs IH]; intros t; simpl.
  { split_and!; try done; intros; (split; [done|apply not_elem_of_nil]). }
  destruct (IH (wake1 t c)) as (H1&H2&H3&H4&H5). split_and!.
  - intros n [E ?]%H1. destruct c, t; try done. split; [done|]. by apply not_elem_of_cons.
  - intros src [E ?]%H2. destruct c, t; try done. split; [done|]. by apply not_elem_of_cons.
  - intros src E%H3. destruct c, t; simpl in *; naive_solver.
  - intros E%H4. by destruct c, t.
  - intros E%H5. by destruct c, t.
Qed.

(** The threads after a segment of thread [i] that ends as [t] and wakes [cs]. *)
Lemma thr_after cs f i t j :
  let t' := wakeup_all cs (set_thr f i t) j in
  (forall n, t' = WaitR n -> Nread ∉ cs /\ (t = WaitR n \/ f j = WaitR n)) /\
  (forall src, t' = WaitW src -> Nwrite ∉ cs /\ (t = WaitW src \/ f j = WaitW src)) /\
  (forall src, t' = Writing src \/ t' = WaitW src ->
     (t = Writing src \/ t = WaitW src) \/ (f j = Writing src \/ f j = WaitW src)) /\
  (uses_read t' -> uses_read t \/ uses_read (f j)) /\ (uses_write t' -> uses_write t \/ uses_write (f j)).
Proof.
  unfold wakeup_all. destruct (wake_fold cs (set_thr f i t j)) as (H1&H2&H3&H4&H5).
  unfold set_thr in *. destruct (decide (j = i)); cbv zeta; split_and!; naive_solver.
Qed.

(** A running segment of [pipewrite]. *)
Lemma run_write_ok p f ci co i src r s' B :
  conf_ok (Conf p f ci co) B -> f i = Writing src -> pipewrite false src (Pst p []) = Ret r s' ->
  exists B', conf_ok (Conf (ps_pipe s') (wakeup_all (woken s') (set_thr f i (after_write r)))
         (ci ++ stored p (ps_pipe s') src) co) B'.
Proof.
  intros [Hq Hfifo Hr Hw Hru Hwu Hsrc] Hi E. cbn [c_pipe c_thr c_in c_out] in *.
  pose proof (Hwu i ltac:(by rewrite Hi)) as Hopen. pose proof (Hsrc i src ltac:(by left)) as Hlen.
  unfold pipewrite in E. destruct (pipewrite_loop_ok false src (Pst p []) B Hq)
    as (r1&s1&k&E1&Hk&Hq1&Hn1&Hro&Hwo&Hr1). rewrite (bind_run _ _ _ _ _ E1) in E.
  cbn [ps_pipe woken] in *.
  assert (Hst : stored p (ps_pipe s1) src = take k src).
  { unfold stored. f_equal. rewrite Hn1, u32_sub_l. destruct Hq.
    replace (p_nwrite p + Z.of_nat k - p_nwrite p) with (Z.of_nat k) by lia.
    rewrite u32_small by (unfold is_u32; lia). lia. }
  assert (Hres : r = r1 /\ ps_pipe s' = ps_pipe s1 /\ (Nread ∉ woken s' -> r1 = WFail)).
  { destruct r1; injection E as <- <-; (split; [done|]); (split; [done|]).
    - intros []. cbn [woken]. destruct Hr1 as [_ ->]. left.
    - done.
    - intros []. destruct Hr1 as (_&_&_&->&_). left. }
  destruct Hres as (->&->&Hwk). rewrite Hst. exists (B ++ take k src).
  assert (Hfull : forall j src', f j = WaitW src' -> Z.of_nat (length (B ++ take k src)) = PIPESIZE).
  { intros j src' [Hf _]%Hw. destruct Hq1 as [_ _ _ Hl1 _]. rewrite length_app in *. lia. }
  pose proof (thr_after (woken s') f i (after_write r1)) as Ht. cbv zeta in Ht.
  split; cbn [c_pipe c_thr c_in c_out]; rewrite ?Hro, ?Hwo; try done.
  - by rewrite Hfifo, app_assoc.
  - intros j n Hj. destruct (Ht j) as (H1&_). apply H1 in Hj as [->%Hwk Hj].
    destruct Hj as [?|Hj]; [done|]. exfalso. destruct Hr1 as (_&_&[Hz|?]); [|done].
    apply (Hru j); [by rewrite Hj|done].
  - intros j src' Hj. destruct (Ht j) as (_&H2&_). apply H2 in Hj as [_ [Hj|Hj]].
    + destruct r1; try done. destruct Hr1 as (_&_&Hf&_&?). split; [|done].
      rewrite length_app, length_take. lia.
    + split; [by eapply Hfull|]. by apply (Hw j src').
  - intros j Hj. destruct (Ht j) as (_&_&_&H4&_). apply H4 in Hj as [Hj|Hj]; [by destruct r1|by apply (Hru j)].
  - intros j src' Hj. destruct (Ht j) as (_&_&H3&_). apply H3 in Hj as [Hj|Hj]; [|by apply (Hsrc j)].
    clear Ht E E1. destruct r1 as [| |rest]; simpl in Hj; destruct Hj as [Hj|Hj]; try discriminate Hj.
    injection Hj as <-. destruct Hr1 as (->&_). rewrite length_drop. lia.
Qed.

(** A running segment of [piperead]. *)
Lemma run_read_ok p f ci co i n r s' B :
  conf_ok (Conf p f ci co) B -> f i = Reading n -> piperead false n (Pst p []) = Ret r s' ->
  exists B', conf_ok (Conf (ps_pipe s') (wakeup_all (woken s') (set_thr f i (after_read n r))) ci
         (co ++ delivered r)) B'.
Proof.
  intros [Hq Hfifo Hr Hw Hru Hwu Hsrc] Hi E. cbn [c_pipe c_thr c_in c_out] in *.
  pose proof (Hru i ltac:(by rewrite Hi)) as Hopen.
  unfold piperead in E. unfold get_pipe in E. rewrite bind_gets in E. cbn [ps_pipe] in E.
  rewrite (queue_empty _ _ Hq) in E.
  destruct (match B with [] => true | _ => false end && negb (p_writeopen p =? 0)) eqn:Hc.
  - injection E as <- <-. exists B. apply andb_prop in Hc as [HB Hwo]. assert (B = []) as -> by by destruct B.
    apply negb_true_iff, Z.eqb_neq in Hwo.
    pose proof (thr_after [] f i (WaitR n)) as Ht. cbv zeta in Ht.
    split; cbn [c_pipe c_thr c_in c_out ps_pipe woken after_read delivered]; rewrite ?app_nil_r; try done.
    + by rewrite Hfifo, app_nil_r.
    + intros j src' Hj. destruct (Ht j) as (_&H2&_). apply H2 in Hj as [_ [?|Hj]]; [done|by apply (Hw j src')].
    + intros j src' Hj. destruct (Ht j) as (_&_&H3&_). apply H3 in Hj as [[?|?]|Hj]; [done|done|by apply (Hsrc j)].
  - destruct (piperead_loop_ok (Z.to_nat n) (Pst p []) B Hq) as (s1&E1&Hq1&Hwk&Hro&Hwo).
    rewrite (bind_run _ _ _ _ _ E1) in E. injection E as <- <-. cbn [ps_pipe woken] in *. rewrite Hwk.
    exists (drop (Z.to_nat n) B). pose proof (thr_after [Nwrite] f i Idle) as Ht. cbv zeta in Ht.
    split; cbn [c_pipe c_thr c_in c_out app after_read delivered]; rewrite ?Hro, ?Hwo; try done.
    + by rewrite <- app_assoc, take_drop.
    + intros j m Hj. destruct (Ht j) as (H1&_). apply H1 in Hj as [_ [?|Hj]]; [done|].
      destruct (Hr j m Hj) as [-> ?]. split; [by rewrite drop_nil|done].
    + intros j src' Hj. destruct (Ht j) as (_&H2&_). apply H2 in Hj as [[] _]. left.
    + intros j Hj. destruct (Ht j) as (_&_&_&_&H5). apply H5 in Hj as [?|Hj]; [done|by apply (Hwu j)].
    + intros j src' Hj. destruct (Ht j) as (_&_&H3&_). apply H3 in Hj as [[?|?]|Hj]; [done|done|by apply (Hsrc j)].
Qed.

(** Closing an end that is not in use. *)
Lemma close_ok p f ci co w r s' B :
  conf_ok (Conf p f ci co) B -> (forall i, if (w : bool) then ~ uses_write (f i) else ~ uses_read (f i)) ->
  pipeclose w (Pst p []) = Ret r s' ->
  conf_ok (Conf (ps_pipe s') (wakeup_all (woken s') f) ci co) B.
Proof.
  intros [[] Hfifo Hr Hw Hru Hwu Hsrc] Hno E. cbn [c_pipe c_thr c_in c_out] in *.
  destruct w; injection E as <- <-; split; cbn [c_pipe c_thr c_in c_out ps_pipe woken app p_readopen p_writeopen]; try done;
    unfold wakeup_all; intros j.
  all: pose proof (wake_fold [Nread] (f j)) as (A1&A2&A3&A4&A5); pose proof (wake_fold [Nwrite] (f j)) as (B1&B2&B3&B4&B5);
    specialize (Hno j); cbn [fold_left] in *.
  all: try (intros Hj; first [apply A4 in Hj | apply B4 in Hj]; by apply (Hru j)).
  all: try (intros Hj; first [apply A5 in Hj | apply B5 in Hj]; by apply (Hwu j)).
  all: try (intros src Hj; first [apply A3 in Hj | apply B3 in Hj]; by apply (Hsrc j)).
  all: try (intros Hj; exfalso; apply Hno; first [by apply A5|by apply B4]).
  - intros n Hj. apply A1 in Hj as [_ []]. left.
  - intros src Hj. apply A2 in Hj as [Hj _]. exfalso. apply Hno. by rewrite Hj.
  - intros n Hj. apply B1 in Hj as [Hj _]. exfalso. apply Hno. by rewrite Hj.
  - intros src Hj. apply B2 in Hj as [_ []]. left.
Qed.

Lemma call_ok p f ci co i t B :
  conf_ok (Conf p f ci co) B ->
  (match t with Writing src => p_writeopen p <> 0 /\ Z.of_nat (length src) < 2147483648
   | Reading _ => p_readopen p <> 0 | _ => False end) ->
  conf_ok (Conf p (set_thr f i t) ci co) B.
Proof.
  intros [Hq Hfifo Hr Hw Hru Hwu Hsrc] Ht. cbn [c_pipe c_thr c_in c_out] in *.
  split; cbn [c_pipe c_thr c_in c_out]; try done; intros j; unfold set_thr; destruct (decide (j = i)); try done;
    try (by apply Hr); try (by apply Hw); try (by apply Hru); try (by apply Hwu); try (by apply Hsrc);
    destruct t; try done; try (intros; apply Ht).
  - intros src' [[= <-]|?]; [apply Ht|done].
  - by intros src' [?|?].
Qed.

Lemma pipe_step_ok c c' B : conf_ok c B -> pipe_step c c' -> exists B', conf_ok c' B'.
Proof.
  intros Hc Hs. destruct Hs as [p f ci co i src|p f ci co i n|p f ci co i src r s' Hi E|p f ci co i n r s' Hi E|p f ci co r s' Hn E|p f ci co r s' Hn E].
  - exists B. by apply call_ok.
  - exists B. by apply call_ok.
  - by eapply run_write_ok.
  - by eapply run_read_ok.
  - exists B. by eapply (close_ok p f ci co true).
  - exists B. by eapply (close_ok p f ci co false).
Qed.

(** A pipe [pipealloc] just made. *)
Definition start (data : list Z) : conf := Conf (new_pipe data) (fun _ => Idle) [] [].

Lemma start_ok data : length data = 512%nat -> conf_ok (start data) [].
Proof.
  intros Hl. split; try done.
  - split; simpl; try done; lia.
  - by intros i src [?|?].
Qed.

Lemma reachable_ok data c : length data = 512%nat -> star pipe_step (start data) c -> exists B, conf_ok c B.
Proof.
  intros Hl Hs. apply (star_invariant pipe_step (fun c => exists B, conf_ok c B) (start data)); [|done|].
  - intros x y [B HB] Hxy. by eapply pipe_step_ok.
  - exists []. by apply start_ok.
Qed.

(** ** Properties *)



(** ** Witnesses: process 1 reads, sleeps, process 0 writes three bytes *)

Definition demo_data : list Z := replicate 512 0.
Definition demo_bytes : list Z := [104; 105; 10].
Definition demo_pipe : pipe :=
  match pipewrite false demo_bytes (Pst (new_pipe demo_data) []) with Ret _ s' => ps_pipe s' | Stop _ s' => ps_pipe s' end.

Lemma demo_write : pipewrite false demo_bytes (Pst (new_pipe demo_data) []) = Ret WDone (Pst demo_pipe [Nread]).
Proof. vm_compute. reflexivity. Qed.

Lemma demo_read : piperead false 3 (Pst (new_pipe demo_data) []) = Ret RSleep (Pst (new_pipe demo_data) []).
Proof. reflexivity. Qed.

Lemma demo_waiting : exists c, star pipe_step (start demo_data) c /\ c_thr c 1 = WaitR 3.
Proof.
  eexists. split.
  - eapply star_snoc; [eapply star_snoc; [apply star_refl|]|].
    + apply (call_read _ _ _ _ 1 3); [reflexivity|discriminate].
    + eapply (run_read _ _ _ _ 1 3); [reflexivity|exact demo_read].
  - reflexivity.
Qed.

Lemma demo_woken : exists c, star pipe_step (start demo_data) c /\ c_thr c 1 = Reading 3 /\ c_out c = [].
Proof.
  eexists. split.
  - eapply star_snoc; [eapply star_snoc; [eapply star_snoc; [eapply star_snoc; [apply star_refl|]|]|]|].
    + apply (call_read _ _ _ _ 1 3); [reflexivity|discriminate].
    + eapply (run_read _ _ _ _ 1 3); [reflexivity|exact demo_read].
    + apply (call_write _ _ _ _ 0 demo_bytes); [reflexivity|discriminate|vm_compute; reflexivity].
    + eapply (run_write _ _ _ _ 0 demo_bytes); [reflexivity|exact demo_write].
  - split; reflexivity.
Qed.



Definition demo_src : list Z := map (fun i => i mod 256) (seqZ 0 600).

(** A killed writer that fills an empty pipe returns -1 without waking the
    readers: a process asleep in [piperead] stays asleep with 512 bytes to
    read. *)
Lemma killed_writer_wakes_nobody :
  match pipewrite true demo_src (Pst (new_pipe demo_data) []) with
  | Ret r s' => r = WFail /\ woken s' = [] /\ p_nwrite (ps_pipe s') - p_nread (ps_pipe s') = PIPESIZE
  | Stop _ _ => False
  end.
Proof. vm_compute. split_and!; reflexivity. Qed.
