(* ===== verification/File.v ===== *)
(** * file.c, and the file side of pipe.c: open files

    [struct file]s are named by their index in [ftable.file], pipes by the
    address of the page they live in, inodes by their cache index.  The state
    holds the file system below, the page allocator and the pipes; [fd_woken]
    lists the pipe channels on which processes were woken. *)
From stdpp Require Import base numbers list gmap strings.
From S2P Require Import Prelude Memory Spinlock Mmu Kalloc Block Bio Log Blk Fs Pipe.
Open Scope Z_scope.

Definition NFILE : Z := 100.

Inductive ftype := FD_NONE | FD_PIPE | FD_INODE.
#[export] Instance ftype_eq_dec : EqDecision ftype.
Proof. solve_decision. Defined.

(** struct file *)
Record file := File {
  f_type : ftype; f_ref : Z; f_readable : Z; f_writable : Z; f_pipe : Z; f_ip : Z; f_off : Z
}.
Definition set_fref (r : Z) (f : file) : file :=
  File (f_type f) r (f_readable f) (f_writable f) (f_pipe f) (f_ip f) (f_off f).
Definition set_foff (o : Z) (f : file) : file :=
  File (f_type f) (f_ref f) (f_readable f) (f_writable f) (f_pipe f) (f_ip f) o.

Record fdstate (St A : Type) := FdState {
  fd_fs : fsstate St; fd_pages : A; fd_files : Z -> file; fd_pipes : Z -> pipe;
  fd_woken : list (Z * pchan); fd_killed : bool
}.
Arguments FdState {St A}.
Arguments fd_fs {St A}.
Arguments fd_pages {St A}.
Arguments fd_files {St A}.
Arguments fd_pipes {St A}.
Arguments fd_woken {St A}.
Arguments fd_killed {St A}.

(** The channels [&p->nread] and [&p->nwrite] of the pipe at [p]. *)
Definition pipe_chan (p : Z) (c : pchan) : Z := match c with Nread => p + 564 | Nwrite => p + 568 end.

(** [p->data] follows the 52 bytes of the lock. *)
Definition PIPE_DATA : Z := 52.

(** The first entry of [ftable.file] with no reference. *)
Fixpoint find_file (l : list Z) (ft : Z -> file) : option Z :=
  match l with
  | [] => None
  | f :: l' => if f_ref (ft f) =? 0 then Some f else find_file l' ft
  end.

(** The most a transaction of [filewrite] writes. *)
Definition MAXWRITE : Z := (MAXOPBLOCKS - 1 - 1 - 2) / 2 * 512.

Section File.
Context {St : Type} `{BL : BlockLayer St} {A : Type} {page_ok : Z -> Prop} `{PA : PageAllocator A page_ok}.
Context (devsw_read : Z -> option (Z -> Z -> M (fsstate St) (Z * list Z))).
Context (devsw_write : Z -> option (Z -> list Z -> Z -> M (fsstate St) Z)).
Abbreviation DM := (M (fdstate St A)).

Definition on_fs {X} (m : M (fsstate St) X) : DM X :=
  zoom fd_fs (fun x s => FdState x (fd_pages s) (fd_files s) (fd_pipes s) (fd_woken s) (fd_killed s)) m.
Definition on_pages {X} (m : M A X) : DM X :=
  zoom fd_pages (fun x s => FdState (fd_fs s) x (fd_files s) (fd_pipes s) (fd_woken s) (fd_killed s)) m.
(** Code of pipe.c on the pipe at [p]. *)
Definition on_pipe {X} (p : Z) (m : M pst X) : DM X :=
  zoom (fun s => Pst (fd_pipes s p) [])
    (fun x s => FdState (fd_fs s) (fd_pages s) (fd_files s) (fupd (fd_pipes s) p (ps_pipe x))
                  (fd_woken s ++ map (pair p) (woken x)) (fd_killed s)) m.
Definition begin_op : DM unit := on_fs (lift blk_begin).
Definition end_op : DM unit := on_fs (lift blk_end).

Definition get_file (f : Z) : DM file := gets (fun s => fd_files s f).
Definition put_file (f : Z) (x : file) : DM unit :=
  modify (fun s => FdState (fd_fs s) (fd_pages s) (fupd (fd_files s) f x) (fd_pipes s) (fd_woken s) (fd_killed s)).

(** [filealloc()] *)
Definition filealloc : DM Z :=
  let! ft := gets fd_files in
  match find_file (seqZ 0 NFILE) ft with
  | Some f => put_file f (set_fref 1 (ft f)) ;; ret f
  | None => ret NULL
  end.

(** [filedup(f)] *)
Definition filedup (f : Z) : DM Z :=
  let! x := get_file f in
  if f_ref x <? 1 then panic "filedup"
  else put_file f (set_fref (f_ref x + 1) x) ;; ret f.

(** [pipeclose(p, writable)] *)
Definition pipe_close (p writable : Z) : DM unit :=
  let! free := on_pipe p (Pipe.pipeclose (negb (writable =? 0))) in
  when free (on_pages (al_kfree p)).

(** [fileclose(f)] *)
Definition fileclose (f : Z) : DM unit :=
  let! x := get_file f in
  if f_ref x <? 1 then panic "fileclose"
  else if 0 <? f_ref x - 1 then put_file f (set_fref (f_ref x - 1) x)
  else
    put_file f (File FD_NONE 0 (f_readable x) (f_writable x) (f_pipe x) (f_ip x) (f_off x)) ;;
    match f_type x with
    | FD_PIPE => pipe_close (f_pipe x) (f_writable x)
    | FD_INODE => begin_op ;; on_fs (iput (f_ip x)) ;; end_op
    | FD_NONE => ret tt
    end.

(** [filestat(f, st)] *)
Definition filestat (f : Z) : DM (option stat) :=
  let! x := get_file f in
  match f_type x with
  | FD_INODE =>
      on_fs (ilock (f_ip x)) ;;
      let! st := on_fs (stati (f_ip x)) in
      on_fs (iunlock (f_ip x)) ;;
      ret (Some st)
  | _ => ret None
  end.

(** A segment of [piperead] and of [pipewrite] in a process: sleeping ends it. *)
Definition pipe_read (p n : Z) : DM (Z * list Z) :=
  let! killed := gets fd_killed in
  let! r := on_pipe p (Pipe.piperead killed n) in
  match r with
  | RDone bytes => ret (Z.of_nat (length bytes), bytes)
  | RFail => ret (-1, [])
  | RSleep => stop_with (Slept (pipe_chan p Nread))
  end.
Definition pipe_write (p : Z) (src : list Z) (n : Z) : DM Z :=
  let! killed := gets fd_killed in
  let! r := on_pipe p (Pipe.pipewrite killed (take (Z.to_nat n) src)) in
  match r with
  | WDone => ret n
  | WFail => ret (-1)
  | WSleep _ => stop_with (Slept (pipe_chan p Nwrite))
  end.

(** [fileread(f, addr, n)]: the result and the bytes stored at [addr]. *)
Definition fileread (f n : Z) : DM (Z * list Z) :=
  let! x := get_file f in
  if f_readable x =? 0 then ret (-1, [])
  else
    match f_type x with
    | FD_PIPE => pipe_read (f_pipe x) n
    | FD_INODE =>
        on_fs (ilock (f_ip x)) ;;
        let! x := get_file f in
        let! (r, bytes) := on_fs (readi devsw_read (f_ip x) (f_off x) (u32 n)) in
        (if 0 <? r then let! y := get_file f in put_file f (set_foff (f_off y +u r) y) else ret tt) ;;
        on_fs (iunlock (f_ip x)) ;;
        ret (r, bytes)
    | FD_NONE => panic "fileread"
    end.

(** The loop of [filewrite] on an inode; [i] bytes done. *)
Fixpoint filewrite_loop (fuel : nat) (f : Z) (src : list Z) (n i : Z) : DM Z :=
  match fuel with
  | O => stop_with NoFuel
  | S fuel' =>
      if i <? n then
        let n1 := if MAXWRITE <? n - i then MAXWRITE else n - i in
        begin_op ;;
        let! x := get_file f in
        on_fs (ilock (f_ip x)) ;;
        let! x := get_file f in
        let! r := on_fs (writei devsw_write (f_ip x) (drop (Z.to_nat i) src) (f_off x) n1) in
        (if 0 <? r then let! y := get_file f in put_file f (set_foff (f_off y +u r) y) else ret tt) ;;
        on_fs (iunlock (f_ip x)) ;;
        end_op ;;
        if r <? 0 then ret i
        else if negb (r =? n1) then panic "short filewrite"
        else filewrite_loop fuel' f src n (i + r)
      else ret i
  end.

(** [filewrite(f, addr, n)] *)
Definition filewrite (f : Z) (src : list Z) (n : Z) : DM Z :=
  let! x := get_file f in
  if f_writable x =? 0 then ret (-1)
  else
    match f_type x with
    | FD_PIPE => pipe_write (f_pipe x) src n
    | FD_INODE =>
        let! i := filewrite_loop (S (Z.to_nat (n / MAXWRITE + 1))) f src n 0 in
        ret (if i =? n then n else -1)
    | FD_NONE => panic "filewrite"
    end.

(** [bad:] of [pipealloc] (before a page was allocated) *)
Definition pipealloc_bad (f0 f1 : Z) : DM (option (Z * Z)) :=
  (if negb (f0 =? NULL) then fileclose f0 else ret tt) ;;
  (if negb (f1 =? NULL) then fileclose f1 else ret tt) ;;
  ret None.

(** [pipealloc(f0, f1)] *)
Definition pipealloc : DM (option (Z * Z)) :=
  let! f0 := filealloc in
  if f0 =? NULL then pipealloc_bad f0 NULL
  else
    let! f1 := filealloc in
    if f1 =? NULL then pipealloc_bad f0 f1
    else
      let! p := on_pages al_kalloc in
      if p =? 0 then pipealloc_bad f0 f1
      else
        let! a := gets fd_pages in
        on_pipe p (set_pipe (new_pipe (load_bytes (al_mem a) (p + PIPE_DATA) 512))) ;;
        let! x := get_file f0 in
        put_file f0 (File FD_PIPE (f_ref x) 1 0 p (f_ip x) (f_off x)) ;;
        let! y := get_file f1 in
        put_file f1 (File FD_PIPE (f_ref y) 0 1 p (f_ip y) (f_off y)) ;;
        ret (Some (f0, f1)).

(** ** Reference counts

    [handles] says how many descriptors refer to each file; the counts of the
    table agree with it. *)

Definition refs_ok (ft : Z -> file) (h : Z -> Z) : Prop :=
  forall f, 0 <= f < NFILE -> f_ref (ft f) = h f /\ 0 <= h f.

Definition is_file (f : Z) : Prop := 0 <= f < NFILE.

Lemma find_file_spec l ft :
  match find_file l ft with
  | Some f => f ∈ l /\ f_ref (ft f) = 0
  | None => forall f, f ∈ l -> f_ref (ft f) <> 0
  end.
Proof.
  induction l as [|f l IH]; simpl; [by intros f ?%not_elem_of_nil|].
  destruct (Z.eqb_spec (f_ref (ft f)) 0) as [E|E]; [split; [left|done]|].
  destruct (find_file l ft) as [g|]; [destruct IH; split; [by right|done]|].
  intros g [->|Hg]%elem_of_cons; auto.
Qed.

Lemma filealloc_ok s h : refs_ok (fd_files s) h ->
  exists f s', filealloc s = Ret f s' /\
    ((f = NULL /\ s' = s /\ forall g, is_file g -> 0 < h g) \/
     (is_file f /\ h f = 0 /\ refs_ok (fd_files s') (fupd h f 1) /\
      forall g, g <> f -> fd_files s' g = fd_files s g)).
Proof.
  intros Hr. unfold filealloc. rewrite bind_gets. pose proof (find_file_spec (seqZ 0 NFILE) (fd_files s)) as Hf.
  destruct (find_file _ _) as [f|].
  - destruct Hf as [Hin%elem_of_seqZ Hz]. assert (is_file f) as Hi by (unfold is_file; lia).
    destruct (Hr f Hi) as [E _]. eexists f, _. split; [reflexivity|]. right. split_and!; try done; [lia| |].
    + intros g Hg. cbn [fd_files]. rewrite !fupd_at. destruct (Z.eqb_spec g f) as [->|]; [done|by apply Hr].
    + intros g Hg. cbn [fd_files]. by apply fupd_ne.
  - eexists NULL, s. split; [reflexivity|]. left. split_and!; try done. intros g Hg.
    destruct (Hr g Hg) as [E ?]. specialize (Hf g). rewrite elem_of_seqZ in Hf. unfold is_file in Hg. lia.
Qed.

Lemma filedup_ok s h f : refs_ok (fd_files s) h -> is_file f -> 0 < h f ->
  exists s', filedup f s = Ret f s' /\ refs_ok (fd_files s') (fupd h f (h f + 1)).
Proof.
  intros Hr Hf Hh. destruct (Hr f Hf) as [E _]. unfold filedup, get_file. rewrite bind_gets.
  destruct (Z.ltb_spec (f_ref (fd_files s f)) 1); [lia|]. eexists. split; [reflexivity|].
  intros g Hg. cbn [fd_files]. rewrite !fupd_at. destruct (Z.eqb_spec g f) as [->|]; [simpl; lia|by apply Hr].
Qed.
End File.

Section refcounts.
Context {St : Type} `{BL : BlockLayer St} {A : Type} {page_ok : Z -> Prop} `{PA : PageAllocator A page_ok}.
Abbreviation DM := (M (fdstate St A)).

(** The state a run ends in. *)
Definition final {S X} (o : outcome S X) : S := match o with Ret _ s => s | Stop _ s => s end.
Definition keeps_files {X} (m : DM X) : Prop := forall s, fd_files (final (m s)) = fd_files s.

Lemma keeps_bind {X Y} (m : DM X) (k : X -> DM Y) :
  keeps_files m -> (forall x, keeps_files (k x)) -> keeps_files (bind m k).
Proof.
  intros Hm Hk s. specialize (Hm s). unfold bind. destruct (m s) as [x s'|e s']; [|done].
  simpl in Hm. rewrite <- Hm. apply Hk.
Qed.
Lemma keeps_fs {X} (m : M (fsstate St) X) : keeps_files (on_fs m).
Proof. intros s. unfold on_fs, zoom. by destruct (m (fd_fs s)). Qed.
Lemma keeps_pages {X} (m : M A X) : keeps_files (on_pages m).
Proof. intros s. unfold on_pages, zoom. by destruct (m (fd_pages s)). Qed.
Lemma keeps_pipe {X} p (m : M pst X) : keeps_files (on_pipe p m).
Proof. intros s. unfold on_pipe, zoom. by destruct (m _). Qed.

(** What is left to do when the last reference goes. *)
Definition close_object (x : file) : DM unit :=
  match f_type x with
  | FD_PIPE => pipe_close (f_pipe x) (f_writable x)
  | FD_INODE => begin_op ;; on_fs (iput (f_ip x)) ;; end_op
  | FD_NONE => ret tt
  end.
Lemma close_object_keeps x : keeps_files (close_object x).
Proof.
  unfold close_object. destruct (f_type x); [done| |].
  - apply keeps_bind; [apply keeps_pipe|]. intros []; [apply keeps_pages|done].
  - apply keeps_bind; [apply keeps_fs|]. intros _. apply keeps_bind; [apply keeps_fs|]. intros _. apply keeps_fs.
Qed.

Lemma fileclose_ok s h f : refs_ok (fd_files s) h -> is_file f -> 0 < h f ->
  refs_ok (fd_files (final (fileclose f s))) (fupd h f (h f - 1)) /\
  (1 < h f -> exists s', fileclose f s = Ret tt s') /\
  (h f = 1 -> exists s1, fileclose f s = close_object (fd_files s f) s1).
Proof.
  intros Hr Hf Hh. destruct (Hr f Hf) as [E _]. unfold fileclose, get_file. rewrite bind_gets.
  destruct (Z.ltb_spec (f_ref (fd_files s f)) 1); [lia|].
  assert (Hput : forall x, f_ref x = h f - 1 -> refs_ok (fupd (fd_files s) f x) (fupd h f (h f - 1))).
  { intros x Hx g Hg. rewrite !fupd_at. destruct (Z.eqb_spec g f) as [->|]; [lia|by apply Hr]. }
  destruct (Z.ltb_spec 0 (f_ref (fd_files s f) - 1)).
  - split_and!; [|by eexists|lia]. apply Hput. simpl. lia.
  - split_and!; [|lia|intros; eexists; reflexivity].
    unfold put_file. rewrite bind_modify. fold (close_object (fd_files s f)).
    rewrite close_object_keeps. apply Hput. simpl. lia.
Qed.

(** Descriptors come and go: [h] counts them. *)
Inductive ft_step : fdstate St A * (Z -> Z) -> fdstate St A * (Z -> Z) -> Prop :=
| ft_alloc s h f s' : filealloc s = Ret f s' -> f <> NULL -> ft_step (s, h) (s', fupd h f 1)
| ft_dup s h f s' : is_file f -> 0 < h f -> filedup f s = Ret f s' -> ft_step (s, h) (s', fupd h f (h f + 1))
| ft_close s h f : is_file f -> 0 < h f -> ft_step (s, h) (final (fileclose f s), fupd h f (h f - 1))
| ft_other s h s' : (forall f, f_ref (fd_files s' f) = f_ref (fd_files s f)) -> ft_step (s, h) (s', h).

Lemma ft_step_ok c c' : refs_ok (fd_files c.1) c.2 -> ft_step c c' -> refs_ok (fd_files c'.1) c'.2.
Proof.
  intros Hr Hs. destruct Hs as [s h f s' E Hn|s h f s' Hf Hh E|s h f Hf Hh|s h s' E]; simpl in *.
  - destruct (filealloc_ok s h Hr) as (f'&s1&E'&[(->&_)|(_&_&?&_)]); rewrite E' in E; by injection E as <- <-.
  - destruct (filedup_ok s h f Hr Hf Hh) as (s1&E'&?). rewrite E' in E. by injection E as <-.
  - by apply fileclose_ok.
  - intros f Hf. rewrite E. by apply Hr.
Qed.

(** The reference counts of the file table are the numbers of live
    descriptors, whatever sequence of [filealloc], [filedup] and [fileclose]
    led there: [filealloc] never hands out a file somebody has open and
    returns null only when all are open, the panics of [filedup] and
    [fileclose] are unreachable for open files, and [fileclose] releases the
    pipe or inode exactly when the last descriptor goes. *)
Theorem ftable_refcounts s0 s h
  (H0 : forall f, is_file f -> f_ref (fd_files s0 f) = 0)
  (Hs : star ft_step (s0, fun _ => 0) (s, h)) :
  (forall f, is_file f -> f_ref (fd_files s f) = h f) /\
  (exists f s', filealloc s = Ret f s' /\
     (f = NULL /\ (forall g, is_file g -> 0 < h g) \/ is_file f /\ h f = 0)) /\
  (forall f, is_file f -> 0 < h f ->
     (exists s', filedup f s = Ret f s') /\
     (1 < h f -> exists s', fileclose f s = Ret tt s') /\
     (h f = 1 -> exists s1, fileclose f s = close_object (fd_files s f) s1)).
Proof.
  assert (Hr : refs_ok (fd_files s) h).
  { change s with (s, h).1. change h with (s, h).2 at 2.
    apply (star_invariant ft_step (fun c => refs_ok (fd_files c.1) c.2) (s0, fun _ => 0)); [apply ft_step_ok|done|].
    intros f Hf. simpl. split; [by apply H0|lia]. }
  split; [intros f Hf; apply (Hr f Hf)|]. split.
  - destruct (filealloc_ok s h Hr) as (f&s'&E&[(?&_&?)|(?&?&_)]); exists f, s'; (split; [exact E|]); [by left|by right].
  - intros f Hf Hh. split; [|by apply fileclose_ok].
    destruct (filedup_ok s h f Hr Hf Hh) as (s'&?&_). by exists s'.
Qed.
End refcounts.

(** ** Witness: a freshly booted file table, one file opened twice *)

Definition boot_blocks : bstate :=
  BState (fun _ => Buf 0 0 0 (Sleeplock 0 0) 0 0 0 []) (fun _ => []) 1000 [] 1 (Log 2 30 0 0 1 (LogHdr 0 [])).
Definition boot_fs : fsstate bstate :=
  FsState boot_blocks (Superblock 0 0 0 0 0 0 0) (fun _ => Inode 0 0 0 (Sleeplock 0 0) 0 0 0 0 0 0 []) 1 0.
Definition boot_files : fdstate bstate kmem :=
  FdState boot_fs demo_kmem (fun _ => File FD_NONE 0 0 0 0 0 0) (fun _ => new_pipe []) [] false.

Lemma boot_above : KERNBASE < demo_kend.
Proof. unfold KERNBASE, demo_kend. lia. Qed.
#[local] Instance boot_layer : BlockLayer bstate := logged_layer 2 30 1000.
#[local] Instance boot_pages : PageAllocator kmem (page_ok demo_kend) := kmem_allocator demo_kend boot_above.

Lemma ftable_refcounts_witness :
  exists (s : fdstate bstate kmem) h, h 0 = 2 /\ f_ref (fd_files s 0) = 2.
Proof.
  assert (exists s h, star ft_step (boot_files, fun _ => 0) (s, h) /\ h 0 = 2) as (s&h&Hs&Hh).
  { eexists _, _. split.
    - eapply star_snoc; [eapply star_snoc; [apply star_refl|]|].
      + eapply ft_alloc; [reflexivity|discriminate].
      + eapply (ft_dup _ _ 0); [unfold is_file, NFILE; lia|reflexivity|reflexivity].
    - reflexivity. }
  exists s, h. split; [exact Hh|].
  rewrite (proj1 (ftable_refcounts boot_files s h (fun f _ => eq_refl) Hs) 0 ltac:(unfold is_file, NFILE; lia)).
  exact Hh.
Defined.
