(* ===== verification/Proc.v ===== *)
(** * proc.c: processes and the scheduler

    Processes are named by their index in [ptable.proc], processors by theirs
    in [cpus]; [NULL] is the null pointer.  Code runs on a processor [c].  Trap
    frames and new contexts are bytes of the memory; what a suspended kernel
    thread does when it is switched to is kept in [p_resume].  Acquiring a
    spin lock that another processor holds stops the run with [Spinning]; a
    switch to the scheduler ends the segment of the process that made it. *)
From stdpp Require Import base numbers list gmap strings.
From S2P Require Import Prelude Memory StringC Spinlock Mmu Kalloc Block Bio Log Blk Fs Vm Pipe File.
Open Scope Z_scope.

Definition NPROC : Z := 64.
Definition NCPU : Z := 4.
Definition NOFILE : Z := 16.
Definition KSTACKSIZE : Z := 4096.

Inductive procstate := UNUSED | EMBRYO | SLEEPING | RUNNABLE | RUNNING | ZOMBIE.
#[export] Instance procstate_eq_dec : EqDecision procstate.
Proof. solve_decision. Defined.

(** Wait channels: the address of a process (used by [wait]), or another. *)
Inductive chan := ChNone | ChProc (p : Z) | ChAddr (a : Z).
#[export] Instance chan_eq_dec : EqDecision chan.
Proof. solve_decision. Defined.

(** Where a process continues when [swtch] returns to it: [forkret], after
    the call of [sched] in [yield], in [sleep] with lock [lk], or in the
    [sleep] of [wait]. *)
Inductive resume := RForkret | RYield | RSleep (lk : Z) | RWait.

(** struct proc *)
Record proc := Proc {
  p_sz : Z; p_pgdir : Z; p_kstack : Z; p_state : procstate; p_pid : Z; p_parent : Z;
  p_tf : Z; p_context : Z; p_chan : chan; p_killed : Z; p_ofile : list Z; p_cwd : Z;
  p_name : list Z; p_resume : resume; p_intena : bool
}.

Definition set_state (x : procstate) (p : proc) : proc :=
  Proc (p_sz p) (p_pgdir p) (p_kstack p) x (p_pid p) (p_parent p) (p_tf p) (p_context p) (p_chan p)
    (p_killed p) (p_ofile p) (p_cwd p) (p_name p) (p_resume p) (p_intena p).
Definition set_pid (x : Z) (p : proc) : proc :=
  Proc (p_sz p) (p_pgdir p) (p_kstack p) (p_state p) x (p_parent p) (p_tf p) (p_context p) (p_chan p)
    (p_killed p) (p_ofile p) (p_cwd p) (p_name p) (p_resume p) (p_intena p).
Definition set_mm (sz pgdir : Z) (p : proc) : proc :=
  Proc sz pgdir (p_kstack p) (p_state p) (p_pid p) (p_parent p) (p_tf p) (p_context p) (p_chan p)
    (p_killed p) (p_ofile p) (p_cwd p) (p_name p) (p_resume p) (p_intena p).
Definition set_kstack (k : Z) (p : proc) : proc :=
  Proc (p_sz p) (p_pgdir p) k (p_state p) (p_pid p) (p_parent p) (p_tf p) (p_context p) (p_chan p)
    (p_killed p) (p_ofile p) (p_cwd p) (p_name p) (p_resume p) (p_intena p).
Definition set_frames (tf ctx : Z) (r : resume) (p : proc) : proc :=
  Proc (p_sz p) (p_pgdir p) (p_kstack p) (p_state p) (p_pid p) (p_parent p) tf ctx (p_chan p)
    (p_killed p) (p_ofile p) (p_cwd p) (p_name p) r (p_intena p).
Definition set_parent (x : Z) (p : proc) : proc :=
  Proc (p_sz p) (p_pgdir p) (p_kstack p) (p_state p) (p_pid p) x (p_tf p) (p_context p) (p_chan p)
    (p_killed p) (p_ofile p) (p_cwd p) (p_name p) (p_resume p) (p_intena p).
Definition set_chan (x : chan) (p : proc) : proc :=
  Proc (p_sz p) (p_pgdir p) (p_kstack p) (p_state p) (p_pid p) (p_parent p) (p_tf p) (p_context p) x
    (p_killed p) (p_ofile p) (p_cwd p) (p_name p) (p_resume p) (p_intena p).
Definition set_killed (x : Z) (p : proc) : proc :=
  Proc (p_sz p) (p_pgdir p) (p_kstack p) (p_state p) (p_pid p) (p_parent p) (p_tf p) (p_context p) (p_chan p)
    x (p_ofile p) (p_cwd p) (p_name p) (p_resume p) (p_intena p).
Definition set_ofile (x : list Z) (p : proc) : proc :=
  Proc (p_sz p) (p_pgdir p) (p_kstack p) (p_state p) (p_pid p) (p_parent p) (p_tf p) (p_context p) (p_chan p)
    (p_killed p) x (p_cwd p) (p_name p) (p_resume p) (p_intena p).
Definition set_cwd (x : Z) (p : proc) : proc :=
  Proc (p_sz p) (p_pgdir p) (p_kstack p) (p_state p) (p_pid p) (p_parent p) (p_tf p) (p_context p) (p_chan p)
    (p_killed p) (p_ofile p) x (p_name p) (p_resume p) (p_intena p).
Definition set_name (x : list Z) (p : proc) : proc :=
  Proc (p_sz p) (p_pgdir p) (p_kstack p) (p_state p) (p_pid p) (p_parent p) (p_tf p) (p_context p) (p_chan p)
    (p_killed p) (p_ofile p) (p_cwd p) x (p_resume p) (p_intena p).
Definition set_resume (r : resume) (i : bool) (p : proc) : proc :=
  Proc (p_sz p) (p_pgdir p) (p_kstack p) (p_state p) (p_pid p) (p_parent p) (p_tf p) (p_context p) (p_chan p)
    (p_killed p) (p_ofile p) (p_cwd p) (p_name p) r i.

(** A processor: its process, the spin locks it holds (their number is
    [ncli]), interrupt flag and [intena], the page directory in %cr3, the
    kernel stack in its task state, and how many slots the loop of its
    [scheduler] has passed. *)
Record cpust := Cpust {
  c_proc : Z; c_held : gset Z; c_if : bool; c_intena : bool; c_cr3 : Z; c_esp0 : Z; c_pos : nat
}.
Definition set_cproc (x : Z) (k : cpust) : cpust :=
  Cpust x (c_held k) (c_if k) (c_intena k) (c_cr3 k) (c_esp0 k) (c_pos k).
Definition set_locks (h : gset Z) (i n : bool) (k : cpust) : cpust :=
  Cpust (c_proc k) h i n (c_cr3 k) (c_esp0 k) (c_pos k).
Definition set_space (cr3 esp0 : Z) (k : cpust) : cpust :=
  Cpust (c_proc k) (c_held k) (c_if k) (c_intena k) cr3 esp0 (c_pos k).
Definition set_pos (x : nat) (k : cpust) : cpust :=
  Cpust (c_proc k) (c_held k) (c_if k) (c_intena k) (c_cr3 k) (c_esp0 k) x.

Record pstate (St A : Type) := PState {
  pt : Z -> proc; nextpid : Z; initproc : Z; first : bool; kpgdir : Z; cpus : Z -> cpust;
  kern : fdstate St A
}.
Arguments PState {St A}.
Arguments pt {St A}.
Arguments nextpid {St A}.
Arguments initproc {St A}.
Arguments first {St A}.
Arguments kpgdir {St A}.
Arguments cpus {St A}.
Arguments kern {St A}.

(** [ptable.lock] *)
Definition PTLOCK : Z := 2.

(** The first process of [l] in state [x]. *)
Fixpoint find_state (x : procstate) (l : list Z) (t : Z -> proc) : option Z :=
  match l with
  | [] => None
  | p :: l' => if decide (p_state (t p) = x) then Some p else find_state x l' t
  end.

(** Offsets in struct trapframe (76 bytes) and struct context (20 bytes). *)
Definition TF_SIZE : Z := 76.
Definition TF_EAX : Z := 28.
Definition TF_ES : Z := 40.
Definition TF_DS : Z := 44.
Definition TF_EIP : Z := 56.
Definition TF_CS : Z := 60.
Definition TF_EFLAGS : Z := 64.
Definition TF_ESP : Z := 68.
Definition TF_SS : Z := 72.
Definition CTX_SIZE : Z := 20.
Definition CTX_EIP : Z := 16.

Definition SEG_UCODE : Z := 3.
Definition SEG_UDATA : Z := 4.
Definition DPL_USER : Z := 3.
Definition FL_IF : Z := 0x200.

Section Proc.
Context {St : Type} `{BL : BlockLayer St} {A : Type} {page_ok : Z -> Prop} `{PA : PageAllocator A page_ok}.
Context (devsw_read : Z -> option (Z -> Z -> M (fsstate St) (Z * list Z))).
(** Addresses the linker fixes: [trapret], [forkret], [data], the initial
    user program, and the frame buffer of the boot loader. *)
Context (trapret forkret_addr data : Z) (g : gpu) (initcode initcode_size : Z).
Abbreviation PM := (M (pstate St A)).

(** ** State access *)

Definition mod_proc (p : Z) (f : proc -> proc) : PM unit :=
  modify (fun s => PState (fupd (pt s) p (f (pt s p))) (nextpid s) (initproc s) (first s) (kpgdir s) (cpus s) (kern s)).
Definition set_pt (t : Z -> proc) : PM unit :=
  modify (fun s => PState t (nextpid s) (initproc s) (first s) (kpgdir s) (cpus s) (kern s)).
Definition set_nextpid (n : Z) : PM unit :=
  modify (fun s => PState (pt s) n (initproc s) (first s) (kpgdir s) (cpus s) (kern s)).
Definition set_initproc (p : Z) : PM unit :=
  modify (fun s => PState (pt s) (nextpid s) p (first s) (kpgdir s) (cpus s) (kern s)).
Definition set_first (b : bool) : PM unit :=
  modify (fun s => PState (pt s) (nextpid s) (initproc s) b (kpgdir s) (cpus s) (kern s)).
Definition set_kpgdir (d : Z) : PM unit :=
  modify (fun s => PState (pt s) (nextpid s) (initproc s) (first s) d (cpus s) (kern s)).
Definition mod_cpu (c : Z) (f : cpust -> cpust) : PM unit :=
  modify (fun s => PState (pt s) (nextpid s) (initproc s) (first s) (kpgdir s) (fupd (cpus s) c (f (cpus s c))) (kern s)).
Definition get_proc (p : Z) : PM proc := gets (fun s => pt s p).
Definition get_cpu (c : Z) : PM cpust := gets (fun s => cpus s c).

(** [myproc()] on processor [c] *)
Definition myproc (c : Z) : PM Z := gets (fun s => c_proc (cpus s c)).

(** The file layer sees the running process: its pid, directory and [killed]. *)
Definition kern_for (c : Z) (s : pstate St A) : fdstate St A :=
  let p := pt s (c_proc (cpus s c)) in
  let k := kern s in
  FdState (FsState (fs_blk (fd_fs k)) (fs_sb (fd_fs k)) (fs_icache (fd_fs k)) (p_pid p) (p_cwd p))
    (fd_pages k) (fd_files k) (fd_pipes k) (fd_woken k) (negb (p_killed p =? 0)).
Definition on_kern {X} (c : Z) (m : M (fdstate St A) X) : PM X :=
  zoom (kern_for c)
    (fun k s => PState (pt s) (nextpid s) (initproc s) (first s) (kpgdir s) (cpus s) k) m.
Definition on_mem {X} (c : Z) (m : M A X) : PM X := on_kern c (on_pages m).

(** Locks, by what acquire and release promise: the lock joins or leaves the
    set the processor holds, interrupts are off while the set is not empty. *)
Definition held_elsewhere (l c : Z) (s : pstate St A) : bool :=
  existsb (fun c' => negb (c' =? c) && bool_decide (l ∈ c_held (cpus s c'))) (seqZ 0 NCPU).
Definition lock_acquire (c l : Z) : PM unit := fun s =>
  let k := cpus s c in
  if bool_decide (l ∈ c_held k) then Stop (Panicked "acquire") s
  else if held_elsewhere l c s then Stop Spinning s
  else mod_cpu c (set_locks ({[l]} ∪ c_held k) false (if bool_decide (c_held k = ∅) then c_if k else c_intena k)) s.
Definition lock_release (c l : Z) : PM unit := fun s =>
  let k := cpus s c in
  if bool_decide (l ∈ c_held k) then
    let h := c_held k ∖ {[l]} in
    mod_cpu c (set_locks h (bool_decide (h = ∅) && c_intena k) (c_intena k)) s
  else Stop (Panicked "release") s.

(** ** Address spaces of processes (vm.c) *)

(** [switchkvm()] *)
Definition switchkvm (c : Z) : PM unit :=
  let! d := gets kpgdir in
  mod_cpu c (fun k => set_space (V2P d) (c_esp0 k) k).
(** [kvmalloc()] *)
Definition kvmalloc (c : Z) : PM unit :=
  let! d := on_mem c (setupkvm data g) in
  set_kpgdir d ;;
  switchkvm c.
(** [switchuvm(p)] *)
Definition switchuvm (c p : Z) : PM unit :=
  if p =? NULL then panic "switchuvm: no process"
  else
    let! x := get_proc p in
    if p_kstack x =? 0 then panic "switchuvm: no kstack"
    else if p_pgdir x =? 0 then panic "switchuvm: no pgdir"
    else mod_cpu c (set_space (V2P (p_pgdir x)) (p_kstack x + KSTACKSIZE)).

(** ** Creating processes *)

(** The critical section of [allocproc()]: an unused slot gets a pid. *)
Definition allocproc_take (c : Z) : PM (option Z) :=
  lock_acquire c PTLOCK ;;
  let! t := gets pt in
  match find_state UNUSED (seqZ 0 NPROC) t with
  | None => lock_release c PTLOCK ;; ret None
  | Some p =>
      mod_proc p (set_state EMBRYO) ;;
      let! n := gets nextpid in
      mod_proc p (set_pid n) ;;
      set_nextpid (i32 (n + 1)) ;;
      lock_release c PTLOCK ;;
      ret (Some p)
  end.
(** The rest of it: the kernel stack. *)
Definition allocproc_init (c p : Z) : PM Z :=
  let! k := on_mem c al_kalloc in
  mod_proc p (set_kstack k) ;;
  if k =? 0 then mod_proc p (set_state UNUSED) ;; ret NULL
  else
    let tf := k + KSTACKSIZE - TF_SIZE in
    let ra := tf - 4 in
    let ctx := ra - CTX_SIZE in
    on_mem c (vstore ra trapret) ;;
    on_mem c (vmem (memset ctx 0 CTX_SIZE)) ;;
    on_mem c (vstore (ctx + CTX_EIP) forkret_addr) ;;
    mod_proc p (set_frames tf ctx RForkret) ;;
    ret p.
(** [allocproc()] *)
Definition allocproc (c : Z) : PM Z :=
  let! r := allocproc_take c in
  match r with
  | None => ret NULL
  | Some p => allocproc_init c p
  end.

(** The last critical section of [userinit()] and [fork()]:
    [np->state = RUNNABLE]. *)
Definition start_proc (c np : Z) : PM unit :=
  lock_acquire c PTLOCK ;;
  mod_proc np (set_state RUNNABLE) ;;
  lock_release c PTLOCK.

(** [*(ushort* )a = v] *)
Definition vstore16 (a v : Z) : M A unit := vmem (fun m => store16 m a v).

Definition INITCODE : list Z := [105; 110; 105; 116; 99; 111; 100; 101].
Definition ROOTPATH : list Z := [47].

(** [userinit()] *)
Definition userinit (c : Z) : PM unit :=
  let! p := allocproc c in
  set_initproc p ;;
  if p =? NULL then stop_with (Faulted "userinit: null process")
  else
    let! d := on_mem c (setupkvm data g) in
    let! x := get_proc p in
    mod_proc p (set_mm (p_sz x) d) ;;
    if d =? 0 then panic "userinit: out of memory?"
    else
      on_mem c (inituvm d initcode initcode_size) ;;
      mod_proc p (set_mm PGSIZE d) ;;
      let tf := p_tf x in
      let ucode := Z.lor (Z.shiftl SEG_UCODE 3) DPL_USER in
      let udata := Z.lor (Z.shiftl SEG_UDATA 3) DPL_USER in
      on_mem c (vmem (memset tf 0 TF_SIZE)) ;;
      on_mem c (vstore16 (tf + TF_CS) ucode) ;;
      on_mem c (vstore16 (tf + TF_DS) udata) ;;
      on_mem c (vstore16 (tf + TF_ES) udata) ;;
      on_mem c (vstore16 (tf + TF_SS) udata) ;;
      on_mem c (vstore (tf + TF_EFLAGS) FL_IF) ;;
      on_mem c (vstore (tf + TF_ESP) PGSIZE) ;;
      on_mem c (vstore (tf + TF_EIP) 0) ;;
      mod_proc p (set_name INITCODE) ;;
      let! ip := on_kern c (on_fs (namei devsw_read ROOTPATH)) in
      mod_proc p (set_cwd (default NULL ip)) ;;
      start_proc c p.

(** [growproc(n)] *)
Definition growproc (c n : Z) : PM Z :=
  let! p := myproc c in
  let! x := get_proc p in
  let sz := p_sz x in
  let! r :=
    (if 0 <? n then on_mem c (allocuvm (p_pgdir x) sz (sz +u n))
     else if n <? 0 then on_mem c (deallocuvm (p_pgdir x) sz (sz +u n))
     else ret sz) in
  if negb (n =? 0) && (r =? 0) then ret (-1)
  else
    mod_proc p (fun x => set_mm r (p_pgdir x) x) ;;
    switchuvm c p ;;
    ret 0.

(** The loop of [fork] over [curproc->ofile]. *)
Definition dup_one (c np fd f : Z) : PM unit :=
  if f =? NULL then ret tt
  else
    let! f' := on_kern c (filedup f) in
    mod_proc np (fun x => set_ofile (updZ (p_ofile x) fd f') x).
Definition dup_files (c p np : Z) : PM unit :=
  mfor (seqZ 0 NOFILE) (fun fd => let! x := get_proc p in dup_one c np fd (nthZ NULL (p_ofile x) fd)).

(** [fork()] *)
Definition fork (c : Z) : PM Z :=
  let! p := myproc c in
  let! np := allocproc c in
  if np =? NULL then ret (-1)
  else
    let! x := get_proc p in
    let! d := on_mem c (copyuvm data g (p_pgdir x) (p_sz x)) in
    mod_proc np (fun y => set_mm (p_sz y) d y) ;;
    if d =? 0 then
      let! y := get_proc np in
      on_mem c (al_kfree (p_kstack y)) ;;
      mod_proc np (fun y => set_state UNUSED (set_kstack 0 y)) ;;
      ret (-1)
    else
      mod_proc np (set_mm (p_sz x) d) ;;
      mod_proc np (set_parent p) ;;
      let! y := get_proc np in
      on_mem c (vmem (fun m => copied m (p_tf y) (p_tf x) TF_SIZE)) ;;
      on_mem c (vstore (p_tf y + TF_EAX) 0) ;;
      dup_files c p np ;;
      let! x := get_proc p in
      let! ip := on_kern c (on_fs (idup (p_cwd x))) in
      mod_proc np (set_cwd ip) ;;
      mod_proc np (set_name (p_name x)) ;;
      let! y := get_proc np in
      start_proc c np ;;
      ret (p_pid y).

(** ** Sleeping and waking *)

(** [wakeup1(chan)] on the table *)
Definition wake_one (ch : chan) (t : Z -> proc) (p : Z) : Z -> proc :=
  if decide (p_state (t p) = SLEEPING /\ p_chan (t p) = ch) then fupd t p (set_state RUNNABLE (t p)) else t.
Definition wake_table (ch : chan) (t : Z -> proc) : Z -> proc := fold_left (wake_one ch) (seqZ 0 NPROC) t.
Definition wakeup1 (ch : chan) : PM unit := let! t := gets pt in set_pt (wake_table ch t).
(** [wakeup(chan)] *)
Definition wakeup (c : Z) (ch : chan) : PM unit :=
  lock_acquire c PTLOCK ;;
  wakeup1 ch ;;
  lock_release c PTLOCK.

(** [sched()]: the process leaves the processor, to continue at [r]; the
    processor is back in [scheduler]. *)
Definition sched (c : Z) (r : resume) : PM unit :=
  let! p := myproc c in
  let! k := get_cpu c in
  let! x := get_proc p in
  if negb (bool_decide (PTLOCK ∈ c_held k)) then panic "sched ptable.lock"
  else if negb (Z.of_nat (size (c_held k)) =? 1) then panic "sched locks"
  else if decide (p_state x = RUNNING) then panic "sched running"
  else if c_if k then panic "sched interruptible"
  else
    mod_proc p (set_resume r (c_intena k)) ;;
    switchkvm c ;;
    mod_cpu c (set_cproc NULL).

(** [yield()], up to the switch *)
Definition yield (c : Z) : PM unit :=
  lock_acquire c PTLOCK ;;
  let! p := myproc c in
  mod_proc p (set_state RUNNABLE) ;;
  sched c RYield.

(** [sleep(chan, lk)], up to the switch *)
Definition sleep (c : Z) (ch : chan) (lk : Z) (r : resume) : PM unit :=
  let! p := myproc c in
  if p =? NULL then panic "sleep"
  else if lk =? 0 then panic "sleep without lk"
  else
    (if negb (lk =? PTLOCK) then lock_acquire c PTLOCK ;; lock_release c lk else ret tt) ;;
    mod_proc p (set_chan ch) ;;
    mod_proc p (set_state SLEEPING) ;;
    sched c r.

(** The loop of [kill]. *)
Fixpoint kill_loop (pid : Z) (l : list Z) : PM Z :=
  match l with
  | [] => ret (-1)
  | p :: l' =>
      let! x := get_proc p in
      if p_pid x =? pid then
        mod_proc p (set_killed 1) ;;
        (if decide (p_state x = SLEEPING) then mod_proc p (set_state RUNNABLE) else ret tt) ;;
        ret 0
      else kill_loop pid l'
  end.
(** [kill(pid)] *)
Definition kill (c pid : Z) : PM Z :=
  lock_acquire c PTLOCK ;;
  let! r := kill_loop pid (seqZ 0 NPROC) in
  lock_release c PTLOCK ;;
  ret r.

(** ** Exiting and waiting *)

(** The loop of [exit] over its open files. *)
Definition close_one (c p fd : Z) : PM unit :=
  let! x := get_proc p in
  let f := nthZ NULL (p_ofile x) fd in
  if f =? NULL then ret tt
  else
    on_kern c (fileclose f) ;;
    mod_proc p (fun x => set_ofile (updZ (p_ofile x) fd NULL) x).

(** [exit()] up to the last critical section *)
Definition exit_files (c : Z) : PM unit :=
  let! p := myproc c in
  let! ip := gets initproc in
  if p =? ip then panic "init exiting"
  else
    mfor (seqZ 0 NOFILE) (close_one c p) ;;
    on_kern c File.begin_op ;;
    let! x := get_proc p in
    on_kern c (on_fs (iput (p_cwd x))) ;;
    on_kern c File.end_op ;;
    mod_proc p (set_cwd NULL).

(** The loop of [exit] that passes the children to init. *)
Definition abandon_one (p ip : Z) (t : Z -> proc) (q : Z) : Z -> proc :=
  if p_parent (t q) =? p then
    let t' := fupd t q (set_parent ip (t q)) in
    if decide (p_state (t' q) = ZOMBIE) then wake_table (ChProc ip) t' else t'
  else t.

(** The last critical section of [exit()] *)
Definition exit_final (c : Z) : PM unit :=
  let! p := myproc c in
  lock_acquire c PTLOCK ;;
  let! x := get_proc p in
  wakeup1 (ChProc (p_parent x)) ;;
  let! ip := gets initproc in
  let! t := gets pt in
  set_pt (fold_left (abandon_one p ip) (seqZ 0 NPROC) t) ;;
  mod_proc p (set_state ZOMBIE) ;;
  sched c RYield.
Definition exit (c : Z) : PM unit := exit_files c ;; exit_final c.

(** A zombie's slot is cleared. *)
Definition reap (q : Z) (x : proc) : proc :=
  Proc (p_sz x) (p_pgdir x) 0 UNUSED 0 NULL (p_tf x) (p_context x) (p_chan x) 0 (p_ofile x) (p_cwd x)
    (updZ (p_name x) 0 0) (p_resume x) (p_intena x).

(** The scan of [wait]: a zombie child's pid, or whether there are children. *)
Fixpoint wait_loop (c p : Z) (l : list Z) (havekids : bool) : PM (Z + bool) :=
  match l with
  | [] => ret (inr havekids)
  | q :: l' =>
      let! x := get_proc q in
      if negb (p_parent x =? p) then wait_loop c p l' havekids
      else if decide (p_state x = ZOMBIE) then
        on_mem c (al_kfree (p_kstack x)) ;;
        on_mem c (freevm (p_pgdir x)) ;;
        mod_proc q (reap q) ;;
        ret (inl (p_pid x))
      else wait_loop c p l' true
  end.

(** One round of [wait()] with the lock held: its result, or asleep. *)
Definition wait_body (c : Z) : PM (option Z) :=
  let! p := myproc c in
  let! r := wait_loop c p (seqZ 0 NPROC) false in
  match r with
  | inl pid => lock_release c PTLOCK ;; ret (Some pid)
  | inr havekids =>
      let! x := get_proc p in
      if negb havekids || negb (p_killed x =? 0) then lock_release c PTLOCK ;; ret (Some (-1))
      else sleep c (ChProc p) PTLOCK RWait ;; ret None
  end.
(** [wait()] up to its result or its first sleep *)
Definition wait (c : Z) : PM (option Z) := lock_acquire c PTLOCK ;; wait_body c.

(** ** The scheduler *)

(** [forkret()] *)
Definition forkret (c : Z) : PM unit :=
  lock_release c PTLOCK ;;
  let! f := gets first in
  if f then
    set_first false ;;
    on_kern c (on_fs (iinit ROOTDEV)) ;;
    on_kern c (on_fs (lift (blk_init ROOTDEV)))
  else ret tt.

(** What a process does when [swtch] returns to it, up to where the caller of
    [yield], [sleep] or [wait] goes on; the result of [wait] if it has one. *)
Definition resume_proc (c : Z) : PM (option Z) :=
  let! p := myproc c in
  let! x := get_proc p in
  let restore := mod_cpu c (fun k => set_locks (c_held k) (c_if k) (p_intena x) k) in
  match p_resume x with
  | RForkret => forkret c ;; ret None
  | RYield => restore ;; lock_release c PTLOCK ;; ret None
  | RSleep lk =>
      restore ;;
      mod_proc p (set_chan ChNone) ;;
      (if negb (lk =? PTLOCK) then lock_release c PTLOCK ;; lock_acquire c lk else ret tt) ;;
      ret None
  | RWait => restore ;; mod_proc p (set_chan ChNone) ;; wait_body c
  end.

(** The first lines of [scheduler()] *)
Definition scheduler_init (c : Z) : PM unit := mod_cpu c (set_cproc NULL).

(** The start of a round: [sti(); acquire(&ptable.lock); p = ptable.proc] *)
Definition scheduler_round (c : Z) : PM unit :=
  mod_cpu c (fun k => set_locks (c_held k) true (c_intena k) k) ;;
  lock_acquire c PTLOCK ;;
  mod_cpu c (set_pos 0%nat).

(** The rest of the round's loop: the next RUNNABLE process is switched to, or
    the lock is released. *)
Definition scheduler_next (c : Z) : PM (option Z) :=
  let! k := get_cpu c in
  let! t := gets pt in
  match find_state RUNNABLE (seqZ (Z.of_nat (c_pos k)) (NPROC - Z.of_nat (c_pos k))) t with
  | Some p =>
      mod_cpu c (set_cproc p) ;;
      switchuvm c p ;;
      mod_proc p (set_state RUNNING) ;;
      mod_cpu c (set_pos (Z.to_nat (p + 1))) ;;
      ret (Some p)
  | None => lock_release c PTLOCK ;; ret None
  end.

(** The same with what the process does that is switched to. *)
Definition scheduler_go (c : Z) : PM (option Z) :=
  let! r := scheduler_next c in
  match r with Some _ => resume_proc c | None => ret None end.
End Proc.
