(* ===== verification/ProcInv.v ===== *)
(** * proc.c: invariants of the process table

    The state machine of processes on several processors: every step is one
    critical section of proc.c on some processor (or work of the kernel that
    leaves the table alone). *)
From stdpp Require Import base numbers list gmap strings.
From S2P Require Import Prelude Memory StringC Spinlock Mmu Kalloc Block Bio Log Blk Fs Vm Pipe File Proc.
Open Scope Z_scope.

Definition is_proc (p : Z) : Prop := 0 <= p < NPROC.
Definition is_cpu (c : Z) : Prop := 0 <= c < NCPU.

(** The part of a process the state machine is about. *)
Definition core (x : proc) : procstate * Z * Z * chan := (p_state x, p_pid x, p_parent x, p_chan x).

(** No process is suspended in a [sleep] on [ptable.lock] itself other than
    that of [wait]. *)
Definition sane (x : proc) : Prop := p_resume x <> RSleep PTLOCK.

(** ** Scans of the table *)

Lemma find_state_spec x l t :
  match find_state x l t with
  | Some p => p ∈ l /\ p_state (t p) = x
  | None => forall p, p ∈ l -> p_state (t p) <> x
  end.
Proof.
  induction l as [|p l IH]; simpl; [by intros p ?%not_elem_of_nil|].
  destruct (decide _) as [E|E]; [split; [left|done]|].
  destruct (find_state x l t); [destruct IH; split; [by right|done]|].
  intros q [->|Hq]%elem_of_cons; auto.
Qed.

Lemma find_state_first x a n t p q : find_state x (seqZ a n) t = Some p -> a <= q < p -> p_state (t q) <> x.
Proof.
  revert a. assert (Hn : n <= Z.of_nat (Z.to_nat n)) by lia. revert Hn. generalize (Z.to_nat n) at 1 as m. intros m.
  revert n. induction m as [|m IH]; intros n Hn a; [by rewrite seqZ_nil by lia|].
  destruct (decide (0 < n)); [|by rewrite seqZ_nil by lia]. rewrite seqZ_cons by lia. cbn [find_state].
  destruct (decide (p_state (t a) = x)) as [|Hne]; [intros [= ->]; lia|]. intros E Hq.
  destruct (decide (q = a)) as [->|]; [done|]. apply (IH (Z.pred n) ltac:(lia) (Z.succ a) E). lia.
Qed.

Lemma wake_fold_at ch l t q : NoDup l ->
  fold_left (wake_one ch) l t q =
  if decide (q ∈ l /\ p_state (t q) = SLEEPING /\ p_chan (t q) = ch) then set_state RUNNABLE (t q) else t q.
Proof.
  revert t. induction l as [|p l IH]; intros t Hn; cbn [fold_left].
  { case_decide as H; [by destruct H as [?%not_elem_of_nil _]|done]. }
  apply NoDup_cons in Hn as [Hp Hn]. rewrite IH by done.
  assert (Hq : wake_one ch t p q = if decide (q = p /\ p_state (t q) = SLEEPING /\ p_chan (t q) = ch)
                                   then set_state RUNNABLE (t q) else t q).
  { clear IH. unfold wake_one. destruct (decide (p_state (t p) = SLEEPING /\ p_chan (t p) = ch)) as [Hs|Hs].
    - rewrite fupd_at. destruct (Z.eqb_spec q p) as [->|Hne]; case_decide; naive_solver.
    - case_decide; naive_solver. }
  rewrite Hq. clear Hq IH. case_decide as H1; case_decide as H2; case_decide as H3; try done;
    rewrite elem_of_cons in *; naive_solver.
Qed.

Lemma NoDup_procs : NoDup (seqZ 0 NPROC).
Proof. apply NoDup_seqZ. Qed.

(** [wakeup1]: exactly the sleepers on the channel become RUNNABLE. *)
Lemma wake_table_at ch t q : is_proc q ->
  wake_table ch t q =
  if decide (p_state (t q) = SLEEPING /\ p_chan (t q) = ch) then set_state RUNNABLE (t q) else t q.
Proof.
  intros Hq. unfold wake_table. rewrite wake_fold_at by apply NoDup_procs.
  assert (q ∈ seqZ 0 NPROC) by (apply elem_of_seqZ; unfold is_proc in Hq; lia).
  repeat case_decide; naive_solver.
Qed.

Lemma wake_table_out ch t q : ~ is_proc q -> wake_table ch t q = t q.
Proof.
  intros Hq. unfold wake_table. rewrite wake_fold_at by apply NoDup_procs.
  case_decide as H; [|done]. destruct H as [Hin%elem_of_seqZ _]. unfold is_proc in Hq. lia.
Qed.

(** Waking only turns sleepers into RUNNABLE. *)
Definition woken_to (x y : proc) : Prop :=
  y = x \/ p_state x = SLEEPING /\ y = set_state RUNNABLE x.

Lemma wake_table_woken ch t q : woken_to (t q) (wake_table ch t q).
Proof.
  destruct (decide (is_proc q)).
  - rewrite wake_table_at by done. case_decide as H; [right; by destruct H|by left].
  - left. by apply wake_table_out.
Qed.

Lemma woken_to_trans x y z : woken_to x y -> woken_to y z -> woken_to x z.
Proof. intros [->|[H ->]] [->|[H' ->]]; try (by left); by right. Qed.

(** The loop of [exit] over the children: parents change from [p] to [ip],
    sleepers may be woken, and if a zombie was passed on, init is not asleep
    on itself. *)
Record abandoned (p ip : Z) (l : list Z) (t t' : Z -> proc) : Prop := Abandoned {
  ab_at : forall q, exists x, woken_to (t q) x /\
    t' q = if decide (q ∈ l /\ p_parent (t q) = p) then set_parent ip x else x;
  ab_init : forall q, q ∈ l -> p_parent (t q) = p -> p_state (t q) = ZOMBIE -> is_proc ip ->
    ~ (p_state (t' ip) = SLEEPING /\ p_chan (t' ip) = ChProc ip)
}.

Lemma woken_to_parent x y : woken_to x y -> p_parent y = p_parent x /\ p_pid y = p_pid x /\ p_chan y = p_chan x.
Proof. by intros [->|[_ ->]]. Qed.
Lemma woken_to_sleeping x y : woken_to x y -> p_state y = SLEEPING -> y = x.
Proof. by intros [->|[_ ->]]. Qed.
Lemma woken_to_set_parent ip x y : woken_to (set_parent ip x) y -> exists z, woken_to x z /\ y = set_parent ip z.
Proof.
  intros [->|[Hs ->]]; [exists x; split; [by left|done]|].
  exists (set_state RUNNABLE x). split; [by right|by destruct x].
Qed.

Lemma abandon_one_at p ip t q0 :
  (forall q, q <> q0 -> woken_to (t q) (abandon_one p ip t q0 q)) /\
  (exists x, woken_to (t q0) x /\
     abandon_one p ip t q0 q0 = if decide (p_parent (t q0) = p) then set_parent ip x else x) /\
  (p_parent (t q0) = p -> p_state (t q0) = ZOMBIE -> is_proc ip ->
     ~ (p_state (abandon_one p ip t q0 ip) = SLEEPING /\ p_chan (abandon_one p ip t q0 ip) = ChProc ip)).
Proof.
  unfold abandon_one. destruct (Z.eqb_spec (p_parent (t q0)) p) as [Hp|Hp].
  2: { split_and!; [by left|exists (t q0); split; [by left|by case_decide]|done]. }
  set (t' := fupd t q0 (set_parent ip (t q0))).
  assert (Eq0 : t' q0 = set_parent ip (t q0)) by apply fupd_eq.
  assert (Est : p_state (t' q0) = p_state (t q0)) by by rewrite Eq0.
  destruct (decide (p_state (t' q0) = ZOMBIE)) as [Hz|Hz].
  - split_and!.
    + intros q Hq. rewrite <- (fupd_ne t q0 q (set_parent ip (t q0)) Hq). apply wake_table_woken.
    + destruct (woken_to_set_parent ip (t q0) (wake_table (ChProc ip) t' q0)) as (z&?&?).
      { rewrite <- Eq0. apply wake_table_woken. }
      exists z. split; [done|]. by case_decide.
    + intros _ _ Hip. rewrite wake_table_at by done. case_decide as H; [by intros [[=] _]|done].
  - split_and!.
    + intros q Hq. left. by apply fupd_ne.
    + exists (t q0). split; [by left|]. by case_decide.
    + intros _ Hz'. by rewrite Est in Hz.
Qed.

Lemma abandon_fold p ip l t : p <> ip -> NoDup l -> abandoned p ip l t (fold_left (abandon_one p ip) l t).
Proof.
  intros Hpi. revert t. induction l as [|q0 l IH]; intros t Hn; cbn [fold_left].
  { split; [|by intros q ?%not_elem_of_nil]. intros q. exists (t q). split; [by left|].
    case_decide as H; [by destruct H as [?%not_elem_of_nil _]|done]. }
  apply NoDup_cons in Hn as [Hq0 Hn]. destruct (abandon_one_at p ip t q0) as (H1&(x0&Hx0&E0)&H3).
  destruct (IH (abandon_one p ip t q0) Hn) as [Hat Hinit]. clear IH.
  set (t1 := abandon_one p ip t q0) in *. set (t' := fold_left _ l t1) in *. split.
  - intros q. destruct (Hat q) as (x&Hx&Ex). destruct (decide (q = q0)) as [->|Hne].
    + destruct (decide (q0 ∈ l /\ p_parent (t1 q0) = p)) as [[? _]|_] in Ex; [done|].
      destruct (decide (p_parent (t q0) = p)) as [Hp|Hp] in E0.
      * rewrite E0 in Hx. apply woken_to_set_parent in Hx as (z&Hz&->). exists z.
        split; [by eapply woken_to_trans|]. rewrite Ex. case_decide as H; [done|]. destruct H. split; [left|done].
      * exists x. rewrite E0 in Hx. split; [by eapply woken_to_trans|]. rewrite Ex. case_decide as H; [|done]. by destruct H.
    + specialize (H1 q Hne). exists x. split; [by eapply woken_to_trans|]. rewrite Ex.
      destruct (woken_to_parent _ _ H1) as [-> _]. clear Ex. repeat case_decide; rewrite elem_of_cons in *; naive_solver.
  - intros q Hq Hp Hz Hip Hs. destruct (decide (q = q0)) as [->|Hne].
    + apply (H3 Hp Hz Hip). destruct (Hat ip) as (x&Hx&Ex).
      assert (p_state (t' ip) = p_state x /\ p_chan (t' ip) = p_chan x) as [Es Ec] by (rewrite Ex; by case_decide).
      rewrite Es, Ec in Hs. destruct Hs as [Hs Hc]. by rewrite <- (woken_to_sleeping _ _ Hx Hs).
    + apply elem_of_cons in Hq as [->|Hq]; [done|]. specialize (H1 q Hne).
      apply (Hinit q Hq); try done.
      * by rewrite (proj1 (woken_to_parent _ _ H1)).
      * destruct H1 as [->|[Hsl _]]; [done|congruence].
Qed.

Section inv.
Context {St A : Type}.
Abbreviation PS := (pstate St A).
Abbreviation PM := (M PS).

(** ** What the building blocks change *)

(** Nothing of the table's core, the processors, pids or init. *)
Record quiet_on (s s' : PS) : Prop := Quiet {
  qo_core : forall q, core (pt s' q) = core (pt s q);
  qo_sane : forall q, sane (pt s q) -> sane (pt s' q);
  qo_cpus : cpus s' = cpus s;
  qo_pid : nextpid s' = nextpid s;
  qo_init : initproc s' = initproc s
}.
Definition quiet {X} (m : PM X) : Prop := forall s, quiet_on s (final (m s)).

Lemma quiet_on_refl s : quiet_on s s.
Proof. by split. Qed.
Lemma quiet_on_trans s1 s2 s3 : quiet_on s1 s2 -> quiet_on s2 s3 -> quiet_on s1 s3.
Proof. intros [? ? ? ? ?] [? ? ? ? ?]. split; try congruence. auto. Qed.
Lemma quiet_bind {X Y} (m : PM X) (k : X -> PM Y) : quiet m -> (forall x, quiet (k x)) -> quiet (bind m k).
Proof.
  intros Hm Hk s. specialize (Hm s). unfold bind. destruct (m s) as [x s'|e s']; [|done].
  eapply quiet_on_trans; [exact Hm|apply Hk].
Qed.
Lemma quiet_ret {X} (x : X) : quiet (ret x).
Proof. intros s. apply quiet_on_refl. Qed.
Lemma quiet_gets {X} (f : PS -> X) : quiet (gets f).
Proof. intros s. apply quiet_on_refl. Qed.
Lemma quiet_panic {X} e : quiet (stop_with (A := X) e).
Proof. intros s. apply quiet_on_refl. Qed.
Lemma quiet_kern {X} c (m : M (fdstate St A) X) : quiet (on_kern c m).
Proof. intros s. unfold on_kern, zoom. by destruct (m _). Qed.
Lemma quiet_mem {X} c (m : M A X) : quiet (on_mem c m).
Proof. apply quiet_kern. Qed.
Lemma quiet_mod p f : (forall x, core (f x) = core x) -> (forall x, sane x -> sane (f x)) -> quiet (mod_proc p f).
Proof.
  intros Hf Hs s. split; try done; intros q; simpl; rewrite fupd_at; destruct (Z.eqb_spec q p) as [->|]; auto.
Qed.
Lemma quiet_mfor {X} (l : list X) (f : X -> PM unit) : (forall x, quiet (f x)) -> quiet (mfor l f).
Proof. intros Hf. induction l; simpl; [apply quiet_ret|]. by apply quiet_bind. Qed.
Lemma quiet_run {X} (m : PM X) s x s' : quiet m -> m s = Ret x s' -> quiet_on s s'.
Proof. intros Hm E. specialize (Hm s). by rewrite E in Hm. Qed.

Lemma acquire_inv c l (s s' : PS) : lock_acquire c l s = Ret tt s' ->
  l ∉ c_held (cpus s c) /\ (forall c', is_cpu c' -> c' <> c -> l ∉ c_held (cpus s c')) /\
  pt s' = pt s /\ nextpid s' = nextpid s /\ initproc s' = initproc s /\
  (forall c', c' <> c -> cpus s' c' = cpus s c') /\
  c_proc (cpus s' c) = c_proc (cpus s c) /\ c_held (cpus s' c) = {[l]} ∪ c_held (cpus s c) /\ c_if (cpus s' c) = false /\
  c_pos (cpus s' c) = c_pos (cpus s c).
Proof.
  unfold lock_acquire. case_bool_decide as Hl; [done|]. destruct (held_elsewhere l c s) eqn:He; [done|].
  intros [= <-]. cbn [pt nextpid initproc cpus]. split_and!; try done; try (by rewrite fupd_eq).
  - intros c' Hc' Hne Hin. unfold held_elsewhere in He. apply not_true_iff_false in He. apply He.
    apply existsb_exists. exists c'. split; [apply list_elem_of_In, elem_of_seqZ; unfold is_cpu in Hc'; lia|].
    rewrite bool_decide_true by done. by destruct (Z.eqb_spec c' c).
  - intros c' Hne. by apply fupd_ne.
Qed.

Lemma release_inv c l (s s' : PS) : lock_release c l s = Ret tt s' ->
  l ∈ c_held (cpus s c) /\ pt s' = pt s /\ nextpid s' = nextpid s /\ initproc s' = initproc s /\
  (forall c', c' <> c -> cpus s' c' = cpus s c') /\
  c_proc (cpus s' c) = c_proc (cpus s c) /\ c_held (cpus s' c) = c_held (cpus s c) ∖ {[l]} /\
  (c_held (cpus s' c) <> ∅ -> c_if (cpus s' c) = false).
Proof.
  unfold lock_release. case_bool_decide as Hl; [|done]. intros [= <-]. cbn [pt nextpid initproc cpus].
  split_and!; try done; try (by rewrite fupd_eq).
  - intros c' Hne. by apply fupd_ne.
  - rewrite fupd_eq. cbn [c_held c_if set_locks]. intros Hne. by rewrite bool_decide_false.
Qed.

Lemma sched_inv c r (s s' : PS) : sched c r s = Ret tt s' ->
  let p := c_proc (cpus s c) in
  c_held (cpus s c) = {[PTLOCK]} /\ p_state (pt s p) <> RUNNING /\
  (forall q, core (pt s' q) = core (pt s q)) /\ nextpid s' = nextpid s /\ initproc s' = initproc s /\
  (forall c', c' <> c -> cpus s' c' = cpus s c') /\
  c_proc (cpus s' c) = NULL /\ c_held (cpus s' c) = {[PTLOCK]} /\ c_if (cpus s' c) = false /\
  (r <> RSleep PTLOCK -> forall q, sane (pt s q) -> sane (pt s' q)).
Proof.
  unfold sched, myproc, get_cpu, get_proc. mred. cbv zeta. set (p := c_proc (cpus s c)).
  case_bool_decide as Hl; cbn [negb]; [|done].
  destruct (Z.eqb_spec (Z.of_nat (size (c_held (cpus s c)))) 1) as [Hs|]; cbn [negb]; [|done].
  destruct (decide (p_state (pt s p) = RUNNING)) as [|Hr]; [done|].
  destruct (c_if (cpus s c)) eqn:Hif; [done|].
  assert (Hh : c_held (cpus s c) = {[PTLOCK]}).
  { assert (size (c_held (cpus s c)) = 1%nat) as Hs1 by lia. apply size_1_elem_of in Hs1 as [x Hx].
    apply leibniz_equiv in Hx. rewrite Hx in *. f_equal. set_solver. }
  unfold mod_proc, switchkvm, mod_cpu. mred. cbn [pt nextpid initproc first kpgdir cpus kern].
  intros [= <-]. cbn [pt nextpid initproc cpus]. split_and!; try done.
  - intros q. rewrite fupd_at. by destruct (Z.eqb_spec q p) as [->|].
  - intros c' Hc'. by rewrite !fupd_ne.
  - by rewrite fupd_eq.
  - rewrite !fupd_eq. exact Hh.
  - rewrite !fupd_eq. exact Hif.
  - intros Hrs q Hq. rewrite fupd_at. by destruct (Z.eqb_spec q p) as [->|].
Qed.

(** ** The invariant *)

Definition running (s : PS) (q : Z) : Prop := p_state (pt s q) = RUNNING.
Definition on_cpu (s : PS) (c : Z) : Z := c_proc (cpus s c).

(** A process is RUNNING exactly when one processor runs it. *)
Record run_inv (s : PS) : Prop := RunInv {
  ri_cpu : forall c, is_cpu c -> on_cpu s c <> NULL -> is_proc (on_cpu s c) /\ running s (on_cpu s c);
  ri_one : forall c c', is_cpu c -> is_cpu c' -> c <> c' -> on_cpu s c = on_cpu s c' -> on_cpu s c = NULL;
  ri_run : forall p, is_proc p -> running s p -> exists c, is_cpu c /\ on_cpu s c = p
}.

(** Processes have different pids, all below [nextpid]. *)
Record pid_inv (s : PS) : Prop := PidInv {
  pi_next : 0 < nextpid s;
  pi_lt : forall p, is_proc p -> p_state (pt s p) <> UNUSED -> 0 < p_pid (pt s p) < nextpid s;
  pi_inj : forall p q, is_proc p -> is_proc q -> p_state (pt s p) <> UNUSED -> p_state (pt s q) <> UNUSED ->
    p_pid (pt s p) = p_pid (pt s q) -> p = q
}.

(** Asleep in [wait]. *)
Definition waiting (s : PS) (r : Z) : Prop := p_state (pt s r) = SLEEPING /\ p_chan (pt s r) = ChProc r.

(** Nobody waits while a child of his is a zombie. *)
Definition wait_inv (s : PS) : Prop :=
  forall q, is_proc q -> p_state (pt s q) = ZOMBIE -> is_proc (p_parent (pt s q)) -> ~ waiting s (p_parent (pt s q)).

(** Between steps only a processor in the scheduler's loop holds
    [ptable.lock], and then no other lock; one processor holds it at a time;
    interrupts are off where a lock is held. *)
Record lock_inv (s : PS) : Prop := LockInv {
  li_proc : forall c, is_cpu c -> on_cpu s c <> NULL -> PTLOCK ∉ c_held (cpus s c);
  li_sched : forall c, is_cpu c -> on_cpu s c = NULL -> PTLOCK ∈ c_held (cpus s c) -> c_held (cpus s c) = {[PTLOCK]};
  li_if : forall c, is_cpu c -> c_held (cpus s c) <> ∅ -> c_if (cpus s c) = false;
  li_one : forall c c', is_cpu c -> is_cpu c' -> PTLOCK ∈ c_held (cpus s c) -> PTLOCK ∈ c_held (cpus s c') -> c = c'
}.

(** Neither unused nor being made nor dead. *)
Definition alive (x : proc) : Prop := p_state x = SLEEPING \/ p_state x = RUNNABLE \/ p_state x = RUNNING.

(** Nobody is his own parent; init lives and is nobody's child; only [wait]
    sleeps on [ptable.lock]. *)
Record tree_inv (s : PS) : Prop := TreeInv {
  tr_self : forall q, is_proc q -> p_parent (pt s q) <> q;
  tr_init : ~ is_proc (p_parent (pt s (initproc s)));
  tr_alive : alive (pt s (initproc s));
  tr_sane : forall q, is_proc q -> sane (pt s q)
}.

Record proc_inv (s : PS) : Prop := ProcInv {
  inv_run : run_inv s; inv_pid : pid_inv s; inv_wait : wait_inv s; inv_tree : tree_inv s; inv_lock : lock_inv s;
  inv_init : is_proc (initproc s)
}.

(** ** How the parts are kept *)

Lemma run_same s s' : run_inv s -> (forall q, is_proc q -> running s' q <-> running s q) ->
  (forall c, is_cpu c -> on_cpu s' c = on_cpu s c) -> run_inv s'.
Proof.
  intros [H1 H2 H3] Hr Hc. split.
  - intros c Hic Hn. rewrite Hc in * by done. destruct (H1 c Hic Hn). split; [done|]. by apply Hr.
  - intros c c' Hic Hic' Hne. rewrite !Hc by done. by apply H2.
  - intros p Hp Hrun. apply Hr in Hrun; [|done]. destruct (H3 p Hp Hrun) as (c&?&?). exists c. by rewrite Hc.
Qed.

Lemma run_leave s s' c : run_inv s -> is_cpu c -> on_cpu s c <> NULL -> on_cpu s' c = NULL ->
  (forall c', c' <> c -> on_cpu s' c' = on_cpu s c') -> ~ running s' (on_cpu s c) ->
  (forall q, is_proc q -> q <> on_cpu s c -> running s' q <-> running s q) -> run_inv s'.
Proof.
  intros [H1 H2 H3] Hic Hn Hn' Hc Hp Hr. split.
  - intros c' Hic' Hne. destruct (decide (c' = c)) as [->|Hcc]; [done|]. rewrite Hc in * by done.
    destruct (H1 c' Hic' Hne). split; [done|]. apply Hr; [done| |done].
    intros E. apply Hne. by apply (H2 c' c).
  - intros a b Ha Hb Hab E. destruct (decide (a = c)) as [->|Hac]; [done|]. destruct (decide (b = c)) as [->|Hbc]; [congruence|].
    rewrite !Hc in * by done. by apply (H2 a b).
  - intros q Hq Hrun. assert (q <> on_cpu s c) by congruence.
    apply Hr in Hrun; [|done..]. destruct (H3 q Hq Hrun) as (c'&?&Ec). exists c'. split; [done|].
    rewrite Hc; [done|]. congruence.
Qed.

Lemma run_enter s s' c p : run_inv s -> is_cpu c -> on_cpu s c = NULL -> on_cpu s' c = p -> is_proc p ->
  ~ running s p -> running s' p -> (forall c', c' <> c -> on_cpu s' c' = on_cpu s c') ->
  (forall q, is_proc q -> q <> p -> running s' q <-> running s q) -> run_inv s'.
Proof.
  intros [H1 H2 H3] Hic Hn Hn' Hp Hnr Hr Hc Hq.
  assert (Hno : forall c', is_cpu c' -> c' <> c -> on_cpu s' c' <> p).
  { intros c' Hic' Hne E. rewrite Hc in E by done. destruct (H1 c' Hic') as [_ Hr']; [|by rewrite E in Hr'].
    rewrite E. unfold is_proc, NULL in *. lia. }
  split.
  - intros c' Hic' Hne. destruct (decide (c' = c)) as [->|Hcc]; [by rewrite Hn'|].
    pose proof (Hno c' Hic' Hcc). rewrite Hc in * by done. destruct (H1 c' Hic' Hne). split; [done|]. by apply Hq.
  - intros a b Ha Hb Hab E. destruct (decide (a = c)) as [->|Hac].
    + rewrite Hn' in E. by destruct (Hno b).
    + destruct (decide (b = c)) as [->|Hbc]; [rewrite Hn' in E; by destruct (Hno a)|].
      rewrite !Hc in * by done. by apply (H2 a b).
  - intros q Hiq Hrun. destruct (decide (q = p)) as [->|Hqp]; [by exists c|].
    apply Hq in Hrun; [|done..]. destruct (H3 q Hiq Hrun) as (c'&?&Ec). exists c'. split; [done|].
    rewrite Hc; [done|]. intros ->. rewrite Hn in Ec. subst q. unfold is_proc, NULL in *. lia.
Qed.

Lemma pid_same s s' : pid_inv s -> nextpid s' = nextpid s ->
  (forall q, is_proc q -> p_state (pt s' q) <> UNUSED ->
     p_state (pt s q) <> UNUSED /\ p_pid (pt s' q) = p_pid (pt s q)) -> pid_inv s'.
Proof.
  intros [H1 H2 H3] Hn Hq. split; rewrite ?Hn; try done.
  - intros p Hp Hu. destruct (Hq p Hp Hu) as [? ->]. by apply H2.
  - intros p q Hp Hiq Hu Hu'. destruct (Hq p Hp Hu) as [? ->], (Hq q Hiq Hu') as [? ->]. by apply H3.
Qed.

Lemma pid_new s s' np : pid_inv s -> is_proc np -> nextpid s' = nextpid s + 1 ->
  (p_state (pt s' np) <> UNUSED -> p_pid (pt s' np) = nextpid s) ->
  (forall q, is_proc q -> q <> np -> p_state (pt s' q) <> UNUSED ->
     p_state (pt s q) <> UNUSED /\ p_pid (pt s' q) = p_pid (pt s q)) -> pid_inv s'.
Proof.
  intros [H1 H2 H3] Hnp Hn Hnew Hq.
  assert (Hlt : forall q, is_proc q -> q <> np -> p_state (pt s' q) <> UNUSED -> 0 < p_pid (pt s' q) < nextpid s).
  { intros q Hiq Hne Hu. destruct (Hq q Hiq Hne Hu) as [? ->]. by apply H2. }
  split; rewrite ?Hn; [lia| |].
  - intros p Hp Hu. destruct (decide (p = np)) as [->|Hne]; [rewrite Hnew by done; lia|].
    specialize (Hlt p Hp Hne Hu). lia.
  - intros p q Hp Hiq Hu Hu' E. destruct (decide (p = np)) as [->|Hpn], (decide (q = np)) as [->|Hqn]; try done.
    + rewrite Hnew in E by done. specialize (Hlt q Hiq Hqn Hu'). lia.
    + rewrite (Hnew Hu') in E. specialize (Hlt p Hp Hpn Hu). lia.
    + destruct (Hq p Hp Hpn Hu) as [? Ep], (Hq q Hiq Hqn Hu') as [? Eq]. apply H3; congruence.
Qed.


(** ** What the steps do to the table *)

(** A change of one process that creates no RUNNING process, no zombie and no
    sleeper, and gives no pid. *)
Record calm_at (x y : proc) : Prop := Calm {
  ca_run : p_state y = RUNNING <-> p_state x = RUNNING;
  ca_pid : p_state y <> UNUSED -> p_state x <> UNUSED /\ p_pid y = p_pid x;
  ca_zomb : p_state y = ZOMBIE -> p_state x = ZOMBIE /\ p_parent y = p_parent x;
  ca_sleep : p_state y = SLEEPING -> p_state x = SLEEPING /\ p_chan y = p_chan x;
  ca_alive : alive x -> alive y;
  ca_parent : p_parent y = p_parent x \/ p_parent y = NULL;
  ca_sane : sane x -> sane y
}.

Lemma core_eq x y : core x = core y ->
  p_state x = p_state y /\ p_pid x = p_pid y /\ p_parent x = p_parent y /\ p_chan x = p_chan y.
Proof. by intros [= -> -> -> ->]. Qed.

Lemma calm_core x y : core y = core x -> (sane x -> sane y) -> calm_at x y.
Proof. intros (E1&E2&E3&E4)%core_eq Hs. split; unfold alive; rewrite ?E1; auto. Qed.
Lemma calm_refl x : calm_at x x.
Proof. by apply calm_core. Qed.
Lemma calm_trans x y z : calm_at x y -> calm_at y z -> calm_at x z.
Proof.
  intros [a1 a2 a3 a4 a5 a6 a7] [b1 b2 b3 b4 b5 b6 b7]. split; auto.
  - by rewrite b1, a1.
  - intros [H ->]%b2. by apply a2.
  - intros [H ->]%b3. by apply a3.
  - intros [H ->]%b4. by apply a4.
  - destruct b6 as [->|]; auto.
Qed.
Lemma calm_woken x y : woken_to x y -> calm_at x y.
Proof. intros [->|[H ->]]; [apply calm_refl|]. split; unfold alive; simpl; rewrite ?H; auto; done. Qed.

Definition calm (s s' : PS) : Prop := forall q, is_proc q -> calm_at (pt s q) (pt s' q).

Lemma wait_calm s s' : wait_inv s -> calm s s' -> wait_inv s'.
Proof.
  intros Hw Hc q Hq Hs Hp. destruct (ca_zomb _ _ (Hc q Hq) Hs) as [Hz E]. rewrite E in *.
  intros [Hsl Hch]. destruct (ca_sleep _ _ (Hc _ Hp) Hsl) as [? Ech]. apply (Hw q); try done. split; congruence.
Qed.
Lemma pid_calm s s' : pid_inv s -> nextpid s' = nextpid s -> calm s s' -> pid_inv s'.
Proof. intros H En Hc. apply (pid_same s); try done. intros q Hq. by apply (Hc q Hq). Qed.

Lemma tree_calm s s' : tree_inv s -> is_proc (initproc s) -> initproc s' = initproc s -> calm s s' -> tree_inv s'.
Proof.
  intros [H1 H2 H3 H4] Hi Ei Hc. split; rewrite ?Ei; [| |by apply Hc|intros q Hq; by apply Hc, H4].
  - intros q Hq. destruct (ca_parent _ _ (Hc q Hq)) as [->| ->]; [by apply H1|]. unfold is_proc, NULL in *. lia.
  - destruct (ca_parent _ _ (Hc _ Hi)) as [->| ->]; [done|]. unfold is_proc, NULL in *. lia.
Qed.

(** ** What the steps do to the locks *)

(** [lock_inv] for the processors other than [c], which do not hold
    [ptable.lock]. *)
Record lock_but (c : Z) (s : PS) : Prop := LockBut {
  lb_free : forall a, is_cpu a -> a <> c -> PTLOCK ∉ c_held (cpus s a);
  lb_if : forall a, is_cpu a -> a <> c -> c_held (cpus s a) <> ∅ -> c_if (cpus s a) = false
}.

(** Inside a critical section of [c]. *)
Record mid_inv (c : Z) (s : PS) : Prop := MidInv {
  mi_run : run_inv s; mi_pid : pid_inv s; mi_wait : wait_inv s; mi_tree : tree_inv s; mi_lock : lock_but c s;
  mi_init : is_proc (initproc s)
}.

(** Processor [c] ends in the scheduler with the lock. *)
Lemma lock_take s s' c : lock_but c s -> is_cpu c -> (forall c', c' <> c -> cpus s' c' = cpus s c') ->
  on_cpu s' c = NULL -> c_held (cpus s' c) = {[PTLOCK]} -> c_if (cpus s' c) = false -> lock_inv s'.
Proof.
  intros [H1 H2] Hic Hc Hn Hh Hi. unfold on_cpu in *.
  split; unfold on_cpu; intros a; [| | |intros b]; destruct (decide (a = c)) as [->|Hac]; try rewrite (Hc a Hac); auto; try done.
  - intros Ha _ Hl. by destruct (H1 a).
  - intros _ Hb _ Hlb. destruct (decide (b = c)) as [->|Hbc]; [done|]. rewrite (Hc b Hbc) in Hlb. by destruct (H1 b).
  - intros Ha _ Hla _. by destruct (H1 a Ha Hac).
Qed.

(** Processor [c] ends without the lock. *)
Lemma lock_drop s s' c : lock_but c s -> is_cpu c -> (forall c', c' <> c -> cpus s' c' = cpus s c') ->
  PTLOCK ∉ c_held (cpus s' c) -> (c_held (cpus s' c) <> ∅ -> c_if (cpus s' c) = false) -> lock_inv s'.
Proof.
  intros [H1 H2] Hic Hc Hn Hi. unfold on_cpu in *.
  split; unfold on_cpu; intros a; [| | |intros b]; destruct (decide (a = c)) as [->|Hac]; try rewrite (Hc a Hac); auto; try done.
  - intros Ha _ Hl. by destruct (H1 a).
  - intros Ha _ Hl _. by destruct (H1 a).
Qed.

Lemma acquire_mid c (s s1 : PS) : proc_inv s -> lock_acquire c PTLOCK s = Ret tt s1 -> mid_inv c s1.
Proof.
  intros [Hr Hp Hw Ht Hl Hi] (_&Ho&Ept&Enp&Eip&Ec&Ecp&_)%acquire_inv.
  assert (Hpt : forall q, pt s1 q = pt s q) by (intros q; by rewrite Ept).
  split; try (by rewrite Eip).
  - apply (run_same s); [done| |]; intros x Hx; [unfold running; by rewrite Hpt|]. unfold on_cpu.
    destruct (decide (x = c)) as [->|Hne]; [done|]. by rewrite Ec.
  - apply (pid_calm s); [done..|]. intros q _. rewrite Hpt. apply calm_refl.
  - apply (wait_calm s); [done..|]. intros q _. rewrite Hpt. apply calm_refl.
  - apply (tree_calm s); [done..|]. intros q _. rewrite Hpt. apply calm_refl.
  - split; intros a Ha Hne; rewrite (Ec a Hne); [by apply Ho|by apply Hl].
Qed.

(** In the scheduler's loop. *)
Lemma sched_mid c (s : PS) : proc_inv s -> is_cpu c -> PTLOCK ∈ c_held (cpus s c) -> mid_inv c s.
Proof.
  intros [Hr Hp Hw Ht Hl Hi] Hc Hh. split; try done. split; intros a Ha Hne; [|by apply Hl].
  intros Hb. apply Hne. by apply (li_one _ Hl).
Qed.

(** ** Two shapes of steps *)

(** The table is calm, the processors run what they ran. *)
Lemma stay_mid s s' c : mid_inv c s -> calm s s' -> nextpid s' = nextpid s -> initproc s' = initproc s ->
  (forall c', c' <> c -> cpus s' c' = cpus s c') -> on_cpu s' c = on_cpu s c -> mid_inv c s'.
Proof.
  intros [Hr Hp Hw Ht [H1 H2] Hi] Hcalm En Ei Hcs Hcc. split.
  - apply (run_same s); [done| |].
    + intros q Hq. apply (Hcalm q Hq).
    + intros c' Hc'. destruct (decide (c' = c)) as [->|Hne]; [done|]. unfold on_cpu. by rewrite Hcs.
  - by apply (pid_calm s).
  - by apply (wait_calm s).
  - by apply (tree_calm s).
  - split; intros a Ha Hne; rewrite (Hcs a Hne); auto.
  - by rewrite Ei.
Qed.

Lemma release_mid c (s s' : PS) : mid_inv c s -> is_cpu c -> lock_release c PTLOCK s = Ret tt s' -> proc_inv s'.
Proof.
  intros Hm Hc (_&Ept&Enp&Eip&Ec&Ecp&Eh&Hif)%release_inv.
  assert (Hm' : mid_inv c s').
  { apply (stay_mid s); try done. intros q _. rewrite Ept. apply calm_refl. }
  destruct Hm', Hm as [_ _ _ _ Hlb _]. split; try done. apply (lock_drop s s' c); try done. rewrite Eh. set_solver.
Qed.

(** The process on [c] leaves it, the processor is in the scheduler with the
    lock; no other process starts to run or gets a pid. *)
Definition mild_at (x y : proc) : Prop :=
  (p_state y = RUNNING <-> p_state x = RUNNING) /\
  (p_state y <> UNUSED -> p_state x <> UNUSED /\ p_pid y = p_pid x).
Lemma calm_mild x y : calm_at x y -> mild_at x y.
Proof. by intros []. Qed.
Lemma mild_trans x y z : mild_at x y -> mild_at y z -> mild_at x z.
Proof. intros [a1 a2] [b1 b2]. split; [by rewrite b1, a1|]. intros [H ->]%b2. by apply a2. Qed.

Record left_cpu (s s' : PS) (c : Z) : Prop := LeftCpu {
  lc_others : forall q, is_proc q -> q <> on_cpu s c -> mild_at (pt s q) (pt s' q);
  lc_state : p_state (pt s' (on_cpu s c)) <> RUNNING;
  lc_pid : p_pid (pt s' (on_cpu s c)) = p_pid (pt s (on_cpu s c));
  lc_next : nextpid s' = nextpid s;
  lc_init : initproc s' = initproc s;
  lc_cpus : forall c', c' <> c -> cpus s' c' = cpus s c';
  lc_null : on_cpu s' c = NULL;
  lc_held : c_held (cpus s' c) = {[PTLOCK]};
  lc_if : c_if (cpus s' c) = false
}.

Lemma leave_inv s s' c : mid_inv c s -> is_cpu c -> on_cpu s c <> NULL -> left_cpu s s' c ->
  wait_inv s' -> tree_inv s' -> proc_inv s'.
Proof.
  intros [Hr Hp Hw Ht Hl Hi] Hc Hn [] Hw' Ht'. split; [| |done|done| |by rewrite lc_init0].
  - apply (run_leave s s' c); try done.
    + intros c' Hne. unfold on_cpu. by rewrite lc_cpus0.
    + intros q Hq Hne. by apply lc_others0.
  - apply (pid_same s); try done. intros q Hq Hu. destruct (decide (q = on_cpu s c)) as [->|Hne]; [|by apply lc_others0].
    split; [|done]. destruct (ri_cpu _ Hr c Hc Hn) as [_ Hru]. unfold running in Hru. by rewrite Hru.
  - by apply (lock_take s s' c).
Qed.

(** A leaving process that is neither a zombie nor waits for a child, the
    others calm. *)
Lemma leave_calm s s' c : mid_inv c s -> is_cpu c -> on_cpu s c <> NULL -> left_cpu s s' c ->
  (forall q, is_proc q -> q <> on_cpu s c -> calm_at (pt s q) (pt s' q)) ->
  alive (pt s' (on_cpu s c)) -> sane (pt s' (on_cpu s c)) -> p_parent (pt s' (on_cpu s c)) = p_parent (pt s (on_cpu s c)) ->
  (forall q, is_proc q -> p_state (pt s q) = ZOMBIE -> p_parent (pt s q) = on_cpu s c -> ~ waiting s' (on_cpu s c)) ->
  proc_inv s'.
Proof.
  intros Hm Hc Hn Hlc Ho Ha Hsa Hp Hw. apply (leave_inv s s' c); try done.
  - intros q Hq Hs Hpp. destruct (decide (q = on_cpu s c)) as [->|Hne]; [destruct Ha as [?|[?|?]]; congruence|].
    destruct (ca_zomb _ _ (Ho q Hq Hne) Hs) as [Hz E]. rewrite E in *.
    destruct (decide (p_parent (pt s q) = on_cpu s c)) as [Eq|Hnp]; [rewrite Eq; by apply (Hw q)|].
    intros [Hsl Hch]. destruct (ca_sleep _ _ (Ho _ Hpp Hnp) Hsl) as [? Ech].
    apply (mi_wait _ _ Hm q); try done. split; congruence.
  - assert (Hcp : forall q, is_proc q -> p_parent (pt s' q) = p_parent (pt s q) \/ p_parent (pt s' q) = NULL).
    { intros q Hq. destruct (decide (q = on_cpu s c)) as [->|Hne]; [by left|by apply Ho]. }
    destruct Hm as [_ _ _ [H1 H2 H3 H4] _ Hi]. split; rewrite ?(lc_init _ _ _ Hlc).
    + intros q Hq. destruct (Hcp q Hq) as [->| ->]; [by apply H1|]. unfold is_proc, NULL in *. lia.
    + destruct (Hcp _ Hi) as [->| ->]; [done|]. unfold is_proc, NULL in *. lia.
    + destruct (decide (initproc s = on_cpu s c)) as [->|Hne]; [done|by apply Ho].
    + intros q Hq. destruct (decide (q = on_cpu s c)) as [->|Hne]; [done|]. by apply (Ho q Hq Hne), H4.
Qed.

(** [sched] after a change of the table. *)
Lemma sched_left c r (s s1 s' : PS) : sched c r s1 = Ret tt s' ->
  (forall q, is_proc q -> q <> on_cpu s c -> mild_at (pt s q) (pt s1 q)) ->
  p_pid (pt s1 (on_cpu s c)) = p_pid (pt s (on_cpu s c)) ->
  nextpid s1 = nextpid s -> initproc s1 = initproc s -> on_cpu s1 c = on_cpu s c ->
  (forall c', c' <> c -> cpus s1 c' = cpus s c') ->
  left_cpu s s' c /\ (forall q, core (pt s' q) = core (pt s1 q)) /\
  (r <> RSleep PTLOCK -> forall q, sane (pt s1 q) -> sane (pt s' q)).
Proof.
  intros (_&Hnr&Hcore&Enp&Eip&Ec&Ecp&Eh&Eif&Hsa)%sched_inv Hq Hp En Ei Hcc Hcs. fold (on_cpu s1 c) in Hnr. rewrite Hcc in Hnr.
  split; [|by split]. split; try done; try congruence.
  - intros q Hiq Hne. eapply mild_trans; [by apply Hq|]. unfold mild_at. by destruct (core_eq _ _ (Hcore q)) as (->& ->&_).
  - by destruct (core_eq _ _ (Hcore (on_cpu s c))) as [-> _].
  - by destruct (core_eq _ _ (Hcore (on_cpu s c))) as [_ [-> _]].
  - intros c' Hne. by rewrite Ec, Hcs.
Qed.
End inv.
