(* ===== verification/ProcStep.v ===== *)
(** * proc.c: the steps of the process state machine

    Each critical section of proc.c keeps the invariant of the process table;
    [sys_step] is one such section, or other work of the kernel, on any
    processor. *)
From stdpp Require Import base numbers list gmap strings relations.
From S2P Require Import Prelude Memory StringC Spinlock Mmu Kalloc Block Bio Log Blk Fs Vm Pipe File Proc ProcInv.
Open Scope Z_scope.

Section steps.
Context {St : Type} `{BL : BlockLayer St} {A : Type} {page_ok : Z -> Prop} `{PA : PageAllocator A page_ok}.
Abbreviation PS := (pstate St A).
Abbreviation PM := (M PS).

Lemma calm_fupd (s : PS) p x q : calm_at (pt s p) x -> calm_at (pt s q) (fupd (pt s) p x q).
Proof. intros H. rewrite fupd_at. destruct (Z.eqb_spec q p) as [->|]; [done|apply calm_refl]. Qed.

(** ** Leaving the processor *)

(** [p] gets state [x] and channel [ch], nothing else changes, and [sched] is
    called. *)
Lemma leave_with c r x (s s1 s' : PS) : mid_inv c s -> is_cpu c -> on_cpu s c <> NULL -> r <> RSleep PTLOCK ->
  sched c r s1 = Ret tt s' -> (forall q, q <> on_cpu s c -> pt s1 q = pt s q) -> pt s1 (on_cpu s c) = x ->
  alive x -> sane x -> p_pid x = p_pid (pt s (on_cpu s c)) -> p_parent x = p_parent (pt s (on_cpu s c)) ->
  (p_state x = SLEEPING -> p_chan x = ChProc (on_cpu s c) ->
     forall q, is_proc q -> p_parent (pt s q) = on_cpu s c -> p_state (pt s q) <> ZOMBIE) ->
  nextpid s1 = nextpid s -> initproc s1 = initproc s -> on_cpu s1 c = on_cpu s c ->
  (forall c', c' <> c -> cpus s1 c' = cpus s c') -> proc_inv s'.
Proof.
  intros Hm Hc Hn Hr E Ho Hx Ha Hsa Hp Hpp Hw En Ei Ec Hcs.
  apply (sched_left c r s) in E as (Hl&Hcore&Hsn); try done.
  2: { intros q _ Hne. rewrite (Ho q Hne). apply calm_mild, calm_refl. }
  2: { by rewrite Hx. }
  destruct (core_eq _ _ (Hcore (on_cpu s c))) as (Es&_&Er&Ech). rewrite Hx in Es, Er, Ech.
  apply (leave_calm s s' c); try done.
  - intros q _ Hne. apply calm_core; [by rewrite Hcore, Ho|]. intros H. apply Hsn; [done|]. by rewrite Ho.
  - unfold alive. rewrite Es. exact Ha.
  - apply Hsn; [done|]. by rewrite Hx.
  - congruence.
  - intros q Hq Hz Hpar [H1 H2]. eapply Hw; try done; congruence.
Qed.

Lemma yield_ok c (s s' : PS) : proc_inv s -> is_cpu c -> on_cpu s c <> NULL -> yield c s = Ret tt s' -> proc_inv s'.
Proof.
  intros Hi Hc Hn E. unfold yield in E. apply bind_Ret in E as ([]&s1&E1&E).
  assert (Hm := acquire_mid c s s1 Hi E1).
  apply acquire_inv in E1 as (_&_&_&_&_&_&Ecp&_). fold (on_cpu s c) (on_cpu s1 c) in Ecp.
  unfold myproc in E. rewrite bind_gets in E. unfold mod_proc in E. rewrite bind_modify in E.
  fold (on_cpu s1 c) in E. rewrite <- Ecp in Hn.
  apply (leave_with c RYield (set_state RUNNABLE (pt s1 (on_cpu s1 c))) s1 _ s') in E; try done; cbn [pt].
  - intros q Hne. by rewrite fupd_ne.
  - apply fupd_eq.
  - right. by left.
  - by apply (tr_sane _ (mi_tree _ _ Hm)), (ri_cpu _ (mi_run _ _ Hm)).
Qed.

(** The second half of [sleep]. *)
Lemma sleep_tail c ch r (s s1 s' : PS) : mid_inv c s -> is_cpu c -> on_cpu s c <> NULL -> r <> RSleep PTLOCK ->
  (ch = ChProc (on_cpu s c) -> forall q, is_proc q -> p_parent (pt s q) = on_cpu s c -> p_state (pt s q) <> ZOMBIE) ->
  pt s1 = pt s -> nextpid s1 = nextpid s -> initproc s1 = initproc s -> on_cpu s1 c = on_cpu s c ->
  (forall c', c' <> c -> cpus s1 c' = cpus s c') ->
  (mod_proc (on_cpu s c) (set_chan ch) ;; mod_proc (on_cpu s c) (set_state SLEEPING) ;; sched c r) s1 = Ret tt s' ->
  proc_inv s'.
Proof.
  intros Hm Hc Hn Hr Hw Ept En Ei Ec Hcs E.
  unfold mod_proc in E. rewrite !bind_modify in E. cbn [pt nextpid initproc first kpgdir cpus kern] in E.
  rewrite fupd_eq, Ept in E.
  apply (leave_with c r (set_state SLEEPING (set_chan ch (pt s (on_cpu s c)))) s _ s') in E; try done; cbn [pt].
  - intros q Hne. by rewrite !fupd_ne.
  - apply fupd_eq.
  - by left.
  - by apply (tr_sane _ (mi_tree _ _ Hm)), (ri_cpu _ (mi_run _ _ Hm)).
Qed.

(** Sleeping on a channel other than a process. *)
Lemma sleep_ok c a lk (s s' : PS) : proc_inv s -> is_cpu c -> on_cpu s c <> NULL -> lk <> PTLOCK ->
  sleep c (ChAddr a) lk (RSleep lk) s = Ret tt s' -> proc_inv s'.
Proof.
  intros Hi Hc Hn Hlk E. unfold sleep, myproc in E. rewrite bind_gets in E. fold (on_cpu s c) in E.
  destruct (Z.eqb_spec (on_cpu s c) NULL); [done|]. destruct (lk =? 0); [done|].
  destruct (Z.eqb_spec lk PTLOCK); [done|]. cbn [negb] in E.
  apply bind_Ret in E as ([]&s2&E2&E). apply bind_Ret in E2 as ([]&s1&E1&E2).
  assert (Hm := acquire_mid c s s1 Hi E1).
  apply acquire_inv in E1 as (_&_&_&_&_&_&Ecp&_). fold (on_cpu s c) (on_cpu s1 c) in Ecp.
  apply release_inv in E2 as (_&Ept&Enp&Eip&Ec&Ecp2&_). fold (on_cpu s1 c) (on_cpu s2 c) in Ecp2.
  rewrite <- Ecp in *. eapply (sleep_tail c (ChAddr a) _ s1 s2); try done. congruence.
Qed.

(** ** Critical sections that change the table in place *)

(** The table is calm, nothing else changed. *)
Record calm_only (s s' : PS) : Prop := CalmOnly {
  co_calm : forall q, calm_at (pt s q) (pt s' q);
  co_cpus : cpus s' = cpus s;
  co_next : nextpid s' = nextpid s;
  co_init : initproc s' = initproc s
}.

Lemma calm_only_refl s : calm_only s s.
Proof. split; try done; intros q; apply calm_refl. Qed.
Lemma calm_only_trans s1 s2 s3 : calm_only s1 s2 -> calm_only s2 s3 -> calm_only s1 s3.
Proof. intros [a1 a2 a3 a4] [b1 b2 b3 b4]. split; try congruence. intros q. by eapply calm_trans. Qed.
Lemma calm_only_quiet s s' : quiet_on s s' -> calm_only s s'.
Proof. intros [H1 H1' H2 H3 H4]. split; try done. intros q. by apply calm_core, H1'. Qed.

Lemma calm_only_mid c s s' : mid_inv c s -> calm_only s s' -> mid_inv c s'.
Proof.
  intros Hm [H1 H2 H3 H4]. apply (stay_mid s); try done; [intros q _; apply H1|by rewrite H2|unfold on_cpu; by rewrite H2].
Qed.

Lemma calm_only_mod p f (s : PS) : calm_at (pt s p) (f (pt s p)) -> calm_only s (final (mod_proc p f s)).
Proof. intros H. split; try done. intros q. by apply calm_fupd. Qed.

Lemma wakeup_ok c ch (s s' : PS) : proc_inv s -> is_cpu c -> wakeup c ch s = Ret tt s' -> proc_inv s'.
Proof.
  intros Hi Hc E. unfold wakeup in E. apply bind_Ret in E as ([]&s1&E1&E). assert (Hm := acquire_mid c s s1 Hi E1).
  unfold wakeup1, set_pt in E. apply bind_Ret in E as ([]&s2&E2&E). rewrite bind_gets in E2. injection E2 as <-.
  eapply release_mid; [|done|exact E]. eapply calm_only_mid; [exact Hm|]. split; try done.
  intros q. apply calm_woken, wake_table_woken.
Qed.

Lemma kill_loop_calm pid l (s s' : PS) r : kill_loop pid l s = Ret r s' -> calm_only s s'.
Proof.
  revert s. induction l as [|p l IH]; intros s; cbn [kill_loop]; [intros [= _ <-]; apply calm_only_refl|].
  unfold get_proc. rewrite bind_gets. destruct (p_pid _ =? pid); [|apply IH]. clear IH.
  intros E. apply bind_Ret in E as ([]&s1&E1&E). apply bind_Ret in E as ([]&s2&E2&[= _ <-]).
  assert (H1 : calm_only s s1).
  { pose proof (calm_only_mod p (set_killed 1) s) as H. rewrite E1 in H. apply H. by apply calm_core. }
  destruct (decide (p_state (pt s p) = SLEEPING)) as [Hs|Hs]; [|by injection E2 as <-].
  eapply calm_only_trans; [exact H1|]. pose proof (calm_only_mod p (set_state RUNNABLE) s1) as H. rewrite E2 in H.
  apply H. apply calm_woken. right. split; [|done]. injection E1 as <-. cbn [pt]. by rewrite fupd_eq.
Qed.

Lemma kill_ok c pid (s s' : PS) r : proc_inv s -> is_cpu c -> kill c pid s = Ret r s' -> proc_inv s'.
Proof.
  intros Hi Hc E. unfold kill in E. apply bind_Ret in E as ([]&s1&E1&E). assert (Hm := acquire_mid c s s1 Hi E1).
  apply bind_Ret in E as (r'&s2&E2&E). apply kill_loop_calm in E2. apply bind_Ret in E as ([]&s3&E3&[= _ <-]).
  eapply release_mid; [|done|exact E3]. by eapply calm_only_mid.
Qed.

(** ** wait *)

Lemma calm_reap q x : p_state x = ZOMBIE -> calm_at x (reap q x).
Proof. intros H. split; unfold alive; simpl; rewrite ?H; auto; naive_solver. Qed.

(** The scan frees a zombie child, or changes nothing and found no zombie
    among the children. *)
Lemma wait_loop_spec c p l k (s s' : PS) r : wait_loop c p l k s = Ret r s' ->
  match r with
  | inl pid => calm_only s s' /\ exists q, q ∈ l /\ p_parent (pt s q) = p /\ p_state (pt s q) = ZOMBIE /\
      p_pid (pt s q) = pid /\ p_state (pt s' q) = UNUSED
  | inr _ => s' = s /\ forall q, q ∈ l -> p_parent (pt s q) = p -> p_state (pt s q) <> ZOMBIE
  end.
Proof.
  revert k. induction l as [|q l IH]; intros k; cbn [wait_loop].
  { intros [= <- <-]. split; [done|]. by intros q ?%not_elem_of_nil. }
  unfold get_proc. rewrite bind_gets. destruct (Z.eqb_spec (p_parent (pt s q)) p) as [Hp|Hp]; cbn [negb].
  2: { intros E%IH. destruct r as [pid|b].
       - destruct E as (Hc&q'&Hq'&H'). split; [done|]. exists q'. split; [by right|done].
       - destruct E as [-> Hz]. split; [done|]. intros q' [->|Hq']%elem_of_cons; [done|auto]. }
  destruct (decide (p_state (pt s q) = ZOMBIE)) as [Hz|Hz].
  2: { intros E%IH. destruct r as [pid|b].
       - destruct E as (Hc&q'&Hq'&H'). split; [done|]. exists q'. split; [by right|done].
       - destruct E as [-> Hz']. split; [done|]. intros q' [->|Hq']%elem_of_cons; [done|auto]. }
  clear IH. intros E. apply bind_Ret in E as ([]&s1&E1&E). apply bind_Ret in E as ([]&s2&E2&E).
  apply bind_Ret in E as ([]&s3&E3&[= <- <-]).
  assert (Hq2 : quiet_on s s2).
  { eapply quiet_on_trans; eapply quiet_run; [| eassumption | |eassumption]; apply quiet_mem. }
  assert (Hs2 : p_state (pt s2 q) = ZOMBIE) by (by destruct (core_eq _ _ (qo_core _ _ Hq2 q)) as [-> _]).
  split.
  - eapply calm_only_trans; [by apply calm_only_quiet|]. pose proof (calm_only_mod q (reap q) s2) as H.
    rewrite E3 in H. apply H. by apply calm_reap.
  - exists q. split_and!; try done; [left|]. injection E3 as <-. cbn [pt]. by rewrite fupd_eq.
Qed.

(** [sleep] with [ptable.lock] held. *)
Lemma sleep_locked c ch r (s s' : PS) : mid_inv c s -> is_cpu c -> on_cpu s c <> NULL -> r <> RSleep PTLOCK ->
  (ch = ChProc (on_cpu s c) -> forall q, is_proc q -> p_parent (pt s q) = on_cpu s c -> p_state (pt s q) <> ZOMBIE) ->
  sleep c ch PTLOCK r s = Ret tt s' -> proc_inv s'.
Proof.
  intros Hm Hc Hn Hr Hz E. unfold sleep, myproc in E. rewrite bind_gets in E. fold (on_cpu s c) in E.
  destruct (Z.eqb_spec (on_cpu s c) NULL); [done|]. rewrite Z.eqb_refl in E. cbn [negb] in E. cbv iota in E.
  destruct (PTLOCK =? 0); [done|]. apply bind_Ret in E as ([]&s3&[= <-]&E).
  by apply (sleep_tail c ch r s s).
Qed.

Lemma procs_all q : is_proc q -> q ∈ seqZ 0 NPROC.
Proof. intros Hq. apply elem_of_seqZ. unfold is_proc in Hq. lia. Qed.

(** A round of [wait] over the slots of [l]. *)
Definition wait_round (c p : Z) (l : list Z) : PM (option Z) :=
  let! r := wait_loop c p l false in
  match r with
  | inl pid => lock_release c PTLOCK ;; ret (Some pid)
  | inr havekids =>
      let! x := get_proc p in
      if negb havekids || negb (p_killed x =? 0) then lock_release c PTLOCK ;; ret (Some (-1))
      else sleep c (ChProc p) PTLOCK RWait ;; ret None
  end.
Lemma wait_body_eq c s : wait_body c s = wait_round c (on_cpu s c) (seqZ 0 NPROC) s.
Proof. unfold wait_body, wait_round, myproc, on_cpu. rewrite bind_gets. generalize (seqZ 0 NPROC). reflexivity. Qed.

(** A round of [wait] with the lock held. *)
Lemma wait_body_ok c (s s' : PS) r : mid_inv c s -> is_cpu c -> on_cpu s c <> NULL -> wait_body c s = Ret r s' -> proc_inv s'.
Proof.
  intros Hm Hc Hn E. rewrite wait_body_eq in E. revert E. generalize (seqZ 0 NPROC) procs_all. intros l Hall E.
  apply bind_Ret in E as (w&s1&E1&E). apply wait_loop_spec in E1. destruct w as [pid|kids].
  { destruct E1 as [Hcalm _]. apply bind_Ret in E as ([]&s2&E2&[= _ <-]).
    eapply release_mid; [|done|exact E2]. by eapply calm_only_mid. }
  destruct E1 as [-> Hz]. unfold get_proc in E. rewrite bind_gets in E.
  destruct (negb kids || _); [apply bind_Ret in E as ([]&s2&E2&[= _ <-]); by eapply release_mid|].
  apply bind_Ret in E as ([]&s2&E2&[= _ <-]). eapply sleep_locked; try exact E2; try done.
  intros _ q Hq. by apply Hz, Hall.
Qed.

Lemma wait_ok c (s s' : PS) r : proc_inv s -> is_cpu c -> on_cpu s c <> NULL -> wait c s = Ret r s' -> proc_inv s'.
Proof.
  intros Hi Hc Hn E. unfold wait in E. apply bind_Ret in E as ([]&s1&E1&E).
  assert (Hm := acquire_mid c s s1 Hi E1). apply acquire_inv in E1 as (_&_&_&_&_&_&Ecp&_).
  eapply wait_body_ok; [exact Hm|done| |exact E]. unfold on_cpu. by rewrite Ecp.
Qed.

(** ** exit *)

(** What the last section of [exit] does to the table: sleepers are woken, the
    parent among them; [p]'s children get parent [ip], which does not wait if
    one of them is a zombie. *)
Definition exit_table (p ip : Z) (t : Z -> proc) : Z -> proc :=
  fold_left (abandon_one p ip) (seqZ 0 NPROC) (wake_table (ChProc (p_parent (t p))) t).

Record passed_on (p ip : Z) (t t' : Z -> proc) : Prop := PassedOn {
  po_at : forall q, is_proc q -> exists x, woken_to (t q) x /\
    t' q = if decide (p_parent (t q) = p) then set_parent ip x else x;
  po_parent : is_proc (p_parent (t p)) -> p_parent (t p) <> p ->
    ~ (p_state (t' (p_parent (t p))) = SLEEPING /\ p_chan (t' (p_parent (t p))) = ChProc (p_parent (t p)));
  po_init : forall q, is_proc q -> p_parent (t q) = p -> p_state (t q) = ZOMBIE -> is_proc ip ->
    ~ (p_state (t' ip) = SLEEPING /\ p_chan (t' ip) = ChProc ip)
}.

Lemma exit_table_ok p ip t : p <> ip -> passed_on p ip t (exit_table p ip t).
Proof.
  intros Hne. unfold exit_table. set (ch := ChProc (p_parent (t p))). set (t1 := wake_table ch t).
  assert (Hwk : forall q, woken_to (t q) (t1 q)) by (intros q; apply wake_table_woken).
  assert (Hpar : forall q, is_proc q -> ~ (p_state (t1 q) = SLEEPING /\ p_chan (t1 q) = ch)).
  { intros q Hq. subst t1. rewrite wake_table_at by done. case_decide as H; [by intros [[=] _]|done]. }
  destruct (abandon_fold p ip (seqZ 0 NPROC) t1 Hne NoDup_procs) as [Hat Hin].
  clearbody t1. revert Hat Hin. generalize (seqZ 0 NPROC) procs_all. intros l Hall Hat Hin.
  set (t2 := fold_left _ l t1) in *. clearbody t2.
  assert (Hat' : forall q, is_proc q -> exists x, woken_to (t q) x /\ woken_to (t1 q) x /\
    t2 q = if decide (p_parent (t q) = p) then set_parent ip x else x).
  { intros q Hq. destruct (Hat q) as (x&Hx&E). exists x. specialize (Hwk q).
    split_and!; [by eapply woken_to_trans|done|]. rewrite E. destruct (woken_to_parent _ _ Hwk) as [-> _].
    clear E Hat Hin. repeat case_decide; naive_solver. }
  split.
  - intros q Hq. destruct (Hat' q Hq) as (x&?&_&?). by exists x.
  - intros Hp _ [Hs Hc]. destruct (Hat' _ Hp) as (x&_&Hx&E).
    assert (p_state (t2 (p_parent (t p))) = p_state x /\ p_chan (t2 (p_parent (t p))) = p_chan x) as [Es Ec]
      by (rewrite E; by case_decide).
    rewrite Es, Ec in *. apply (Hpar _ Hp). by rewrite <- (woken_to_sleeping _ _ Hx Hs).
  - intros q Hq Hp Hz Hip. specialize (Hwk q). apply (Hin q); try done; [by apply Hall| |].
    + by rewrite (proj1 (woken_to_parent _ _ Hwk)).
    + destruct Hwk as [->|[Hsl _]]; [done|congruence].
Qed.

Lemma exit_final_eq c (s s1 : PS) : lock_acquire c PTLOCK s = Ret tt s1 ->
  exit_final c s =
  sched c RYield (PState (fupd (exit_table (on_cpu s c) (initproc s1) (pt s1)) (on_cpu s c)
      (set_state ZOMBIE (exit_table (on_cpu s c) (initproc s1) (pt s1) (on_cpu s c))))
    (nextpid s1) (initproc s1) (first s1) (kpgdir s1) (cpus s1) (kern s1)).
Proof.
  intros E. unfold exit_final, myproc. rewrite bind_gets. fold (on_cpu s c). unfold bind at 1. rewrite E.
  unfold get_proc, wakeup1, set_pt, mod_proc, exit_table. generalize (seqZ 0 NPROC). intros l. reflexivity.
Qed.

Lemma exit_final_inv c (s s' : PS) : on_cpu s c <> initproc s -> exit_final c s = Ret tt s' ->
  exists s1 t', lock_acquire c PTLOCK s = Ret tt s1 /\ passed_on (on_cpu s c) (initproc s) (pt s1) t' /\
  sched c RYield (PState (fupd t' (on_cpu s c) (set_state ZOMBIE (t' (on_cpu s c))))
    (nextpid s1) (initproc s1) (first s1) (kpgdir s1) (cpus s1) (kern s1)) = Ret tt s'.
Proof.
  intros Hne E. destruct (lock_acquire c PTLOCK s) as [[] s1|e s1] eqn:E1.
  - rewrite (exit_final_eq c s s1 E1) in E. exists s1, (exit_table (on_cpu s c) (initproc s1) (pt s1)).
    split; [done|]. apply acquire_inv in E1 as (_&_&_&_&Ei&_). rewrite Ei in *. split; [by apply exit_table_ok|exact E].
  - unfold exit_final, myproc in E. rewrite bind_gets in E. unfold bind at 1 in E. by rewrite E1 in E.
Qed.

Lemma passed_mild p ip t t' q : passed_on p ip t t' -> is_proc q -> mild_at (t q) (t' q).
Proof.
  intros Hp Hq. destruct (po_at _ _ _ _ Hp q Hq) as (x&Hx&E).
  assert (mild_at (t q) x) as [H1 H2] by by apply calm_mild, calm_woken. rewrite E. by case_decide.
Qed.

Section exited.
Context (c : Z) (s s' : PS) (t' : Z -> proc).
Hypothesis Hm : mid_inv c s.
Hypothesis Hc : is_cpu c.
Hypothesis Hn : on_cpu s c <> NULL.
Hypothesis Hne : on_cpu s c <> initproc s.
Hypothesis Hpo : passed_on (on_cpu s c) (initproc s) (pt s) t'.
Hypothesis Hq' : forall q, q <> on_cpu s c -> core (pt s' q) = core (t' q).
Hypothesis Hp' : core (pt s' (on_cpu s c)) = core (set_state ZOMBIE (t' (on_cpu s c))).
Hypothesis Hs' : forall q, is_proc q -> sane (t' q) -> sane (pt s' q).
Hypothesis Hi' : initproc s' = initproc s.

Lemma exited_proc : is_proc (on_cpu s c).
Proof. by apply (ri_cpu _ (mi_run _ _ Hm)). Qed.

Lemma exited_asleep r : is_proc r -> r <> on_cpu s c -> waiting s' r ->
  (p_state (t' r) = SLEEPING /\ p_chan (t' r) = ChProc r) /\ waiting s r.
Proof.
  intros Hr Hnr [Hs Hch]. destruct (core_eq _ _ (Hq' r Hnr)) as (Es&_&_&Ec). rewrite Es in Hs. rewrite Ec in Hch.
  split; [done|]. destruct (po_at _ _ _ _ Hpo r Hr) as (x&Hx&E).
  assert (p_state (t' r) = p_state x /\ p_chan (t' r) = p_chan x) as [E1 E2] by (rewrite E; by case_decide).
  rewrite E1 in Hs. rewrite E2 in Hch. apply (woken_to_sleeping _ _ Hx) in Hs as H. subst x. done.
Qed.

(** The parent of [q] after the exit. *)
Lemma exited_parent q : is_proc q ->
  p_parent (pt s' q) = if decide (p_parent (pt s q) = on_cpu s c) then initproc s else p_parent (pt s q).
Proof.
  intros Hq. assert (Ep : p_parent (pt s' q) = p_parent (t' q)).
  { destruct (decide (q = on_cpu s c)) as [->|Hnq]; [by destruct (core_eq _ _ Hp') as (_&_&E&_)|].
    by destruct (core_eq _ _ (Hq' q Hnq)) as (_&_&E&_). }
  destruct (po_at _ _ _ _ Hpo q Hq) as (x&Hx&E). rewrite Ep, E. case_decide; [done|].
  by destruct (woken_to_parent _ _ Hx).
Qed.

Lemma exited_wait : wait_inv s'.
Proof.
  pose proof exited_proc as Hip. destruct Hm as [_ _ Hw Ht _ Hii]. intros q Hq Hz Hpp Hwt.
  rewrite (exited_parent q Hq) in *. destruct (decide (q = on_cpu s c)) as [->|Hnq].
  - assert (Hself := tr_self _ Ht _ Hip). destruct (decide (p_parent (pt s (on_cpu s c)) = on_cpu s c)); [done|].
    apply exited_asleep in Hwt as [Hsl _]; try done. by apply (po_parent _ _ _ _ Hpo).
  - destruct (core_eq _ _ (Hq' q Hnq)) as (Es&_). rewrite Es in Hz.
    destruct (po_at _ _ _ _ Hpo q Hq) as (x&Hx&E).
    assert (Hzs : p_state (pt s q) = ZOMBIE).
    { assert (p_state x = ZOMBIE) as Hzx by (rewrite E in Hz; by case_decide). destruct Hx as [->|[_ ->]]; [done|by simpl in Hzx]. }
    destruct (decide (p_parent (pt s q) = on_cpu s c)) as [Epp|Hnp].
    + apply exited_asleep in Hwt as [Hsl _]; try done. by apply (po_init _ _ _ _ Hpo q).
    + apply exited_asleep in Hwt as [_ Hsl]; try done. by apply (Hw q).
Qed.

Lemma exited_tree : tree_inv s'.
Proof.
  pose proof exited_proc as Hip. destruct Hm as [_ _ _ [H1 H2 H3 H4] _ Hii]. split; rewrite ?Hi'.
  - intros q Hq. rewrite exited_parent by done. case_decide as E; [|by apply H1].
    intros <-. by rewrite E in H2.
  - rewrite exited_parent by done. case_decide as E; [by rewrite E in H2|done].
  - destruct (core_eq _ _ (Hq' (initproc s) (not_eq_sym Hne))) as (Es&_).
    destruct (po_at _ _ _ _ Hpo (initproc s) Hii) as (x&Hx&E). unfold alive. rewrite Es, E.
    assert (Ha : alive x) by (eapply ca_alive; [by apply calm_woken|done]). by case_decide.
  - intros q Hq. apply Hs'; [done|]. destruct (po_at _ _ _ _ Hpo q Hq) as (x&Hx&->).
    assert (Ha : sane x) by (eapply ca_sane; [by apply calm_woken|by apply H4]). by case_decide.
Qed.
End exited.

Lemma exit_final_ok c (s s' : PS) : proc_inv s -> is_cpu c -> on_cpu s c <> NULL -> on_cpu s c <> initproc s ->
  exit_final c s = Ret tt s' -> proc_inv s'.
Proof.
  intros Hi Hc Hn Hne (s1&t'&E1&Hpo&E)%exit_final_inv; [|done]. assert (Hm := acquire_mid c s s1 Hi E1).
  apply acquire_inv in E1 as (_&_&_&_&Ei&_&Ecp&_). fold (on_cpu s c) (on_cpu s1 c) in Ecp. rewrite <- Ecp, <- Ei in *.
  assert (Hip : is_proc (on_cpu s1 c)) by by apply (ri_cpu _ (mi_run _ _ Hm)).
  apply (sched_left c RYield s1) in E as (Hl&Hcore&Hsn); cbn [pt nextpid initproc cpus] in *; try done.
  - assert (Hq' : forall q, q <> on_cpu s1 c -> core (pt s' q) = core (t' q)) by (intros q Hq; by rewrite Hcore, fupd_ne).
    assert (Hp' : core (pt s' (on_cpu s1 c)) = core (set_state ZOMBIE (t' (on_cpu s1 c)))) by (by rewrite Hcore, fupd_eq).
    eapply leave_inv; try done.
    + by eapply exited_wait.
    + eapply exited_tree; try done; [|apply Hl]. intros q _ Hq. apply Hsn; [done|].
      rewrite fupd_at. by destruct (Z.eqb_spec q (on_cpu s1 c)) as [->|].
  - intros q Hq Hnq. rewrite fupd_ne by done. by eapply passed_mild.
  - rewrite fupd_eq. destruct (po_at _ _ _ _ Hpo _ Hip) as (x&Hx&Ex).
    destruct (woken_to_parent _ _ Hx) as (_&Epid&_). rewrite <- Epid, Ex. by case_decide.
Qed.

(** ** fork *)

Lemma allocproc_take_ok c (s s' : PS) r : proc_inv s -> is_cpu c -> nextpid s < 2^31 - 1 ->
  allocproc_take c s = Ret r s' -> proc_inv s' /\ (forall p, r = Some p -> is_proc p /\ p_state (pt s' p) = EMBRYO).
Proof.
  intros Hi Hc Hnp E. unfold allocproc_take in E. apply bind_Ret in E as ([]&s1&E1&E).
  assert (Hm := acquire_mid c s s1 Hi E1). apply acquire_inv in E1 as (_&_&_&En&_). rewrite <- En in Hnp.
  rewrite bind_gets in E. pose proof (find_state_spec UNUSED (seqZ 0 NPROC) (pt s1)) as Hf.
  destruct (find_state UNUSED (seqZ 0 NPROC) (pt s1)) as [p|].
  2: { apply bind_Ret in E as ([]&s2&E2&[= <- <-]). split; [by eapply release_mid|done]. }
  destruct Hf as [Hp%elem_of_seqZ Hu]. assert (Hip : is_proc p) by (unfold is_proc; lia). clear Hp.
  unfold mod_proc, set_nextpid in E. rewrite bind_modify, bind_gets, !bind_modify in E.
  cbn [pt nextpid initproc first kpgdir cpus kern] in E. rewrite fupd_eq in E.
  apply bind_Ret in E as ([]&s2&E2&[= <- <-]). split.
  2: { intros q [= <-]. split; [done|]. apply release_inv in E2 as (_&->&_). cbn [pt]. by rewrite fupd_eq. }
  eapply release_mid; [|done|exact E2]. clear E2. set (t' := fupd (fupd _ _ _) _ _).
  assert (Hn' : i32 (nextpid s1 + 1) = nextpid s1 + 1).
  { destruct Hm as [_ [H1 _ _] _ _ _ _]. apply i32_small. unfold is_i32. lia. }
  rewrite Hn'.
  assert (Hne : forall q, q <> p -> t' q = pt s1 q) by (intros q Hq; unfold t'; by rewrite !fupd_ne).
  assert (Hp' : t' p = set_pid (nextpid s1) (set_state EMBRYO (pt s1 p))) by (unfold t'; by rewrite fupd_eq).
  clearbody t'. destruct Hm as [Hr Hpid Hw Ht Hlb Hii]. split; try done.
  - apply (run_same s1); [done| |done]. intros q _. unfold running. cbn [pt].
    destruct (decide (q = p)) as [->|Hq]; [rewrite Hp'; simpl; by rewrite Hu|by rewrite Hne].
  - apply (pid_new s1 _ p); try done; cbn [pt].
    + by rewrite Hp'.
    + intros q _ Hq. by rewrite Hne.
  - intros q Hq Hz Hpp [Hs Hch]. cbn [pt] in *. destruct (decide (q = p)) as [->|Hqp]; [by rewrite Hp' in Hz|].
    rewrite (Hne q Hqp) in Hz, Hpp, Hs, Hch. set (r := p_parent (pt s1 q)) in *.
    destruct (decide (r = p)) as [E|Hrp]; [by rewrite E, Hp' in Hs|].
    rewrite (Hne r Hrp) in Hs, Hch. by apply (Hw q).
  - assert (initproc s1 <> p) as Hnip. { intros <-. destruct (tr_alive _ Ht) as [?|[?|?]]; congruence. }
    destruct Ht as [H1 H2 H3 H4]. split; cbn [pt initproc]; rewrite ?Hne by done; try done;
      intros q Hq; (destruct (decide (q = p)) as [->|Hqp]; [rewrite Hp'|rewrite Hne by done]); auto.
    + by apply H1.
    + by apply H4.
  - by destruct Hlb.
Qed.

(** A process being made is calm to start or to drop. *)
Lemma calm_start x : p_state x = EMBRYO -> calm_at x (set_state RUNNABLE x).
Proof. intros H. split; unfold alive; simpl; rewrite ?H; auto; naive_solver. Qed.
Lemma calm_drop x : p_state x = EMBRYO -> calm_at x (set_state UNUSED x).
Proof. intros H. split; unfold alive; simpl; rewrite ?H; auto; naive_solver. Qed.

Lemma start_proc_ok c np (s s' : PS) : proc_inv s -> is_cpu c -> p_state (pt s np) = EMBRYO ->
  start_proc c np s = Ret tt s' -> proc_inv s'.
Proof.
  intros Hi Hc He E. unfold start_proc in E. apply bind_Ret in E as ([]&s1&E1&E).
  assert (Hm := acquire_mid c s s1 Hi E1). apply acquire_inv in E1 as (_&_&Ept&_).
  apply bind_Ret in E as ([]&s2&E2&E). eapply release_mid; [|done|exact E]. eapply calm_only_mid; [exact Hm|].
  pose proof (calm_only_mod np (set_state RUNNABLE) s1) as H. rewrite E2 in H. apply H. rewrite Ept. by apply calm_start.
Qed.

(** ** Other locks, and the scheduler *)

(** Only the locks and flags of [c] change, not whether it holds
    [ptable.lock]. *)
Lemma side_inv c (s s' : PS) : proc_inv s -> is_cpu c -> pt s' = pt s -> nextpid s' = nextpid s -> initproc s' = initproc s ->
  (forall c', c' <> c -> cpus s' c' = cpus s c') -> on_cpu s' c = on_cpu s c ->
  PTLOCK ∉ c_held (cpus s c) -> PTLOCK ∉ c_held (cpus s' c) ->
  (c_held (cpus s' c) <> ∅ -> c_if (cpus s' c) = false) -> proc_inv s'.
Proof.
  intros [Hr Hp Hw Ht Hl Hii] Hc Ept En Ei Hcs Ecc Hh Hh' Hif.
  assert (Hcalm : calm s s') by (intros q _; rewrite Ept; apply calm_refl).
  split; [| by apply (pid_calm s)|by apply (wait_calm s)|by apply (tree_calm s)| |by rewrite Ei].
  - apply (run_same s); [done|intros q Hq; by apply Hcalm|].
    intros a _. unfold on_cpu. destruct (decide (a = c)) as [->|Ha]; [done|by rewrite Hcs].
  - destruct Hl as [H1 H2 H3 H4]. split; unfold on_cpu in *; intros a; [| | |intros b];
      destruct (decide (a = c)) as [->|Hac]; try rewrite (Hcs a Hac); auto; try done.
    intros Ha Hb Hla Hlb. destruct (decide (b = c)) as [->|Hbc]; [done|].
    rewrite (Hcs b Hbc) in Hlb. by apply H4.
Qed.

Lemma acquire_ok c l (s s' : PS) : proc_inv s -> is_cpu c -> l <> PTLOCK -> PTLOCK ∉ c_held (cpus s c) ->
  lock_acquire c l s = Ret tt s' -> proc_inv s'.
Proof.
  intros Hi Hc Hl Hh (_&_&Ept&En&Ei&Ec&Ecp&Eh&Eif&_)%acquire_inv.
  apply (side_inv c s); try done. rewrite Eh. intros [E%elem_of_singleton|?]%elem_of_union; [by subst|done].
Qed.

Lemma release_ok c l (s s' : PS) : proc_inv s -> is_cpu c -> l <> PTLOCK -> PTLOCK ∉ c_held (cpus s c) ->
  lock_release c l s = Ret tt s' -> proc_inv s'.
Proof.
  intros Hi Hc Hl Hh (_&Ept&En&Ei&Ec&Ecp&Eh&Eif)%release_inv.
  apply (side_inv c s); try done. rewrite Eh. by intros [? _]%elem_of_difference.
Qed.

(** Only fields of [c] change that the invariant does not speak of. *)
Lemma mod_cpu_mid c f (s s' : PS) : mid_inv c s -> (forall k, c_proc (f k) = c_proc k) ->
  mod_cpu c f s = Ret tt s' -> mid_inv c s'.
Proof.
  intros Hm Hf [= <-]. apply (stay_mid s); try done.
  - intros q _. apply calm_refl.
  - intros c' Hne. cbn [cpus]. by apply fupd_ne.
  - unfold on_cpu. cbn [cpus]. rewrite fupd_eq. apply Hf.
Qed.

Lemma scheduler_round_ok c (s s' : PS) : proc_inv s -> is_cpu c -> on_cpu s c = NULL -> c_held (cpus s c) = ∅ ->
  scheduler_round c s = Ret tt s' -> proc_inv s'.
Proof.
  intros Hi Hc Hn Hh E. unfold scheduler_round in E. apply bind_Ret in E as ([]&s1&[= <-]&E).
  set (s1 := PState _ _ _ _ _ _ _) in E.
  assert (Hi1 : proc_inv s1).
  { apply (side_inv c s); subst s1; cbn [pt nextpid initproc cpus]; try done; unfold on_cpu; cbn [cpus];
      rewrite ?fupd_eq; cbn [set_locks c_held c_proc c_if]; rewrite ?Hh; try done. intros c' Hne. by apply fupd_ne. }
  assert (Hn1 : on_cpu s1 c = NULL) by (unfold s1, on_cpu; cbn [cpus]; by rewrite fupd_eq).
  assert (Hh1 : c_held (cpus s1 c) = ∅) by (unfold s1; cbn [cpus]; by rewrite fupd_eq).
  clearbody s1. apply bind_Ret in E as ([]&s2&E2&E). assert (Hm := acquire_mid c s1 s2 Hi1 E2).
  apply acquire_inv in E2 as (_&_&_&_&_&_&Ecp&Eh&Eif&_).
  assert (Hm' : mid_inv c s') by (by apply (mod_cpu_mid c (set_pos 0%nat) s2)).
  injection E as <-. pose proof (mi_lock _ _ Hm') as Hlb. destruct Hm'. split; try done.
  apply (lock_take _ _ c Hlb Hc); unfold on_cpu; cbn [cpus]; rewrite ?fupd_eq; try done.
  - cbn [set_pos c_proc]. by rewrite Ecp.
  - cbn [set_pos c_held]. rewrite Eh, Hh1. set_solver.
Qed.

Lemma scheduler_next_inv c (s s' : PS) r : scheduler_next c s = Ret r s' ->
  match r with
  | Some p =>
      Z.of_nat (c_pos (cpus s c)) <= p < NPROC /\ p_state (pt s p) = RUNNABLE /\ pt s' = fupd (pt s) p (set_state RUNNING (pt s p)) /\
      nextpid s' = nextpid s /\ initproc s' = initproc s /\ (forall c', c' <> c -> cpus s' c' = cpus s c') /\
      on_cpu s' c = p /\ c_held (cpus s' c) = c_held (cpus s c) /\ Z.of_nat (c_pos (cpus s' c)) = p + 1 /\
      (forall q, Z.of_nat (c_pos (cpus s c)) <= q < p -> p_state (pt s q) <> RUNNABLE)
  | None => lock_release c PTLOCK s = Ret tt s' /\ forall q, Z.of_nat (c_pos (cpus s c)) <= q < NPROC -> p_state (pt s q) <> RUNNABLE
  end.
Proof.
  unfold scheduler_next, get_cpu. rewrite !bind_gets. set (k := Z.of_nat (c_pos (cpus s c))).
  pose proof (find_state_spec RUNNABLE (seqZ k (NPROC - k)) (pt s)) as Hf.
  pose proof (find_state_first RUNNABLE k (NPROC - k) (pt s)) as Hfst.
  destruct (find_state _ _ _) as [p|] eqn:Ef.
  - destruct Hf as [Hp%elem_of_seqZ Hr]. intros E. apply bind_Ret in E as ([]&s1&[= <-]&E).
    unfold switchuvm in E. destruct (p =? NULL); [done|]. unfold get_proc in E.
    apply bind_Ret in E as ([]&s2&E2&E). rewrite bind_gets in E2. cbn [pt] in E2.
    destruct (p_kstack _ =? 0); [done|]. destruct (p_pgdir _ =? 0); [done|]. injection E2 as <-.
    unfold mod_proc, mod_cpu in E. rewrite !bind_modify in E. cbn [pt nextpid initproc first kpgdir cpus kern] in E.
    injection E as <- <-. unfold on_cpu. cbn [pt nextpid initproc cpus]. split_and!; rewrite ?fupd_eq; try done; try lia.
    + intros c' Hne. by rewrite !fupd_ne.
    + cbn [set_pos c_pos]. lia.
    + intros q Hq. apply (Hfst p); [done|lia].
  - intros E. apply bind_Ret in E as ([]&s1&E1&[= <- <-]). split; [done|]. intros q Hq. apply Hf, elem_of_seqZ. lia.
Qed.

(** The picked process runs on [c], which still holds the lock. *)
Lemma pick_mid c p (s s' : PS) : mid_inv c s -> is_cpu c -> on_cpu s c = NULL -> is_proc p -> p_state (pt s p) = RUNNABLE ->
  pt s' = fupd (pt s) p (set_state RUNNING (pt s p)) -> nextpid s' = nextpid s -> initproc s' = initproc s ->
  (forall c', c' <> c -> cpus s' c' = cpus s c') -> on_cpu s' c = p -> mid_inv c s'.
Proof.
  intros [Hr Hpid Hw Ht [H1 H2] Hi] Hc Hn Hp Hrn Ept En Ei Hcs Ecp.
  assert (Hne : forall q, q <> p -> pt s' q = pt s q) by (intros q Hq; rewrite Ept; by apply fupd_ne).
  assert (Hpp : pt s' p = set_state RUNNING (pt s p)) by (rewrite Ept; apply fupd_eq).
  split.
  - apply (run_enter s s' c p); try done; unfold running; [congruence|by rewrite Hpp| |].
    + intros c' Hcc. unfold on_cpu. by rewrite Hcs.
    + intros q _ Hq. by rewrite Hne.
  - apply (pid_same s); try done. intros q _. destruct (decide (q = p)) as [->|Hq]; [rewrite Hpp; simpl; by rewrite Hrn|by rewrite Hne].
  - intros q Hq Hz Hpr [Hs Hch]. destruct (decide (q = p)) as [->|Hqp]; [by rewrite Hpp in Hz|].
    rewrite (Hne q Hqp) in *. set (r := p_parent (pt s q)) in *.
    destruct (decide (r = p)) as [E|Hrp]; [by rewrite E, Hpp in Hs|]. rewrite (Hne r Hrp) in *. by apply (Hw q).
  - destruct Ht as [T1 T2 T3 T4].
    assert (Hkeep : forall q, p_parent (pt s' q) = p_parent (pt s q) /\ (alive (pt s q) -> alive (pt s' q)) /\ (sane (pt s q) -> sane (pt s' q))).
    { intros q. destruct (decide (q = p)) as [->|Hq]; [|by rewrite Hne]. rewrite Hpp. split_and!; try done. intros _. by right; right. }
    split; rewrite ?Ei.
    + intros q Hq. destruct (Hkeep q) as [-> _]. by apply T1.
    + by destruct (Hkeep (initproc s)) as [-> _].
    + by apply Hkeep.
    + intros q Hq. by apply Hkeep, T4.
  - split; intros a Ha Hne'; rewrite (Hcs a Hne'); auto.
  - by rewrite Ei.
Qed.

(** What the resumed process does. *)
Lemma resume_eq c (s : PS) : resume_proc c s =
  let p := on_cpu s c in let x := pt s p in
  let restore := mod_cpu c (fun k => set_locks (c_held k) (c_if k) (p_intena x) k) in
  match p_resume x with
  | RForkret => (forkret c ;; ret None) s
  | RYield => (restore ;; lock_release c PTLOCK ;; ret None) s
  | RSleep lk => (restore ;; mod_proc p (set_chan ChNone) ;;
      (if negb (lk =? PTLOCK) then lock_release c PTLOCK ;; lock_acquire c lk else ret tt) ;; ret None) s
  | RWait => (restore ;; mod_proc p (set_chan ChNone) ;; wait_body c) s
  end.
Proof. unfold resume_proc, myproc, get_proc, on_cpu. rewrite !bind_gets. cbv zeta. by destruct (p_resume _). Qed.

Lemma calm_nochan x : p_state x = RUNNING -> calm_at x (set_chan ChNone x).
Proof. intros H. split; unfold alive; simpl; rewrite ?H; auto; naive_solver. Qed.

Lemma nochan_mid c (s s' : PS) : mid_inv c s -> is_cpu c -> on_cpu s c <> NULL ->
  mod_proc (on_cpu s c) (set_chan ChNone) s = Ret tt s' -> mid_inv c s' /\ on_cpu s' c = on_cpu s c.
Proof.
  intros Hm Hc Hn E. split; [|by injection E as <-]. eapply calm_only_mid; [exact Hm|].
  pose proof (calm_only_mod (on_cpu s c) (set_chan ChNone) s) as H. rewrite E in H. apply H.
  by apply calm_nochan, (ri_cpu _ (mi_run _ _ Hm)).
Qed.

Lemma restore_mid c i (s s' : PS) : mid_inv c s -> mod_cpu c (fun k => set_locks (c_held k) (c_if k) i k) s = Ret tt s' ->
  mid_inv c s' /\ on_cpu s' c = on_cpu s c.
Proof.
  intros Hm E. split; [by apply (mod_cpu_mid c (fun k => set_locks (c_held k) (c_if k) i k) s)|]. injection E as <-. unfold on_cpu. cbn [cpus]. by rewrite fupd_eq.
Qed.

(** The resumed [sleep] with lock [lk] ends with the lock or spins for it. *)
Lemma resume_sleep_ok c lk (s s' : PS) : mid_inv c s -> is_cpu c -> lk <> PTLOCK ->
  (lock_release c PTLOCK ;; lock_acquire c lk) s = Ret tt s' \/ (lock_release c PTLOCK ;; lock_acquire c lk) s = Stop Spinning s' ->
  proc_inv s'.
Proof.
  intros Hm Hc Hlk E.
  destruct (lock_release c PTLOCK s) as [[] s1|e s1] eqn:E1.
  2: { exfalso. unfold lock_release in E1. unfold bind in E. unfold lock_release in E.
       case_bool_decide; [done|]. by destruct E. }
  assert (Hi := release_mid c s s1 Hm Hc E1).
  apply release_inv in E1 as H'. destruct H' as (_&_&_&_&_&_&Eh&_).
  assert (Hh : PTLOCK ∉ c_held (cpus s1 c)) by (rewrite Eh; set_solver).
  unfold bind in E. rewrite E1 in E. destruct E as [E|E]; [by eapply acquire_ok|].
  unfold lock_acquire in E. case_bool_decide; [done|]. destruct (held_elsewhere _ _ _); [by injection E as <-|done].
Qed.

(** Any calm change outside the critical sections. *)
Lemma calm_inv (s s' : PS) : proc_inv s -> calm_only s s' -> proc_inv s'.
Proof.
  intros [Hr Hp Hw Ht Hl Hii] [C1 C2 C3 C4]. assert (Hcalm : calm s s') by (intros q _; apply C1).
  split; [|by apply (pid_calm s)|by apply (wait_calm s)|by apply (tree_calm s)| |by rewrite C4].
  - apply (run_same s); [done|intros q Hq'; by apply Hcalm|]. intros a _. unfold on_cpu. by rewrite C2.
  - destruct Hl as [L1 L2 L3 L4]. split; unfold on_cpu in *; rewrite C2; auto.
Qed.
Lemma forkret_ok c (s s' : PS) : mid_inv c s -> is_cpu c -> forkret c s = Ret tt s' -> proc_inv s'.
Proof.
  intros Hm Hc E. unfold forkret in E. apply bind_Ret in E as ([]&s1&E1&E). assert (Hi := release_mid c s s1 Hm Hc E1).
  rewrite bind_gets in E. destruct (first s1); [|by injection E as <-].
  assert (Hq : quiet_on s1 s').
  { eapply quiet_run; [|exact E]. apply quiet_bind; [by intros x; split|]. intros _.
    apply quiet_bind; [apply quiet_kern|]. intros _. apply quiet_kern. }
  by apply (calm_inv s1), calm_only_quiet.
Qed.

Lemma resume_ok c (s s' : PS) r : mid_inv c s -> is_cpu c -> on_cpu s c <> NULL -> resume_proc c s = Ret r s' -> proc_inv s'.
Proof.
  intros Hm Hc Hn E. assert (Hs : sane (pt s (on_cpu s c))) by by apply (tr_sane _ (mi_tree _ _ Hm)), (ri_cpu _ (mi_run _ _ Hm)).
  rewrite resume_eq in E. cbv zeta in E. unfold sane in Hs. destruct (p_resume (pt s (on_cpu s c))) as [| |lk|].
  - apply bind_Ret in E as ([]&s1&E1&[= _ <-]). by eapply forkret_ok.
  - apply bind_Ret in E as ([]&s1&E1&E). apply restore_mid in E1 as [Hm1 _]; [|done].
    apply bind_Ret in E as ([]&s2&E2&[= _ <-]). by eapply release_mid.
  - apply bind_Ret in E as ([]&s1&E1&E). apply restore_mid in E1 as [Hm1 Ec1]; [|done]. rewrite <- Ec1 in *.
    apply bind_Ret in E as ([]&s2&E2&E). apply nochan_mid in E2 as [Hm2 Ec2]; [|done..].
    apply bind_Ret in E as ([]&s3&E3&[= _ <-]). destruct (Z.eqb_spec lk PTLOCK) as [->|Hlk]; [done|].
    cbn [negb] in E3. by eapply (resume_sleep_ok c lk s2); auto.
  - apply bind_Ret in E as ([]&s1&E1&E). apply restore_mid in E1 as [Hm1 Ec1]; [|done]. rewrite <- Ec1 in *.
    apply bind_Ret in E as ([]&s2&E2&E). apply nochan_mid in E2 as [Hm2 Ec2]; [|done..]. rewrite <- Ec2 in Hn.
    by eapply wait_body_ok.
Qed.

(** The scheduler's loop goes on to the next process, which runs to the end
    of its critical section, or to the end of the round. *)
Lemma scheduler_go_ok c (s s' : PS) r : proc_inv s -> is_cpu c -> on_cpu s c = NULL -> PTLOCK ∈ c_held (cpus s c) ->
  scheduler_go c s = Ret r s' -> proc_inv s'.
Proof.
  intros Hi Hc Hn Hl E. assert (Hm := sched_mid c s Hi Hc Hl). unfold scheduler_go in E.
  apply bind_Ret in E as (w&s1&E1&E). apply scheduler_next_inv in E1. destruct w as [p|].
  - destruct E1 as (Hp&Hr&Ept&En&Ei&Ec&Ecp&_). assert (Hip : is_proc p) by (unfold is_proc; lia).
    eapply resume_ok; [|done| |exact E]; [by eapply (pick_mid c p s)|]. rewrite Ecp. unfold is_proc, NULL in *. lia.
  - injection E as _ <-. destruct E1 as [E1 _]. by eapply release_mid.
Qed.

Lemma bind_Stop {X Y} (m : PM X) (k : X -> PM Y) s e s'' : bind m k s = Stop e s'' ->
  m s = Stop e s'' \/ exists a s', m s = Ret a s' /\ k a s' = Stop e s''.
Proof. unfold bind. destruct (m s) as [a s'|e' s']; [by right; exists a, s'|]. intros [= -> ->]. by left. Qed.

Lemma resume_spin c lk (s s' : PS) : mid_inv c s -> is_cpu c -> on_cpu s c <> NULL ->
  p_resume (pt s (on_cpu s c)) = RSleep lk -> resume_proc c s = Stop Spinning s' -> proc_inv s'.
Proof.
  intros Hm Hc Hn Hr E. assert (Hs : sane (pt s (on_cpu s c))) by by apply (tr_sane _ (mi_tree _ _ Hm)), (ri_cpu _ (mi_run _ _ Hm)).
  rewrite resume_eq in E. cbv zeta in E. unfold sane in Hs. rewrite Hr in *.
  apply bind_Stop in E as [E|([]&s1&E1&E)]; [done|]. apply restore_mid in E1 as [Hm1 Ec1]; [|done]. rewrite <- Ec1 in *.
  apply bind_Stop in E as [E|([]&s2&E2&E)]; [done|]. apply nochan_mid in E2 as [Hm2 Ec2]; [|done..].
  apply bind_Stop in E as [E|([]&s3&E3&E)]; [|done].
  destruct (Z.eqb_spec lk PTLOCK) as [->|Hlk]; [done|]. cbn [negb] in E. by eapply (resume_sleep_ok c lk s2); auto.
Qed.

(** A woken sleeper that spins for its lock. *)
Lemma scheduler_spin_ok c p lk (s s1 s' : PS) : proc_inv s -> is_cpu c -> on_cpu s c = NULL -> PTLOCK ∈ c_held (cpus s c) ->
  scheduler_next c s = Ret (Some p) s1 -> p_resume (pt s1 p) = RSleep lk -> resume_proc c s1 = Stop Spinning s' -> proc_inv s'.
Proof.
  intros Hi Hc Hn Hl (Hp&Hr&Ept&En&Ei&Ec&Ecp&_)%scheduler_next_inv Hres E. assert (Hm := sched_mid c s Hi Hc Hl).
  assert (Hip : is_proc p) by (unfold is_proc; lia). assert (p <> NULL) by (unfold is_proc, NULL in *; lia).
  eapply (resume_spin c lk s1); try done; [by eapply (pick_mid c p s)|by rewrite Ecp|by rewrite Ecp].
Qed.

(** The parent of a process being made is set by the one that makes it. *)
Lemma adopt_ok c np (s s' : PS) : proc_inv s -> is_cpu c -> on_cpu s c <> NULL -> p_state (pt s np) = EMBRYO ->
  mod_proc np (set_parent (on_cpu s c)) s = Ret tt s' -> proc_inv s'.
Proof.
  intros [Hr Hp Hw Ht Hl Hii] Hc Hn He [= <-]. destruct (ri_cpu _ Hr c Hc Hn) as [Hip Hru]. unfold running in Hru.
  set (s' := PState _ _ _ _ _ _ _).
  assert (Hne : forall q, q <> np -> pt s' q = pt s q) by (intros q Hq; by apply fupd_ne).
  assert (Hpp : pt s' np = set_parent (on_cpu s c) (pt s np)) by apply fupd_eq.
  assert (Hst : forall q, p_state (pt s' q) = p_state (pt s q) /\ p_pid (pt s' q) = p_pid (pt s q) /\
    p_chan (pt s' q) = p_chan (pt s q) /\ p_resume (pt s' q) = p_resume (pt s q)).
  { intros q. destruct (decide (q = np)) as [->|Hq]; [by rewrite Hpp|by rewrite Hne]. }
  assert (Hcpu : cpus s' = cpus s) by done. assert (Hini : initproc s' = initproc s) by done.
  assert (Hnx : nextpid s' = nextpid s) by done. clearbody s'.
  assert (Hnin : initproc s <> np) by (intros <-; destruct (tr_alive _ Ht) as [?|[?|?]]; congruence).
  split; try (by rewrite Hini).
  - apply (run_same s); [done| |]; intros q Hq; [unfold running; by destruct (Hst q) as [-> _]|unfold on_cpu; by rewrite Hcpu].
  - apply (pid_same s); try done. intros q _. by destruct (Hst q) as (->& ->&_).
  - intros q Hq Hz Hpr [H1 H2]. assert (q <> np) as Hqn by (intros ->; destruct (Hst np) as [E _]; congruence).
    rewrite (Hne q Hqn) in *. destruct (Hst (p_parent (pt s q))) as (E1&_&E3&_).
    apply (Hw q); try done. split; congruence.
  - destruct Ht as [T1 T2 T3 T4]. split; rewrite ?Hini, ?Hne by done; try done.
    + intros q Hq. destruct (decide (q = np)) as [->|Hqn]; [|rewrite Hne by done; by apply T1].
      rewrite Hpp. cbn [set_parent p_parent]. intros E. congruence.
    + intros q Hq. unfold sane. destruct (Hst q) as (_&_&_& ->). by apply T4.
  - destruct Hl as [L1 L2 L3 L4]. split; unfold on_cpu in *; rewrite Hcpu; auto.
Qed.

End steps.
