(* ===== verification/ProcProps.v ===== *)
(** * proc.c: the processes as a system

    [sys_step] interleaves the critical sections of proc.c on all processors
    with other work of the kernel.  From the state [userinit] leaves, the
    invariant of ProcInv holds for ever; the properties follow from it. *)
From stdpp Require Import base numbers list gmap strings.
From S2P Require Import Prelude Memory StringC Spinlock Mmu Kalloc Block Bio Log Blk Fs Vm Pipe File Proc ProcInv ProcStep.
Open Scope Z_scope.

Section system.
Context {St : Type} `{BL : BlockLayer St} {A : Type} {page_ok : Z -> Prop} `{PA : PageAllocator A page_ok}.
Abbreviation PS := (pstate St A).

(** One step on processor [c].  [sy_quiet] is any work that leaves the states,
    pids, parents and channels alone; a process is made in three steps
    ([sy_take], [sy_adopt], [sy_start]) or dropped ([sy_drop]); [sy_go] is the
    scheduler's switch with the resumed process up to the end of its critical
    section, [sy_spin] the same for a sleeper whose lock is taken. *)
Inductive sys_step : PS -> PS -> Prop :=
| sy_quiet s s' : quiet_on s s' -> sys_step s s'
| sy_space c cr3 esp0 s s' : is_cpu c -> PTLOCK ∉ c_held (cpus s c) ->
    mod_cpu c (set_space cr3 esp0) s = Ret tt s' -> sys_step s s'
| sy_lock c l s s' : is_cpu c -> l <> PTLOCK -> PTLOCK ∉ c_held (cpus s c) -> lock_acquire c l s = Ret tt s' -> sys_step s s'
| sy_unlock c l s s' : is_cpu c -> l <> PTLOCK -> PTLOCK ∉ c_held (cpus s c) -> lock_release c l s = Ret tt s' -> sys_step s s'
| sy_yield c s s' : is_cpu c -> on_cpu s c <> NULL -> yield c s = Ret tt s' -> sys_step s s'
| sy_sleep c a lk s s' : is_cpu c -> on_cpu s c <> NULL -> lk <> PTLOCK ->
    sleep c (ChAddr a) lk (RSleep lk) s = Ret tt s' -> sys_step s s'
| sy_wakeup c ch s s' : is_cpu c -> wakeup c ch s = Ret tt s' -> sys_step s s'
| sy_kill c pid r s s' : is_cpu c -> kill c pid s = Ret r s' -> sys_step s s'
| sy_wait c r s s' : is_cpu c -> on_cpu s c <> NULL -> wait c s = Ret r s' -> sys_step s s'
| sy_exit c s s' : is_cpu c -> on_cpu s c <> NULL -> on_cpu s c <> initproc s -> exit_final c s = Ret tt s' -> sys_step s s'
| sy_take c r s s' : is_cpu c -> nextpid s < 2^31 - 1 -> allocproc_take c s = Ret r s' -> sys_step s s'
| sy_adopt c np s s' : is_cpu c -> on_cpu s c <> NULL -> p_state (pt s np) = EMBRYO ->
    mod_proc np (set_parent (on_cpu s c)) s = Ret tt s' -> sys_step s s'
| sy_start c np s s' : is_cpu c -> p_state (pt s np) = EMBRYO -> start_proc c np s = Ret tt s' -> sys_step s s'
| sy_drop np f s s' : p_state (pt s np) = EMBRYO -> (forall x, core (f x) = core (set_state UNUSED x)) ->
    (forall x, sane x -> sane (f x)) -> mod_proc np f s = Ret tt s' -> sys_step s s'
| sy_round c s s' : is_cpu c -> on_cpu s c = NULL -> c_held (cpus s c) = ∅ -> scheduler_round c s = Ret tt s' -> sys_step s s'
| sy_go c r s s' : is_cpu c -> on_cpu s c = NULL -> PTLOCK ∈ c_held (cpus s c) -> scheduler_go c s = Ret r s' -> sys_step s s'
| sy_spin c p lk s s1 s' : is_cpu c -> on_cpu s c = NULL -> PTLOCK ∈ c_held (cpus s c) ->
    scheduler_next c s = Ret (Some p) s1 -> p_resume (pt s1 p) = RSleep lk -> resume_proc c s1 = Stop Spinning s' ->
    sys_step s s'.

Lemma sys_step_inv s s' : proc_inv s -> sys_step s s' -> proc_inv s'.
Proof.
  intros Hi Hs. destruct Hs as [s s' Hq|c ? ? s s' Hc Hh E|c l s s' Hc Hl Hh E|c l s s' Hc Hl Hh E|c s s' Hc Hn E|c a lk s s' Hc Hn Hl E
    |c ch s s' Hc E|c pid r s s' Hc E|c r s s' Hc Hn E|c s s' Hc Hn Hne E|c r s s' Hc Hn E|c np s s' Hc Hn He E
    |c np s s' Hc He E|np f s s' He Hf Hs E|c s s' Hc Hn Hh E|c r s s' Hc Hn Hh E|c p lk s s1 s' Hc Hn Hh E1 Hr E].
  - by eapply calm_inv, calm_only_quiet.
  - injection E as <-. apply (side_inv c s); try done; unfold on_cpu; cbn [cpus]; rewrite ?fupd_eq; try done.
    + intros c' Hne. by apply fupd_ne.
    + by apply (inv_lock _ Hi).
  - by eapply acquire_ok.
  - by eapply release_ok.
  - by eapply yield_ok.
  - by eapply sleep_ok.
  - by eapply wakeup_ok.
  - by eapply kill_ok.
  - by eapply wait_ok.
  - by eapply exit_final_ok.
  - by eapply allocproc_take_ok.
  - by eapply adopt_ok.
  - by eapply start_proc_ok.
  - injection E as <-. apply (calm_inv s); [done|]. split; try done. intros q. cbn [pt]. apply calm_fupd.
    eapply calm_trans; [by apply calm_drop|]. apply calm_core; [by rewrite Hf|]. intros H. apply Hs. done.
  - by eapply scheduler_round_ok.
  - by eapply scheduler_go_ok.
  - by eapply scheduler_spin_ok.
Qed.

(** What [userinit] leaves: init is RUNNABLE with pid 1, the other slots are
    unused, no processor runs a process. *)
Record booted (s : PS) : Prop := Booted {
  bo_init : is_proc (initproc s);
  bo_run : p_state (pt s (initproc s)) = RUNNABLE;
  bo_pid : p_pid (pt s (initproc s)) = 1;
  bo_next : nextpid s = 2;
  bo_rest : forall q, is_proc q -> q <> initproc s -> p_state (pt s q) = UNUSED;
  bo_parent : forall q, p_parent (pt s q) = NULL;
  bo_sane : forall q, sane (pt s q);
  bo_cpus : forall c, on_cpu s c = NULL /\ c_held (cpus s c) = ∅
}.

Lemma booted_inv s : booted s -> proc_inv s.
Proof.
  intros [Hi Hr Hp Hn Hrest Hpar Hsn Hc].
  assert (Hone : forall q, is_proc q -> p_state (pt s q) <> UNUSED -> q = initproc s).
  { intros q Hq Hu. destruct (decide (q = initproc s)); [done|]. by destruct Hu; apply Hrest. }
  split; try done.
  - split.
    + intros c _ Hne. by destruct (Hc c).
    + intros c c' _ _ _ _. apply Hc.
    + intros p Hip Hru. unfold running in Hru. rewrite (Hone p Hip) in Hru; congruence.
  - split; rewrite ?Hn; [lia| |].
    + intros p Hip Hu. rewrite (Hone p Hip Hu), Hp. lia.
    + intros p q Hip Hiq Hu Hu' _. by rewrite (Hone p Hip Hu), (Hone q Hiq Hu').
  - intros q Hq Hz. rewrite (Hone q Hq) in Hz; congruence.
  - split; try done.
    + intros q Hq. rewrite Hpar. unfold is_proc, NULL in *. lia.
    + rewrite Hpar. unfold is_proc, NULL. lia.
    + right. by left.
  - split; intros c; [| | |intros c']; destruct (Hc c) as [Hcc Hch]; rewrite ?Hcc, ?Hch; try done; set_solver.
Qed.

Lemma reachable_inv s0 s : booted s0 -> star sys_step s0 s -> proc_inv s.
Proof. intros Hb Hs. eapply star_invariant; [|exact Hs|by apply booted_inv]. intros x y Hx Hy. by eapply sys_step_inv. Qed.

(** ** The properties *)


(** C14. No wakeup is lost between [exit] and [wait]: in every reachable state,
    while a process has a zombie child (its own or one passed on to it as
    init) it is not asleep in [wait]. *)
Theorem wait_misses_no_exit s0 s q (H0 : booted s0) (Hs : star sys_step s0 s)
  (Hq : is_proc q) (Hz : p_state (pt s q) = ZOMBIE) :
  ~ waiting s (p_parent (pt s q)) \/ ~ is_proc (p_parent (pt s q)).
Proof.
  destruct (reachable_inv s0 s H0 Hs) as [_ _ Hw _ _ _].
  destruct (decide (0 <= p_parent (pt s q) < NPROC)); [left; by apply Hw|by right].
Qed.

Lemma sched_passes c r (s : PS) : c_held (cpus s c) = {[PTLOCK]} -> p_state (pt s (on_cpu s c)) <> RUNNING ->
  c_if (cpus s c) = false -> exists s', sched c r s = Ret tt s'.
Proof.
  intros Hh Hr Hi. unfold sched, myproc, get_cpu, get_proc. rewrite !bind_gets. fold (on_cpu s c).
  rewrite Hh, bool_decide_true by set_solver. cbn [negb]. rewrite size_singleton. change (Z.of_nat 1 =? 1) with true. cbn [negb].
  destruct (decide _); [done|]. rewrite Hi. by eexists.
Qed.

Lemma acquire_or_spin c l (s : PS) : l ∉ c_held (cpus s c) ->
  lock_acquire c l s = Stop Spinning s \/ exists s1, lock_acquire c l s = Ret tt s1.
Proof.
  intros Hl. unfold lock_acquire. rewrite bool_decide_false by done. destruct (held_elsewhere _ _ _); [by left|].
  right. by eexists.
Qed.


(** ** Fairness of a round *)

(** [n] turns of the loop of the scheduler on [c], in which [q] stayed
    RUNNABLE and was not picked; in between anything happens that leaves the
    loop of [c] where it is and [q] RUNNABLE. *)
Inductive passed_over (c q : Z) (s0 : PS) : nat -> PS -> Prop :=
| po_start : p_state (pt s0 q) = RUNNABLE -> passed_over c q s0 0 s0
| po_other n s s' : passed_over c q s0 n s -> c_pos (cpus s' c) = c_pos (cpus s c) ->
    p_state (pt s' q) = RUNNABLE -> passed_over c q s0 n s'
| po_turn n s r s' : passed_over c q s0 n s -> scheduler_next c s = Ret r s' -> r <> Some q -> passed_over c q s0 (S n) s'.

(** A turn with a RUNNABLE [q] ahead picks a process at or before [q]. *)
Lemma turn_forward c q (s s' : PS) r : scheduler_next c s = Ret r s' -> p_state (pt s q) = RUNNABLE ->
  Z.of_nat (c_pos (cpus s c)) <= q < NPROC -> exists p, r = Some p /\ Z.of_nat (c_pos (cpus s c)) <= p <= q /\
  Z.of_nat (c_pos (cpus s' c)) = p + 1 /\ (p <> q -> p_state (pt s' q) = RUNNABLE).
Proof.
  intros E Hq Hp. apply scheduler_next_inv in E. destruct r as [p|]; [|by destruct E as [_ H]; destruct (H q)].
  destruct E as (Hpos&Hr&Ept&_&_&_&_&_&Ep&Hno). exists p. split_and!; try done; try lia.
  - destruct (Z.le_gt_cases p q); [lia|]. by destruct (Hno q ltac:(lia)).
  - intros Hne. by rewrite Ept, fupd_ne.
Qed.


(** ** kill(0) *)

(** Over a table whose unused slots are those with pid 0, [kill(0)] marks the
    slot the next [allocproc] takes. *)
Lemma kill_zero_loop l (s : PS) p : (forall q, q ∈ l -> p_pid (pt s q) = 0 <-> p_state (pt s q) = UNUSED) ->
  find_state UNUSED l (pt s) = Some p ->
  exists s', kill_loop 0 l s = Ret 0 s' /\ pt s' = fupd (pt s) p (set_killed 1 (pt s p)) /\ cpus s' = cpus s.
Proof.
  induction l as [|q l IH]; intros Hl; cbn [find_state kill_loop]; [done|]. unfold get_proc. rewrite bind_gets.
  assert (Hq := Hl q ltac:(left)). destruct (decide (p_state (pt s q) = UNUSED)) as [Hu|Hu].
  - clear IH. intros [= <-]. apply Hq in Hu as E. rewrite E. change (0 =? 0) with true. cbv iota.
    unfold mod_proc. rewrite bind_modify. destruct (decide (p_state (pt s q) = SLEEPING)); [congruence|]. by eexists.
  - intros E. destruct (Z.eqb_spec (p_pid (pt s q)) 0) as [E0|_]; [by destruct Hu; apply Hq|].
    apply IH; [|done]. intros x Hx. apply Hl. by right.
Qed.

Lemma kill_none pid l (s : PS) : (forall q, q ∈ l -> p_pid (pt s q) <> pid) -> kill_loop pid l s = Ret (-1) s.
Proof.
  induction l as [|q l IH]; intros H; cbn [kill_loop]; [done|]. unfold get_proc. rewrite bind_gets.
  destruct (Z.eqb_spec (p_pid (pt s q)) pid) as [E|_]; [by destruct (H q ltac:(left))|]. apply IH. intros x Hx. apply H. by right.
Qed.

Lemma find_state_ext x l t t' : (forall q, q ∈ l -> p_state (t' q) = p_state (t q)) -> find_state x l t' = find_state x l t.
Proof.
  induction l as [|q l IH]; intros H; cbn [find_state]; [done|]. rewrite (H q) by left.
  destruct (decide _); [done|]. apply IH. intros y Hy. apply H. by right.
Qed.

(** The next process is born killed. *)
Lemma kill_zero_poisons c (s s1 s2 : PS) r p :
  (forall q, is_proc q -> p_pid (pt s q) = 0 <-> p_state (pt s q) = UNUSED) ->
  kill c 0 s = Ret r s1 -> allocproc_take c s1 = Ret (Some p) s2 -> p_state (pt s2 p) = EMBRYO /\ p_killed (pt s2 p) = 1.
Proof.
  intros Hz E1 E2. unfold allocproc_take in E2. apply bind_Ret in E2 as ([]&s3&E3&E2).
  apply acquire_inv in E3 as (_&_&Ept3&_). rewrite bind_gets, Ept3 in E2.
  unfold kill in E1. apply bind_Ret in E1 as ([]&s0&E0&E1). apply acquire_inv in E0 as (_&_&Ept0&_).
  apply bind_Ret in E1 as (v&s4&E4&E1). apply bind_Ret in E1 as ([]&s5&E5&[= _ <-]).
  apply release_inv in E5 as (_&Ept5&_). rewrite Ept5 in *.
  assert (Hz' : forall q, q ∈ seqZ 0 NPROC -> p_pid (pt s0 q) = 0 <-> p_state (pt s0 q) = UNUSED).
  { intros q Hq%elem_of_seqZ. rewrite Ept0. apply Hz. unfold is_proc. lia. }
  clear Hz. revert E2 E4 Hz'. generalize (seqZ 0 NPROC). intros l E2 E4 Hz'.
  destruct (find_state UNUSED l (pt s0)) as [p0|] eqn:Ef.
  2: { assert (Hn := find_state_spec UNUSED l (pt s0)). rewrite Ef in Hn. rewrite kill_none in E4.
       - injection E4 as <- <-. rewrite Ef in E2. by apply bind_Ret in E2 as ([]&?&_&[=]).
       - intros q Hq E. apply (Hn q Hq). by apply Hz'. }
  destruct (kill_zero_loop l s0 p0 Hz' Ef) as (s'&E'&Ept&_). rewrite E' in E4. injection E4 as <- <-.
  rewrite (find_state_ext UNUSED l (pt s0)), Ef in E2.
  2: { intros q _. rewrite Ept, fupd_at. by destruct (Z.eqb_spec q p0) as [->|]. }
  unfold mod_proc, set_nextpid in E2. rewrite bind_modify, bind_gets, !bind_modify in E2.
  cbn [pt nextpid initproc first kpgdir cpus kern] in E2. apply bind_Ret in E2 as ([]&s6&E6&[= <- <-]).
  apply release_inv in E6 as (_&->&_). cbn [pt]. rewrite !fupd_eq, Ept3, ?Ept5, Ept, fupd_eq. done.
Qed.
End system.

(** ** Witnesses: init on processor 0 after the first round *)

#[local] Instance sys_layer : BlockLayer bstate := logged_layer 2 30 1000.
#[local] Instance sys_pages : PageAllocator kmem (page_ok demo_kend) := kmem_allocator demo_kend boot_above.

Definition empty_slot : proc := Proc 0 0 0 UNUSED 0 NULL 0 0 ChNone 0 (replicate 16 NULL) NULL [] RForkret false.
Definition init_slot : proc :=
  Proc 4096 0x80103000 0x80104000 RUNNABLE 1 NULL 0x80104FB4 0x80104F9C ChNone 0 (replicate 16 NULL) 0 INITCODE RForkret false.
Definition boot_system : pstate bstate kmem :=
  PState (fupd (fun _ => empty_slot) 0 init_slot) 2 0 false 0x80102000
    (fun _ => Cpust NULL ∅ false false 0 0 0) boot_files.

Lemma boot_system_booted : booted boot_system.
Proof.
  split; try done.
  - intros q _ Hq. simpl in *. by rewrite fupd_ne.
  - intros q. simpl. rewrite fupd_at. by destruct (q =? 0).
  - intros q. simpl. rewrite fupd_at. by destruct (q =? 0).
Qed.

Definition after_round : pstate bstate kmem := final (scheduler_round 0 boot_system).
Definition after_go : pstate bstate kmem := final (scheduler_go 0 after_round).

Lemma first_round : star sys_step boot_system after_go.
Proof.
  eapply star_snoc; [eapply star_snoc; [apply star_refl|]|].
  - apply (sy_round 0 _ after_round); [unfold is_cpu, NCPU; lia|reflexivity|reflexivity|reflexivity].
  - apply (sy_go 0 None _ after_go); [unfold is_cpu, NCPU; lia|reflexivity| |reflexivity].
    apply (bool_decide_unpack (PTLOCK ∈ c_held (cpus after_round 0))). vm_compute. exact I.
Qed.



(** Init makes a child in slot 1, processor 1 runs it, and it exits. *)
Definition w_take : pstate bstate kmem := final (allocproc_take 0 after_go).
Definition w_mem : pstate bstate kmem := final (mod_proc 1 (fun x => set_kstack 0x80105000 (set_mm 4096 0x80106000 x)) w_take).
Definition w_adopt : pstate bstate kmem := final (mod_proc 1 (set_parent 0) w_mem).
Definition w_start : pstate bstate kmem := final (start_proc 0 1 w_adopt).
Definition w_round : pstate bstate kmem := final (scheduler_round 1 w_start).
Definition w_go : pstate bstate kmem := final (scheduler_go 1 w_round).
Definition w_exit : pstate bstate kmem := final (exit_final 1 w_go).

Lemma cpu_0 : is_cpu 0.
Proof. unfold is_cpu, NCPU. lia. Qed.
Lemma cpu_1 : is_cpu 1.
Proof. unfold is_cpu, NCPU. lia. Qed.

Lemma child_exits : star sys_step boot_system w_exit.
Proof.
  eapply star_trans; [apply first_round|].
  eapply star_snoc; [eapply star_snoc; [eapply star_snoc; [eapply star_snoc; [eapply star_snoc; [eapply star_snoc;
    [eapply star_snoc; [apply star_refl|]|]|]|]|]|]|].
  - apply (sy_take 0 (Some 1) _ w_take); [apply cpu_0|reflexivity|vm_compute; reflexivity].
  - apply (sy_quiet _ w_mem). unfold w_mem. generalize w_take. apply quiet_mod; intros x; [reflexivity|intros H; exact H].
  - apply (sy_adopt 0 1 _ w_adopt); [apply cpu_0|vm_compute; discriminate|vm_compute; reflexivity|vm_compute; reflexivity].
  - apply (sy_start 0 1 _ w_start); [apply cpu_0|vm_compute; reflexivity|vm_compute; reflexivity].
  - apply (sy_round 1 _ w_round); [apply cpu_1|vm_compute; reflexivity|vm_compute; reflexivity|vm_compute; reflexivity].
  - apply (sy_go 1 None _ w_go); [apply cpu_1|vm_compute; reflexivity| |vm_compute; reflexivity].
    apply (bool_decide_unpack (PTLOCK ∈ c_held (cpus w_round 1))). vm_compute. exact I.
  - apply (sy_exit 1 _ w_exit); [apply cpu_1|vm_compute; discriminate|vm_compute; discriminate|vm_compute; reflexivity].
Qed.

Lemma wait_misses_no_exit_witness : p_state (pt w_exit 1) = ZOMBIE /\ ~ waiting w_exit 0.
Proof.
  assert (E : p_state (pt w_exit 1) = ZOMBIE) by (vm_compute; reflexivity). split; [exact E|].
  assert (Ep : p_parent (pt w_exit 1) = 0) by (vm_compute; reflexivity).
  destruct (wait_misses_no_exit boot_system w_exit 1 boot_system_booted child_exits
    ltac:(unfold is_proc, NPROC; lia) E) as [H|H]; [rewrite Ep in H; exact H|].
  destruct H. rewrite Ep. unfold is_proc, NPROC. lia.
Defined.

