(* ===== verification/Syscall.v ===== *)
(** * syscall.c: system call arguments

    The kernel reads and writes user memory through the page table in %cr3;
    an access to a page that is not present faults.  The functions that fetch
    arguments return [None] where the C code returns -1; a fetched pointer is
    the user address, a fetched string its bytes. *)
From stdpp Require Import base numbers list gmap strings.
From S2P Require Import Prelude Memory StringC Spinlock Mmu Kalloc Block Bio Log Blk Fs Vm VmTable VmMap VmUser VmGrow VmProps Pipe File Proc.
Open Scope Z_scope.

Section Syscall.
Context {St : Type} `{BL : BlockLayer St} {A : Type} {page_ok : Z -> Prop} `{PA : PageAllocator A page_ok}.
Abbreviation PM := (M (pstate St A)).

(** ** User memory *)

(** The kernel's view of the byte at [va] under directory [d], as the
    processor translates it. *)
Definition translate (d va : Z) : M A Z :=
  let! pde := vload (d + 4 * PDX va) in
  if Z.land pde PTE_P =? 0 then stop_with (Faulted "page fault")
  else
    let! pte := vload (P2V (PTE_ADDR pde) + 4 * PTX va) in
    if Z.land pte PTE_P =? 0 then stop_with (Faulted "page fault")
    else ret (P2V (PTE_ADDR pte) + va mod PGSIZE).

(** [*(char* )va] and [*(char* )va = v] *)
Definition hw_load (d va : Z) : M A Z := let! a := translate d va in gets (fun s => al_mem s a).
Definition hw_store (d va v : Z) : M A unit := let! a := translate d va in vmem (fun m => store8 m a v).

(** [n] bytes at [va] *)
Fixpoint hw_loads (d va : Z) (n : nat) : M A (list Z) :=
  match n with
  | O => ret []
  | S n' =>
      let! b := hw_load d va in
      let! bs := hw_loads d (va + 1) n' in
      ret (b :: bs)
  end.
Fixpoint hw_stores (d va : Z) (bs : list Z) : M A unit :=
  match bs with
  | [] => ret tt
  | b :: bs' => hw_store d va b ;; hw_stores d (va + 1) bs'
  end.

Definition cr3 (c : Z) : PM Z := let! k := get_cpu c in ret (P2V (c_cr3 k)).
Definition user_bytes (c va n : Z) : PM (list Z) := let! d := cr3 c in on_mem c (hw_loads d va (Z.to_nat n)).
Definition user_store (c va : Z) (bs : list Z) : PM unit := let! d := cr3 c in on_mem c (hw_stores d va bs).
(** [*(uint* )va] *)
Definition user_word (c va : Z) : PM Z := let! bs := user_bytes c va 4 in ret (le_val bs).

(** ** Fetching arguments *)

Definition curproc (c : Z) : PM proc := let! p := myproc c in get_proc p.

(** [fetchint(addr, ip)] *)
Definition fetchint (c addr : Z) : PM (option Z) :=
  let! x := curproc c in
  if (p_sz x <=? addr) || (p_sz x <? addr +u 4) then ret None
  else let! v := user_word c addr in ret (Some (i32 v)).

(** The loop of [fetchstr] from [s] to [ep]: the bytes before the NUL. *)
Fixpoint fetchstr_loop (fuel : nat) (c s ep : Z) : PM (option (list Z)) :=
  match fuel with
  | O => stop_with NoFuel
  | S fuel' =>
      if s <? ep then
        let! b := user_bytes c s 1 in
        if nthZ 0 b 0 =? 0 then ret (Some [])
        else
          let! r := fetchstr_loop fuel' c (s + 1) ep in
          ret (option_map (cons (nthZ 0 b 0)) r)
      else ret None
  end.

(** [fetchstr(addr, pp)] *)
Definition fetchstr (c addr : Z) : PM (option (list Z)) :=
  let! x := curproc c in
  if p_sz x <=? addr then ret None
  else fetchstr_loop (S (Z.to_nat (p_sz x - addr))) c addr (p_sz x).

(** [argint(n, ip)] *)
Definition argint (c n : Z) : PM (option Z) :=
  let! x := curproc c in
  let! esp := on_mem c (vload (p_tf x + TF_ESP)) in
  fetchint c (esp +u 4 +u 4 * n).

(** [argptr(n, pp, size)] *)
Definition argptr (c n size : Z) : PM (option Z) :=
  let! i := argint c n in
  match i with
  | None => ret None
  | Some i =>
      let! x := curproc c in
      if (size <? 0) || (p_sz x <=? u32 i) || (p_sz x <? u32 i +u size) then ret None
      else ret (Some (u32 i))
  end.

(** [argstr(n, pp)] *)
Definition argstr (c n : Z) : PM (option (list Z)) :=
  let! a := argint c n in
  match a with
  | None => ret None
  | Some a => fetchstr c (u32 a)
  end.
End Syscall.

(** ** What user memory holds *)

Section user_memory.
Context {A : Type} {page_ok : Z -> Prop} `{PA : PageAllocator A page_ok}.

(** The byte at [va] of a user space whose page [q] is the frame [U !! q]. *)
Definition ubyte (s : A) (U : gmap Z Z) (va : Z) : Z :=
  match U !! (va / 4096) with Some v => al_mem s (v + va mod 4096) | None => 0 end.

(** A process of size [sz] with directory [d]: every byte below [sz] is in a
    frame of [U]. *)
Record uspace (s : A) (d sz : Z) (U : gmap Z Z) : Prop := Uspace {
  us_size : 0 <= sz <= KERNBASE;
  us_tab : exists l F T ent, ptab s l (tabs U ++ F) d T ent /\ user_ok U ent;
  us_map : forall va, 0 <= va < sz -> is_Some (U !! (va / 4096))
}.

Lemma PDX_at va : is_u32 va -> PDX va = va / 4096 / 1024.
Proof. intros H. rewrite PDX_div, Z.div_div by lia. unfold is_u32 in H. apply Z.mod_small. Z.div_mod_to_equations. lia. Qed.

Lemma translate_ok s d sz U va v : uspace s d sz U -> 0 <= va < sz -> U !! (va / 4096) = Some v ->
  translate d va s = Ret (v + va mod 4096) s.
Proof.
  intros [Hs (l&F&T&ent&Hp&[Hd He]) Hm] Hva Hv. unfold KERNBASE in Hs. set (q := va / 4096) in *.
  assert (Hu : is_u32 va) by (unfold is_u32; lia).
  assert (Hq : 0 <= q < NPAGES) by (subst q; unfold NPAGES; Z.div_mod_to_equations; lia).
  destruct (dir_index q Hq) as [Hd1 Hm1]. assert (Hqu := Hd q v Hv). pose proof (He q Hqu) as Heq. rewrite Hv in Heq.
  destruct Heq as [Hpr Ha]. destruct (T !! (q / 1024)) as [t|] eqn:Ht.
  2: { pose proof (pt_none _ _ _ _ _ _ Hp (q / 1024) (q mod 1024) Ht Hd1 Hm1) as H0. rewrite page_index in H0.
       rewrite H0 in Hpr. by destruct not_present_0. }
  unfold translate, vload. mred. rewrite PDX_at, PTX_div by done. fold q.
  rewrite (pt_dir _ _ _ _ _ _ Hp) by done. rewrite Ht.
  destruct (pde_split t) as (Hprt&Hat&_); [by apply (ptab_tab _ _ _ _ _ _ Hp _ _ Ht)|].
  destruct (Z.eqb_spec (Z.land (Z.lor (V2P t) 7) PTE_P) 0); [done|]. mred. rewrite Hat.
  rewrite (pt_tab _ _ _ _ _ _ Hp (q / 1024) t (q mod 1024)), page_index by done.
  destruct (Z.eqb_spec (Z.land (ent q) PTE_P) 0); [done|]. rewrite Ha, P2V_page; [done|].
  assert (Hall := ptab_F_pages _ _ _ _ _ _ Hp). rewrite Forall_forall in Hall. apply Hall, elem_of_app. left.
  by eapply tabs_elem.
Qed.

Lemma hw_load_ok s d sz U va : uspace s d sz U -> 0 <= va < sz -> hw_load d va s = Ret (ubyte s U va) s.
Proof.
  intros Hs Hva. destruct (us_map _ _ _ _ Hs va Hva) as [v Hv]. unfold hw_load.
  rewrite (bind_run _ _ _ _ _ (translate_ok s d sz U va v Hs Hva Hv)). unfold ubyte. by rewrite Hv.
Qed.

Lemma hw_loads_ok s d sz U va n : uspace s d sz U -> 0 <= va -> va + Z.of_nat n <= sz ->
  hw_loads d va n s = Ret (map (ubyte s U) (indices va n)) s.
Proof.
  intros Hs. revert va. induction n as [|n IH]; intros va Hva Hn; cbn [hw_loads]; [done|].
  rewrite (bind_run _ _ _ _ _ (hw_load_ok s d sz U va Hs ltac:(lia))).
  rewrite (bind_run _ _ _ _ _ (IH (va + 1) ltac:(lia) ltac:(lia))). by rewrite indices_cons.
Qed.
End user_memory.

(** ** The checks of the argument fetchers *)

Section checks.
Context {St : Type} `{BL : BlockLayer St} {A : Type} {page_ok : Z -> Prop} `{PA : PageAllocator A page_ok}.
Abbreviation PS := (pstate St A).

Definition cur (s : PS) (c : Z) : proc := pt s (c_proc (cpus s c)).
Definition pages (s : PS) : A := fd_pages (kern s).

(** The state of the processes, processors and memory is the same. *)
Record alike (s s' : PS) : Prop := Alike {
  ak_pt : pt s' = pt s; ak_cpus : cpus s' = cpus s; ak_pages : pages s' = pages s
}.
Lemma alike_refl s : alike s s.
Proof. done. Qed.
Lemma alike_trans s1 s2 s3 : alike s1 s2 -> alike s2 s3 -> alike s1 s3.
Proof. intros [a1 a2 a3] [b1 b2 b3]. split; congruence. Qed.

(** The process on [c] runs in its own address space. *)
Record user_of (s : PS) (c : Z) (U : gmap Z Z) : Prop := UserOf {
  uf_space : uspace (pages s) (p_pgdir (cur s c)) (p_sz (cur s c)) U;
  uf_cr3 : P2V (c_cr3 (cpus s c)) = p_pgdir (cur s c)
}.
Lemma cur_alike s s' c : alike s s' -> cur s' c = cur s c.
Proof. intros [E1 E2 _]. unfold cur. by rewrite E1, E2. Qed.
Lemma user_of_alike s s' c U : alike s s' -> user_of s c U -> user_of s' c U.
Proof.
  intros Ha [H1 H2]. split; rewrite ?(cur_alike s s' c Ha); destruct Ha as [_ E2 E3]; rewrite ?E2, ?E3; done.
Qed.

Lemma on_mem_ret {X} c (m : M A X) s a : m (pages s) = Ret a (pages s) -> exists s', on_mem c m s = Ret a s' /\ alike s s'.
Proof.
  unfold on_mem, on_kern, on_pages, zoom, kern_for. cbn [fd_pages]. fold (pages s). intros ->. eexists. split; [reflexivity|done].
Qed.

(** A user address range below the size of the process is read without fault. *)
Lemma user_bytes_ok s c U va n : user_of s c U -> 0 <= va -> 0 <= n -> va + n <= p_sz (cur s c) ->
  exists s', user_bytes c va n s = Ret (map (ubyte (pages s) U) (indices va (Z.to_nat n))) s' /\ alike s s'.
Proof.
  intros [Hs Hc] Hva Hn Hr. unfold user_bytes, cr3, get_cpu. rewrite bind_assoc, !bind_gets, bind_ret_l. rewrite Hc.
  apply on_mem_ret. eapply hw_loads_ok; [done|lia|lia].
Qed.

Lemma user_word_ok s c U va : user_of s c U -> 0 <= va -> va + 4 <= p_sz (cur s c) ->
  exists s', user_word c va s = Ret (le_val (map (ubyte (pages s) U) (indices va 4))) s' /\ alike s s'.
Proof.
  intros Hu Hva Hr. destruct (user_bytes_ok s c U va 4 Hu Hva ltac:(lia) Hr) as (s'&E&Ha). exists s'. split; [|done].
  unfold user_word. by rewrite (bind_run _ _ _ _ _ E).
Qed.

Lemma curproc_run {X} c (k : proc -> M PS X) s : bind (curproc c) k s = k (cur s c) s.
Proof. done. Qed.

(** The word at [a], if all of it is below the size of the process. *)
Definition word_at (s : PS) (U : gmap Z Z) (c a : Z) : option Z :=
  if decide (a + 4 <= p_sz (cur s c)) then Some (i32 (le_val (map (ubyte (pages s) U) (indices a 4)))) else None.

Lemma fetchint_ok s c U addr : user_of s c U -> is_u32 addr ->
  exists s', fetchint c addr s = Ret (word_at s U c addr) s' /\ alike s s'.
Proof.
  intros Hu Ha. pose proof (us_size _ _ _ _ (uf_space _ _ _ Hu)) as Hsz. unfold KERNBASE in Hsz. unfold fetchint, word_at.
  rewrite curproc_run. set (sz := p_sz (cur s c)) in *.
  destruct (Z.leb_spec sz addr) as [H1|H1]; cbn [orb].
  { exists s. split; [|done]. case_decide; [unfold is_u32 in Ha; lia|done]. }
  assert (E4 : addr +u 4 = addr + 4) by (unfold u32, is_u32 in *; apply Z.mod_small; lia). rewrite E4.
  destruct (Z.ltb_spec sz (addr + 4)) as [H2|H2].
  { exists s. split; [|done]. case_decide; [lia|done]. }
  destruct (user_word_ok s c U addr Hu ltac:(unfold is_u32 in Ha; lia) H2) as (s'&E&Hal). exists s'. split; [|done].
  rewrite (bind_run _ _ _ _ _ E). case_decide; [done|lia].
Qed.

(** The address of the [n]th argument. *)
Definition arg_addr (s : PS) (c n : Z) : Z := load32 (al_mem (pages s)) (p_tf (cur s c) + TF_ESP) +u 4 +u 4 * n.

Lemma argint_ok s c U n : user_of s c U ->
  exists s', argint c n s = Ret (word_at s U c (arg_addr s c n)) s' /\ alike s s'.
Proof.
  intros Hu. unfold argint. rewrite curproc_run.
  destruct (on_mem_ret c (vload (p_tf (cur s c) + TF_ESP)) s _ eq_refl) as (s1&E1&Ha1).
  rewrite (bind_run _ _ _ _ _ E1).
  destruct (fetchint_ok s1 c U (arg_addr s c n) (user_of_alike _ _ _ _ Ha1 Hu)) as (s2&E2&Ha2).
  { unfold arg_addr, u32, is_u32. apply Z.mod_pos_bound. lia. }
  exists s2. split; [|by eapply alike_trans]. fold (arg_addr s c n). rewrite E2. unfold word_at.
  rewrite (cur_alike _ _ _ Ha1). by rewrite (ak_pages _ _ Ha1).
Qed.

(** What [fetchstr] looks for: the bytes from [a] to the first NUL below [sz]. *)
Fixpoint ustring (f : Z -> Z) (n : nat) (a : Z) : option (list Z) :=
  match n with
  | O => None
  | S n' => if f a =? 0 then Some [] else option_map (cons (f a)) (ustring f n' (a + 1))
  end.

Lemma fetchstr_loop_ok n s c U a : user_of s c U -> 0 <= a -> a + Z.of_nat n = p_sz (cur s c) ->
  exists s', fetchstr_loop (S n) c a (p_sz (cur s c)) s = Ret (ustring (ubyte (pages s) U) n a) s' /\ alike s s'.
Proof.
  revert s a. induction n as [|n IH]; intros s a Hu Ha Hn; cbn [fetchstr_loop ustring].
  { exists s. split; [|done]. destruct (Z.ltb_spec a (p_sz (cur s c))); [lia|done]. }
  destruct (Z.ltb_spec a (p_sz (cur s c))); [|lia].
  destruct (user_bytes_ok s c U a 1 Hu Ha ltac:(lia) ltac:(lia)) as (s1&E1&Ha1). rewrite (bind_run _ _ _ _ _ E1).
  change (Z.to_nat 1) with 1%nat. rewrite indices_cons. change (nthZ 0 (map ?f (a :: ?l)) 0) with (f a). destruct (ubyte (pages s) U a =? 0); [by exists s1|].
  pose proof (cur_alike _ _ c Ha1) as Ec.
  destruct (IH s1 (a + 1) (user_of_alike _ _ _ _ Ha1 Hu) ltac:(lia) ltac:(rewrite Ec; lia)) as (s2&E2&Ha2).
  rewrite Ec, (ak_pages _ _ Ha1) in E2. cbn [fetchstr_loop] in E2. exists s2. split; [|by eapply alike_trans].
  by rewrite (bind_run _ _ _ _ _ E2).
Qed.

(** C23. The argument fetchers never touch memory outside the process and never
    fault, whatever the user stack pointer and the words on the user stack
    are.  [argint] delivers the word exactly when its four bytes lie below
    [sz]; [argptr] accepts exactly the pointers whose whole range of [size]
    bytes lies below [sz], with no wrap-around, and that range can then be
    read; [argstr] delivers the bytes up to the first NUL below [sz], or -1 if
    there is none. *)
Theorem syscall_args_in_bounds s c U n size (Hu : user_of s c U) (Hs : is_i32 size) :
  let sz := p_sz (cur s c) in
  let w := word_at s U c (arg_addr s c n) in
  (exists s', argint c n s = Ret w s' /\ alike s s') /\
  (exists r s', argptr c n size s = Ret r s' /\ alike s s' /\
     (forall a, r = Some a <-> exists i, w = Some i /\ a = u32 i /\ a < sz /\ 0 <= size /\ a + size <= sz) /\
     (forall a, r = Some a -> exists s'', user_bytes c a size s' = Ret (map (ubyte (pages s) U) (indices a (Z.to_nat size))) s'')) /\
  (exists s', argstr c n s = Ret (i ← w; if decide (u32 i < sz) then ustring (ubyte (pages s) U) (Z.to_nat (sz - u32 i)) (u32 i) else None) s' /\
     alike s s').
Proof.
  intros sz w. pose proof (us_size _ _ _ _ (uf_space _ _ _ Hu)) as Hsz. fold sz in Hsz. unfold KERNBASE in Hsz.
  destruct (argint_ok s c U n Hu) as (s1&E1&Ha1). fold w in E1. pose proof (cur_alike _ _ c Ha1) as Ec.
  pose proof (user_of_alike _ _ _ _ Ha1 Hu) as Hu1. unfold is_i32 in Hs.
  split; [by exists s1|]. split; [unfold argptr|unfold argstr]; rewrite (bind_run _ _ _ _ _ E1); destruct w as [i|].
  - rewrite curproc_run, Ec. fold sz. assert (Hi : 0 <= u32 i < 4294967296) by (apply Z.mod_pos_bound; lia).
    set (b := (size <? 0) || (sz <=? u32 i) || (sz <? u32 i +u size)).
    assert (Hb : b = false <-> u32 i < sz /\ 0 <= size /\ u32 i + size <= sz).
    { subst b. destruct (Z.ltb_spec size 0), (Z.leb_spec sz (u32 i)); cbn [orb]; try (split; [done|lia]).
      assert (E : u32 i +u size = u32 i + size) by (unfold u32 at 1; apply Z.mod_small; lia).
      rewrite E. destruct (Z.ltb_spec sz (u32 i + size)); (split; [done|lia]) || split; lia. }
    destruct b.
    + exists None, s1. split_and!; try done. intros a. split; [done|].
      intros (j&[= ->]&->&?&?&?). exfalso. assert (true = false) by (apply Hb; lia). done.
    + destruct Hb as [Hb _]. destruct (Hb eq_refl) as (?&?&?). exists (Some (u32 i)), s1. split_and!; try done.
      * intros a. split; [intros [= <-]; exists i; split_and!; (done || lia)|]. by intros (j&[= ->]&->&_).
      * intros a [= <-]. 
        destruct (user_bytes_ok s1 c U (u32 i) size Hu1 ltac:(lia) ltac:(lia) ltac:(subst sz; rewrite Ec; lia)) as (s2&E2&_).
        exists s2. by rewrite E2, (ak_pages _ _ Ha1).
  - exists None, s1. split_and!; try done. intros a. split; [done|]. by intros (j&[=]&_).
  - cbn [mbind option_bind]. assert (Hi : 0 <= u32 i < 4294967296) by (apply Z.mod_pos_bound; lia).
    unfold fetchstr. rewrite curproc_run, Ec. fold sz. destruct (Z.leb_spec sz (u32 i)).
    { exists s1. split; [|done]. case_decide; [lia|done]. }
    destruct (fetchstr_loop_ok (Z.to_nat (sz - u32 i)) s1 c U (u32 i) Hu1 ltac:(lia)) as (s2&E2&Ha2).
    { rewrite Ec. fold sz. lia. }
    rewrite Ec, (ak_pages _ _ Ha1) in E2. fold sz in E2. exists s2. rewrite E2. split; [|by eapply alike_trans].
    case_decide; [done|lia].
  - by exists s1.
Qed.
End checks.

(** ** Witness: a process of one page whose stack pointer is 100 *)

#[local] Instance demo_layer : BlockLayer bstate := logged_layer 2 30 1000.
#[local] Instance demo_pages : PageAllocator kmem (Kalloc.page_ok demo_kend) := kmem_allocator demo_kend demo_above.

Definition demo_process (tf : Z) : proc :=
  Proc 4096 demo_dir 0x80110000 RUNNING 1 NULL tf 0 ChNone 0 (replicate 16 NULL) NULL [] RForkret false.
Definition demo_system : pstate bstate kmem :=
  PState (fun _ => demo_process 0x80111000) 2 0 false 0x80102000
    (fun _ => Cpust 0 ∅ false false (V2P demo_dir) 0 0)
    (FdState boot_fs demo_space (fd_files boot_files) (fd_pipes boot_files) [] false).

Lemma demo_user_of : user_of demo_system 0 demo_U.
Proof.
  split.
  - split.
    + vm_compute. split; congruence.
    + exists demo_free, [], demo_T, demo_ent. split; [apply demo_space_tab|apply demo_user_ok].
    + intros va Hva. change (p_sz (cur demo_system 0)) with 4096 in Hva.
      replace (va / 4096) with 0 by (Z.div_mod_to_equations; lia). eexists. apply lookup_singleton_eq.
  - reflexivity.
Qed.

Lemma syscall_args_in_bounds_witness : exists r s', argptr 0 0 16 demo_system = Ret r s' /\ alike demo_system s'.
Proof.
  destruct (proj1 (proj2 (syscall_args_in_bounds demo_system 0 demo_U 0 16 demo_user_of ltac:(unfold is_i32; lia))))
    as (r&s'&E&Ha&_). exists r, s'. split; [exact E|exact Ha].
Defined.
