(* ===== verification/Sysfile.v ===== *)
(** * sysfile.c: the system calls on files

    What a call does in the file system is a function of the file system's
    state; the handler fetches its arguments and runs it. *)
From stdpp Require Import base numbers list gmap strings.
From S2P Require Import Prelude Memory StringC Spinlock Mmu Kalloc Block Bio Log Blk Fs Vm Pipe File Proc Syscall.
Open Scope Z_scope.

Definition O_RDONLY : Z := 0.
Definition O_WRONLY : Z := 1.
Definition O_RDWR : Z := 2.
Definition O_CREATE : Z := 0x200.
Definition MAXARG : Z := 32.
(** "." and ".." *)
Definition DOT : list Z := [46].
Definition DOTDOT : list Z := [46; 46].

(** ** In the file system *)

Section dirs.
Context {St : Type} `{BL : BlockLayer St}.
Context (devsw_read : Z -> option (Z -> Z -> M (fsstate St) (Z * list Z))).
Context (devsw_write : Z -> option (Z -> list Z -> Z -> M (fsstate St) Z)).
Abbreviation FM := (M (fsstate St)).

Definition fs_begin : FM unit := lift blk_begin.
Definition fs_end : FM unit := lift blk_end.

(** [ip->nlink += k], a short *)
Definition add_nlink (ip k : Z) : FM unit := mod_inode ip (fun i => set_nlink (i16 (i_nlink i + k)) i).

(** [bad:] of [sys_link] *)
Definition link_bad (ip : Z) : FM Z :=
  ilock ip ;;
  add_nlink ip (-1) ;;
  iupdate ip ;;
  iunlockput ip ;;
  fs_end ;;
  ret (-1).

(** [sys_link] after its arguments *)
Definition do_link (old new : list Z) : FM Z :=
  fs_begin ;;
  let! r := namei devsw_read old in
  match r with
  | None => fs_end ;; ret (-1)
  | Some ip =>
      ilock ip ;;
      let! i := get_inode ip in
      if i_type i =? T_DIR then iunlockput ip ;; fs_end ;; ret (-1)
      else
        add_nlink ip 1 ;;
        iupdate ip ;;
        iunlock ip ;;
        let! d := nameiparent devsw_read new in
        match d with
        | None => link_bad ip
        | Some (dp, name) =>
            ilock dp ;;
            let! d := get_inode dp in
            let! i := get_inode ip in
            let! fail :=
              (if negb (i_dev d =? i_dev i) then ret true
               else let! r := dirlink devsw_read devsw_write dp name (i_inum i) in ret (r <? 0)) in
            if fail : bool then iunlockput dp ;; link_bad ip
            else
              iunlockput dp ;;
              iput ip ;;
              fs_end ;;
              ret 0
        end
  end.

(** The loop of [isdirempty]. *)
Fixpoint isdirempty_loop (fuel : nat) (dp off : Z) : FM bool :=
  let! i := get_inode dp in
  if off <? i_size i then
    match fuel with
    | O => stop_with NoFuel
    | S fuel' =>
        let! (r, de) := readi devsw_read dp off DIRENT in
        if negb (r =? DIRENT) then panic "isdirempty: readi"
        else if negb (de_inum de =? 0) then ret false
        else isdirempty_loop fuel' dp (off + DIRENT)
    end
  else ret true.
(** [isdirempty(dp)] *)
Definition isdirempty (dp : Z) : FM bool :=
  let! i := get_inode dp in
  isdirempty_loop (dir_fuel (i_size i)) dp (2 * DIRENT).

(** [bad:] of [sys_unlink] *)
Definition unlink_bad (dp : Z) : FM Z := iunlockput dp ;; fs_end ;; ret (-1).

(** [sys_unlink] after its argument *)
Definition do_unlink (path : list Z) : FM Z :=
  fs_begin ;;
  let! r := nameiparent devsw_read path in
  match r with
  | None => fs_end ;; ret (-1)
  | Some (dp, name) =>
      ilock dp ;;
      if (namecmp name DOT =? 0) || (namecmp name DOTDOT =? 0) then unlink_bad dp
      else
        let! r := dirlookup devsw_read dp name in
        match r with
        | None => unlink_bad dp
        | Some (ip, off) =>
            ilock ip ;;
            let! i := get_inode ip in
            if i_nlink i <? 1 then panic "unlink: nlink < 1"
            else
              let! full := (if i_type i =? T_DIR then let! e := isdirempty ip in ret (negb e) else ret false) in
              if full : bool then iunlockput ip ;; unlink_bad dp
              else
                let! r := writei devsw_write dp (replicate (Z.to_nat DIRENT) 0) off DIRENT in
                if negb (r =? DIRENT) then panic "unlink: writei"
                else
                  let! i := get_inode ip in
                  when (i_type i =? T_DIR) (add_nlink dp (-1) ;; iupdate dp) ;;
                  iunlockput dp ;;
                  add_nlink ip (-1) ;;
                  iupdate ip ;;
                  iunlockput ip ;;
                  fs_end ;;
                  ret 0
        end
  end.

(** [create(path, type, major, minor)]; [ialloc] never returns null. *)
Definition create (path : list Z) (type major minor : Z) : FM (option Z) :=
  let! r := nameiparent devsw_read path in
  match r with
  | None => ret None
  | Some (dp, name) =>
      ilock dp ;;
      let! r := dirlookup devsw_read dp name in
      match r with
      | Some (ip, _) =>
          iunlockput dp ;;
          ilock ip ;;
          let! i := get_inode ip in
          if (type =? T_FILE) && (i_type i =? T_FILE) then ret (Some ip)
          else iunlockput ip ;; ret None
      | None =>
          let! d := get_inode dp in
          let! ip := ialloc (i_dev d) type in
          ilock ip ;;
          mod_inode ip (fun i => set_nlink 1 (set_majmin (i16 major) (i16 minor) i)) ;;
          iupdate ip ;;
          when (type =? T_DIR)
            (add_nlink dp 1 ;;
             iupdate dp ;;
             let! i := get_inode ip in
             let! r1 := dirlink devsw_read devsw_write ip DOT (i_inum i) in
             if r1 <? 0 then panic "create dots"
             else
               let! d := get_inode dp in
               let! r2 := dirlink devsw_read devsw_write ip DOTDOT (i_inum d) in
               if r2 <? 0 then panic "create dots" else ret tt) ;;
          let! i := get_inode ip in
          let! r := dirlink devsw_read devsw_write dp name (i_inum i) in
          if r <? 0 then panic "create: dirlink"
          else iunlockput dp ;; ret (Some ip)
      end
  end.

(** The inode of [sys_open], locked; the transaction goes on if there is one. *)
Definition open_inode (path : list Z) (omode : Z) : FM (option Z) :=
  fs_begin ;;
  if negb (Z.land omode O_CREATE =? 0) then
    let! r := create path T_FILE 0 0 in
    match r with
    | None => fs_end ;; ret None
    | Some ip => ret (Some ip)
    end
  else
    let! r := namei devsw_read path in
    match r with
    | None => fs_end ;; ret None
    | Some ip =>
        ilock ip ;;
        let! i := get_inode ip in
        if (i_type i =? T_DIR) && negb (omode =? O_RDONLY) then iunlockput ip ;; fs_end ;; ret None
        else ret (Some ip)
    end.
End dirs.

(** ** The handlers *)

Section Sysfile.
Context {St : Type} `{BL : BlockLayer St} {A : Type} {page_ok : Z -> Prop} `{PA : PageAllocator A page_ok}.
Context (devsw_read : Z -> option (Z -> Z -> M (fsstate St) (Z * list Z))).
Context (devsw_write : Z -> option (Z -> list Z -> Z -> M (fsstate St) Z)).
Abbreviation PM := (M (pstate St A)).

Definition k_fs {X} (c : Z) (m : M (fsstate St) X) : PM X := on_kern c (on_fs m).
Definition set_fd (c fd f : Z) : PM unit :=
  let! p := myproc c in
  mod_proc p (fun x => set_ofile (updZ (p_ofile x) fd f) x).

(** [argfd(n, pfd, pf)] *)
Definition argfd (c n : Z) : PM (option (Z * Z)) :=
  let! r := argint c n in
  match r with
  | None => ret None
  | Some fd =>
      if (fd <? 0) || (NOFILE <=? fd) then ret None
      else
        let! x := curproc c in
        let f := nthZ NULL (p_ofile x) fd in
        if f =? NULL then ret None else ret (Some (fd, f))
  end.

(** The first free descriptor from [fd] on. *)
Fixpoint find_fd (fds : list Z) (ofile : list Z) : option Z :=
  match fds with
  | [] => None
  | fd :: fds' => if nthZ NULL ofile fd =? NULL then Some fd else find_fd fds' ofile
  end.
(** [fdalloc(f)] *)
Definition fdalloc (c f : Z) : PM Z :=
  let! x := curproc c in
  match find_fd (seqZ 0 NOFILE) (p_ofile x) with
  | Some fd => set_fd c fd f ;; ret fd
  | None => ret (-1)
  end.

(** [sys_dup()] *)
Definition sys_dup (c : Z) : PM Z :=
  let! a := argfd c 0 in
  match a with
  | None => ret (-1)
  | Some (_, f) =>
      let! fd := fdalloc c f in
      if fd <? 0 then ret (-1)
      else on_kern c (filedup f) ;; ret fd
  end.

(** The arguments of [sys_read] and [sys_write]: file, buffer, size. *)
Definition rw_args (c : Z) : PM (option (Z * Z * Z)) :=
  let! a := argfd c 0 in
  match a with
  | None => ret None
  | Some (_, f) =>
      let! n := argint c 2 in
      match n with
      | None => ret None
      | Some n =>
          let! p := argptr c 1 n in
          ret (option_map (fun p => (f, p, n)) p)
      end
  end.
(** [sys_read()] *)
Definition sys_read (c : Z) : PM Z :=
  let! a := rw_args c in
  match a with
  | None => ret (-1)
  | Some (f, p, n) =>
      let! (r, bytes) := on_kern c (fileread devsw_read f n) in
      user_store c p bytes ;;
      ret r
  end.
(** [sys_write()] *)
Definition sys_write (c : Z) : PM Z :=
  let! a := rw_args c in
  match a with
  | None => ret (-1)
  | Some (f, p, n) =>
      let! bytes := user_bytes c p n in
      on_kern c (filewrite devsw_write f bytes n)
  end.

(** [sys_close()] *)
Definition sys_close (c : Z) : PM Z :=
  let! a := argfd c 0 in
  match a with
  | None => ret (-1)
  | Some (fd, f) =>
      set_fd c fd NULL ;;
      on_kern c (fileclose f) ;;
      ret 0
  end.

(** struct stat in memory: the fields at their offsets, padding untouched. *)
Definition STAT_SIZE : Z := 20.
Definition store_stat (c p : Z) (st : stat) : PM unit :=
  user_store c p (le_bytes 2 (u16 (st_type st))) ;;
  user_store c (p + 4) (le_bytes 4 (u32 (st_dev st))) ;;
  user_store c (p + 8) (le_bytes 4 (st_ino st)) ;;
  user_store c (p + 12) (le_bytes 2 (u16 (st_nlink st))) ;;
  user_store c (p + 16) (le_bytes 4 (st_size st)).
(** [sys_fstat()] *)
Definition sys_fstat (c : Z) : PM Z :=
  let! a := argfd c 0 in
  match a with
  | None => ret (-1)
  | Some (_, f) =>
      let! p := argptr c 1 STAT_SIZE in
      match p with
      | None => ret (-1)
      | Some p =>
          let! st := on_kern c (filestat f) in
          match st with
          | None => ret (-1)
          | Some st => store_stat c p st ;; ret 0
          end
      end
  end.

(** [sys_link()] and [sys_unlink()] *)
Definition sys_link (c : Z) : PM Z :=
  let! old := argstr c 0 in
  match old with
  | None => ret (-1)
  | Some old =>
      let! new := argstr c 1 in
      match new with
      | None => ret (-1)
      | Some new => k_fs c (do_link devsw_read devsw_write old new)
      end
  end.
Definition sys_unlink (c : Z) : PM Z :=
  let! path := argstr c 0 in
  match path with
  | None => ret (-1)
  | Some path => k_fs c (do_unlink devsw_read devsw_write path)
  end.

(** Undoing [sys_open] when there is no file or no descriptor *)
Definition open_bad (c f ip : Z) : PM Z :=
  (if negb (f =? NULL) then on_kern c (fileclose f) else ret tt) ;;
  k_fs c (iunlockput ip) ;;
  k_fs c fs_end ;;
  ret (-1).

(** [sys_open()] *)
Definition sys_open (c : Z) : PM Z :=
  let! path := argstr c 0 in
  match path with
  | None => ret (-1)
  | Some path =>
      let! omode := argint c 1 in
      match omode with
      | None => ret (-1)
      | Some omode =>
          let! r := k_fs c (open_inode devsw_read devsw_write path omode) in
          match r with
          | None => ret (-1)
          | Some ip =>
              let! f := on_kern c filealloc in
              if f =? NULL then open_bad c f ip
              else
                let! fd := fdalloc c f in
                if fd <? 0 then open_bad c f ip
                else
                  k_fs c (iunlock ip) ;;
                  k_fs c fs_end ;;
                  let readable := if Z.land omode O_WRONLY =? 0 then 1 else 0 in
                  let writable := if (Z.land omode O_WRONLY =? 0) && (Z.land omode O_RDWR =? 0) then 0 else 1 in
                  on_kern c
                    (let! x := get_file f in
                     put_file f (File FD_INODE (f_ref x) readable writable (f_pipe x) ip 0)) ;;
                  ret fd
          end
      end
  end.

(** [sys_mkdir()] *)
Definition sys_mkdir (c : Z) : PM Z :=
  k_fs c fs_begin ;;
  let! path := argstr c 0 in
  let! r :=
    match path with
    | None => ret None
    | Some path => k_fs c (create devsw_read devsw_write path T_DIR 0 0)
    end in
  match r with
  | None => k_fs c fs_end ;; ret (-1)
  | Some ip => k_fs c (iunlockput ip) ;; k_fs c fs_end ;; ret 0
  end.

(** [sys_mknod()] *)
Definition sys_mknod (c : Z) : PM Z :=
  k_fs c fs_begin ;;
  let! path := argstr c 0 in
  let! r :=
    match path with
    | None => ret None
    | Some path =>
        let! major := argint c 1 in
        match major with
        | None => ret None
        | Some major =>
            let! minor := argint c 2 in
            match minor with
            | None => ret None
            | Some minor => k_fs c (create devsw_read devsw_write path T_DEV (i16 major) (i16 minor))
            end
        end
    end in
  match r with
  | None => k_fs c fs_end ;; ret (-1)
  | Some ip => k_fs c (iunlockput ip) ;; k_fs c fs_end ;; ret 0
  end.

(** [sys_chdir()] *)
Definition sys_chdir (c : Z) : PM Z :=
  k_fs c fs_begin ;;
  let! path := argstr c 0 in
  let! r := match path with None => ret None | Some path => k_fs c (namei devsw_read path) end in
  match r with
  | None => k_fs c fs_end ;; ret (-1)
  | Some ip =>
      k_fs c (ilock ip) ;;
      let! i := k_fs c (get_inode ip) in
      if negb (i_type i =? T_DIR) then k_fs c (iunlockput ip) ;; k_fs c fs_end ;; ret (-1)
      else
        k_fs c (iunlock ip) ;;
        let! x := curproc c in
        k_fs c (iput (p_cwd x)) ;;
        k_fs c fs_end ;;
        let! p := myproc c in
        mod_proc p (set_cwd ip) ;;
        ret 0
  end.

(** Undoing [sys_pipe] when there are not two descriptors *)
Definition pipe_bad (c fd0 rf wf : Z) : PM Z :=
  (if 0 <=? fd0 then set_fd c fd0 NULL else ret tt) ;;
  on_kern c (fileclose rf) ;;
  on_kern c (fileclose wf) ;;
  ret (-1).

(** [sys_pipe()] *)
Definition sys_pipe (c : Z) : PM Z :=
  let! fd := argptr c 0 8 in
  match fd with
  | None => ret (-1)
  | Some fd =>
      let! r := on_kern c pipealloc in
      match r with
      | None => ret (-1)
      | Some (rf, wf) =>
          let! fd0 := fdalloc c rf in
          if fd0 <? 0 then pipe_bad c fd0 rf wf
          else
            let! fd1 := fdalloc c wf in
            if fd1 <? 0 then pipe_bad c fd0 rf wf
            else
              user_store c fd (le_bytes 4 fd0) ;;
              user_store c (fd + 4) (le_bytes 4 fd1) ;;
              ret 0
      end
  end.
End Sysfile.
