(* ===== verification/SysfileProps.v ===== *)
(** * sysfile.c: descriptors and reference counts

    Every reference to an open file is a slot of some process's descriptor
    table, apart from the handles a call has in flight.  The calls keep the
    counts of the file table equal to that number. *)
From stdpp Require Import base numbers list gmap strings.
From S2P Require Import Prelude Memory StringC Spinlock Mmu Kalloc Block Bio Log Blk Fs Vm VmProps Pipe File Proc ProcInv Syscall Sysfile.
Open Scope Z_scope.

(** ** Counting *)

Definition cnt (f : Z) (l : list Z) : Z := Z.of_nat (length (filter (fun g => g = f) l)).

Lemma cnt_cons f g l : cnt f (g :: l) = (if g =? f then 1 else 0) + cnt f l.
Proof.
  unfold cnt. rewrite filter_cons. destruct (Z.eqb_spec g f) as [->|Hne]; case_decide; try done. rewrite length_cons. lia.
Qed.
Lemma cnt_nonneg f l : 0 <= cnt f l.
Proof. unfold cnt. lia. Qed.

Lemma cnt_insert f l (i : nat) x g : l !! i = Some x ->
  cnt f (<[i := g]> l) = cnt f l - (if x =? f then 1 else 0) + (if g =? f then 1 else 0).
Proof.
  revert i. induction l as [|y l IH]; intros i Hi; [by rewrite lookup_nil in Hi|].
  destruct i as [|i]; [injection Hi as ->; change (<[0%nat:=g]> (x :: l)) with (g :: l)|change (<[S i:=g]> (y :: l)) with (y :: <[i:=g]> l)]; rewrite !cnt_cons; [lia|].
  rewrite (IH i Hi). lia.
Qed.

Lemma cnt_updZ f l i g : 0 <= i < Z.of_nat (length l) ->
  cnt f (updZ l i g) = cnt f l - (if nthZ NULL l i =? f then 1 else 0) + (if g =? f then 1 else 0).
Proof.
  intros Hi. unfold updZ, nthZ. destruct (Z.ltb_spec i 0); [lia|]. cbn [orb].
  destruct (lookup_lt_is_Some_2 l (Z.to_nat i)) as [x Hx]; [lia|].
  rewrite (nth_lookup_Some l (Z.to_nat i) NULL x Hx). by apply cnt_insert.
Qed.

Lemma cnt_pos f l : f ∈ l -> 1 <= cnt f l.
Proof.
  induction l as [|g l IH]; [by intros ?%not_elem_of_nil|]. rewrite cnt_cons.
  intros [->|Hf]%elem_of_cons; [rewrite Z.eqb_refl; pose proof (cnt_nonneg g l); lia|].
  specialize (IH Hf). destruct (g =? f); lia.
Qed.

(** The slots of all processes that hold [f]. *)
Definition fd_refs_of (t : Z -> proc) (l : list Z) (f : Z) : Z :=
  foldr (fun p n => cnt f (p_ofile (t p)) + n) 0 l.
Definition fd_refs (t : Z -> proc) (f : Z) : Z := fd_refs_of t (seqZ 0 NPROC) f.

Lemma refs_of_out t l p x f : p ∉ l -> fd_refs_of (fupd t p x) l f = fd_refs_of t l f.
Proof.
  induction l as [|q l IH]; intros Hp; [done|]. cbn [fd_refs_of foldr]. apply not_elem_of_cons in Hp as [Hpq Hp].
  rewrite fupd_ne by congruence. f_equal. by apply IH.
Qed.

Lemma refs_of_upd t l p x f : NoDup l -> p ∈ l ->
  fd_refs_of (fupd t p x) l f = fd_refs_of t l f - cnt f (p_ofile (t p)) + cnt f (p_ofile x).
Proof.
  induction l as [|q l IH]; intros Hn Hp; [by apply not_elem_of_nil in Hp|]. apply NoDup_cons in Hn as [Hq Hn].
  cbn [fd_refs_of foldr]. fold (fd_refs_of t l f) (fd_refs_of (fupd t p x) l f). destruct (decide (q = p)) as [->|Hne].
  - rewrite refs_of_out, fupd_eq by done. lia.
  - apply elem_of_cons in Hp as [->|Hp]; [done|]. rewrite IH, fupd_ne by done. lia.
Qed.

Lemma fd_refs_upd t p x f : is_proc p -> fd_refs (fupd t p x) f = fd_refs t f - cnt f (p_ofile (t p)) + cnt f (p_ofile x).
Proof. intros Hp. apply refs_of_upd; [apply NoDup_seqZ|]. apply elem_of_seqZ. unfold is_proc in Hp. lia. Qed.

Lemma refs_of_ge t l p f : p ∈ l -> cnt f (p_ofile (t p)) <= fd_refs_of t l f.
Proof.
  intros Hp. induction l as [|q l IH]; [by apply not_elem_of_nil in Hp|]. cbn [fd_refs_of foldr]. fold (fd_refs_of t l f).
  assert (0 <= fd_refs_of t l f). { clear. induction l as [|r l IH]; cbn [fd_refs_of foldr]; [done|]. fold (fd_refs_of t l f). pose proof (cnt_nonneg f (p_ofile (t r))). lia. }
  apply elem_of_cons in Hp as [->|Hp]; [lia|]. specialize (IH Hp). pose proof (cnt_nonneg f (p_ofile (t q))). lia.
Qed.
Lemma fd_refs_ge t p f : is_proc p -> f ∈ p_ofile (t p) -> 1 <= fd_refs t f.
Proof.
  intros Hp Hf. etransitivity; [by apply cnt_pos|]. apply refs_of_ge, elem_of_seqZ. unfold is_proc in Hp. lia.
Qed.

Lemma find_fd_spec l o :
  match find_fd l o with
  | Some fd => fd ∈ l /\ nthZ NULL o fd = NULL
  | None => forall fd, fd ∈ l -> nthZ NULL o fd <> NULL
  end.
Proof.
  induction l as [|fd l IH]; cbn [find_fd]; [by intros fd ?%not_elem_of_nil|].
  destruct (Z.eqb_spec (nthZ NULL o fd) NULL) as [E|E]; [split; [left|done]|].
  destruct (find_fd l o); [destruct IH; split; [by right|done]|].
  intros g [->|Hg]%elem_of_cons; auto.
Qed.

(** ** The invariant *)

Section descriptors.
Context {St : Type} `{BL : BlockLayer St} {A : Type} {page_ok : Z -> Prop} `{PA : PageAllocator A page_ok}.
Abbreviation PS := (pstate St A).
Abbreviation PM := (M PS).

Definition tables_ok (t : Z -> proc) : Prop := forall p, is_proc p ->
  length (p_ofile (t p)) = Z.to_nat NOFILE /\ Forall (fun f => f = NULL \/ is_file f) (p_ofile (t p)).

(** [h f] handles of [f] are in flight. *)
Record fd_inv (h : Z -> Z) (s : PS) : Prop := FdInv {
  fi_tab : tables_ok (pt s);
  fi_refs : refs_ok (fd_files (kern s)) (fun f => fd_refs (pt s) f + h f)
}.

Definition one (f : Z) (k : Z) (h : Z -> Z) : Z -> Z := fun g => h g + (if g =? f then k else 0).

Lemma refs_ok_ext ft h h' : refs_ok ft h -> (forall f, is_file f -> h' f = h f) -> refs_ok ft h'.
Proof. intros Hr E f Hf. rewrite (E f Hf). by apply Hr. Qed.
Lemma fd_inv_ext h h' s : fd_inv h s -> (forall f, is_file f -> h' f = h f) -> fd_inv h' s.
Proof. intros [H1 H2] E. split; [done|]. eapply refs_ok_ext; [exact H2|]. intros f Hf. cbv beta. rewrite (E f Hf). lia. Qed.

(** Code that leaves processes, processors and the file table alone. *)
Definition keeps {X} (m : PM X) : Prop := forall s x s', m s = Ret x s' ->
  pt s' = pt s /\ cpus s' = cpus s /\ fd_files (kern s') = fd_files (kern s).

Lemma keeps_PM_bind {X Y} (m : PM X) (k : X -> PM Y) : keeps m -> (forall x, keeps (k x)) -> keeps (bind m k).
Proof.
  intros Hm Hk s x s' E. apply bind_Ret in E as (y&s1&E1&E2).
  destruct (Hm _ _ _ E1) as (?&?&?), (Hk y _ _ _ E2) as (?&?&?). split_and!; congruence.
Qed.
Lemma keeps_ret {X} (x : X) : keeps (ret x).
Proof. by intros s y s' [= <- <-]. Qed.
Lemma keeps_gets {X} (f : PS -> X) : keeps (gets f).
Proof. by intros s y s' [= <- <-]. Qed.
Lemma keeps_stop {X} e : keeps (stop_with (A := X) e).
Proof. by intros s y s' [=]. Qed.
Lemma keeps_on_kern {X} c (m : M (fdstate St A) X) : keeps_files m -> keeps (on_kern c m).
Proof.
  intros Hm s x s' E. unfold on_kern, zoom in E. specialize (Hm (kern_for c s)).
  destruct (m (kern_for c s)) as [y k|e k]; [|done]. injection E as <- <-. done.
Qed.
Lemma keeps_mem {X} c (m : M A X) : keeps (on_mem c m).
Proof. apply keeps_on_kern, keeps_pages. Qed.
Lemma keeps_k_fs {X} c (m : M (fsstate St) X) : keeps (k_fs c m).
Proof. apply keeps_on_kern, keeps_fs. Qed.

Lemma fd_inv_keeps {X} (m : PM X) h s x s' : keeps m -> fd_inv h s -> m s = Ret x s' -> fd_inv h s'.
Proof. intros Hm [H1 H2] E. destruct (Hm _ _ _ E) as (E1&_&E3). split; [by rewrite E1|by rewrite E1, E3]. Qed.

Ltac keep := repeat first
  [ apply keeps_ret | apply keeps_gets | apply keeps_stop | apply keeps_mem | apply keeps_k_fs
  | apply keeps_PM_bind; [|intros ?]
  | match goal with |- keeps (if ?b then _ else _) => destruct b | |- keeps (match ?x with _ => _ end) => destruct x end ].

Lemma keeps_user_bytes c va n : keeps (user_bytes c va n).
Proof. unfold user_bytes, cr3, get_cpu. keep. Qed.
Lemma keeps_fetchint c a : keeps (fetchint c a).
Proof. unfold fetchint, curproc, myproc, get_proc, user_word, user_bytes, cr3, get_cpu. keep. Qed.
Lemma keeps_argint c n : keeps (argint c n).
Proof. unfold argint, curproc, myproc, get_proc. keep. Qed.
Lemma keeps_fetchstr_loop fuel c s e : keeps (fetchstr_loop fuel c s e).
Proof.
  revert s. induction fuel as [|fuel IH]; intros s; cbn [fetchstr_loop]; [keep|]. destruct (s <? e); [|keep].
  apply keeps_PM_bind; [apply keeps_user_bytes|]. intros b. destruct (_ =? 0); [keep|]. apply keeps_PM_bind; [apply IH|]. intros r. keep.
Qed.
Lemma keeps_argstr c n : keeps (argstr c n).
Proof.
  unfold argstr. apply keeps_PM_bind; [apply keeps_argint|]. intros [a|]; [|keep].
  unfold fetchstr, curproc, myproc, get_proc. keep. apply keeps_fetchstr_loop.
Qed.
Lemma keeps_argptr c n z : keeps (argptr c n z).
Proof. unfold argptr. apply keeps_PM_bind; [apply keeps_argint|]. intros [a|]; [|keep]. unfold curproc, myproc, get_proc. keep. Qed.
Lemma keeps_user_store c va bs : keeps (user_store c va bs).
Proof. unfold user_store, cr3, get_cpu. keep. Qed.

(** ** Handles in flight *)

Lemma on_kern_inv {X} c (m : M (fdstate St A) X) s x s' : on_kern c m s = Ret x s' ->
  m (kern_for c s) = Ret x (kern s') /\ pt s' = pt s /\ cpus s' = cpus s.
Proof. unfold on_kern, zoom. destruct (m (kern_for c s)) as [y k|e k]; [|done]. by intros [= <- <-]. Qed.

Lemma alloc_flight h c s f s' : fd_inv h s -> on_kern c filealloc s = Ret f s' ->
  (f = NULL /\ fd_inv h s') \/ (is_file f /\ fd_inv (one f 1 h) s' /\ fd_refs (pt s) f + h f = 0 /\ pt s' = pt s /\ cpus s' = cpus s).
Proof.
  intros [H1 H2] (E&Ep&Ec)%on_kern_inv.
  destruct (filealloc_ok (kern_for c s) _ H2) as (f'&k&E'&H). rewrite E' in E. injection E as <- Ek'.
  destruct H as [(->&Ek&_)|(Hf&Hz&Hr&_)]; [left|right].
  - split; [done|]. split; rewrite ?Ep, <- ?Ek', ?Ek; done.
  - split_and!; try done. split; rewrite ?Ep, <- ?Ek'; [done|]. eapply refs_ok_ext; [exact Hr|].
    intros g Hg. unfold one. cbv beta. rewrite fupd_at. destruct (Z.eqb_spec g f') as [->|]; lia.
Qed.

Lemma dup_flight h c s f : fd_inv h s -> is_file f -> 0 < fd_refs (pt s) f + h f ->
  exists s', on_kern c (filedup f) s = Ret f s' /\ fd_inv (one f 1 h) s'.
Proof.
  intros [H1 H2] Hf Hp. destruct (filedup_ok (kern_for c s) _ f H2 Hf Hp) as (k&E&Hr).
  unfold on_kern, zoom. rewrite E. eexists. split; [reflexivity|]. split; cbn [pt kern]; [done|].
  eapply refs_ok_ext; [exact Hr|]. intros g Hg. unfold one. cbv beta. rewrite fupd_at. destruct (Z.eqb_spec g f) as [->|]; lia.
Qed.

Lemma close_flight h c s f s' : fd_inv h s -> is_file f -> 0 < fd_refs (pt s) f + h f ->
  on_kern c (fileclose f) s = Ret tt s' -> fd_inv (one f (-1) h) s' /\ pt s' = pt s /\ cpus s' = cpus s.
Proof.
  intros [H1 H2] Hf Hp (E&Ep&Ec)%on_kern_inv.
  destruct (fileclose_ok (kern_for c s) _ f H2 Hf Hp) as [Hr _]. rewrite E in Hr. cbn [final] in Hr.
  split; [|done]. split; rewrite ?Ep; [done|].
  eapply refs_ok_ext; [exact Hr|]. intros g Hg. unfold one. cbv beta. rewrite fupd_at. destruct (Z.eqb_spec g f) as [->|]; lia.
Qed.

(** A slot of the running process is overwritten. *)
Lemma set_fd_flight h c s fd f s' : fd_inv h s -> is_proc (on_cpu s c) -> 0 <= fd < NOFILE -> f = NULL \/ is_file f ->
  set_fd c fd f s = Ret tt s' ->
  fd_inv (one (nthZ NULL (p_ofile (cur s c)) fd) 1 (one f (-1) h)) s' /\ cpus s' = cpus s /\ kern s' = kern s /\
  (forall q, q <> on_cpu s c -> pt s' q = pt s q) /\ p_ofile (cur s' c) = updZ (p_ofile (cur s c)) fd f.
Proof.
  intros [H1 H2] Hp Hfd Hf E. unfold set_fd, myproc in E. rewrite bind_gets in E. injection E as <-.
  fold (on_cpu s c). unfold cur. fold (on_cpu s c). set (p := on_cpu s c) in *. destruct (H1 p Hp) as [Hl Ha].
  split_and!; try done; cbn [pt cpus kern].
  - split; cbn [pt kern].
    + intros q Hq. rewrite fupd_at. destruct (Z.eqb_spec q p) as [->|]; [|by apply H1]. cbn [set_ofile p_ofile].
      split; [by rewrite length_updZ|]. unfold updZ. destruct (fd <? 0); [done|]. by apply Forall_insert.
    + eapply refs_ok_ext; [exact H2|]. intros g Hg. cbv beta. rewrite fd_refs_upd by done. cbn [set_ofile p_ofile].
      rewrite cnt_updZ by (rewrite Hl; unfold NOFILE in *; lia). unfold one.
      rewrite (Z.eqb_sym g f), (Z.eqb_sym g (nthZ _ _ _)). destruct (f =? g), (nthZ NULL _ fd =? g); lia.
  - intros q Hq. by apply fupd_ne.
  - fold (on_cpu s c). fold p. by rewrite fupd_eq.
Qed.

Lemma fdalloc_flight h c s f s' r : fd_inv h s -> is_proc (on_cpu s c) -> is_file f -> fdalloc c f s = Ret r s' ->
  cpus s' = cpus s /\ kern s' = kern s /\
  ((r = -1 /\ s' = s /\ forall i, 0 <= i < NOFILE -> nthZ NULL (p_ofile (cur s c)) i <> NULL) \/
   (0 <= r < NOFILE /\ fd_inv (one f (-1) h) s' /\ nthZ NULL (p_ofile (cur s c)) r = NULL /\
    p_ofile (cur s' c) = updZ (p_ofile (cur s c)) r f)).
Proof.
  intros Hi Hp Hf E. unfold fdalloc in E. rewrite curproc_run in E.
  pose proof (find_fd_spec (seqZ 0 NOFILE) (p_ofile (cur s c))) as Hs.
  destruct (find_fd _ _) as [fd|]; [|injection E as <- <-; split_and!; try done; left; split_and!; try done; intros i Hi'; apply Hs, elem_of_seqZ; lia].
  destruct Hs as [Hin%elem_of_seqZ Hn]. apply bind_Ret in E as ([]&s1&E1&[= <- <-]).
  apply (set_fd_flight h) in E1 as (Hi'&Hc&Hk&_&Ho); [|done..|lia|by right]. split; [done|]. split; [done|]. right. split_and!; try done; try lia.
  eapply fd_inv_ext; [exact Hi'|]. rewrite Hn. intros g Hg. unfold one, is_file, NULL in *. destruct (Z.eqb_spec g (-1)); lia.
Qed.

(** ** pipealloc *)

Lemma put_same_ref H (s : fdstate St A) f x : refs_ok (fd_files s) H -> f_ref x = f_ref (fd_files s f) ->
  refs_ok (fupd (fd_files s) f x) H.
Proof. intros Hr E g Hg. rewrite fupd_at. destruct (Z.eqb_spec g f) as [->|]; [rewrite E; by apply Hr|by apply Hr]. Qed.

Lemma close_count H (s : fdstate St A) f s' : refs_ok (fd_files s) H -> is_file f -> 0 < H f ->
  fileclose f s = Ret tt s' -> refs_ok (fd_files s') (one f (-1) H).
Proof.
  intros Hr Hf Hp E. destruct (fileclose_ok s H f Hr Hf Hp) as [Hr' _]. rewrite E in Hr'. eapply refs_ok_ext; [exact Hr'|].
  intros g Hg. unfold one. rewrite fupd_at. destruct (Z.eqb_spec g f) as [->|]; lia.
Qed.
Lemma alloc_count H (s : fdstate St A) f s' : refs_ok (fd_files s) H -> filealloc s = Ret f s' ->
  (f = NULL /\ s' = s) \/ (is_file f /\ H f = 0 /\ refs_ok (fd_files s') (one f 1 H)).
Proof.
  intros Hr E. destruct (filealloc_ok s H Hr) as (f'&s1&E'&Hs). rewrite E' in E. injection E as <- <-.
  destruct Hs as [(->&->&_)|(Hf&Hz&Hr'&_)]; [by left|right]. split_and!; try done. eapply refs_ok_ext; [exact Hr'|].
  intros g Hg. unfold one. rewrite fupd_at. destruct (Z.eqb_spec g f') as [->|]; lia.
Qed.

Lemma file_not_null f : is_file f -> f =? NULL = false.
Proof. unfold is_file, NULL. intros H. destruct (Z.eqb_spec f (-1)); [lia|done]. Qed.

Lemma pipealloc_bad_count H (s : fdstate St A) f0 f1 r s' :
  refs_ok (fd_files s) (one f1 1 (one f0 1 H)) -> is_file f0 -> f1 = NULL \/ is_file f1 -> (forall f, is_file f -> 0 <= H f) -> f1 <> f0 ->
  pipealloc_bad f0 f1 s = Ret r s' -> r = None /\ refs_ok (fd_files s') H.
Proof.
  intros Hr Hf0 Hf1 Hpos Hne E. pose proof (Hpos f0 Hf0). unfold pipealloc_bad in E. rewrite (file_not_null f0 Hf0) in E. cbn [negb] in E.
  apply bind_Ret in E as ([]&s1&E1&E). apply (close_count (one f1 1 (one f0 1 H))) in E1; try done.
  2: { unfold one. rewrite Z.eqb_refl. destruct (f0 =? f1); lia. }
  destruct (Z.eqb_spec f1 NULL) as [->|Hn1]; cbn [negb] in E.
  - apply bind_Ret in E as ([]&s2&[= <-]&[= <- <-]). split; [done|]. eapply refs_ok_ext; [exact E1|].
    intros g Hg. unfold one, is_file, NULL in *. destruct (Z.eqb_spec g (-1)), (g =? f0); lia.
  - destruct Hf1 as [?|Hf1]; [done|]. pose proof (Hpos f1 Hf1). apply bind_Ret in E as ([]&s2&E2&[= <- <-]). split; [done|].
    apply (close_count (one f0 (-1) (one f1 1 (one f0 1 H)))) in E2; try done.
    + eapply refs_ok_ext; [exact E2|]. intros g Hg. unfold one. destruct (g =? f0), (g =? f1); lia.
    + unfold one. rewrite Z.eqb_refl. destruct (Z.eqb_spec f1 f0); [done|]. lia.
Qed.

Lemma pipealloc_count H (s : fdstate St A) r s' : refs_ok (fd_files s) H -> (forall f, is_file f -> 0 <= H f) ->
  pipealloc s = Ret r s' ->
  match r with
  | None => refs_ok (fd_files s') H
  | Some (rf, wf) => is_file rf /\ is_file wf /\ rf <> wf /\ H rf = 0 /\ H wf = 0 /\ refs_ok (fd_files s') (one wf 1 (one rf 1 H))
  end.
Proof.
  intros Hr Hpos E. unfold pipealloc in E. apply bind_Ret in E as (f0&s1&E1&E).
  apply (alloc_count H) in E1 as [[-> ->]|(Hf0&Hz0&Hr1)]; [| |done].
  { rewrite Z.eqb_refl in E. unfold pipealloc_bad in E. rewrite Z.eqb_refl in E. by injection E as <- <-. }
  rewrite (file_not_null f0 Hf0) in E. apply bind_Ret in E as (f1&s2&E2&E).
  apply (alloc_count (one f0 1 H)) in E2 as [[-> ->]|(Hf1&Hz1&Hr2)]; [| |done].
  { rewrite Z.eqb_refl in E. apply (pipealloc_bad_count H) in E as [-> ?]; try done; [|by left|].
    - eapply refs_ok_ext; [exact Hr1|]. intros g Hg. unfold one, is_file, NULL in *. destruct (Z.eqb_spec g (-1)); lia.
    - unfold is_file, NULL in *. lia. }
  assert (Hne : f1 <> f0) by (intros ->; unfold one in Hz1; rewrite Z.eqb_refl in Hz1; lia).
  assert (Hz1' : H f1 = 0) by (unfold one in Hz1; destruct (Z.eqb_spec f1 f0); [done|lia]).
  rewrite (file_not_null f1 Hf1) in E. apply bind_Ret in E as (p&s3&E3&E).
  assert (Hr3 : refs_ok (fd_files s3) (one f1 1 (one f0 1 H))).
  { pose proof (keeps_pages (A := A) (St := St) al_kalloc s2) as Hk. rewrite E3 in Hk. cbn [final] in Hk. by rewrite Hk. }
  destruct (p =? 0).
  { apply (pipealloc_bad_count H) in E as [-> ?]; try done. by right. }
  rewrite bind_gets in E. apply bind_Ret in E as ([]&s4&E4&E).
  assert (Hr4 : refs_ok (fd_files s4) (one f1 1 (one f0 1 H))).
  { pose proof (keeps_pipe (St := St) (A := A) p (set_pipe (new_pipe (load_bytes (al_mem (fd_pages s3)) (p + PIPE_DATA) 512))) s3) as Hk.
    rewrite E4 in Hk. cbn [final] in Hk. by rewrite Hk. }
  unfold get_file, put_file in E. rewrite bind_gets, bind_modify, bind_gets, bind_modify in E. injection E as <- <-.
  split_and!; try done; try congruence. cbn [fd_files].
  apply (put_same_ref _ (FdState (fd_fs s4) (fd_pages s4) (fupd (fd_files s4) f0 _) (fd_pipes s4) (fd_woken s4) (fd_killed s4)));
    [|done]. by apply put_same_ref.
Qed.

(** ** The calls *)

Context (devsw_read : Z -> option (Z -> Z -> M (fsstate St) (Z * list Z))).
Context (devsw_write : Z -> option (Z -> list Z -> Z -> M (fsstate St) Z)).

Definition counted (s : PS) : Prop := fd_inv (fun _ => 0) s.

Lemma argfd_inv c n (s s' : PS) r : argfd c n s = Ret r s' ->
  pt s' = pt s /\ cpus s' = cpus s /\ fd_files (kern s') = fd_files (kern s) /\
  forall fd f, r = Some (fd, f) -> 0 <= fd < NOFILE /\ nthZ NULL (p_ofile (cur s c)) fd = f /\ f <> NULL.
Proof.
  intros E. unfold argfd in E. apply bind_Ret in E as (v&s1&E1&E). destruct (keeps_argint c n _ _ _ E1) as (E2&E3&E4).
  destruct v as [fd|]; [|injection E as <- <-; split_and!; try done; by intros ? ? [=]].
  destruct (Z.ltb_spec fd 0); cbn [orb] in E; [injection E as <- <-; split_and!; try done; by intros ? ? [=]|].
  destruct (Z.leb_spec NOFILE fd); [injection E as <- <-; split_and!; try done; by intros ? ? [=]|].
  rewrite curproc_run in E. assert (Ec : cur s1 c = cur s c) by (unfold cur; by rewrite E2, E3). rewrite Ec in E.
  destruct (Z.eqb_spec (nthZ NULL (p_ofile (cur s c)) fd) NULL); injection E as <- <-; split_and!; try done.
  intros ? ? [= <- <-]. split_and!; try done.
Qed.

Lemma fd_open (s : PS) c fd f : counted s -> is_proc (on_cpu s c) -> 0 <= fd < NOFILE ->
  nthZ NULL (p_ofile (cur s c)) fd = f -> f <> NULL -> is_file f /\ 1 <= fd_refs (pt s) f.
Proof.
  intros [H1 _] Hp Hfd Hn Hf. destruct (H1 _ Hp) as [Hl Ha]. unfold cur in Hn. fold (on_cpu s c) in Hn.
  unfold nthZ in Hn. destruct (Z.ltb_spec fd 0); [lia|].
  destruct (lookup_lt_is_Some_2 (p_ofile (pt s (on_cpu s c))) (Z.to_nat fd)) as [x Hx]; [rewrite Hl; unfold NOFILE in *; lia|].
  rewrite (nth_lookup_Some _ _ NULL x Hx) in Hn. subst x. split.
  - rewrite Forall_lookup in Ha. by destruct (Ha _ _ Hx).
  - eapply fd_refs_ge; [exact Hp|]. by eapply list_elem_of_lookup_2.
Qed.

Lemma counted_same (s s' : PS) : counted s -> pt s' = pt s -> fd_files (kern s') = fd_files (kern s) -> counted s'.
Proof. intros [H1 H2] E1 E2. split; rewrite ?E1, ?E2; done. Qed.

Lemma on_cpu_same (s s' : PS) c : cpus s' = cpus s -> on_cpu s' c = on_cpu s c.
Proof. unfold on_cpu. by intros ->. Qed.

(** [sys_dup] with a descriptor of file [f]. *)
Lemma dup_counted c (s : PS) f : counted s -> is_proc (on_cpu s c) -> is_file f -> 1 <= fd_refs (pt s) f ->
  exists r s', (let! fd := fdalloc c f in if fd <? 0 then ret (-1) else on_kern c (filedup f) ;; ret fd) s = Ret r s' /\
    counted s' /\ ((r = -1 /\ forall i, 0 <= i < NOFILE -> nthZ NULL (p_ofile (cur s c)) i <> NULL) \/
      (0 <= r < NOFILE /\ nthZ NULL (p_ofile (cur s c)) r = NULL /\ p_ofile (cur s' c) = updZ (p_ofile (cur s c)) r f)).
Proof.
  intros Hi Hp Hf Hr.
  destruct (fdalloc c f s) as [fd s1|e s1] eqn:E.
  2: { exfalso. unfold fdalloc in E. rewrite curproc_run in E. by destruct (find_fd _ _). }
  pose proof E as E'. apply (fdalloc_flight (fun _ => 0)) in E as (Hc&Hk&[(->&->&Hno)|(Hfd&Hi1&Hn&Ho)]); try done.
  - exists (-1), s. rewrite (bind_run _ _ _ _ _ E'). split_and!; try done. by left.
  - rewrite (bind_run _ _ _ _ _ E'). destruct (Z.ltb_spec fd 0); [lia|].
    destruct (dup_flight (one f (-1) (fun _ => 0)) c s1 f Hi1 Hf) as (s2&E2&Hi2).
    { destruct (fi_refs _ _ Hi f Hf) as [Ea _], (fi_refs _ _ Hi1 f Hf) as [Eb _]. rewrite Hk in Eb. lia. }
    rewrite (bind_run _ _ _ _ _ E2). exists fd, s2. split_and!; try done.
    + eapply fd_inv_ext; [exact Hi2|]. intros g Hg. unfold one. destruct (g =? f); lia.
    + right. apply on_kern_inv in E2 as (_&Ep&Ec). assert (cur s2 c = cur s1 c) as -> by (unfold cur; by rewrite Ep, Ec). done.
Qed.

Lemma sys_dup_counted c (s s' : PS) r : counted s -> is_proc (on_cpu s c) -> sys_dup c s = Ret r s' -> counted s'.
Proof.
  intros Hi Hp E. unfold sys_dup in E. apply bind_Ret in E as (v&s1&E1&E). apply argfd_inv in E1 as (Ep&Ec&Ef&Hv).
  assert (Hi1 : counted s1) by by apply (counted_same s). destruct v as [[fd f]|]; [|by injection E as <- <-].
  destruct (Hv fd f eq_refl) as (Hfd&Hn&Hne). destruct (fd_open s c fd f) as [Hf Hr]; try done.
  destruct (dup_counted c s1 f Hi1) as (r'&s2&E2&Hi2&_); try done.
  - by rewrite (on_cpu_same s).
  - by rewrite Ep.
  - rewrite E2 in E. by injection E as <- <-.
Qed.

Lemma sys_close_counted c (s s' : PS) r : counted s -> is_proc (on_cpu s c) -> sys_close c s = Ret r s' -> counted s'.
Proof.
  intros Hi Hp E. unfold sys_close in E. apply bind_Ret in E as (v&s1&E1&E). apply argfd_inv in E1 as (Ep&Ec&Ef&Hv).
  assert (Hi1 : counted s1) by by apply (counted_same s). destruct v as [[fd f]|]; [|by injection E as <- <-].
  destruct (Hv fd f eq_refl) as (Hfd&Hn&Hne). destruct (fd_open s c fd f) as [Hf Hr]; try done.
  assert (Ecur : cur s1 c = cur s c) by (unfold cur; by rewrite Ep, Ec).
  apply bind_Ret in E as ([]&s2&E2&E). apply (set_fd_flight (fun _ => 0)) in E2 as (Hi2&Hc2&Hk2&_); try done;
    [|by rewrite (on_cpu_same s)|by left].
  rewrite Ecur, Hn in Hi2. apply bind_Ret in E as ([]&s3&E3&[= <- <-]).
  apply (close_flight (one f 1 (one NULL (-1) (fun _ => 0)))) in E3 as [Hi3 _]; try done.
  - eapply fd_inv_ext; [exact Hi3|]. intros g Hg. unfold one, is_file, NULL in *. destruct (Z.eqb_spec g (-1)), (g =? f); lia.
  - destruct (fi_refs _ _ Hi2 f Hf) as [Eb _], (fi_refs _ _ Hi f Hf) as [Ea _]. rewrite Hk2, Ef in Eb. lia.
Qed.

Lemma open_bad_counted c (s s' : PS) f ip r : fd_inv (one f 1 (fun _ => 0)) s -> is_file f -> fd_refs (pt s) f = 0 ->
  open_bad c f ip s = Ret r s' -> counted s'.
Proof.
  intros Hi Hf Hz E. unfold open_bad in E. rewrite (file_not_null f Hf) in E. cbn [negb] in E.
  apply bind_Ret in E as ([]&s1&E1&E). apply (close_flight (one f 1 (fun _ => 0))) in E1 as [Hi1 _]; try done.
  2: { unfold one. rewrite Z.eqb_refl. lia. }
  eapply (fd_inv_keeps _ _ s1); [| |exact E].
  - apply keeps_PM_bind; [apply keeps_k_fs|intros _]. apply keeps_PM_bind; [apply keeps_k_fs|intros _]. apply keeps_ret.
  - eapply fd_inv_ext; [exact Hi1|]. intros g Hg. unfold one. destruct (g =? f); lia.
Qed.

Lemma sys_open_counted c (s s' : PS) r : counted s -> is_proc (on_cpu s c) ->
  sys_open devsw_read devsw_write c s = Ret r s' -> counted s'.
Proof.
  intros Hi Hp E. unfold sys_open in E. apply bind_Ret in E as (path&s1&E1&E).
  destruct (keeps_argstr c 0 _ _ _ E1) as (Ep1&Ec1&_). apply (fd_inv_keeps _ _ _ _ _ (keeps_argstr c 0) Hi) in E1.
  destruct path as [path|]; [|by injection E as <- <-]. apply bind_Ret in E as (om&s2&E2&E).
  destruct (keeps_argint c 1 _ _ _ E2) as (Ep2&Ec2&_). apply (fd_inv_keeps _ _ _ _ _ (keeps_argint c 1) E1) in E2.
  destruct om as [om|]; [|by injection E as <- <-]. apply bind_Ret in E as (oi&s3&E3&E).
  destruct (keeps_k_fs c _ _ _ _ E3) as (Ep3&Ec3&_). apply (fd_inv_keeps _ _ _ _ _ (keeps_k_fs c _) E2) in E3.
  destruct oi as [ip|]; [|by injection E as <- <-]. apply bind_Ret in E as (f&s4&E4&E).
  apply (alloc_flight (fun _ => 0)) in E4 as [[-> Hi4]|(Hf&Hi4&Hz&Ep4&Ec4)]; [| |exact E3].
  { rewrite Z.eqb_refl in E. eapply (fd_inv_keeps (open_bad c NULL ip)); [|exact Hi4|exact E].
    unfold open_bad. rewrite Z.eqb_refl. cbn [negb]. apply keeps_PM_bind; [apply keeps_ret|intros _].
    apply keeps_PM_bind; [apply keeps_k_fs|intros _]. apply keeps_PM_bind; [apply keeps_k_fs|intros _]. apply keeps_ret. }
  rewrite (file_not_null f Hf) in E. apply bind_Ret in E as (fd&s5&E5&E).
  assert (Hc4 : cpus s4 = cpus s) by congruence. rewrite Z.add_0_r in Hz.
  apply (fdalloc_flight (one f 1 (fun _ => 0))) in E5 as (Hc5&Hk5&[(->&->&_)|(Hfd&Hi5&_)]); try done.
  3: { by rewrite (on_cpu_same s). }
  { change (-1 <? 0) with true in E. cbv iota in E. eapply open_bad_counted; [exact Hi4|done| |exact E]. by rewrite Ep4. }
  destruct (Z.ltb_spec fd 0); [lia|]. assert (Hi5' : counted s5).
  { eapply fd_inv_ext; [exact Hi5|]. intros g Hg. unfold one. destruct (g =? f); lia. }
  apply bind_Ret in E as ([]&s6&E6&E). apply (fd_inv_keeps _ _ _ _ _ (keeps_k_fs c _) Hi5') in E6.
  apply bind_Ret in E as ([]&s7&E7&E). apply (fd_inv_keeps _ _ _ _ _ (keeps_k_fs c _) E6) in E7.
  apply bind_Ret in E as ([]&s8&E8&[= <- <-]). apply on_kern_inv in E8 as (E8&Ep8&_).
  unfold get_file, put_file in E8. rewrite bind_gets in E8. injection E8 as Ek. destruct E7 as [T7 R7].
  split; rewrite ?Ep8, <- ?Ek; [done|]. cbn [fd_files]. by apply (put_same_ref _ (kern_for c s7)).
Qed.

Lemma fd_refs_nonneg t f : 0 <= fd_refs t f.
Proof.
  unfold fd_refs. generalize (seqZ 0 NPROC). intros l. induction l as [|p l IH]; cbn [fd_refs_of foldr]; [done|].
  fold (fd_refs_of t l f). pose proof (cnt_nonneg f (p_ofile (t p))). lia.
Qed.

Lemma pipe_bad_counted c (s s' : PS) h rf wf r : fd_inv h s -> (forall g, is_file g -> h g = one wf 1 (one rf 1 (fun _ => 0)) g) ->
  is_file rf -> is_file wf -> rf <> wf -> (on_kern c (fileclose rf) ;; on_kern c (fileclose wf) ;; ret (-1)) s = Ret r s' -> counted s'.
Proof.
  intros Hi Hh Hrf Hwf Hne E. pose proof (Hh rf Hrf) as H1. pose proof (Hh wf Hwf) as H2. unfold one in H1, H2.
  rewrite Z.eqb_refl in H1, H2. apply bind_Ret in E as ([]&s1&E1&E).
  apply (close_flight h) in E1 as (Hi1&Ep1&_); [|done..|pose proof (fd_refs_nonneg (pt s) rf); destruct (rf =? wf); lia].
  apply bind_Ret in E as ([]&s2&E2&[= <- <-]).
  apply (close_flight (one rf (-1) h)) in E2 as [Hi2 _]; [|done..|].
  - eapply fd_inv_ext; [exact Hi2|]. intros g Hg. pose proof (Hh g Hg) as Hgg. unfold one in *. destruct (g =? wf), (g =? rf); lia.
  - pose proof (fd_refs_nonneg (pt s1) wf). unfold one. destruct (Z.eqb_spec wf rf); [congruence|]. lia.
Qed.

Lemma sys_pipe_counted c (s s' : PS) r : counted s -> is_proc (on_cpu s c) -> sys_pipe c s = Ret r s' -> counted s'.
Proof.
  intros Hi Hp E. unfold sys_pipe in E. apply bind_Ret in E as (fd&s1&E1&E).
  destruct (keeps_argptr c 0 8 _ _ _ E1) as (Ep1&Ec1&_). apply (fd_inv_keeps _ _ _ _ _ (keeps_argptr c 0 8) Hi) in E1.
  destruct fd as [fd|]; [|by injection E as <- <-]. apply bind_Ret in E as (pr&s2&E2&E).
  apply on_kern_inv in E2 as (E2&Ep2&Ec2). destruct E1 as [T1 R1].
  apply (pipealloc_count (fun f => fd_refs (pt s1) f + 0) (kern_for c s1)) in E2; [|exact R1|by intros f Hf; apply (R1 f Hf)].
  destruct pr as [[rf wf]|].
  2: { injection E as <- <-. split; by rewrite Ep2. }
  destruct E2 as (Hrf&Hwf&Hne&Hz0&Hz1&R2).
  assert (Hi2 : fd_inv (one wf 1 (one rf 1 (fun _ => 0))) s2).
  { split; rewrite ?Ep2; [done|]. eapply refs_ok_ext; [exact R2|]. intros g _. unfold one. lia. }
  apply bind_Ret in E as (fd0&s3&E3&E). assert (Hp2 : is_proc (on_cpu s2 c)) by (rewrite (on_cpu_same s); congruence).
  apply (fdalloc_flight _ c s2 rf _ _ Hi2 Hp2 Hrf) in E3 as (Hc3&_&[(->&->&_)|(Hfd0&Hi3&Hn3&Ho3)]).
  { change (-1 <? 0) with true in E. cbv iota in E. unfold pipe_bad in E. change (0 <=? -1) with false in E. cbv iota in E.
    rewrite bind_ret_l in E. by eapply (pipe_bad_counted c s2 _ _ rf wf). }
  destruct (Z.ltb_spec fd0 0); [lia|]. apply bind_Ret in E as (fd1&s4&E4&E).
  assert (Hp3 : is_proc (on_cpu s3 c)) by (rewrite (on_cpu_same s2); done).
  apply (fdalloc_flight _ c s3 wf _ _ Hi3 Hp3 Hwf) in E4 as (Hc4&_&[(->&->&_)|(Hfd1&Hi4&_)]).
  - change (-1 <? 0) with true in E. cbv iota in E. unfold pipe_bad in E. destruct (Z.leb_spec 0 fd0); [|lia].
    apply bind_Ret in E as ([]&s5&E5&E). apply (set_fd_flight _ c s3 fd0 NULL s5 Hi3 Hp3) in E5 as (Hi5&_&_&_&_); [|done|by left].
    destruct Hi2 as [T2 _]. assert (Hnth : nthZ NULL (p_ofile (cur s3 c)) fd0 = rf).
    { rewrite Ho3. destruct (T2 _ Hp2) as [Hl _]. unfold cur. fold (on_cpu s2 c). apply nthZ_updZ_eq. rewrite Hl. unfold NOFILE in *. lia. }
    rewrite Hnth in Hi5. eapply (pipe_bad_counted c s5 _ _ rf wf); try done.
    intros g Hg. unfold one, is_file, NULL in *. destruct (Z.eqb_spec g (-1)), (g =? wf), (g =? rf); lia.
  - destruct (Z.ltb_spec fd1 0); [lia|].
    eapply (fd_inv_keeps (user_store c fd (le_bytes 4 fd0) ;; user_store c (fd + 4) (le_bytes 4 fd1) ;; ret 0) _ s4); [| |exact E].
    + apply keeps_PM_bind; [apply keeps_user_store|intros _]. apply keeps_PM_bind; [apply keeps_user_store|intros _]. apply keeps_ret.
    + eapply fd_inv_ext; [exact Hi4|]. intros g Hg. unfold one. destruct (g =? wf), (g =? rf); lia.
Qed.

End descriptors.

(** ** Witness: a machine with no open files *)

#[local] Instance sf_layer : BlockLayer bstate := logged_layer 2 30 1000.
#[local] Instance sf_pages : PageAllocator kmem (Kalloc.page_ok demo_kend) := kmem_allocator demo_kend demo_above.

Lemma demo_counted : counted demo_system.
Proof.
  split.
  - intros p _. split; [reflexivity|]. apply Forall_replicate. by left.
  - intros f Hf. cbn [demo_system kern fd_files pt]. split; [|rewrite Z.add_0_r; apply fd_refs_nonneg].
    rewrite Z.add_0_r. change (0 = fd_refs (fun _ => demo_process 0x80111000) f). unfold fd_refs. symmetry.
    assert (Hz : cnt f (p_ofile (demo_process 0x80111000)) = 0).
    { unfold is_file in Hf. cbn [demo_process p_ofile]. generalize 16%nat. intros n. induction n as [|n IH]; [done|].
      cbn [replicate]. rewrite cnt_cons, IH. unfold NULL. destruct (Z.eqb_spec (-1) f); lia. }
    generalize (seqZ 0 NPROC). intros l. induction l as [|p l IH]; [done|]. cbn [fd_refs_of foldr].
    fold (fd_refs_of (fun _ => demo_process 0x80111000) l f). rewrite IH, Hz. done.
Qed.

