(* ===== verification/Exec.v ===== *)
(** * exec.c, and sys_exec of sysfile.c

    [exec] builds the new image beside the old one and commits to it at the
    end.  Strings are their bytes without the NUL.  [loaduvm] reads the file
    straight into frames, so it runs on the file system and the pages
    together. *)
From stdpp Require Import base numbers list gmap strings.
From S2P Require Import Prelude Memory StringC Spinlock Mmu Kalloc Block Bio Log Blk Fs Vm VmProps Pipe File Proc ProcInv Syscall Sysfile SysfileProps.
Open Scope Z_scope.

(** An allocator with something beside it is an allocator. *)
Section pair.
Context {B A : Type} {page_ok : Z -> Prop} `{PA : PageAllocator A page_ok}.

Definition on_right {X} (m : M A X) : M (B * A) X := zoom snd (fun a s => (fst s, a)) m.
Definition on_left {X} (m : M B X) : M (B * A) X := zoom fst (fun b s => (b, snd s)) m.

#[export] Instance pair_allocator : PageAllocator (B * A) page_ok.
Proof.
  refine {| al_mem s := al_mem (snd s); al_set_mem m s := (fst s, al_set_mem m (snd s)); al_kalloc := on_right al_kalloc;
            al_kfree v := on_right (al_kfree v); al_free s l := al_free (snd s) l |}.
  - intros v. apply al_page_aligned.
  - intros m s. apply al_mem_set.
  - intros s l. apply al_free_pages.
  - intros s l m H1 H2 H3. by apply al_free_frame.
  - intros [b s] v l H. destruct (al_kalloc_some s v l H) as (s'&E&Hf&Hm). exists (b, s'). unfold on_right, zoom. simpl. by rewrite E.
  - intros [b s] H. destruct (al_kalloc_none s H) as (s'&E&Hf&Hm). exists (b, s'). unfold on_right, zoom. simpl. by rewrite E.
  - intros [b s] v l H1 H2 H3. destruct (al_kfree_ok s v l H1 H2 H3) as (s'&E&Hf&Hm). exists (b, s').
    unfold on_right, zoom. simpl. by rewrite E.
Defined.
End pair.

Definition ELF_MAGIC : Z := 0x464C457F.
Definition ELF_PROG_LOAD : Z := 1.

(** Fields of struct elfhdr (52 bytes) and struct proghdr (32 bytes) *)
Definition ELF_SIZE : Z := 52.
Definition PH_SIZE : Z := 32.
Definition elf_magic (e : list Z) : Z := ld32 e 0.
Definition elf_entry (e : list Z) : Z := ld32 e 24.
Definition elf_phoff (e : list Z) : Z := ld32 e 28.
Definition elf_phnum (e : list Z) : Z := ld16 e 44.
Definition ph_type (h : list Z) : Z := ld32 h 0.
Definition ph_off (h : list Z) : Z := ld32 h 4.
Definition ph_vaddr (h : list Z) : Z := ld32 h 8.
Definition ph_filesz (h : list Z) : Z := ld32 h 16.
Definition ph_memsz (h : list Z) : Z := ld32 h 20.

(** What follows the last slash. *)
Fixpoint base_name (s last : list Z) : list Z :=
  match s with
  | [] => last
  | b :: s' => base_name s' (if b =? SLASH then s' else last)
  end.

Section Exec.
Context {St : Type} `{BL : BlockLayer St} {A : Type} {page_ok : Z -> Prop} `{PA : PageAllocator A page_ok}.
Context (devsw_read : Z -> option (Z -> Z -> M (fsstate St) (Z * list Z))).
Context (data : Z) (g : gpu).
Abbreviation PM := (M (pstate St A)).

(** Code on the file system and the pages. *)
Definition on_both {X} (c : Z) (m : M (fsstate St * A) X) : PM X :=
  on_kern c (zoom (fun k => (fd_fs k, fd_pages k))
    (fun x k => FdState (fst x) (snd x) (fd_files k) (fd_pipes k) (fd_woken k) (fd_killed k)) m).

(** [readi] into kernel memory *)
Definition readi_to (ip dst off n : Z) : M (fsstate St * A) Z :=
  let! (r, bytes) := on_left (readi devsw_read ip off n) in
  vmem (fun m => store_bytes m dst bytes) ;;
  ret r.

(** [bad:]; [ip] is null once the file is closed. *)
Definition exec_bad (c pgdir ip : Z) : PM Z :=
  (if negb (pgdir =? 0) then on_mem c (freevm pgdir) else ret tt) ;;
  (if negb (ip =? NULL) then k_fs c (iunlockput ip) ;; k_fs c fs_end else ret tt) ;;
  ret (-1).

(** The loop over the program headers: the new size, or failure. *)
Fixpoint load_segments (n : nat) (c ip pgdir off sz : Z) : PM (option Z) :=
  match n with
  | O => ret (Some sz)
  | S n' =>
      let! (r, ph) := k_fs c (readi devsw_read ip (u32 off) PH_SIZE) in
      if negb (r =? PH_SIZE) then ret None
      else if negb (ph_type ph =? ELF_PROG_LOAD) then load_segments n' c ip pgdir (off + PH_SIZE) sz
      else if ph_memsz ph <? ph_filesz ph then ret None
      else if ph_vaddr ph +u ph_memsz ph <? ph_vaddr ph then ret None
      else
        let! sz := on_mem c (allocuvm pgdir sz (ph_vaddr ph +u ph_memsz ph)) in
        if sz =? 0 then ret None
        else if negb (ph_vaddr ph mod PGSIZE =? 0) then ret None
        else
          let! r := on_both c (loaduvm readi_to pgdir (ph_vaddr ph) ip (ph_off ph) (ph_filesz ph)) in
          if r <? 0 then ret None
          else load_segments n' c ip pgdir (off + PH_SIZE) sz
  end.

(** The loop that pushes the argument strings: the stack pointer and the
    addresses of the strings, last first; [None] is [goto bad]. *)
Fixpoint push_args (argv : list (list Z)) (c pgdir argc sp : Z) (ustack : list Z) : PM (option (Z * list Z)) :=
  match argv with
  | [] => ret (Some (sp, ustack))
  | a :: argv' =>
      if MAXARG <=? argc then ret None
      else
        let sp := Z.land (sp -u (Z.of_nat (length a) + 1)) 0xFFFFFFFC in
        let! r := on_mem c (copyout pgdir sp (a ++ [0])) in
        if r <? 0 then ret None
        else push_args argv' c pgdir (argc + 1) sp (ustack ++ [sp])
  end.

(** "Commit to the user image." *)
Definition exec_commit (c pgdir sz entry sp : Z) (path : list Z) : PM Z :=
  let! p := myproc c in
  mod_proc p (set_name (take 15 (base_name path path))) ;;
  let! x := get_proc p in
  let oldpgdir := p_pgdir x in
  mod_proc p (set_mm sz pgdir) ;;
  on_mem c (vstore (p_tf x + TF_EIP) entry) ;;
  on_mem c (vstore (p_tf x + TF_ESP) sp) ;;
  switchuvm c p ;;
  on_mem c (freevm oldpgdir) ;;
  ret 0.

(** From the stack to the end of [exec]; the file is closed. *)
Definition exec_stack (c pgdir sz entry : Z) (path : list Z) (argv : list (list Z)) : PM Z :=
  let sz := PGROUNDUP sz in
  let! sz := on_mem c (allocuvm pgdir sz (sz +u 2 * PGSIZE)) in
  if sz =? 0 then exec_bad c pgdir NULL
  else
    on_mem c (clearpteu pgdir (sz -u 2 * PGSIZE)) ;;
    let! r := push_args argv c pgdir 0 sz [] in
    match r with
    | None => exec_bad c pgdir NULL
    | Some (sp, args) =>
        let argc := Z.of_nat (length args) in
        let ustack := [0xFFFFFFFF; argc; sp -u (argc + 1) * 4] ++ args ++ [0] in
        let sp := sp -u (3 + argc + 1) * 4 in
        let! r := on_mem c (copyout pgdir sp (concat (map (le_bytes 4) ustack))) in
        if r <? 0 then exec_bad c pgdir NULL
        else exec_commit c pgdir sz entry sp path
    end.

(** [exec(path, argv)] *)
Definition exec (c : Z) (path : list Z) (argv : list (list Z)) : PM Z :=
  k_fs c fs_begin ;;
  let! ip := k_fs c (namei devsw_read path) in
  match ip with
  | None => k_fs c fs_end ;; ret (-1)
  | Some ip =>
      k_fs c (ilock ip) ;;
      let! (r, elf) := k_fs c (readi devsw_read ip 0 ELF_SIZE) in
      if negb (r =? ELF_SIZE) then exec_bad c 0 ip
      else if negb (elf_magic elf =? ELF_MAGIC) then exec_bad c 0 ip
      else
        let! pgdir := on_mem c (setupkvm data g) in
        if pgdir =? 0 then exec_bad c 0 ip
        else
          let! sz := load_segments (Z.to_nat (elf_phnum elf)) c ip pgdir (i32 (elf_phoff elf)) 0 in
          match sz with
          | None => exec_bad c pgdir ip
          | Some sz =>
              k_fs c (iunlockput ip) ;;
              k_fs c fs_end ;;
              exec_stack c pgdir sz (elf_entry elf) path argv
          end
  end.

(** The loop of [sys_exec] from [argv[i]] on. *)
Fixpoint fetch_argv (fuel : nat) (c uargv i : Z) (argv : list (list Z)) : PM (option (list (list Z))) :=
  match fuel with
  | O => ret None
  | S fuel' =>
      let! u := fetchint c (uargv +u 4 * i) in
      match u with
      | None => ret None
      | Some u =>
          if u =? 0 then ret (Some argv)
          else
            let! s := fetchstr c (u32 u) in
            match s with
            | None => ret None
            | Some s => fetch_argv fuel' c uargv (i + 1) (argv ++ [s])
            end
      end
  end.
(** [sys_exec()]; the loop fails at [argv[MAXARG]]. *)
Definition sys_exec (c : Z) : PM Z :=
  let! path := argstr c 0 in
  match path with
  | None => ret (-1)
  | Some path =>
      let! u := argint c 1 in
      match u with
      | None => ret (-1)
      | Some u =>
          let! argv := fetch_argv (Z.to_nat MAXARG) c (u32 u) 0 [] in
          match argv with
          | None => ret (-1)
          | Some argv => exec c path argv
          end
      end
  end.

(** ** All or nothing *)

Abbreviation PS := (pstate St A).

Lemma keeps_both {X} c (m : M (fsstate St * A) X) : keeps (on_both c m).
Proof. apply keeps_on_kern. intros s. unfold zoom. by destruct (m _). Qed.

Lemma keeps_exec_bad c pgdir ip : keeps (exec_bad c pgdir ip).
Proof.
  unfold exec_bad. apply keeps_PM_bind; [destruct (negb _); [apply keeps_mem|apply keeps_ret]|intros _].
  apply keeps_PM_bind; [|intros _; apply keeps_ret]. destruct (negb _); [|apply keeps_ret].
  apply keeps_PM_bind; [apply keeps_k_fs|intros _; apply keeps_k_fs].
Qed.

Lemma keeps_load_segments n c ip pgdir off sz : keeps (load_segments n c ip pgdir off sz).
Proof.
  revert off sz. induction n as [|n IH]; intros off sz; cbn [load_segments]; [apply keeps_ret|].
  apply keeps_PM_bind; [apply keeps_k_fs|intros [r ph]]. do 4 (destruct (_ : bool); [try apply keeps_ret; try apply IH|]).
  apply keeps_PM_bind; [apply keeps_mem|intros sz']. do 2 (destruct (_ : bool); [apply keeps_ret|]).
  apply keeps_PM_bind; [apply keeps_both|intros r']. destruct (_ : bool); [apply keeps_ret|apply IH].
Qed.

Lemma keeps_push_args argv c pgdir argc sp us : keeps (push_args argv c pgdir argc sp us).
Proof.
  revert argc sp us. induction argv as [|a argv IH]; intros argc sp us; cbn [push_args]; [apply keeps_ret|].
  destruct (_ : bool); [apply keeps_ret|]. cbv zeta. apply keeps_PM_bind; [apply keeps_mem|intros r].
  destruct (_ : bool); [apply keeps_ret|apply IH].
Qed.

Lemma exec_bad_ret c pgdir ip (s s' : PS) r : exec_bad c pgdir ip s = Ret r s' -> r = -1.
Proof. unfold exec_bad. intros E. apply bind_Ret in E as ([]&s1&_&E). by apply bind_Ret in E as ([]&s2&_&[= <- _]). Qed.

(** The new image [pgdir], [sz] is the running process's, and nothing else of
    the processes and processors changed. *)
Record replaced (c : Z) (path : list Z) (pgdir sz : Z) (s s' : PS) : Prop := Replaced {
  rp_self : pt s' (on_cpu s c) = set_mm sz pgdir (set_name (take 15 (base_name path path)) (pt s (on_cpu s c)));
  rp_others : forall q, q <> on_cpu s c -> pt s' q = pt s q;
  rp_cpu : cpus s' c = set_space (V2P pgdir) (p_kstack (pt s (on_cpu s c)) + KSTACKSIZE) (cpus s c);
  rp_cpus : forall c', c' <> c -> cpus s' c' = cpus s c'
}.

Lemma exec_commit_ok c pgdir sz entry sp path (s s' : PS) r : exec_commit c pgdir sz entry sp path s = Ret r s' ->
  r = 0 /\ replaced c path pgdir sz s s'.
Proof.
  intros E. unfold exec_commit, myproc, get_proc in E. rewrite bind_gets in E. fold (on_cpu s c) in E. set (p := on_cpu s c) in *.
  unfold mod_proc in E. rewrite bind_modify, bind_gets, bind_modify in E. cbn [pt nextpid initproc first kpgdir cpus kern] in E.
  rewrite fupd_eq in E. set (s2 := PState _ _ _ _ _ _ _) in E.
  assert (H2 : (forall q, q <> p -> pt s2 q = pt s q) /\ cpus s2 = cpus s /\
    pt s2 p = set_mm sz pgdir (set_name (take 15 (base_name path path)) (pt s p))).
  { subst s2. cbn [pt cpus]. split_and!; [intros q Hq; by rewrite !fupd_ne|done|by rewrite fupd_eq]. }
  clearbody s2. destruct H2 as (Ho&Hc2&Hp2).
  apply bind_Ret in E as ([]&s3&E3&E). destruct (keeps_mem c _ _ _ _ E3) as (P3&C3&_).
  apply bind_Ret in E as ([]&s4&E4&E). destruct (keeps_mem c _ _ _ _ E4) as (P4&C4&_).
  apply bind_Ret in E as ([]&s5&E5&E). apply bind_Ret in E as ([]&s6&E6&[= <- <-]).
  destruct (keeps_mem c _ _ _ _ E6) as (P6&C6&_). split; [done|].
  unfold switchuvm in E5. destruct (p =? NULL); [done|]. unfold get_proc in E5. rewrite bind_gets in E5.
  destruct (_ =? 0); [done|]. destruct (_ =? 0); [done|]. injection E5 as <-. cbn [pt cpus] in *.
  rewrite P4, P3 in *. rewrite C4, C3, Hc2 in *.
  split; rewrite ?P6, ?C6; fold p; try done.
  - rewrite fupd_eq, Hp2. done.
  - intros c' Hc'. by rewrite fupd_ne.
Qed.

End Exec.

(** ** Witness: a path through a file that is not a directory *)

#[local] Instance ex_layer : BlockLayer bstate := logged_layer 2 30 1000.
#[local] Instance ex_pages : PageAllocator kmem (Kalloc.page_ok demo_kend) := kmem_allocator demo_kend demo_above.

Definition nodir_fs : fsstate bstate :=
  FsState boot_blocks (Superblock 0 0 0 0 0 0 0) (fun _ => Inode 1 1 1 (Sleeplock 0 0) 1 T_FILE 0 0 1 0 []) 1 0.
Definition nodir_system : pstate bstate kmem :=
  PState (fun _ => set_cwd 0 (demo_process 0x80111000)) 2 0 false 0x80102000
    (fun _ => Cpust 0 ∅ false false (V2P demo_dir) 0 0)
    (FdState nodir_fs demo_space (fd_files boot_files) (fd_pipes boot_files) [] false).

