(* ===== verification/Trap.v ===== *)
(** * trap.c, sysproc.c and the dispatcher of syscall.c

    A handler's result [None] means that the process has left the processor
    (asleep, preempted or gone); the call goes on when it is switched to
    again.  The handlers of the devices are parameters. *)
From stdpp Require Import base numbers list gmap strings.
From S2P Require Import Prelude Memory StringC Spinlock Mmu Kalloc Block Bio Log Blk Fs Vm VmProps Pipe File Proc ProcInv Syscall Sysfile Exec.
Open Scope Z_scope.

Definition T_SYSCALL : Z := 64.
Definition T_IRQ0 : Z := 32.
Definition IRQ_TIMER : Z := 0.
Definition IRQ_KBD : Z := 1.
Definition IRQ_COM1 : Z := 4.
Definition IRQ_IDE : Z := 14.
Definition IRQ_SPURIOUS : Z := 31.
Definition TF_TRAPNO : Z := 48.

(** [tickslock] *)
Definition TICKSLOCK : Z := 3.

Record tstate (St A : Type) := TState { ts : pstate St A; ticks : Z }.
Arguments TState {St A}.
Arguments ts {St A}.
Arguments ticks {St A}.

Section Trap.
Context {St : Type} `{BL : BlockLayer St} {A : Type} {page_ok : Z -> Prop} `{PA : PageAllocator A page_ok}.
Context (devsw_read : Z -> option (Z -> Z -> M (fsstate St) (Z * list Z))).
Context (devsw_write : Z -> option (Z -> list Z -> Z -> M (fsstate St) Z)).
Context (trapret forkret_addr data : Z) (g : gpu).
(** [&ticks]; [kbdintr], [uartintr] and [i8254_intr] by interrupt number. *)
Context (ticks_addr : Z) (dev_intr : Z -> M (pstate St A) unit).
Abbreviation TM := (M (tstate St A)).
Abbreviation PM := (M (pstate St A)).

Definition on_ps {X} (m : PM X) : TM X := zoom ts (fun x s => TState x (ticks s)) m.
Definition set_ticks (t : Z) : TM unit := modify (fun s => TState (ts s) t).

(** ** sysproc.c *)

Definition sys_fork (c : Z) : PM Z := fork trapret forkret_addr data g c.
Definition sys_exit (c : Z) : PM (option Z) := exit c ;; ret None.
Definition sys_wait (c : Z) : PM (option Z) := wait c.
Definition sys_kill (c : Z) : PM Z :=
  let! pid := argint c 0 in
  match pid with
  | None => ret (-1)
  | Some pid => kill c pid
  end.
Definition sys_getpid (c : Z) : PM Z := let! x := curproc c in ret (p_pid x).
Definition sys_sbrk (c : Z) : PM Z :=
  let! n := argint c 0 in
  match n with
  | None => ret (-1)
  | Some n =>
      let! x := curproc c in
      let! r := growproc c n in
      if r <? 0 then ret (-1) else ret (i32 (p_sz x))
  end.

(** The loop of [sys_sleep] up to its end or its next [sleep]. *)
Definition sleep_loop (c ticks0 n : Z) : TM (option Z) :=
  let! t := gets ticks in
  if t -u ticks0 <? u32 n then
    let! x := on_ps (curproc c) in
    if negb (p_killed x =? 0) then on_ps (lock_release c TICKSLOCK) ;; ret (Some (-1))
    else on_ps (sleep c (ChAddr ticks_addr) TICKSLOCK (RSleep TICKSLOCK)) ;; ret None
  else on_ps (lock_release c TICKSLOCK) ;; ret (Some 0).
Definition sys_sleep (c : Z) : TM (option Z) :=
  let! n := on_ps (argint c 0) in
  match n with
  | None => ret (Some (-1))
  | Some n =>
      on_ps (lock_acquire c TICKSLOCK) ;;
      let! ticks0 := gets ticks in
      sleep_loop c ticks0 n
  end.
Definition sys_uptime (c : Z) : TM Z :=
  on_ps (lock_acquire c TICKSLOCK) ;;
  let! xticks := gets ticks in
  on_ps (lock_release c TICKSLOCK) ;;
  ret (i32 xticks).

(** ** The dispatcher *)

Definition returns (m : PM Z) : TM (option Z) := let! r := on_ps m in ret (Some r).

(** [syscalls[num]] *)
Definition syscalls (c num : Z) : option (TM (option Z)) :=
  match num with
  | 1 => Some (returns (sys_fork c))
  | 2 => Some (on_ps (sys_exit c))
  | 3 => Some (on_ps (sys_wait c))
  | 4 => Some (returns (sys_pipe c))
  | 5 => Some (returns (sys_read devsw_read c))
  | 6 => Some (returns (sys_kill c))
  | 7 => Some (returns (sys_exec devsw_read data g c))
  | 8 => Some (returns (sys_fstat c))
  | 9 => Some (returns (sys_chdir devsw_read c))
  | 10 => Some (returns (sys_dup c))
  | 11 => Some (returns (sys_getpid c))
  | 12 => Some (returns (sys_sbrk c))
  | 13 => Some (sys_sleep c)
  | 14 => Some ((let! r := sys_uptime c in ret (Some r)))
  | 15 => Some (returns (sys_open devsw_read devsw_write c))
  | 16 => Some (returns (sys_write devsw_write c))
  | 17 => Some (returns (sys_mknod devsw_read devsw_write c))
  | 18 => Some (returns (sys_unlink devsw_read devsw_write c))
  | 19 => Some (returns (sys_link devsw_read devsw_write c))
  | 20 => Some (returns (sys_mkdir devsw_read devsw_write c))
  | 21 => Some (returns (sys_close c))
  | _ => None
  end.

(** [curproc->tf->eax = r] *)
Definition set_eax (c r : Z) : TM unit :=
  let! x := on_ps (curproc c) in
  on_ps (on_mem c (vstore (p_tf x + TF_EAX) (u32 r))).

(** [syscall()]; whether the process is still on the processor *)
Definition syscall (c : Z) : TM bool :=
  let! x := on_ps (curproc c) in
  let! eax := on_ps (on_mem c (vload (p_tf x + TF_EAX))) in
  match syscalls c (i32 eax) with
  | Some h =>
      let! r := h in
      match r with
      | Some r => set_eax c r ;; ret true
      | None => ret false
      end
  | None => set_eax c (-1) ;; ret true
  end.

(** ** trap.c *)

Definition has_proc (c : Z) : TM bool := let! p := on_ps (myproc c) in ret (negb (p =? NULL)).
(** [myproc() && myproc()->killed && (tf->cs&3) == DPL_USER] *)
Definition killed_in_user (c cs : Z) : TM bool :=
  let! h := has_proc c in
  if h then let! x := on_ps (curproc c) in ret (negb (p_killed x =? 0) && (Z.land cs 3 =? DPL_USER)) else ret false.

(** The end of [trap]; [timer] says whether it was the timer. *)
Definition trap_tail (c cs : Z) (timer : bool) : TM unit :=
  let! k := killed_in_user c cs in
  if k then on_ps (exit c)
  else
    let! h := has_proc c in
    let! run := (if h then let! x := on_ps (curproc c) in ret (bool_decide (p_state x = RUNNING)) else ret false) in
    if run && timer then on_ps (yield c) else ret tt.
(** The same after [yield] has returned. *)
Definition trap_after_yield (c cs : Z) : TM unit :=
  let! k := killed_in_user c cs in
  if k then on_ps (exit c) else ret tt.

(** The system call branch of [trap]. *)
Definition trap_syscall (c tf : Z) : TM unit :=
  let! x := on_ps (curproc c) in
  if negb (p_killed x =? 0) then on_ps (exit c)
  else
    let! p := on_ps (myproc c) in
    on_ps (mod_proc p (fun x => set_frames tf (p_context x) (p_resume x) x)) ;;
    let! here := syscall c in
    if here then
      let! x := on_ps (curproc c) in
      if negb (p_killed x =? 0) then on_ps (exit c) else ret tt
    else ret tt.

(** The timer tick, on the first processor *)
Definition timer_tick (c : Z) : TM unit :=
  if c =? 0 then
    on_ps (lock_acquire c TICKSLOCK) ;;
    let! t := gets ticks in
    set_ticks (t +u 1) ;;
    on_ps (wakeup c (ChAddr ticks_addr)) ;;
    on_ps (lock_release c TICKSLOCK)
  else ret tt.

(** [trap(tf)]; acknowledging the interrupt changes no state of the model. *)
Definition trap (c tf : Z) : TM unit :=
  let! trapno := on_ps (on_mem c (vload (tf + TF_TRAPNO))) in
  let! w := on_ps (on_mem c (vload (tf + TF_CS))) in
  let cs := u16 w in
  if trapno =? T_SYSCALL then trap_syscall c tf
  else
    (if trapno =? T_IRQ0 + IRQ_TIMER then timer_tick c
     else if trapno =? T_IRQ0 + IRQ_IDE then ret tt
     else if trapno =? T_IRQ0 + IRQ_IDE + 1 then ret tt
     else if (trapno =? T_IRQ0 + IRQ_KBD) || (trapno =? T_IRQ0 + IRQ_COM1) || (trapno =? T_IRQ0 + 0xB)
       then on_ps (dev_intr (trapno - T_IRQ0))
     else if trapno =? T_IRQ0 + IRQ_SPURIOUS then ret tt
     else
       let! h := has_proc c in
       if negb h || (Z.land cs 3 =? 0) then panic "trap"
       else
         let! p := on_ps (myproc c) in
         on_ps (mod_proc p (set_killed 1))) ;;
    trap_tail c cs (trapno =? T_IRQ0 + IRQ_TIMER).

(** ** Properties *)

Abbreviation TS := (tstate St A).

Lemma on_ps_run {X} (m : PM X) (s : TS) x p : m (ts s) = Ret x p -> on_ps m s = Ret x (TState p (ticks s)).
Proof. unfold on_ps, zoom. by intros ->. Qed.

(** Reading a word of kernel memory. *)
Lemma tf_load c a (s : TS) : exists p, on_ps (on_mem c (vload a)) s = Ret (load32 (al_mem (pages (ts s))) a) (TState p (ticks s)) /\ alike (ts s) p.
Proof.
  destruct (on_mem_ret c (vload a) (ts s) _ eq_refl) as (p&E&Ha). exists p. split; [by apply on_ps_run|done].
Qed.

(** Not one of the trap numbers [trap] knows. *)
Definition unexpected (n : Z) : Prop :=
  ~ In n [T_SYSCALL; T_IRQ0 + IRQ_TIMER; T_IRQ0 + IRQ_IDE; T_IRQ0 + IRQ_IDE + 1; T_IRQ0 + IRQ_KBD; T_IRQ0 + IRQ_COM1;
          T_IRQ0 + 0xB; T_IRQ0 + IRQ_SPURIOUS].

Lemma unexpected_neq n : unexpected n ->
  (n =? T_SYSCALL) = false /\ (n =? T_IRQ0 + IRQ_TIMER) = false /\ (n =? T_IRQ0 + IRQ_IDE) = false /\
  (n =? T_IRQ0 + IRQ_IDE + 1) = false /\ (n =? T_IRQ0 + IRQ_KBD) || (n =? T_IRQ0 + IRQ_COM1) || (n =? T_IRQ0 + 0xB) = false /\
  (n =? T_IRQ0 + IRQ_SPURIOUS) = false.
Proof.
  unfold unexpected. cbn [In]. intros H. repeat match goal with |- context [n =? ?x] => destruct (Z.eqb_spec n x); [by exfalso; apply H; subst; auto 10|] end.
  done.
Qed.

Lemma has_proc_eq c (s : TS) : has_proc c s = Ret (negb (on_cpu (ts s) c =? NULL)) s.
Proof. by destruct s. Qed.
Lemma killed_in_user_eq c cs (s : TS) : killed_in_user c cs s =
  Ret (negb (on_cpu (ts s) c =? NULL) && (negb (p_killed (cur (ts s) c) =? 0) && (Z.land cs 3 =? DPL_USER))) s.
Proof.
  unfold killed_in_user. rewrite (bind_run _ _ _ _ _ (has_proc_eq c s)). destruct s as [p t]. cbn [ts].
  by destruct (on_cpu p c =? NULL).
Qed.

(** Unexpected traps: one from user mode never brings the kernel down, the
    process is marked killed and goes straight to [exit], everything else
    unchanged; one from kernel mode, or with no process, panics. *)
Theorem unexpected_trap c tf (s : TS) (Hn : unexpected (load32 (al_mem (pages (ts s))) (tf + TF_TRAPNO))) :
  let cs := u16 (load32 (al_mem (pages (ts s))) (tf + TF_CS)) in
  (on_cpu (ts s) c <> NULL -> Z.land cs 3 = DPL_USER ->
     exists p, trap c tf s = on_ps (exit c) (TState p (ticks s)) /\ cpus p = cpus (ts s) /\
       pt p = fupd (pt (ts s)) (on_cpu (ts s) c) (set_killed 1 (pt (ts s) (on_cpu (ts s) c)))) /\
  (on_cpu (ts s) c = NULL \/ Z.land cs 3 = 0 -> exists s', trap c tf s = Stop (Panicked "trap") s').
Proof.
  intros cs. destruct (unexpected_neq _ Hn) as (N1&N2&N3&N4&N5&N6). unfold trap.
  destruct (tf_load c (tf + TF_TRAPNO) s) as (p1&E1&Ha1). rewrite (bind_run _ _ _ _ _ E1).
  destruct (tf_load c (tf + TF_CS) (TState p1 (ticks s))) as (p2&E2&Ha2). rewrite (bind_run _ _ _ _ _ E2).
  cbn [ts ticks] in *. rewrite (ak_pages _ _ Ha1) in *. pose proof (alike_trans _ _ _ Ha1 Ha2) as [Ap Ac _].
  rewrite N1, N2, N3, N4, N5, N6. fold cs. cbv zeta. set (s2 := TState p2 (ticks s)). clearbody cs.
  assert (Eo : on_cpu p2 c = on_cpu (ts s) c) by (unfold on_cpu; by rewrite Ac).
  split.
  - intros Hp Hu.
    set (p3 := PState (fupd (pt p2) (on_cpu p2 c) (set_killed 1 (pt p2 (on_cpu p2 c)))) (nextpid p2) (initproc p2) (first p2) (kpgdir p2) (cpus p2) (kern p2)).
    exists p3. split; [|split; [done|by rewrite <- Ap, <- Eo]].
    assert (E3 : (let! h := has_proc c in if negb h || (Z.land cs 3 =? 0) then panic "trap"
                  else let! p := on_ps (myproc c) in on_ps (mod_proc p (set_killed 1))) s2 = Ret tt (TState p3 (ticks s))).
    { rewrite (bind_run _ _ _ _ _ (has_proc_eq c s2)). cbn [ts s2]. rewrite Eo.
      destruct (Z.eqb_spec (on_cpu (ts s) c) NULL); [done|]. rewrite Hu. reflexivity. }
    rewrite (bind_run _ _ _ _ _ E3). unfold trap_tail. rewrite (bind_run _ _ _ _ _ (killed_in_user_eq c cs _)). cbn [ts].
    replace (negb (on_cpu p3 c =? NULL) && (negb (p_killed (cur p3 c) =? 0) && (Z.land cs 3 =? DPL_USER))) with true; [done|].
    change (on_cpu p3 c) with (on_cpu p2 c). rewrite Eo. destruct (Z.eqb_spec (on_cpu (ts s) c) NULL); [done|].
    unfold cur. change (c_proc (cpus p3 c)) with (on_cpu p2 c). cbn [pt p3]. rewrite fupd_eq, Hu. done.
  - intros Hk. exists s2. apply bind_stop. rewrite (bind_run _ _ _ _ _ (has_proc_eq c s2)). cbn [ts s2]. rewrite Eo.
    destruct (Z.eqb_spec (on_cpu (ts s) c) NULL); cbn [negb orb]; [done|]. destruct Hk as [?|Hk]; [done|]. by rewrite Hk.
Qed.

End Trap.

Section sleeping.
Context {St A : Type} (ticks_addr : Z).
Abbreviation TS := (tstate St A).

(** ** Sleeping for a number of ticks *)

(** [sys_sleep(n)] counts ticks correctly also when [ticks] wraps around:
    [k] ticks (less than 2^32) after it noted the time, the loop ends with 0
    exactly when [k] is at least [n] taken as unsigned; before that it goes
    back to sleep, or fails if the process has been killed; a negative [n] so
    sleeps for 2^32 + n ticks. *)
Theorem sys_sleep_counts c t0 n k (s : TS) (Ht : is_u32 t0) (Hk : 0 <= k < 2^32) (Hnow : ticks s = t0 +u k)
  (Hn : is_i32 n) (Hlk : TICKSLOCK ∈ c_held (cpus (ts s) c)) :
  let n' := if n <? 0 then n + 2^32 else n in
  (n' <= k <-> exists s', sleep_loop ticks_addr c t0 n s = Ret (Some 0) s') /\
  (k < n' -> p_killed (cur (ts s) c) <> 0 -> exists s', sleep_loop ticks_addr c t0 n s = Ret (Some (-1)) s') /\
  (k < n' -> p_killed (cur (ts s) c) = 0 ->
     sleep_loop ticks_addr c t0 n s = (on_ps (sleep c (ChAddr ticks_addr) TICKSLOCK (RSleep TICKSLOCK)) ;; ret None) s).
Proof.
  intros n'. assert (Eel : ticks s -u t0 = k).
  { rewrite Hnow. unfold u32, is_u32 in *. change (2^32) with 4294967296 in *. Z.div_mod_to_equations; lia. }
  assert (En : u32 n = n').
  { subst n'. unfold u32, is_i32 in *. change (2^32) with 4294967296 in *. destruct (Z.ltb_spec n 0).
    - rewrite <- (Z.mod_small (n + 4294967296) 4294967296) by lia. rewrite <- Z.add_mod_idemp_r, Z.mod_same by lia.
      by rewrite Z.add_0_r.
    - apply Z.mod_small. lia. }
  unfold sleep_loop. rewrite bind_gets, Eel, En. clearbody n'.
  assert (Hrel : exists p, lock_release c TICKSLOCK (ts s) = Ret tt p).
  { unfold lock_release. rewrite bool_decide_true by done. by eexists. }
  destruct Hrel as [p Ep]. pose proof (on_ps_run _ s _ _ Ep) as Er.
  destruct s as [q t]. cbn [ts ticks] in *. split_and!.
  - split.
    + intros Hle. destruct (Z.ltb_spec k n'); [lia|]. exists (TState p t). by rewrite (bind_run _ _ _ _ _ Er).
    + intros [s' E]. destruct (Z.ltb_spec k n'); [|done]. exfalso.
      change (on_ps (curproc c) (TState q t)) with (Ret (cur q c) (TState q t)) in E.
      apply bind_Ret in E as (x&s1&[= <- <-]&E). destruct (negb _).
      * rewrite (bind_run _ _ _ _ _ Er) in E. done.
      * by apply bind_Ret in E as ([]&s2&_&[=]).
  - intros Hlt Hkd. destruct (Z.ltb_spec k n'); [|lia].
    assert (Ec : on_ps (curproc c) (TState q t) = Ret (cur q c) (TState q t)) by done. rewrite (bind_run _ _ _ _ _ Ec).
    destruct (Z.eqb_spec (p_killed (cur q c)) 0); [done|]. cbn [negb]. rewrite (bind_run _ _ _ _ _ Er). by eexists.
  - intros Hlt Hkd. destruct (Z.ltb_spec k n'); [|lia].
    assert (Ec : on_ps (curproc c) (TState q t) = Ret (cur q c) (TState q t)) by done. rewrite (bind_run _ _ _ _ _ Ec).
    by rewrite Hkd.
Qed.
End sleeping.

(** ** Witnesses: a page fault of a user program; a sleep across the wrap *)

#[local] Instance tr_layer : BlockLayer bstate := logged_layer 2 30 1000.
#[local] Instance tr_pages : PageAllocator kmem (Kalloc.page_ok demo_kend) := kmem_allocator demo_kend demo_above.

Definition fault_tf : Z := 0x80111000.
Definition fault_pages : kmem :=
  al_set_mem (store32 (store32 (al_mem demo_space) (fault_tf + TF_TRAPNO) 14) (fault_tf + TF_CS) 0x1b) demo_space.
Definition fault_system : tstate bstate kmem :=
  TState (PState (pt demo_system) 2 0 false 0x80102000 (fun _ => Cpust 0 {[TICKSLOCK]} false false (V2P demo_dir) 0 0)
    (FdState boot_fs fault_pages (fd_files boot_files) (fd_pipes boot_files) [] false)) 5.

Lemma unexpected_trap_witness : exists p,
  trap (fun _ => None) (fun _ => None) 0 0 0x80200000 demo_gpu 0x80112000 (fun _ => ret tt) 0 fault_tf fault_system =
    on_ps (exit 0) (TState p 5) /\ p_killed (pt p 0) = 1.
Proof.
  destruct (unexpected_trap (fun _ => None) (fun _ => None) 0 0 0x80200000 demo_gpu 0x80112000 (fun _ => ret tt) 0 fault_tf fault_system)
    as [H _].
  - vm_compute. intros H. repeat (destruct H as [H|H]; [discriminate H|]). exact H.
  - destruct H as (p&E&_&Hp); [vm_compute; discriminate|vm_compute; reflexivity|]. exists p. split; [exact E|].
    rewrite Hp. reflexivity.
Defined.

Lemma sys_sleep_counts_witness : exists s', sleep_loop 0x80112000 0 4294967290 10 fault_system = Ret (Some 0) s'.
Proof.
  apply (sys_sleep_counts 0x80112000 0 4294967290 10 11 fault_system).
  - unfold is_u32. lia.
  - lia.
  - reflexivity.
  - unfold is_i32. lia.
  - apply (bool_decide_unpack (TICKSLOCK ∈ c_held (cpus (ts fault_system) 0))). vm_compute. exact I.
  - change (10 <? 0) with false. lia.
Defined.
