(* ===== verification/Net.v ===== *)
(** * eth.c, arp.c, ipv4.c, icmp.c, tcp.c, http.c and the rings of i8254.c

    Packets are bytes of the kernel memory at the addresses the packed structs
    of pkts_hdr.h give; a function that builds a packet is a function on
    memory.  The registers of the network card that the driver reads and
    writes at run time are fields of [nic]. *)
From stdpp Require Import base numbers list gmap strings.
From S2P Require Import Prelude Memory StringC Spinlock Mmu Kalloc.
Open Scope Z_scope.

(** ** eth.c: byte order *)

Definition N2H_ushort (v : Z) : Z := u16 (Z.shiftl (Z.land v 0xFF) 8 + Z.shiftr v 8).
Definition H2N_ushort (v : Z) : Z := u16 (Z.shiftl (Z.land v 0xFF) 8 + Z.shiftr v 8).
Definition H2N_uint (v : Z) : Z :=
  u32 (Z.shiftl (Z.land v 0xF) 24 + Z.shiftl (Z.land v 0xF0) 8 + Z.shiftr (Z.land v 0xF00) 8 + Z.shiftr (Z.land v 0xF000) 24).
Definition N2H_uint (v : Z) : Z :=
  u32 (Z.shiftl (Z.land v 0xFF) 24 + Z.shiftl (Z.land v 0xFF00) 8 + Z.shiftr (Z.land v 0xFF0000) 8
       + Z.shiftr (Z.land v 0xFF000000) 24).

(** Sizes and offsets of the packed structs *)
Definition ETH_HDR : Z := 14.
Definition ARP_HDR : Z := 30.
Definition IPV4_HDR : Z := 20.
Definition ICMP_PKT : Z := 64.
Definition TCP_HDR : Z := 20.

(** Stores of fields: uchar, ushort, uint and arrays *)
Definition sb (a v : Z) (m : mem) : mem := store8 m a v.
Definition sh (a v : Z) (m : mem) : mem := store16 m a v.
Definition sw (a v : Z) (m : mem) : mem := store32 m a v.
Definition sarr (a : Z) (l : list Z) (m : mem) : mem := store_bytes m a l.
Definition larr (a : Z) (n : nat) (m : mem) : list Z := load_bytes m a n.

(** ** Checksums *)

(** One step of the loops of [ipv4_chksum] and [icmp_chksum]. *)
Definition chk_step (c w : Z) : Z := if 0xFFFF <? c + w then Z.land (c + w) 0xFFFF + 1 else c + w.
(** [(bin[i*2]<<8)+bin[i*2+1]] *)
Definition be16 (m : mem) (a : Z) : Z := Z.shiftl (m a) 8 + m (a + 1).
Definition words (m : mem) (a : Z) (n : Z) : list Z := map (fun i => be16 m (a + 2 * i)) (seqZ 0 n).

(** [ipv4_chksum(ipv4_addr)] *)
Definition ipv4_chksum (a : Z) (m : mem) : Z :=
  let len := u8 (Z.land (m a) 0xF * 2) in
  u16 (Z.lnot (fold_left chk_step (words m a len) 0)).
(** [icmp_chksum(icmp_addr)] *)
Definition icmp_chksum (a : Z) (m : mem) : Z := u16 (Z.lnot (fold_left chk_step (words m a 32) 0)).

(** ** arp.c: the table *)

Record arp_entry := ArpEntry { ae_ip : list Z; ae_mac : list Z; ae_use : Z }.
Definition ARP_TABLE_MAX : Z := 64.
Definition ARP_HARDWARE_TYPE : Z := 0x0100.
Definition ARP_PROTOCOL_TYPE : Z := 0x0008.
Definition ARP_OPS_REQUEST : Z := 0x0100.
Definition ARP_OPS_REPLY : Z := 0x0200.
Definition ARP_UPDATED_TABLE : Z := 1.
Definition ARP_CREATED_REPLY : Z := 2.

(** The loop of [arp_table_search] from entry [i] on. *)
Fixpoint arp_search_loop (ixs : list Z) (t : Z -> arp_entry) (ip : list Z) (empty : Z) : Z :=
  match ixs with
  | [] => empty - 1
  | i :: ixs' =>
      if decide (ae_ip (t i) = ip) then i
      else arp_search_loop ixs' t ip (if (ae_use (t i) =? 0) && (empty =? 1) then - i else empty)
  end.
(** [arp_table_search(ip)] *)
Definition arp_table_search (t : Z -> arp_entry) (ip : list Z) : Z := arp_search_loop (seqZ 0 ARP_TABLE_MAX) t ip 1.

(** [arp_table_update(recv_arp)] for a packet from [ip], [mac] *)
Definition arp_table_update (t : Z -> arp_entry) (ip mac : list Z) : Z -> arp_entry :=
  let index := arp_table_search t ip in
  if -1 <? index then fupd t index (ArpEntry (ae_ip (t index)) mac (ae_use (t index)))
  else
    let index := - (index + 1) in
    fupd t index (ArpEntry ip mac 1).

(** The header of an ARP packet of operation [op] to [dmac_eth], [dmac], [dip]. *)
Definition arp_pkt_create (mac my_ip dmac_eth dmac dip : list Z) (op send : Z) (m : mem) : mem :=
  let arp := send + ETH_HDR in
  let m := sb (send + 12) 0x08 m in
  let m := sb (send + 13) 0x06 m in
  let m := sarr send dmac_eth m in
  let m := sarr (send + 6) mac m in
  let m := sh arp ARP_HARDWARE_TYPE m in
  let m := sh (arp + 2) ARP_PROTOCOL_TYPE m in
  let m := sb (arp + 4) 6 m in
  let m := sb (arp + 5) 4 m in
  let m := sh (arp + 6) op m in
  let m := sarr (arp + 18) dmac m in
  let m := sarr (arp + 24) dip m in
  let m := sarr (arp + 8) mac m in
  sarr (arp + 14) my_ip m.
(** [arp_reply_pkt_create(arp_recv, send, send_size)] and
    [arp_broadcast(send, send_size, ip)] *)
Definition arp_reply_pkt_create (mac my_ip : list Z) (recv send : Z) (m : mem) : mem :=
  arp_pkt_create mac my_ip (larr (recv + 8) 6 m) (larr (recv + 8) 6 m) (larr (recv + 14) 4 m) ARP_OPS_REPLY send m.
Definition arp_broadcast (mac my_ip : list Z) (send ip : Z) (m : mem) : mem :=
  arp_pkt_create mac my_ip (replicate 6 0xff) (replicate 6 0) [10; 0; 1; u8 ip] ARP_OPS_REQUEST send m.
Definition arp_size : Z := ETH_HDR + ARP_HDR.

(** ** icmp.c and tcp.c: packets *)

Definition IPV4_TYPE_ICMP : Z := 0x1.
Definition IPV4_TYPE_TCP : Z := 0x6.
Definition ICMP_TYPE_ECHO_REQUEST : Z := 0x8.
Definition ICMP_TYPE_ECHO_REPLY : Z := 0x0.

(** The Ethernet and IPv4 headers both kinds of reply start with. *)
Definition ipv4_hdr_create (mac my_ip : list Z) (send_id len fragment protocol recv send : Z) (m : mem) : mem :=
  let ip := send + ETH_HDR in
  let m := sarr send (larr (recv + 6) 6 m) m in
  let m := sarr (send + 6) mac m in
  let m := sb (send + 12) 0x08 m in
  let m := sb (send + 13) 0x00 m in
  let m := sb ip (Z.shiftl 4 4 + Z.land (IPV4_HDR / 4) 0xF) m in
  let m := sb (ip + 1) 0 m in
  let m := sh (ip + 2) (H2N_ushort (u16 len)) m in
  let m := sh (ip + 4) send_id m in
  let m := sh (ip + 6) (H2N_ushort fragment) m in
  let m := sb (ip + 8) 255 m in
  let m := sb (ip + 9) protocol m in
  let m := sarr (ip + 12) my_ip m in
  let m := sarr (ip + 16) (larr (recv + ETH_HDR + 12) 4 m) m in
  let m := sh (ip + 10) 0 m in
  sh (ip + 10) (H2N_ushort (ipv4_chksum ip m)) m.

(** Where the payload of a received IPv4 packet starts. *)
Definition ipv4_payload (recv : Z) (m : mem) : Z := recv + ETH_HDR + Z.land (m (recv + ETH_HDR)) 0xF * 4.

(** [icmp_reply_pkt_create(recv_addr, send_addr, send_size)] *)
Definition icmp_reply_pkt_create (mac my_ip : list Z) (send_id recv send : Z) (m : mem) : mem :=
  let icmp_recv := ipv4_payload recv m in
  let icmp := send + ETH_HDR + IPV4_HDR in
  let m := ipv4_hdr_create mac my_ip send_id (IPV4_HDR + ICMP_PKT) 0x4000 IPV4_TYPE_ICMP recv send m in
  let m := sb icmp ICMP_TYPE_ECHO_REPLY m in
  let m := sb (icmp + 1) 0 m in
  let m := sh (icmp + 4) (load16 m (icmp_recv + 4)) m in
  let m := sh (icmp + 6) (load16 m (icmp_recv + 6)) m in
  let m := sarr (icmp + 8) (larr (icmp_recv + 8) 8 m) m in
  let m := sarr (icmp + 16) (larr (icmp_recv + 16) 48 m) m in
  let m := sh (icmp + 2) 0 m in
  sh (icmp + 2) (H2N_ushort (icmp_chksum icmp m)) m.
Definition icmp_size : Z := ETH_HDR + IPV4_HDR + ICMP_PKT.

Definition TCP_CODEBITS_ACK : Z := 0x10.
Definition TCP_CODEBITS_PSH : Z := 0x8.
Definition TCP_CODEBITS_SYN : Z := 0x2.
Definition TCP_CODEBITS_FIN : Z := 0x1.

(** [tcp_chksum(tcp_addr)]: the words of the pseudo header, then those of the
    segment; carries are added once at the end. *)
Definition tcp_chksum (my_ip : list Z) (ip : Z) (m : mem) : Z :=
  let tcp_len := H2N_ushort (u16 (N2H_ushort (load16 m (ip + 2)) - IPV4_HDR)) in
  let dummy := my_ip ++ larr (ip + 12) 4 m ++ [0; IPV4_TYPE_TCP; u8 tcp_len; tcp_len / 256] in
  let bin := fun i => nthZ 0 dummy i in
  let sum1 := fold_left (fun c i => u32 (c + (Z.shiftl (bin (i * 2)) 8 + bin (i * 2 + 1)))) (seqZ 0 6) 0 in
  let sum2 := fold_left (fun c w => u32 (c + w)) (words m (ip + IPV4_HDR) (N2H_ushort tcp_len / 2)) sum1 in
  let sum3 := u32 (sum2 + Z.shiftr sum2 16) in
  u16 (Z.lnot sum3).

(** [tcp_pkt_create(recv_addr, send_addr, send_size, pkt_type, payload_size)] *)
Definition tcp_pkt_create (mac my_ip : list Z) (send_id seq recv send pkt_type payload_size : Z) (m : mem) : mem :=
  let tcp_recv := ipv4_payload recv m in
  let ip := send + ETH_HDR in
  let tcp := ip + IPV4_HDR in
  let m := ipv4_hdr_create mac my_ip send_id (IPV4_HDR + TCP_HDR + payload_size) 0 IPV4_TYPE_TCP recv send m in
  let m := sh tcp (load16 m (tcp_recv + 2)) m in
  let m := sh (tcp + 2) (load16 m tcp_recv) m in
  let m := sw (tcp + 4) (H2N_uint seq) m in
  let m := sw (tcp + 8) (load32 m (tcp_recv + 4) +u Z.shiftl 1 24) m in
  let m := sb (tcp + 12) 0 m in
  let m := sb (tcp + 13) 0 m in
  let m := sb (tcp + 12) (Z.shiftl 5 4) m in
  let m := sb (tcp + 13) pkt_type m in
  let m := sh (tcp + 14) (H2N_ushort 14480) m in
  let m := sh (tcp + 18) 0 m in
  let m := sh (tcp + 16) 0 m in
  sh (tcp + 16) (H2N_ushort (u16 (tcp_chksum my_ip ip m + 8))) m.
Definition tcp_size (payload_size : Z) : Z := ETH_HDR + IPV4_HDR + TCP_HDR + payload_size.

(** ** http.c *)

Definition HTTP_1 : list Z := map (fun c => Z.of_N (Ascii.N_of_ascii c)) (String.list_ascii_of_string "HTTP/1.0 200 OK ") ++ [13; 10].
Definition HTTP_2 : list Z := map (fun c => Z.of_N (Ascii.N_of_ascii c)) (String.list_ascii_of_string "Content-Type: text/html ") ++ [13; 10].
Definition HTTP_3 : list Z :=
  [13; 10] ++ map (fun c => Z.of_N (Ascii.N_of_ascii c)) (String.list_ascii_of_string "Hello World!") ++ [13; 10].

(** [http_strcpy(dst, src, start_index)] of the string [src]: the memory and
    the number of bytes *)
Fixpoint http_strcpy (dst : Z) (src : list Z) (start i : Z) (m : mem) : mem * Z :=
  match src with
  | [] => (m, i)
  | b :: src' => http_strcpy dst src' start (i + 1) (sb (dst + start + i) b m)
  end.
(** [http_proc(recv, recv_size, send, send_size)] without the call of
    [tcp_fin]: the memory and the payload's size *)
Definition http_proc (send : Z) (m : mem) : mem * Z :=
  let (m, len) := http_strcpy send HTTP_1 0 0 m in
  let (m, n) := http_strcpy send HTTP_2 len 0 m in
  let len := len + n in
  let (m, n) := http_strcpy send HTTP_3 len 0 m in
  let len := len + n in
  let m := if negb (len mod 2 =? 0) then sb (send + len) 0 m else m in
  (m, len).

(** ** pci.c: configuration space *)

(** [config_addr] of [pci_access_config] and [pci_write_config_register] *)
Definition pci_config_addr (bus device function reg : Z) : Z :=
  Z.lor (Z.lor (Z.lor (Z.lor (Z.shiftl (Z.land bus 0xFF) 16) (Z.shiftl (Z.land device 0x1F) 11))
    (Z.shiftl (Z.land function 0x7) 8)) (Z.land reg 0xFC)) 0x80000000.

(** [struct pci_dev] *)
Record pci_dev := PciDev {
  bus_num : Z; device_num : Z; function_num : Z; device_id : Z; vendor_id : Z;
  base_class : Z; sub_class : Z; interface : Z; revision_id : Z; bar0 : Z; bar1 : Z }.
Definition PCI_CMD_BUS_MASTER : Z := 4.
Definition I8254_DEVICE_ID : Z := 0x100E.
Definition I8254_VENDOR_ID : Z := 0x8086.
Definition I8254_RECV_DESC_NUM : Z := 256.
Definition I8254_SEND_DESC_NUM : Z := 256.
Definition I8254_CTRL_SLU : Z := Z.shiftl 1 6.
Definition I8254_CTRL_ILOS : Z := Z.shiftl 1 7.
Definition I8254_CTRL_RST : Z := Z.shiftl 1 26.
Definition I8254_CTRL_VME : Z := Z.shiftl 1 30.
Definition I8254_CTRL_PHY_RST : Z := Z.shiftl 1 31.

(** Offsets of the card's registers from [base_addr] *)
Definition CTRL : Z := 0x0.
Definition EERD : Z := 0x14.
Definition ICS : Z := 0xC8.
Definition IMS : Z := 0xD0.
Definition IMC : Z := 0xD8.
Definition RCTL : Z := 0x100.
Definition TCTL : Z := 0x400.
Definition TIPG : Z := 0x410.
Definition RDBAL : Z := 0x2800.
Definition RDBAH : Z := 0x2804.
Definition RDLEN : Z := 0x2808.
Definition RDH : Z := 0x2810.
Definition RDT : Z := 0x2818.
Definition RXDCTL : Z := 0x2828.
Definition TDBAL : Z := 0x3800.
Definition TDBAH : Z := 0x3804.
Definition TDLEN : Z := 0x3808.
Definition TDH : Z := 0x3810.
Definition TDT : Z := 0x3818.
Definition TXDCTL : Z := 0x3828.
Definition MTA : Z := 0x5200.
Definition RAL : Z := 0x5400.
Definition RAH : Z := 0x5404.

(** ** The state of the network code *)

Section net.
Context {S : Type} {page_ok : Z -> Prop} `{PA : PageAllocator S page_ok}.

(** What the card leaves in EERD once it has served a read request; and the
    PCI configuration word at an address. *)
Context (eerd_reply : Z -> Z).

Record nstate := NState {
  np : S; mac_addr : list Z; my_ip : list Z; arp_table : Z -> arp_entry;
  ip_id : Z; send_id : Z; seq_num : Z; fin_flag : Z;
  base_addr : Z; intr_addr : Z; dev : pci_dev; regs : Z -> Z; conf : Z -> Z }.
Abbreviation NM := (M nstate).

Definition set_np (p : S) (s : nstate) : nstate :=
  NState p (mac_addr s) (my_ip s) (arp_table s) (ip_id s) (send_id s) (seq_num s) (fin_flag s)
    (base_addr s) (intr_addr s) (dev s) (regs s) (conf s).
Definition set_mac_addr (x : list Z) (s : nstate) : nstate :=
  NState (np s) x (my_ip s) (arp_table s) (ip_id s) (send_id s) (seq_num s) (fin_flag s)
    (base_addr s) (intr_addr s) (dev s) (regs s) (conf s).
Definition set_arp_table (x : Z -> arp_entry) (s : nstate) : nstate :=
  NState (np s) (mac_addr s) (my_ip s) x (ip_id s) (send_id s) (seq_num s) (fin_flag s)
    (base_addr s) (intr_addr s) (dev s) (regs s) (conf s).
Definition set_ip_id (x : Z) (s : nstate) : nstate :=
  NState (np s) (mac_addr s) (my_ip s) (arp_table s) x (send_id s) (seq_num s) (fin_flag s)
    (base_addr s) (intr_addr s) (dev s) (regs s) (conf s).
Definition set_send_id (x : Z) (s : nstate) : nstate :=
  NState (np s) (mac_addr s) (my_ip s) (arp_table s) (ip_id s) x (seq_num s) (fin_flag s)
    (base_addr s) (intr_addr s) (dev s) (regs s) (conf s).
Definition set_seq_num (x : Z) (s : nstate) : nstate :=
  NState (np s) (mac_addr s) (my_ip s) (arp_table s) (ip_id s) (send_id s) x (fin_flag s)
    (base_addr s) (intr_addr s) (dev s) (regs s) (conf s).
Definition set_fin_flag (x : Z) (s : nstate) : nstate :=
  NState (np s) (mac_addr s) (my_ip s) (arp_table s) (ip_id s) (send_id s) (seq_num s) x
    (base_addr s) (intr_addr s) (dev s) (regs s) (conf s).
Definition set_base_addr (x : Z) (s : nstate) : nstate :=
  NState (np s) (mac_addr s) (my_ip s) (arp_table s) (ip_id s) (send_id s) (seq_num s) (fin_flag s)
    x (intr_addr s) (dev s) (regs s) (conf s).
Definition set_intr_addr (x : Z) (s : nstate) : nstate :=
  NState (np s) (mac_addr s) (my_ip s) (arp_table s) (ip_id s) (send_id s) (seq_num s) (fin_flag s)
    (base_addr s) x (dev s) (regs s) (conf s).
Definition set_dev (x : pci_dev) (s : nstate) : nstate :=
  NState (np s) (mac_addr s) (my_ip s) (arp_table s) (ip_id s) (send_id s) (seq_num s) (fin_flag s)
    (base_addr s) (intr_addr s) x (regs s) (conf s).
Definition set_regs (x : Z -> Z) (s : nstate) : nstate :=
  NState (np s) (mac_addr s) (my_ip s) (arp_table s) (ip_id s) (send_id s) (seq_num s) (fin_flag s)
    (base_addr s) (intr_addr s) (dev s) x (conf s).
Definition set_conf (x : Z -> Z) (s : nstate) : nstate :=
  NState (np s) (mac_addr s) (my_ip s) (arp_table s) (ip_id s) (send_id s) (seq_num s) (fin_flag s)
    (base_addr s) (intr_addr s) (dev s) (regs s) x.

(** The bytes of kernel memory, the card's registers, and the allocator. *)
Definition nmem (s : nstate) : mem := al_mem (np s).
Definition on_mem (f : mem -> mem) : NM unit := modify (fun s => set_np (al_set_mem (f (nmem s)) (np s)) s).
Definition reg (off : Z) : NM Z := gets (fun s => regs s off).
Definition set_reg (off v : Z) : NM unit := modify (fun s => set_regs (fupd (regs s) off (u32 v)) s).
Definition net_kalloc : NM Z := zoom np set_np al_kalloc.
Definition net_kfree (v : Z) : NM unit := zoom np set_np (al_kfree v).
(** The code writes to the page [kalloc] returned without looking at it: a
    store through a null pointer faults. *)
Definition packet_page : NM Z :=
  let! send := net_kalloc in
  if send =? 0 then stop_with (Faulted "null packet buffer") else ret send.

(** ** i8254.c: sending *)

(** [i8254_send(pkt_addr, len)] *)
Definition i8254_send (pkt_addr len : Z) : NM Z :=
  let! tdbal := reg TDBAL in
  let txdesc := P2V tdbal in
  let! tdh := reg TDH in
  let! tdt := reg TDT in
  let tx_available := I8254_SEND_DESC_NUM - u32 (I8254_SEND_DESC_NUM - tdh + tdt) mod I8254_SEND_DESC_NUM in
  let index := tdt mod I8254_SEND_DESC_NUM in
  if 0 <? tx_available then
    let d := txdesc +u 16 * index in
    on_mem (fun m => memmove (P2V (load32 m d)) pkt_addr len m) ;;
    on_mem (sh (d + 8) len) ;;
    on_mem (sb (d + 12) 0) ;;
    on_mem (sb (d + 13) 0) ;;
    on_mem (sb (d + 11) 0xb) ;;
    on_mem (sh (d + 14) 0) ;;
    on_mem (sb (d + 10) 0) ;;
    let! tdt := reg TDT in
    set_reg TDT (u32 (tdt + 1) mod I8254_SEND_DESC_NUM) ;;
    ret (i32 len)
  else ret (-1).

(** ** arp.c: packets *)

(** [arp_proc(buffer_addr)]; [print_arp_table] only prints. *)
Definition arp_proc (a : Z) : NM Z :=
  let! m := gets nmem in
  let! ip := gets my_ip in
  let! mac := gets mac_addr in
  if negb (load16 m a =? ARP_HARDWARE_TYPE) then ret (-1)
  else if negb (load16 m (a + 2) =? ARP_PROTOCOL_TYPE) then ret (-1)
  else if negb (m (a + 4) =? 6) then ret (-1)
  else if negb (m (a + 5) =? 4) then ret (-1)
  else
    let to_me := bool_decide (ip = larr (a + 24) 4 m) in
    if negb to_me && negb (bool_decide (ip = larr (a + 14) 4 m)) then ret (-1)
    else if (load16 m (a + 6) =? ARP_OPS_REQUEST) && to_me then
      let! send := packet_page in
      on_mem (arp_reply_pkt_create mac ip a send) ;;
      i8254_send send arp_size ;;
      net_kfree send ;;
      ret ARP_CREATED_REPLY
    else if (load16 m (a + 6) =? ARP_OPS_REPLY) && to_me then
      modify (fun s => set_arp_table (arp_table_update (arp_table s) (larr (a + 14) 4 m) (larr (a + 8) 6 m)) s) ;;
      ret ARP_UPDATED_TABLE
    else ret (-1).

(** [while(res == -1) { microdelay(1); res = i8254_send(...); }]: another
    round only when the card has made room. *)
Definition arp_scan_one (i : Z) : NM unit :=
  let! send := packet_page in
  let! ip := gets my_ip in
  let! mac := gets mac_addr in
  on_mem (arp_broadcast mac ip send i) ;;
  let! res := i8254_send send arp_size in
  if res =? -1 then stop_with Spinning else net_kfree send.
(** [arp_scan()] *)
Definition arp_scan : NM unit := mfor (seqZ 0 256) arp_scan_one.

(** ** icmp.c, tcp.c, ipv4.c, eth.c: received packets *)

(** [icmp_proc(buffer_addr)] *)
Definition icmp_proc (buffer_addr : Z) : NM unit :=
  let! m := gets nmem in
  let icmp_p := ipv4_payload buffer_addr m in
  if (m (icmp_p + 1) =? 0) && (m icmp_p =? ICMP_TYPE_ECHO_REQUEST) then
    let! send := packet_page in
    let! ip := gets my_ip in
    let! mac := gets mac_addr in
    let! id := gets send_id in
    on_mem (icmp_reply_pkt_create mac ip id buffer_addr send) ;;
    modify (set_send_id (u16 (id + 1))) ;;
    i8254_send send icmp_size ;;
    net_kfree send
  else ret tt.

(** [tcp_pkt_create(...)] with its [send_id++], then [i8254_send] *)
Definition tcp_reply (buffer_addr send pkt_type payload_size : Z) : NM unit :=
  let! ip := gets my_ip in
  let! mac := gets mac_addr in
  let! id := gets send_id in
  let! seq := gets seq_num in
  on_mem (tcp_pkt_create mac ip id seq buffer_addr send pkt_type payload_size) ;;
  modify (set_send_id (u16 (id + 1))) ;;
  i8254_send send (tcp_size payload_size) ;;
  ret tt.
(** [tcp_fin()] *)
Definition tcp_fin : NM unit := modify (set_fin_flag 1).

(** [tcp_proc(buffer_addr)]: the two branches on the payload send the same
    segments. *)
Definition tcp_proc (buffer_addr : Z) : NM unit :=
  let! m := gets nmem in
  let code := m (ipv4_payload buffer_addr m + 13) in
  let! send := net_kalloc in
  let used := negb (Z.land code TCP_CODEBITS_SYN =? 0) || (code =? Z.lor TCP_CODEBITS_PSH TCP_CODEBITS_ACK) in
  if used && (send =? 0) then stop_with (Faulted "null packet buffer")
  else
    (if negb (Z.land code TCP_CODEBITS_SYN =? 0) then
       tcp_reply buffer_addr send (Z.lor TCP_CODEBITS_ACK TCP_CODEBITS_SYN) 0 ;;
       modify (fun s => set_seq_num (seq_num s +u 1) s)
     else if code =? Z.lor TCP_CODEBITS_PSH TCP_CODEBITS_ACK then
       tcp_reply buffer_addr send TCP_CODEBITS_ACK 0 ;;
       let payload := send + tcp_size 0 in
       let! m := gets nmem in
       let (m', payload_size) := http_proc payload m in
       on_mem (fun _ => m') ;;
       tcp_fin ;;
       tcp_reply buffer_addr send (Z.lor TCP_CODEBITS_ACK TCP_CODEBITS_PSH) payload_size ;;
       modify (fun s => set_seq_num (seq_num s +u 1) s)
     else if code =? TCP_CODEBITS_ACK then
       let! f := gets fin_flag in
       if f =? 1 then
         if send =? 0 then stop_with (Faulted "null packet buffer")
         else
           tcp_reply buffer_addr send TCP_CODEBITS_FIN 0 ;;
           modify (set_fin_flag 0)
       else ret tt
     else ret tt) ;;
    net_kfree send.

(** [ipv4_proc(buffer_addr)] *)
Definition ipv4_proc (buffer_addr : Z) : NM unit :=
  let! m := gets nmem in
  let p := buffer_addr + 14 in
  let! id := gets ip_id in
  let! ip := gets my_ip in
  if negb (id =? load16 m (p + 4)) && negb (bool_decide (ip = larr (p + 12) 4 m)) then
    modify (set_ip_id (load16 m (p + 4))) ;;
    if m (p + 9) =? IPV4_TYPE_ICMP then icmp_proc buffer_addr
    else if m (p + 9) =? IPV4_TYPE_TCP then tcp_proc buffer_addr
    else ret tt
  else ret tt.

(** [eth_proc(buffer_addr)] *)
Definition eth_proc (buffer_addr : Z) : NM unit :=
  let! m := gets nmem in
  if (m (buffer_addr + 12) =? 0x08) && (m (buffer_addr + 13) =? 0x06) then
    arp_proc (buffer_addr + ETH_HDR) ;; ret tt
  else if (m (buffer_addr + 12) =? 0x08) && (m (buffer_addr + 13) =? 0x00) then ipv4_proc buffer_addr
  else ret tt.

(** One round of the loop of [i8254_recv()]. *)
Definition i8254_recv_round : NM unit :=
  let! rdbal := reg RDBAL in
  let recv_desc := P2V rdbal in
  let! rdt := reg RDT in
  let! rdh := reg RDH in
  let rx_available := u32 (I8254_RECV_DESC_NUM - rdt + rdh) mod I8254_RECV_DESC_NUM in
  (if 0 <? rx_available then
     let! m := gets nmem in
     let buffer_addr := P2V (load32 m (recv_desc +u 16 * rdt)) in
     set_reg RDT (u32 (rdt + 1) mod I8254_RECV_DESC_NUM) ;;
     eth_proc buffer_addr
   else ret tt) ;;
  let! rdt := reg RDT in
  let! rdh := reg RDH in
  when (rdt =? rdh) (set_reg RDT (rdt - 1)).

(** ** i8254.c: initialisation *)

(** [i8254_read_eeprom(addr)]: the loop ends when the card sets bit 4. *)
Definition i8254_read_eeprom (addr : Z) : NM Z :=
  let request := Z.lor (Z.shiftl (Z.land addr 0xFF) 8) 1 in
  set_reg EERD request ;;
  set_reg EERD (eerd_reply request) ;;
  let! data := reg EERD in
  if negb (Z.land data (Z.shiftl 1 4) =? 0) then ret (Z.land (Z.shiftr data 16) 0xFFFF)
  else stop_with Spinning.

(** The loop that clears a receive descriptor, and a send descriptor. *)
Definition clear_recv_desc (ring i : Z) (m : mem) : mem :=
  let d := ring + 16 * i in
  sh (d + 14) 0 (sb (d + 13) 0 (sb (d + 12) 0 (sh (d + 10) 0 (sh (d + 8) 0 (sw (d + 4) 0 m))))).
Definition clear_send_desc (ring i : Z) (m : mem) : mem :=
  let d := ring + 16 * i in
  sh (d + 14) 0 (sb (d + 13) 0 (sb (d + 12) 0 (sb (d + 11) 0 (sb (d + 10) 0 (sh (d + 8) 0 (sw (d + 4) 0 m)))))).

(** The loop that gives the descriptors their buffers, from round [i] on. *)
Fixpoint ring_buffers (ring i : Z) (n : nat) : NM unit :=
  match n with
  | O => ret tt
  | Datatypes.S n' =>
      let! buf_addr := net_kalloc in
      if buf_addr =? 0 then ret tt
      else
        on_mem (sw (ring + 16 * i) (V2P buf_addr)) ;;
        on_mem (sw (ring + 16 * (i + 1)) (V2P (buf_addr + 0x800))) ;;
        ring_buffers ring (i + 1) n'
  end.

(** [i8254_init_recv()] *)
Definition i8254_init_recv : NM unit :=
  let! data_l := i8254_read_eeprom 0x0 in
  let! data_m := i8254_read_eeprom 0x1 in
  let! data_h := i8254_read_eeprom 0x2 in
  modify (set_mac_addr [Z.land data_l 0xFF; u8 (Z.shiftr data_l 8); Z.land data_m 0xFF; u8 (Z.shiftr data_m 8);
                        Z.land data_h 0xFF; u8 (Z.shiftr data_h 8)]) ;;
  set_reg RAL (Z.lor data_l (Z.shiftl data_m 16)) ;;
  set_reg RAH (Z.lor (Z.lor data_h 0) (Z.shiftl 1 31)) ;;
  mfor (seqZ 0 128) (fun i => set_reg (MTA + 4 * i) 0) ;;
  let causes := Z.lor (Z.lor (Z.lor (Z.lor (Z.shiftl 1 7) (Z.shiftl 1 4)) (Z.shiftl 1 3)) (Z.shiftl 1 2)) (Z.shiftl 1 6) in
  set_reg IMS causes ;;
  set_reg ICS causes ;;
  set_reg RXDCTL 0 ;;
  set_reg RCTL (Z.lor (Z.lor (Z.lor (Z.lor (Z.shiftl 1 3) (Z.shiftl 1 4)) (Z.shiftl 1 15)) 0) (Z.shiftl 1 26)) ;;
  let! ring := net_kalloc in
  set_reg RDBAL (V2P ring) ;;
  set_reg RDBAH 0 ;;
  set_reg RDLEN (16 * I8254_RECV_DESC_NUM) ;;
  set_reg RDH 0 ;;
  set_reg RDT I8254_RECV_DESC_NUM ;;
  if ring =? 0 then stop_with (Faulted "null descriptor ring")
  else
    mfor (seqZ 0 I8254_RECV_DESC_NUM) (fun i => on_mem (clear_recv_desc ring i)) ;;
    ring_buffers ring 0 (Z.to_nat (I8254_RECV_DESC_NUM / 2)) ;;
    let! rctl := reg RCTL in
    set_reg RCTL (Z.lor rctl (Z.shiftl 1 1)).

(** [i8254_init_send()] *)
Definition i8254_init_send : NM unit :=
  set_reg TXDCTL (Z.lor (Z.shiftl 1 16) (Z.shiftl 1 24)) ;;
  let! ring := net_kalloc in
  set_reg TDBAL (V2P ring) ;;
  set_reg TDBAH 0 ;;
  set_reg TDLEN (16 * I8254_SEND_DESC_NUM) ;;
  set_reg TDH 0 ;;
  set_reg TDT 0 ;;
  if ring =? 0 then stop_with (Faulted "null descriptor ring")
  else
    mfor (seqZ 0 I8254_SEND_DESC_NUM) (fun i => on_mem (clear_send_desc ring i)) ;;
    ring_buffers ring 0 (Z.to_nat (I8254_SEND_DESC_NUM / 2)) ;;
    set_reg TCTL (Z.lor (Z.lor (Z.lor (Z.shiftl 1 1) (Z.shiftl 1 3)) (Z.shiftl 0x40 12)) (Z.shiftl 0xF 4)) ;;
    set_reg TIPG (Z.lor (Z.lor 10 (Z.shiftl 10 10)) (Z.shiftl 10 20)).

(** [pci_access_config(...)] and [pci_write_config_register(...)] *)
Definition pci_access_config (bus device function r : Z) : NM Z :=
  gets (fun s => conf s (pci_config_addr bus device function r)).
Definition pci_write_config_register (bus device function r data : Z) : NM unit :=
  modify (fun s => set_conf (fupd (conf s) (pci_config_addr bus device function r) data) s).

(** [i8254_init(dev)] *)
Definition i8254_init : NM unit :=
  let! d := gets dev in
  let! cmd_reg := pci_access_config (bus_num d) (device_num d) (function_num d) 0x04 in
  pci_write_config_register (bus_num d) (device_num d) (function_num d) 0x04 (Z.lor cmd_reg PCI_CMD_BUS_MASTER) ;;
  modify (set_base_addr (bar0 d +u PCI_VP_OFFSET)) ;;
  set_reg IMC 0xFFFFFFFF ;;
  let! ctrl := reg CTRL in
  set_reg CTRL (Z.lor ctrl I8254_CTRL_RST) ;;
  set_reg IMC 0xFFFFFFFF ;;
  let! ctrl := reg CTRL in
  set_reg CTRL (Z.lor ctrl I8254_CTRL_SLU) ;;
  let! ctrl := reg CTRL in
  set_reg CTRL (Z.land ctrl (Z.lor (Z.lor (Z.lnot I8254_CTRL_PHY_RST) (Z.lnot I8254_CTRL_VME)) (Z.lnot I8254_CTRL_ILOS))) ;;
  let! a := net_kalloc in
  modify (set_intr_addr a) ;;
  if a =? 0 then stop_with (Faulted "null interrupt word")
  else
    on_mem (sw a 0) ;;
    i8254_init_recv ;;
    i8254_init_send ;;
    set_reg IMC 0x0.
(** [i8254_intr()] *)
Definition i8254_intr : NM unit :=
  let! a := gets intr_addr in on_mem (sw a 0xEEEEEE).

(** [pci_init_device(bus, device, function)] *)
Definition pci_init_device (bus device function : Z) : NM unit :=
  let! id := pci_access_config bus device function 0 in
  let! class := pci_access_config bus device function 0x8 in
  let! b0 := pci_access_config bus device function 0x10 in
  let! b1 := pci_access_config bus device function 0x14 in
  modify (set_dev (PciDev (u8 bus) (u8 device) (u8 function) (Z.shiftr id 16) (Z.land id 0xFFFF)
    (Z.shiftr class 24) (Z.land (Z.shiftr class 16) 0xFF) (Z.land (Z.shiftr class 8) 0xFF) (Z.land class 0xFF) b0 b1)) ;;
  when ((Z.shiftr id 16 =? I8254_DEVICE_ID) && (Z.land id 0xFFFF =? I8254_VENDOR_ID)) i8254_init.

(** [pci_init()] *)
Definition pci_init_one (i j k : Z) : NM unit :=
  let! data := pci_access_config i j k 0 in
  when (negb (Z.land data 0xFFFF =? 0xFFFF)) (pci_init_device i j k).
Definition pci_init : NM unit :=
  mfor (seqZ 0 256) (fun i => mfor (seqZ 0 32) (fun j => mfor (seqZ 0 8) (fun k => pci_init_one i j k))).
End net.
