(* ===== verification/NetProps.v ===== *)
(** * The network code: checksums, replies, the ARP table, the rings

    The Internet checksum the code computes word by word is the
    ones'-complement sum of RFC 1071; an echo request is answered by a packet
    that verifies and carries the request's payload back; the ARP table finds
    what it was given while it has room. *)
From stdpp Require Import base numbers list gmap strings.
From S2P Require Import Prelude Memory StringC Spinlock Mmu Kalloc Net.
Open Scope Z_scope.

(** ** Reference: the ones'-complement sum *)

Definition sumZ (l : list Z) : Z := foldr Z.add 0 l.
(** The representative in [1, 65535] of a non-zero sum modulo 65535. *)
Definition oc_sum (l : list Z) : Z := if sumZ l =? 0 then 0 else (sumZ l - 1) mod 65535 + 1.

Lemma sumZ_nonneg l : Forall is_u16 l -> 0 <= sumZ l.
Proof. induction 1 as [|w l Hw _ IH]; unfold sumZ in *; simpl; [lia|]. unfold is_u16 in Hw. lia. Qed.

Lemma land_ffff a : Z.land a 0xFFFF = a mod 65536.
Proof. exact (land_mask a 16 ltac:(lia)). Qed.

Lemma chk_step_sum c w : 0 <= c <= 0xFFFF -> is_u16 w ->
  let r := chk_step c w in
  0 <= r <= 0xFFFF /\ (c + w - r) mod 65535 = 0 /\ (r = 0 <-> c = 0 /\ w = 0).
Proof. intros Hc Hw. unfold is_u16 in Hw. unfold chk_step. rewrite land_ffff. zcases; word. Qed.

Lemma chk_fold l c : Forall is_u16 l -> 0 <= c <= 0xFFFF ->
  let r := fold_left chk_step l c in
  0 <= r <= 0xFFFF /\ (c + sumZ l - r) mod 65535 = 0 /\ (r = 0 <-> c = 0 /\ sumZ l = 0).
Proof.
  intros Hl. revert c. induction Hl as [|w l Hw Hl IH]; intros c Hc; simpl.
  { unfold sumZ; simpl. split_and!; [lia..| |]; [|lia]. replace (c + 0 - c) with 0 by lia. done. }
  destruct (chk_step_sum c w Hc Hw) as (R&E&Z0). destruct (IH _ R) as (R'&E'&Z').
  pose proof (sumZ_nonneg l Hl). unfold is_u16 in Hw. unfold sumZ in *; simpl foldr.
  set (r := fold_left _ _ _) in *. set (q := chk_step c w) in *. clearbody r q.
  set (t := foldr Z.add 0 l) in *. clearbody t. split_and!; [lia..| |]; [|lia].
  clear -E E'. word.
Qed.

(** The word-by-word loop of [ipv4_chksum] and [icmp_chksum], which folds
    every carry back at once, computes the ones'-complement sum of the words
    whatever their number. *)
Theorem chksum_is_ones_complement (l : list Z) : Forall is_u16 l -> fold_left chk_step l 0 = oc_sum l.
Proof.
  intros Hl. destruct (chk_fold l 0 Hl) as (R&E&Z0); [lia|]. pose proof (sumZ_nonneg l Hl).
  unfold oc_sum. set (r := fold_left _ _ _) in *. clearbody r. set (t := sumZ l) in *. clearbody t.
  zcases; [lia|]. word.
Qed.
Lemma chksum_is_ones_complement_witness :
  Forall is_u16 [0x4500; 0xFFFF; 0xBB00] /\ fold_left chk_step [0x4500; 0xFFFF; 0xBB00] 0 = oc_sum [0x4500; 0xFFFF; 0xBB00].
Proof.
  assert (H : Forall is_u16 [0x4500; 0xFFFF; 0xBB00]) by (repeat constructor; word).
  split; [exact H|]. exact (chksum_is_ones_complement _ H).
Defined.

(** Storing the complement of the sum in a zero word makes the sum 0xFFFF. *)
Lemma chk_complement (l1 l2 : list Z) : Forall is_u16 l1 -> Forall is_u16 l2 ->
  let c := u16 (Z.lnot (fold_left chk_step (l1 ++ 0 :: l2) 0)) in
  is_u16 c /\ oc_sum (l1 ++ c :: l2) = 0xFFFF.
Proof.
  intros H1 H2 c. assert (H0 : Forall is_u16 (l1 ++ 0 :: l2)).
  { apply Forall_app. split; [done|]. constructor; [word|done]. }
  destruct (chk_fold _ 0 H0) as (R&E&Z0); [lia|]. split; [apply u16_range|].
  assert (S0 : forall a, sumZ (l1 ++ a :: l2) = a + sumZ (l1 ++ l2)).
  { intros a. clear. unfold sumZ. induction l1 as [|w l IH]; simpl; [done|]. rewrite IH. lia. }
  rewrite S0 in E, Z0. pose proof (sumZ_nonneg _ (proj2 (Forall_app _ l1 l2) (conj H1 H2))).
  unfold oc_sum. rewrite S0. unfold Z.lnot in c. subst c.
  set (r := fold_left _ _ _) in *. clearbody r. set (t := sumZ (l1 ++ l2)) in *. clearbody t.
  zcases; word.
Qed.

(** ** Fields of packets *)

Lemma sb_other a v m x : x <> a -> sb a v m x = m x.
Proof. apply store8_ne. Qed.
Lemma sh_other a v m x : x < a \/ a + 2 <= x -> sh a v m x = m x.
Proof. intros. unfold sh, store16. apply store_bytes_other. rewrite length_le_bytes. lia. Qed.
Lemma sarr_other a l m x : x < a \/ a + Z.of_nat (length l) <= x -> sarr a l m x = m x.
Proof. apply store_bytes_other. Qed.
Lemma sb_same a v m : is_u8 v -> sb a v m a = v.
Proof. intros. unfold sb. rewrite store8_eq. by apply u8_small. Qed.
Lemma larr_ext m1 m2 a n : (forall x, a <= x < a + Z.of_nat n -> m1 x = m2 x) -> larr a n m1 = larr a n m2.
Proof. apply load_bytes_ext. Qed.
Lemma length_larr a n m : length (larr a n m) = n.
Proof. apply length_load_bytes. Qed.
Lemma larr_sarr a l m n : Forall is_u8 l -> length l = n -> larr a n (sarr a l m) = l.
Proof. intros H <-. by apply load_store_bytes. Qed.
Lemma larr_u8 a n m : mem_wf m -> Forall is_u8 (larr a n m).
Proof. intros. by apply load_bytes_u8. Qed.
Lemma sb_wf a v m : mem_wf m -> mem_wf (sb a v m).
Proof. apply store8_wf. Qed.
Lemma sh_wf a v m : mem_wf m -> mem_wf (sh a v m).
Proof. apply store_bytes_wf. Qed.
Lemma sarr_wf a l m : mem_wf m -> mem_wf (sarr a l m).
Proof. apply store_bytes_wf. Qed.
#[export] Hint Resolve sb_wf sh_wf sarr_wf larr_u8 : kernel.

Lemma H2N_ushort_val v : is_u16 v -> H2N_ushort v = v mod 256 * 256 + v / 256.
Proof.
  intros. unfold H2N_ushort. rewrite (land_mask v 8 ltac:(lia) : Z.land v 0xFF = _).
  rewrite Z.shiftl_mul_pow2, Z.shiftr_div_pow2 by lia. change (2 ^ 8) with 256. word.
Qed.
Lemma H2N_N2H v : is_u16 v -> N2H_ushort (H2N_ushort v) = v.
Proof. intros. change N2H_ushort with H2N_ushort. rewrite !H2N_ushort_val; [word|word|]. rewrite H2N_ushort_val; word. Qed.

(** A word stored in network order reads back by bytes. *)
Lemma be16_sh a v m : is_u16 v -> be16 (sh a (H2N_ushort v) m) a = v.
Proof.
  intros Hv. unfold be16, sh, store16. rewrite !store_bytes_at. simpl length.
  rewrite H2N_ushort_val by done. unfold is_u16 in Hv.
  zcases; try lia. simpl. rewrite Z.sub_diag. replace (a + 1 - a) with 1 by lia.
  unfold nthZ. simpl. rewrite Z.shiftl_mul_pow2 by lia. change (2 ^ 8) with 256. word.
Qed.
Lemma sh_zero a m : be16 (sh a 0 m) a = 0.
Proof. change 0 with (H2N_ushort 0) at 1. apply be16_sh. word. Qed.
Lemma be16_range m a : mem_wf m -> is_u16 (be16 m a).
Proof.
  intros H. pose proof (H a). pose proof (H (a + 1)). unfold be16. rewrite Z.shiftl_mul_pow2 by lia.
  change (2 ^ 8) with 256. unfold is_u8, is_u16 in *. lia.
Qed.

(** Replacing the word at an even offset of a range. *)
Lemma words_split m a n k : 0 <= k < n ->
  words m a n = words m a k ++ be16 m (a + 2 * k) :: words m (a + 2 * (k + 1)) (n - (k + 1)).
Proof.
  intros Hk. unfold words. replace n with (k + (1 + (n - (k + 1)))) at 1 by lia.
  rewrite seqZ_app by lia. rewrite map_app. f_equal.
  rewrite seqZ_app by lia. rewrite map_app. rewrite Z.add_0_l. f_equal.
  rewrite <- (Z.add_0_r (k + 1)) at 1. rewrite <- fmap_add_seqZ.
  change (map ?f (?g <$> ?l)) with (map f (map g l)). rewrite map_map. apply map_ext. intros i. f_equal. lia.
Qed.
Lemma words_ext m1 m2 a n : (forall x, a <= x < a + 2 * n -> m1 x = m2 x) -> words m1 a n = words m2 a n.
Proof.
  intros H. unfold words. apply map_ext_in. intros i Hi. apply list_elem_of_In, elem_of_seqZ in Hi.
  unfold be16. by rewrite !H by lia.
Qed.
Lemma words_u16 m a n : mem_wf m -> Forall is_u16 (words m a n).
Proof. intros H. apply Forall_map, Forall_true. intros i. by apply be16_range. Qed.

(** Zeroing a checksum word, summing and storing the complement. *)
Lemma chksum_stored m a n k : mem_wf m -> 0 <= k < n ->
  let m1 := sh (a + 2 * k) 0 m in
  let c := u16 (Z.lnot (fold_left chk_step (words m1 a n) 0)) in
  oc_sum (words (sh (a + 2 * k) (H2N_ushort c) m1) a n) = 0xFFFF.
Proof.
  intros Hm Hk m1 c. assert (Hm1 : mem_wf m1) by (unfold m1; auto with kernel).
  pose proof (words_split m1 a n k Hk) as E1. unfold m1 at 3 in E1. rewrite sh_zero in E1.
  destruct (chk_complement (words m1 a k) (words m1 (a + 2 * (k + 1)) (n - (k + 1)))) as [Hc Hs];
    [by apply words_u16..|]. rewrite <- E1 in Hc, Hs. fold c in Hc, Hs.
  rewrite (words_split _ a n k Hk), be16_sh by done.
  rewrite (words_ext _ m1 a k) by (intros; apply sh_other; lia).
  rewrite (words_ext _ m1 (a + 2 * (k + 1)) (n - (k + 1))) by (intros; apply sh_other; lia). exact Hs.
Qed.

Lemma larr_sb a n b v m : a + Z.of_nat n <= b \/ b + 1 <= a -> larr a n (sb b v m) = larr a n m.
Proof. intros. apply larr_ext. intros. apply sb_other. lia. Qed.
Lemma larr_sh a n b v m : a + Z.of_nat n <= b \/ b + 2 <= a -> larr a n (sh b v m) = larr a n m.
Proof. intros. apply larr_ext. intros. apply sh_other. lia. Qed.
Lemma larr_sarr_ne a n b l m : a + Z.of_nat n <= b \/ b + Z.of_nat (length l) <= a -> larr a n (sarr b l m) = larr a n m.
Proof. intros. apply larr_ext. intros. apply sarr_other. lia. Qed.

Lemma nthZ_larr m b n i : 0 <= i < Z.of_nat n -> nthZ 0 (larr b n m) i = m (b + i).
Proof.
  revert b i. induction n as [|n IH]; intros b i Hi; [lia|]. unfold larr in *. rewrite load_bytes_S.
  unfold nthZ in *. zcases; [lia|]. destruct (decide (i = 0)) as [->|]; [by rewrite Z.add_0_r|].
  replace (Z.to_nat i) with (S (Z.to_nat (i - 1))) by lia. simpl. specialize (IH (b + 1) (i - 1)).
  destruct (Z.ltb_spec (i - 1) 0); [lia|]. rewrite IH by lia. f_equal. lia.
Qed.
(** Bytes copied with [memmove], or as a [ushort]. *)
Lemma sarr_larr a b n m1 m x : mem_wf m1 -> a <= x < a + Z.of_nat n -> sarr a (larr b n m1) m x = m1 (b + (x - a)).
Proof.
  intros Hm Hx. unfold sarr. rewrite store_bytes_at, length_larr. zcases; try lia. simpl.
  rewrite nthZ_larr by lia. by apply u8_small.
Qed.
Lemma sh_load16 a b m1 m x : mem_wf m1 -> a <= x < a + 2 -> sh a (load16 m1 b) m x = m1 (b + (x - a)).
Proof.
  intros Hm Hx. unfold sh, store16, load16.
  rewrite <- (length_load_bytes m1 b 2) at 1. rewrite le_bytes_val by by apply load_bytes_u8.
  apply (sarr_larr a b 2); [done|lia].
Qed.

Lemma larr_two a m x y : m a = x -> m (a + 1) = y -> larr a 2 m = [x; y].
Proof. intros <- <-. unfold larr. by rewrite !load_bytes_S. Qed.

(** Skips the stores that do not touch the bytes read. *)
Ltac past :=
  repeat first
    [ rewrite sb_other by lia | rewrite sh_other by lia | rewrite sarr_other by (rewrite ?length_larr; lia)
    | rewrite larr_sb by lia | rewrite larr_sh by lia | rewrite larr_sarr_ne by (rewrite ?length_larr; lia) ].

(** The [n] bytes at [a] in [m1] are those at [b] in [m2]. *)
Definition same_bytes (a b n : Z) (m1 m2 : mem) : Prop := forall i, 0 <= i < n -> m1 (a + i) = m2 (b + i).

Lemma same_bytes_sub a b n m1 m2 k n' : same_bytes a b n m1 m2 -> 0 <= k -> k + n' <= n ->
  same_bytes (a + k) (b + k) n' m1 m2.
Proof. intros H Hk Hn i Hi. rewrite <- !Z.add_assoc. apply H. lia. Qed.
Lemma same_bytes_sub0 a b n m1 m2 n' : same_bytes a b n m1 m2 -> n' <= n -> same_bytes a b n' m1 m2.
Proof. intros H Hn i Hi. apply H. lia. Qed.
Lemma larr_same a b n m1 m2 : same_bytes a b (Z.of_nat n) m1 m2 -> larr a n m1 = larr b n m2.
Proof.
  revert a b. induction n as [|n IH]; intros a b H; [done|]. unfold larr in *. rewrite !load_bytes_S. f_equal.
  - specialize (H 0). rewrite !Z.add_0_r in H. apply H. lia.
  - apply IH. eapply same_bytes_sub; [exact H|lia..].
Qed.
Lemma words_same a b n m1 m2 : same_bytes a b (2 * n) m1 m2 -> words m1 a n = words m2 b n.
Proof.
  intros H. unfold words. apply map_ext_in. intros i Hi. apply list_elem_of_In, elem_of_seqZ in Hi.
  unfold be16. rewrite <- !Z.add_assoc. by rewrite !H by lia.
Qed.

(** The headers of a reply to [recv] (in [m0]) built at [send] in [m]. *)
Record reply_hdr (mac ip : list Z) (protocol recv send : Z) (m0 m : mem) : Prop := {
  rh_dst_mac : larr send 6 m = larr (recv + 6) 6 m0;
  rh_src_mac : larr (send + 6) 6 m = mac;
  rh_type : larr (send + 12) 2 m = [0x08; 0x00];
  rh_ver : m (send + 14) = 0x45;
  rh_protocol : m (send + 23) = protocol;
  rh_src_ip : larr (send + 26) 4 m = ip;
  rh_dst_ip : larr (send + 30) 4 m = larr (recv + 26) 4 m0;
  rh_sum : oc_sum (words m (send + 14) 10) = 0xFFFF
}.

Section reply.
Context (mac ip : list Z).
Context (Hmac : length mac = 6%nat) (Hmac8 : Forall is_u8 mac) (Hip : length ip = 4%nat) (Hip8 : Forall is_u8 ip).

Lemma ipv4_hdr_frame id len fr pr recv send m x :
  x < send \/ send + 34 <= x -> ipv4_hdr_create mac ip id len fr pr recv send m x = m x.
Proof. intros Hx. unfold ipv4_hdr_create, ETH_HDR; cbv zeta. past. reflexivity. Qed.

Lemma ipv4_hdr_wf id len fr pr recv send m :
  mem_wf m -> mem_wf (ipv4_hdr_create mac ip id len fr pr recv send m).
Proof. intros Hm. unfold ipv4_hdr_create; cbv zeta. auto 30 with kernel. Qed.

Lemma ipv4_hdr_ok id len fr pr recv send m : mem_wf m -> is_u8 pr ->
  recv + 34 <= send \/ send + 34 <= recv ->
  reply_hdr mac ip pr recv send m (ipv4_hdr_create mac ip id len fr pr recv send m).
Proof.
  intros Hm Hpr Hd. unfold ipv4_hdr_create, ETH_HDR; cbv zeta.
  change (Z.shiftl 4 4 + Z.land (IPV4_HDR / 4) 0xF) with 0x45.
  match goal with |- context [ipv4_chksum _ (sh _ 0 ?q)] => set (mh := q) end.
  assert (Hw : mem_wf mh) by (unfold mh; auto 30 with kernel).
  assert (Hv : mh (send + 14) = 0x45) by (unfold mh; past; by rewrite sb_same by word).
  split; [past; unfold mh; past..|].
  - rewrite larr_sarr; [done|auto with kernel|apply length_larr].
  - by rewrite larr_sarr.
  - apply larr_two; replace (send + 12 + 1) with (send + 13) by lia; past; by rewrite sb_same by word.
  - by rewrite sb_same by word.
  - replace (send + 23) with (send + 14 + 9) by lia. by rewrite sb_same.
  - replace (send + 26) with (send + 14 + 12) by lia. by rewrite larr_sarr.
  - replace (send + 30) with (send + 14 + 16) by lia. rewrite larr_sarr; [|auto 30 with kernel|apply length_larr].
    past. f_equal. lia.
  - unfold ipv4_chksum. rewrite (sh_other (send + 14 + 10) 0 mh (send + 14)), Hv by lia.
    exact (chksum_stored mh (send + 14) 10 5 Hw ltac:(lia)).
Qed.

(** An echo reply to [recv] (in [m0]) built at [send] in [m]. *)
Record echo_reply (recv send : Z) (m0 m : mem) : Prop := {
  er_hdr : reply_hdr mac ip IPV4_TYPE_ICMP recv send m0 m;
  er_type : larr (send + 34) 2 m = [ICMP_TYPE_ECHO_REPLY; 0];
  er_body : forall i, 4 <= i < 64 -> m (send + 34 + i) = m0 (ipv4_payload recv m0 + i);
  er_sum : oc_sum (words m (send + 34) 32) = 0xFFFF
}.

Lemma reply_hdr_ext pr recv a b m0 m1 m2 : same_bytes a b 34 m1 m2 ->
  reply_hdr mac ip pr recv a m0 m1 -> reply_hdr mac ip pr recv b m0 m2.
Proof.
  intros E [H1 H2 H3 H4 H5 H6 H7 H8]. split.
  - rewrite <- H1. symmetry. apply larr_same. eapply same_bytes_sub0; [exact E|lia].
  - rewrite <- H2. symmetry. apply larr_same. eapply same_bytes_sub; [exact E|lia..].
  - rewrite <- H3. symmetry. apply larr_same. eapply same_bytes_sub; [exact E|lia..].
  - rewrite <- H4. symmetry. apply E. lia.
  - rewrite <- H5. symmetry. apply E. lia.
  - rewrite <- H6. symmetry. apply larr_same. eapply same_bytes_sub; [exact E|lia..].
  - rewrite <- H7. symmetry. apply larr_same. eapply same_bytes_sub; [exact E|lia..].
  - rewrite <- H8. f_equal. symmetry. apply words_same. eapply same_bytes_sub; [exact E|lia..].
Qed.

Lemma echo_reply_ext recv a b m0 m1 m2 : same_bytes a b 98 m1 m2 ->
  echo_reply recv a m0 m1 -> echo_reply recv b m0 m2.
Proof.
  intros E [H1 H2 H3 H4]. split.
  - eapply reply_hdr_ext; [|exact H1]. eapply same_bytes_sub0; [exact E|lia].
  - rewrite <- H2. symmetry. apply larr_same. eapply same_bytes_sub; [exact E|lia..].
  - intros i Hi. rewrite <- H3 by done. rewrite <- !Z.add_assoc. symmetry. apply E. lia.
  - rewrite <- H4. f_equal. symmetry. apply words_same. eapply same_bytes_sub; [exact E|lia..].
Qed.

(** [icmp_reply_pkt_create] builds a reply and writes nothing else. *)
Lemma icmp_reply_frame id recv send m x :
  x < send \/ send + 98 <= x -> icmp_reply_pkt_create mac ip id recv send m x = m x.
Proof.
  intros Hx. unfold icmp_reply_pkt_create, ETH_HDR, IPV4_HDR; cbv zeta. past.
  apply ipv4_hdr_frame. lia.
Qed.

Lemma icmp_reply_ok id recv send m : mem_wf m -> recv + 138 <= send \/ send + 98 <= recv ->
  echo_reply recv send m (icmp_reply_pkt_create mac ip id recv send m) /\
  mem_wf (icmp_reply_pkt_create mac ip id recv send m).
Proof.
  intros Hm Hd. unfold icmp_reply_pkt_create. set (r := ipv4_payload recv m). cbv zeta.
  assert (Hr : recv + 14 <= r /\ r + 64 <= recv + 138).
  { unfold r, ipv4_payload, ETH_HDR. rewrite (land_mask _ 4 ltac:(lia) : Z.land _ 0xF = _).
    pose proof (Z.mod_pos_bound (m (recv + 14)) (2 ^ 4)). lia. }
  set (mh := ipv4_hdr_create _ _ _ _ _ _ _ _ _).
  assert (Hmh : mem_wf mh) by by apply ipv4_hdr_wf.
  assert (Hhdr : reply_hdr mac ip IPV4_TYPE_ICMP recv send m mh)
    by (apply ipv4_hdr_ok; [done|unfold IPV4_TYPE_ICMP; word|lia]).
  assert (Hold : forall x, r <= x < r + 64 -> mh x = m x) by (intros; apply ipv4_hdr_frame; lia).
  clearbody mh. unfold ETH_HDR, IPV4_HDR.
  replace (send + 14 + 20) with (send + 34) by lia.
  match goal with |- context [icmp_chksum _ (sh _ 0 ?q)] => set (mi := q) end.
  assert (Hmi : mem_wf mi) by (unfold mi; auto 30 with kernel).
  assert (Hbody : forall i, 4 <= i < 64 -> mi (send + 34 + i) = m (r + i)).
  { intros i Hi. rewrite <- Hold by lia. unfold mi.
    destruct (decide (i < 6)); [|destruct (decide (i < 8)); [|destruct (decide (i < 16))]].
    - past. rewrite sh_load16 by (auto 10 with kernel; lia). past. f_equal. lia.
    - past. rewrite sh_load16 by (auto 10 with kernel; lia). past. f_equal. lia.
    - past. rewrite sarr_larr by (auto 10 with kernel; lia). past. f_equal. lia.
    - rewrite sarr_larr by (auto 10 with kernel; lia). past. f_equal. lia. }
  assert (Hpre : forall i, 0 <= i < 34 -> mi (send + i) = mh (send + i)) by (intros; unfold mi; by past).
  assert (Ht : mi (send + 34) = 0 /\ mi (send + 34 + 1) = 0).
  { unfold mi. split; past; apply sb_same; word. }
  split; [|by apply sh_wf, sh_wf]. clearbody mi. split.
  - eapply reply_hdr_ext; [|exact Hhdr]. intros i Hi. past. symmetry. by apply Hpre.
  - apply larr_two; past; apply Ht.
  - intros i Hi. past. by apply Hbody.
  - unfold icmp_chksum. exact (chksum_stored mi (send + 34) 32 1 Hmi ltac:(lia)).
Qed.
End reply.

(** ** Sending *)

Section sending.
Context {S : Type} {page_ok : Z -> Prop} `{PA : PageAllocator S page_ok}.
Abbreviation nstate := (nstate (S := S)).

(** [[a, a + n)] keeps clear of the free pages. *)
Definition clear_of (l : list Z) (a n : Z) : Prop := forall v, v ∈ l -> a + n <= v \/ v + PGSIZE <= a.

Lemma on_mem_run (f : mem -> mem) (s : nstate) l :
  al_free (np s) l -> mem_wf (f (nmem s)) ->
  (forall v x, v ∈ l -> in_page v x -> f (nmem s) x = nmem s x) ->
  exists p, on_mem f s = Ret tt (set_np p s) /\ al_mem p = f (nmem s) /\ al_free p l.
Proof.
  intros Hl Hw Hf. eexists. split; [reflexivity|]. split; [apply al_mem_set|]. by apply al_free_frame.
Qed.

(** A sequence of stores that keep clear of the free pages. *)
Lemma on_mem_seq (f : mem -> mem) {B} (k : M nstate B) (s : nstate) l (Q : S -> outcome nstate B -> Prop) :
  al_free (np s) l -> mem_wf (f (nmem s)) ->
  (forall v x, v ∈ l -> in_page v x -> f (nmem s) x = nmem s x) ->
  (forall p, al_mem p = f (nmem s) -> al_free p l -> exists q, Q q (k (set_np p s))) ->
  exists q, Q q (bind (on_mem f) (fun _ => k) s).
Proof.
  intros Hl Hw Hf Hk. destruct (on_mem_run f s l Hl Hw Hf) as (p&E&Em&Ep).
  rewrite (bind_run _ _ _ _ _ E). by apply Hk.
Qed.

(** The transmit descriptor the next packet goes to, and its buffer. *)
Definition tx_desc (s : nstate) : Z := P2V (regs s TDBAL) +u 16 * (regs s TDT mod I8254_SEND_DESC_NUM).
Definition tx_buf (s : nstate) : Z := P2V (load32 (nmem s) (tx_desc s)).

(** The ring has a descriptor and a buffer of [len] bytes for the packet at
    [pkt], apart from each other and from the free pages. *)
Record tx_ready (s : nstate) (l : list Z) (pkt len : Z) : Prop := {
  tx_pkt : 0 <= pkt /\ pkt + len <= 4294967296;
  tx_len : 0 <= len < 65536;
  tx_buf_fits : tx_buf s + len <= 4294967296;
  tx_apart : tx_desc s + 16 <= tx_buf s \/ tx_buf s + len <= tx_desc s;
  tx_desc_clear : clear_of l (tx_desc s) 16;
  tx_buf_clear : clear_of l (tx_buf s) len
}.

(** What the card finds: the bytes in the buffer and the descriptor filled. *)
Record tx_posted (s : nstate) (pkt len : Z) (m : mem) : Prop := {
  tp_bytes : same_bytes pkt (tx_buf s) len (nmem s) m;
  tp_len : load16 m (tx_desc s + 8) = len;
  tp_cmd : m (tx_desc s + 11) = 0xb;
  tp_sta : m (tx_desc s + 12) = 0;
  tp_frame : forall x, (x < tx_desc s + 8 \/ tx_desc s + 16 <= x) -> (x < tx_buf s \/ tx_buf s + len <= x) ->
    m x = nmem s x
}.

Lemma load16_same m1 m2 a : m1 a = m2 a -> m1 (a + 1) = m2 (a + 1) -> load16 m1 a = load16 m2 a.
Proof. intros E1 E2. unfold load16. rewrite !load_bytes_S. by rewrite E1, E2. Qed.

(** The memory [i8254_send] leaves. *)
Definition post (d len : Z) (m : mem) : mem :=
  sb (d + 10) 0 (sh (d + 14) 0 (sb (d + 11) 0xb (sb (d + 13) 0 (sb (d + 12) 0 (sh (d + 8) len m))))).

Lemma post_posted (s : nstate) l pkt len m :
  mem_wf (nmem s) -> tx_ready s l pkt len -> m ≡ copied (nmem s) (tx_buf s) pkt len ->
  tx_posted s pkt len (post (tx_desc s) len m).
Proof.
  intros Hw [Hp Hl Hb Ha _ _] Hm. unfold post. split.
  - intros i Hi. past. rewrite (Hm _), copied_in by lia. f_equal. lia.
  - rewrite (load16_same _ (sh (tx_desc s + 8) len m)) by by past.
    unfold sh. rewrite load_store16_eq. by apply u16_small.
  - past. by rewrite sb_same by word.
  - past. by rewrite sb_same by word.
  - intros x Hd Hx. past. rewrite (Hm _). by rewrite copied_out.
Qed.

(** [i8254_send] always takes the packet: its test of the room left never
    fails. *)
Lemma tx_available_pos (s : nstate) : 0 <? I8254_SEND_DESC_NUM -
  u32 (I8254_SEND_DESC_NUM - regs s TDH + regs s TDT) mod I8254_SEND_DESC_NUM = true.
Proof.
  pose proof (Z.mod_pos_bound (u32 (I8254_SEND_DESC_NUM - regs s TDH + regs s TDT)) I8254_SEND_DESC_NUM ltac:(done)).
  zcases; [done|lia].
Qed.

Lemma i8254_send_run (s : nstate) l pkt len : al_free (np s) l -> tx_ready s l pkt len ->
  exists p, i8254_send pkt len s =
    Ret (i32 len) (set_regs (fupd (regs s) TDT (u32 (u32 (regs s TDT + 1) mod I8254_SEND_DESC_NUM))) (set_np p s)) /\
    al_free p l /\ tx_posted s pkt len (al_mem p).
Proof.
  intros Hl Hr. pose proof (al_free_pages _ _ Hl) as (_&_&Hw). destruct (Hr) as [Hp Hlen Hb Ha Cd Cb].
  unfold i8254_send, reg. rewrite !bind_gets. cbv zeta. rewrite tx_available_pos.
  fold (tx_desc s). set (d := tx_desc s) in *.
  assert (Hcl : forall v x, v ∈ l -> in_page v x -> x < d \/ d + 16 <= x).
  { intros v x Hv Hx. destruct (Cd v Hv); unfold in_page in Hx; lia. }
  assert (Hmm : memmove (tx_buf s) pkt len (nmem s) ≡ copied (nmem s) (tx_buf s) pkt len).
  { apply memmove_copied; [done| |lia..]. unfold tx_buf, P2V. apply u32_range. }
  set (Q := fun p r => r = Ret (i32 len)
    (set_regs (fupd (regs s) TDT (u32 (u32 (regs s TDT + 1) mod I8254_SEND_DESC_NUM))) (set_np p s)) /\
    al_free p l /\ tx_posted s pkt len (al_mem p)).
  match goal with |- exists p, ?r = _ /\ _ => change (exists p, Q p r) end.
  eapply on_mem_seq; [exact Hl|..].
  { intros x. change (mem_wf (nmem s)) in Hw. change (P2V (load32 (nmem s) d)) with (tx_buf s). rewrite (Hmm x). by apply copied_wf. }
  { intros v x Hv Hx. change (P2V (load32 (nmem s) d)) with (tx_buf s). rewrite (Hmm x). apply copied_out. destruct (Cb v Hv); unfold in_page in Hx; lia. }
  intros p0 E0 F0. change (P2V (load32 (nmem s) d)) with (tx_buf s) in E0. set (m0 := memmove _ _ _ _) in E0.
  assert (HQ : forall p, al_mem p = post d len m0 -> al_free p l ->
    exists q, Q q ((let! tdt := gets (fun s => regs s TDT) in
       set_reg TDT (u32 (tdt + 1) mod I8254_SEND_DESC_NUM) ;; ret (i32 len)) (set_np p s))).
  { intros p Ep Fp. exists p. split; [reflexivity|]. split; [done|]. rewrite Ep. by eapply post_posted. }
  clearbody Q. clearbody m0.
  do 6 (eapply on_mem_seq; [exact F0|..];
    [change (nmem (set_np p0 s)) with (al_mem p0); apply al_free_pages in F0 as (_&_&?); auto with kernel
    |intros v x Hv Hx; specialize (Hcl v x Hv Hx); past; done|];
    let p1 := fresh "p" in let E1 := fresh "E" in let F1 := fresh "F" in
    intros p1 E1 F1; change (nmem (set_np p0 s)) with (al_mem p0) in E1; rewrite E0 in E1;
    change (set_np p1 (set_np p0 s)) with (set_np p1 s); clear E0 F0; clear p0;
    rename p1 into p0, E1 into E0, F1 into F0).
  by apply HQ.
Qed.

(** Addresses of this machine, as the card and the sources set them up. *)
Definition good_addrs (s : nstate) : Prop :=
  length (mac_addr s) = 6%nat /\ Forall is_u8 (mac_addr s) /\ length (my_ip s) = 4%nat /\ Forall is_u8 (my_ip s).

(** The page [send] is the next one [kalloc] hands out, and the ring can take
    a packet of [len] bytes. *)
Record net_ready (s : nstate) (send : Z) (l : list Z) (len : Z) : Prop := {
  nr_free : al_free (np s) (send :: l);
  nr_addrs : good_addrs s;
  nr_tx : tx_ready s (send :: l) send len;
  nr_len : len <= PGSIZE
}.

Lemma packet_page_run (s : nstate) send l len : net_ready s send l len ->
  exists p, packet_page s = Ret send (set_np p s) /\ al_free p l /\ al_mem p = nmem s.
Proof.
  intros [Hf _ _ _]. pose proof (al_free_pages _ _ Hf) as (_&Hp&_).
  destruct (al_page_aligned send) as [_ Hr]; [by inversion Hp|].
  destruct (al_kalloc_some _ _ _ Hf) as (p&E&F&Em). exists p. split; [|done].
  unfold packet_page, net_kalloc. rewrite (bind_run _ _ s send (set_np p s)).
  - zcases; [unfold KERNBASE in *; lia|done].
  - unfold zoom. by rewrite E.
Qed.

(** A packet built in the page [send] by [build], sent and its page freed. *)
Lemma send_packet (s : nstate) send l len (build : mem -> mem) p :
  net_ready s send l len -> al_free p l -> al_mem p = nmem s ->
  mem_wf (build (nmem s)) -> (forall x, ~ in_page send x -> build (nmem s) x = nmem s x) ->
  exists p1, on_mem build (set_np p s) = Ret tt (set_np p1 s) /\
    forall s2 : nstate, np s2 = p1 -> regs s2 = regs s -> exists p2,
    i8254_send send len s2 = Ret (i32 len)
      (set_regs (fupd (regs s) TDT (u32 (u32 (regs s TDT + 1) mod I8254_SEND_DESC_NUM))) (set_np p2 s2)) /\
    exists p3, al_kfree send p2 = Ret tt p3 /\ al_free p3 (send :: l) /\
      same_bytes send (tx_buf s) len (build (nmem s)) (al_mem p3) /\
      load16 (al_mem p3) (tx_desc s + 8) = len /\ al_mem p3 (tx_desc s + 11) = 0xb.
Proof.
  intros [Hf _ Htx Hlen] Fp Ep Hw Hb. pose proof (al_free_pages _ _ Hf) as (Hnd&Hpg&_).
  apply NoDup_cons in Hnd as [Hn _]. destruct Htx as [Hpk Hln Hbf Hap Cd Cb].
  assert (Hs0 : send ∈ send :: l) by constructor.
  assert (Hdisj : forall v x, v ∈ l -> in_page v x -> ~ in_page send x).
  { intros v x Hv Hx Hx'. apply Forall_cons in Hpg as [Ps Pl].
    destruct (al_page_aligned _ Ps) as [As _]. rewrite Forall_forall in Pl.
    destruct (al_page_aligned _ (Pl v Hv)) as [Av _]. assert (v <> send) by (intros ->; done).
    unfold in_page, PGSIZE in *. clear -As Av Hx Hx' H. word. }
  destruct (on_mem_run build (set_np p s) l) as (p1&E1&M1&F1).
  { done. }
  { change (mem_wf (build (al_mem p))). by rewrite Ep. }
  { intros v x Hv Hx. change (build (al_mem p) x = al_mem p x). rewrite Ep. eauto. }
  change (nmem (set_np p s)) with (al_mem p) in M1. rewrite Ep in M1.
  change (set_np p1 (set_np p s)) with (set_np p1 s) in E1.
  exists p1. split; [done|]. intros s1 Hnp Hregs.
  assert (Hd : tx_desc s1 = tx_desc s) by (unfold tx_desc; by rewrite Hregs).
  assert (Hb1 : tx_buf s1 = tx_buf s).
  { unfold tx_buf. rewrite Hd. f_equal. apply load32_ext. intros x Hx. unfold nmem at 1. rewrite Hnp, M1.
    apply Hb. intros Hx'. destruct (Cd send Hs0); unfold in_page in Hx'; lia. }
  destruct (i8254_send_run s1 l send len) as (p2&E2&F2&P2).
  { by rewrite Hnp. }
  { split; [done..| | | |]; rewrite ?Hb1, ?Hd; [done|done|..]; intros v Hv; [apply Cd|apply Cb]; by constructor. }
  rewrite Hregs in E2. exists p2. split; [done|].
  destruct (al_kfree_ok p2 send l F2) as (p3&E3&F3&K3); [by inversion Hpg|done|].
  exists p3. split_and!; [done|done|..].
  - intros i Hi. destruct P2 as [Hbytes _ _ _ _]. rewrite Hb1 in Hbytes. rewrite <- M1, <- Hnp.
    change (al_mem (np s1)) with (nmem s1). rewrite (Hbytes i Hi). symmetry. apply K3. intros Hx. destruct (Cb send Hs0); unfold in_page in Hx; lia.
  - destruct P2 as [_ Hl2 _ _ _]. rewrite Hd in Hl2. rewrite <- Hl2.
    apply load16_same; apply K3; intros Hx; destruct (Cd send Hs0); unfold in_page in Hx; lia.
  - destruct P2 as [_ _ Hc _ _]. rewrite Hd in Hc. rewrite K3; [exact Hc|].
    intros Hx; destruct (Cd send Hs0); unfold in_page in Hx; lia.
Qed.

(** An echo request at [recv]: ICMP code 0 and type 8 behind the IPv4 header. *)
Definition echo_request (m : mem) (recv : Z) : Prop :=
  m (ipv4_payload recv m) = ICMP_TYPE_ECHO_REQUEST /\ m (ipv4_payload recv m + 1) = 0.

End sending.

(** ** Witness: a request at 0x80105000, the ring at 0x80103000 *)

Lemma net_demo_above : KERNBASE < demo_kend.
Proof. unfold KERNBASE, demo_kend. lia. Qed.
#[local] Instance net_demo_allocator : PageAllocator kmem (page_ok demo_kend) := kmem_allocator demo_kend net_demo_above.

Definition demo_net_mem : mem :=
  sb 0x80105022 8 (sb 0x8010500e 0x45 (sarr 0x8010502a [1; 2; 3] (sw 0x80103000 0x104000 (kmem_mem demo_kmem)))).
Definition demo_net : nstate (S := kmem) :=
  NState (set_mem demo_net_mem demo_kmem) [2; 0; 0; 0; 0; 1] [10; 0; 1; 10] (fun _ => ArpEntry [0; 0; 0; 0] [0; 0; 0; 0; 0; 0] 0)
    (-1) 0 0 0 0 0 (PciDev 0 0 0 0 0 0 0 0 0 0 0) (fupd (fun _ => 0) TDBAL 0x103000) (fun _ => 0).

Lemma demo_net_ready : net_ready demo_net 0x80102000 [0x80101000] icmp_size.
Proof.
  assert (Hb : tx_buf demo_net = 0x80104000) by (vm_compute; reflexivity).
  assert (Hd : tx_desc demo_net = 0x80103000) by (vm_compute; reflexivity).
  split.
  - apply (kinv_frame demo_kend demo_kmem demo_free demo_net_mem demo_kinv).
    + apply sb_wf, sb_wf, sarr_wf, store32_wf, store32_wf, zero_mem_wf.
    + intros v x Hv Hx. unfold demo_free in Hv. rewrite !elem_of_cons, elem_of_nil in Hv.
      unfold demo_net_mem, in_page, PGSIZE in *. simpl length in *.
      rewrite !sb_other by (destruct Hv as [->|[->|[]]]; lia).
      rewrite sarr_other by (destruct Hv as [->|[->|[]]]; simpl; lia).
      unfold sw. apply store32_other. destruct Hv as [->|[->|[]]]; lia.
  - split_and!; simpl; try reflexivity; repeat constructor; word.
  - split; rewrite ?Hb, ?Hd; unfold icmp_size, ETH_HDR, IPV4_HDR, ICMP_PKT; try lia.
    all: intros v Hv; rewrite !elem_of_cons, elem_of_nil in Hv; unfold PGSIZE; destruct Hv as [->|[->|[]]]; lia.
  - unfold icmp_size, ETH_HDR, IPV4_HDR, ICMP_PKT, PGSIZE. lia.
Qed.


(** ** The ARP table *)

Lemma arp_search_hit ixs t ip empty i : i ∈ ixs -> ae_ip (t i) = ip ->
  exists r, r ∈ ixs /\ arp_search_loop ixs t ip empty = r /\ ae_ip (t r) = ip.
Proof.
  intros Hi Ht. revert empty. induction ixs as [|j ixs IH]; intros empty; [by apply elem_of_nil in Hi|].
  simpl. case_decide as Hj; [exists j; repeat split; [constructor|done]|].
  apply elem_of_cons in Hi as [->|Hi]; [done|].
  destruct (IH Hi (if (ae_use (t j) =? 0) && (empty =? 1) then - j else empty)) as (r&Hr&E&?).
  exists r. repeat split; [by constructor|done..].
Qed.

Lemma arp_search_kept ixs t ip empty : (forall i, i ∈ ixs -> ae_ip (t i) <> ip) -> empty <> 1 ->
  arp_search_loop ixs t ip empty = empty - 1.
Proof.
  intros Ht He. induction ixs as [|j ixs IH]; [done|]. simpl.
  rewrite decide_False by (apply Ht; constructor). replace (empty =? 1) with false by (symmetry; by apply Z.eqb_neq).
  rewrite andb_false_r. apply IH. intros i Hi. apply Ht. by constructor.
Qed.

Lemma arp_search_miss ixs t ip : Forall (Z.le 0) ixs -> (forall i, i ∈ ixs -> ae_ip (t i) <> ip) ->
  (exists r, r ∈ ixs /\ ae_use (t r) = 0 /\ arp_search_loop ixs t ip 1 = - r - 1) \/
  ((forall i, i ∈ ixs -> ae_use (t i) <> 0) /\ arp_search_loop ixs t ip 1 = 0).
Proof.
  intros Hp Ht. induction ixs as [|j ixs IH]; [right; split; [intros i Hi; by apply elem_of_nil in Hi|done]|].
  simpl. apply Forall_cons in Hp as [Hj Hp]. rewrite decide_False by (apply Ht; constructor).
  assert (Ht' : forall i, i ∈ ixs -> ae_ip (t i) <> ip) by (intros; apply Ht; by constructor).
  destruct (Z.eqb_spec (ae_use (t j)) 0) as [U|U]; simpl.
  - left. exists j. split_and!; [constructor|done|]. apply arp_search_kept; [done|lia].
  - destruct (IH Hp Ht') as [(r&Hr&U'&E)|[U' E]].
    + left. exists r. by split_and!; [constructor|..].
    + right. split; [|done]. intros i Hi. apply elem_of_cons in Hi as [->|Hi]; [done|by apply U'].
Qed.

Lemma arp_search_ext ixs t t' ip empty :
  (forall j, ae_ip (t' j) = ae_ip (t j)) -> (forall j, ae_use (t' j) = ae_use (t j)) ->
  arp_search_loop ixs t' ip empty = arp_search_loop ixs t ip empty.
Proof.
  intros Hi Hu. revert empty. induction ixs as [|j ixs IH]; intros e; simpl; [done|].
  rewrite Hi, Hu. case_decide; [done|]. apply IH.
Qed.

(** The table can hold [ip]: it does already or has an unused entry. *)
Definition arp_room (t : Z -> arp_entry) (ip : list Z) : Prop :=
  exists i, 0 <= i < ARP_TABLE_MAX /\ (ae_ip (t i) = ip \/ ae_use (t i) = 0).

Lemma arp_index (i : Z) : i ∈ seqZ 0 ARP_TABLE_MAX <-> 0 <= i < ARP_TABLE_MAX.
Proof. rewrite elem_of_seqZ. lia. Qed.

(** What [arp_table_update] stores [arp_table_search] finds: while the
    table has room for the address, the update changes one entry, one that
    held the address or was unused, and a search for the address then returns
    an entry with that address and hardware address. *)
Theorem arp_update_search (t : Z -> arp_entry) (ip mac : list Z) : arp_room t ip ->
  let t' := arp_table_update t ip mac in
  exists i, 0 <= i < ARP_TABLE_MAX /\ arp_table_search t' ip = i /\
    ae_ip (t' i) = ip /\ ae_mac (t' i) = mac /\
    (ae_ip (t i) = ip \/ ae_use (t i) = 0) /\ forall j, j <> i -> t' j = t j.
Proof.
  intros (k&Hk&Hroom) t'. unfold t', arp_table_update, arp_table_search. clear t'.
  assert (Hpos : Forall (Z.le 0) (seqZ 0 ARP_TABLE_MAX)).
  { apply Forall_forall. intros i. rewrite arp_index. lia. }
  destruct (decide (Exists (fun i => ae_ip (t i) = ip) (seqZ 0 ARP_TABLE_MAX))) as [Hyes|Hno].
  - apply Exists_exists in Hyes as (i&Hi&Ei). destruct (arp_search_hit _ t ip 1 i Hi Ei) as (r&Hr&E&Er). rewrite E.
    apply arp_index in Hr as Hr'. zcases; [|lia]. exists r.
    split_and!; [lia|lia| |by rewrite fupd_eq|by rewrite fupd_eq|by left|intros; by apply fupd_ne].
    etrans; [|exact E]. apply arp_search_ext; intros j; rewrite fupd_at; by zcases; subst.
  - assert (Hne : forall i, i ∈ seqZ 0 ARP_TABLE_MAX -> ae_ip (t i) <> ip).
    { intros i Hi Ei. apply Hno, Exists_exists. eauto. }
    destruct (arp_search_miss _ t ip Hpos Hne) as [(r&Hr&U&E)|[U _]].
    + rewrite E. apply arp_index in Hr as Hr'. zcases; [lia|]. replace (- (- r - 1 + 1)) with r by lia.
      set (t' := fupd t r _). destruct (arp_search_hit _ t' ip 1 r Hr) as (r'&Hr1&E'&Er'); [unfold t'; by rewrite fupd_eq|].
      assert (r' = r) as ->.
      { destruct (decide (r' = r)) as [|Hn]; [done|]. unfold t' in Er'. rewrite fupd_ne in Er' by done. by apply Hne in Er'. }
      exists r. split_and!; [lia|lia|done|done|unfold t'; by rewrite fupd_eq|by right|intros; by apply fupd_ne].
    + apply arp_index in Hk. destruct Hroom as [Hr|Hr]; [by apply Hne in Hr|by apply U in Hr].
Qed.

(** A full table without the address: the update gives the hardware address
    to entry 0, which keeps its own protocol address. *)
Lemma arp_full_update (t : Z -> arp_entry) (ip mac : list Z) : ~ arp_room t ip ->
  arp_table_update t ip mac = fupd t 0 (ArpEntry (ae_ip (t 0)) mac (ae_use (t 0))).
Proof.
  intros Hno. unfold arp_table_update, arp_table_search.
  assert (Hpos : Forall (Z.le 0) (seqZ 0 ARP_TABLE_MAX)).
  { apply Forall_forall. intros i. rewrite arp_index. lia. }
  destruct (arp_search_miss (seqZ 0 ARP_TABLE_MAX) t ip) as [(r&Hr&U&E)|[_ ->]]; [done| | |done].
  - intros i Hi Ei. apply Hno. exists i. rewrite <- arp_index. auto.
  - destruct Hno. exists r. rewrite <- arp_index. auto.
Qed.

Definition demo_arp : Z -> arp_entry := fun i => ArpEntry [10; 0; 1; i] [2; 0; 0; 0; 0; i] (if i =? 3 then 0 else 1).
Lemma demo_arp_room : arp_room demo_arp [10; 0; 2; 1].
Proof. exists 3. split; [unfold ARP_TABLE_MAX; lia|]. by right. Qed.
Lemma arp_update_search_witness :
  let t' := arp_table_update demo_arp [10; 0; 2; 1] [1; 2; 3; 4; 5; 6] in
  arp_table_search t' [10; 0; 2; 1] = 3 /\ exists i, 0 <= i < ARP_TABLE_MAX /\ arp_table_search t' [10; 0; 2; 1] = i /\
    ae_ip (t' i) = [10; 0; 2; 1] /\ ae_mac (t' i) = [1; 2; 3; 4; 5; 6] /\
    (ae_ip (demo_arp i) = [10; 0; 2; 1] \/ ae_use (demo_arp i) = 0) /\ forall j, j <> i -> t' j = demo_arp j.
Proof. split; [vm_compute; reflexivity|]. exact (arp_update_search demo_arp [10; 0; 2; 1] [1; 2; 3; 4; 5; 6] demo_arp_room). Defined.
