(* ===== verification/Kbd.v ===== *)
(** * kbd.c and kbd.h: the keyboard

    [kbdgetc] as a function of the two ports it reads and of its static
    [shift]; the tables are functions of the scan code. *)
From stdpp Require Import base numbers list gmap strings.
From S2P Require Import Prelude.
Open Scope Z_scope.

Definition KBS_DIB : Z := 0x01.
Definition SHIFT : Z := Z.shiftl 1 0.
Definition CTL : Z := Z.shiftl 1 1.
Definition ALT : Z := Z.shiftl 1 2.
Definition CAPSLOCK : Z := Z.shiftl 1 3.
Definition NUMLOCK : Z := Z.shiftl 1 4.
Definition SCROLLLOCK : Z := Z.shiftl 1 5.
Definition E0ESC : Z := Z.shiftl 1 6.
(** [C(x)], stored in a [uchar] *)
Definition ctl_char (x : Z) : Z := u8 (x - 64).

(** A table: its leading entries, then the designated ones. *)
Definition table (l : list Z) (at_ : list (Z * Z)) (i : Z) : Z :=
  match filter (fun p => fst p = i) at_ with
  | p :: _ => snd p
  | [] => nthZ 0 l i
  end.

Definition shiftcode : Z -> Z :=
  table [] [(0x1D, CTL); (0x2A, SHIFT); (0x36, SHIFT); (0x38, ALT); (0x9D, CTL); (0xB8, ALT)].
Definition togglecode : Z -> Z := table [] [(0x3A, CAPSLOCK); (0x45, NUMLOCK); (0x46, SCROLLLOCK)].

(** Keys behind the 0xE0 escape *)
Definition escaped (enter div : Z) : list (Z * Z) :=
  [(0x9C, enter); (0xB5, div); (0xC8, 0xE2); (0xD0, 0xE3); (0xC9, 0xE6); (0xD1, 0xE7); (0xCB, 0xE4);
   (0xCD, 0xE5); (0x97, 0xE0); (0xCF, 0xE1); (0xD2, 0xE8); (0xD3, 0xE9)].

Definition normalmap : Z -> Z := table
  [0; 0x1B; 49; 50; 51; 52; 53; 54;  55; 56; 57; 48; 45; 61; 8; 9;
   113; 119; 101; 114; 116; 121; 117; 105;  111; 112; 91; 93; 10; 0; 97; 115;
   100; 102; 103; 104; 106; 107; 108; 59;  39; 96; 0; 92; 122; 120; 99; 118;
   98; 110; 109; 44; 46; 47; 0; 42;  0; 32; 0; 0; 0; 0; 0; 0;
   0; 0; 0; 0; 0; 0; 0; 55;  56; 57; 45; 52; 53; 54; 43; 49;
   50; 51; 48; 46; 0; 0; 0; 0]
  (escaped 10 47).
Definition shiftmap : Z -> Z := table
  [0; 27; 33; 64; 35; 36; 37; 94;  38; 42; 40; 41; 95; 43; 8; 9;
   81; 87; 69; 82; 84; 89; 85; 73;  79; 80; 123; 125; 10; 0; 65; 83;
   68; 70; 71; 72; 74; 75; 76; 58;  34; 126; 0; 124; 90; 88; 67; 86;
   66; 78; 77; 60; 62; 63; 0; 42;  0; 32; 0; 0; 0; 0; 0; 0;
   0; 0; 0; 0; 0; 0; 0; 55;  56; 57; 45; 52; 53; 54; 43; 49;
   50; 51; 48; 46; 0; 0; 0; 0]
  (escaped 10 47).
Definition ctlmap : Z -> Z := table
  ([0; 0; 0; 0; 0; 0; 0; 0;  0; 0; 0; 0; 0; 0; 0; 0] ++
   map ctl_char [81; 87; 69; 82; 84; 89; 85; 73;  79; 80] ++ [0; 0; 13; 0] ++ map ctl_char [65; 83;
   68; 70; 71; 72; 74; 75; 76] ++ [0;  0; 0; 0] ++ map ctl_char [92; 90; 88; 67; 86;
   66; 78; 77] ++ [0; 0; ctl_char 47; 0; 0])
  (escaped 13 (ctl_char 47)).
(** [charcode[i]] *)
Definition charcode (i : Z) : Z -> Z := if i =? 0 then normalmap else if i =? 1 then shiftmap else ctlmap.

(** The end of [kbdgetc]: a key pressed, [data] with bit 7 set behind the
    escape *)
Definition key_pressed (data shift : Z) : Z * Z :=
  let shift := Z.lxor (Z.lor shift (shiftcode data)) (togglecode data) in
  let c := charcode (Z.land shift (Z.lor CTL SHIFT)) data in
  (if negb (Z.land shift CAPSLOCK =? 0) then
     if (97 <=? c) && (c <=? 122) then c +u (65 - 97)
     else if (65 <=? c) && (c <=? 90) then c +u (97 - 65)
     else c
   else c, shift).

(** [kbdgetc()]: the result and the new [shift] *)
Definition kbdgetc (st data shift : Z) : Z * Z :=
  if Z.land st KBS_DIB =? 0 then (-1, shift)
  else if data =? 0xE0 then (0, Z.lor shift E0ESC)
  else if negb (Z.land data 0x80 =? 0) then
    let data := if negb (Z.land shift E0ESC =? 0) then data else Z.land data 0x7F in
    (0, Z.land shift (Z.lnot (Z.lor (shiftcode data) E0ESC)))
  else if negb (Z.land shift E0ESC =? 0) then key_pressed (Z.lor data 0x80) (Z.land shift (Z.lnot E0ESC))
  else key_pressed data shift.

(** [uartgetc()]: with a port, what its status and data registers hold *)
Definition uartgetc (uart lsr data : Z) : Z :=
  if uart =? 0 then -1 else if Z.land lsr 0x01 =? 0 then -1 else data.

(** ** Properties *)

(** All pairs of a scan code and a value of [shift]. *)
Definition all_keys : list (Z * Z) := flat_map (fun d => map (pair d) (seqZ 0 128)) (seqZ 0 256).

Lemma all_keys_in d s : is_u8 d -> 0 <= s < 128 -> (d, s) ∈ all_keys.
Proof.
  intros Hd Hs. apply list_elem_of_In, in_flat_map. exists d. split.
  - apply list_elem_of_In, elem_of_seqZ. unfold is_u8 in Hd. lia.
  - apply in_map, list_elem_of_In, elem_of_seqZ. lia.
Qed.

(** A check of every scan code in every state. *)
Lemma by_all_keys (P : Z -> Z -> bool) :
  forallb (fun k => P (fst k) (snd k)) all_keys = true ->
  forall d s, is_u8 d -> 0 <= s < 128 -> P d s = true.
Proof.
  intros H d s Hd Hs. rewrite forallb_forall in H.
  apply (H (d, s)), list_elem_of_In. by apply all_keys_in.
Qed.

Definition typed_ok (d s : Z) : bool :=
  let (c, s') := kbdgetc 1 d s in (0 <=? c) && (c <? 256) && (0 <=? s') && (s' <? 128).
(** Pressing or releasing a key that is neither a shift key nor the escape
    keeps the SHIFT bit. *)
Definition shift_ok (d s : Z) : bool :=
  let s' := snd (kbdgetc 1 d s) in
  let esc := negb (Z.land s E0ESC =? 0) in
  if negb esc && ((d =? 0x2A) || (d =? 0x36)) then Z.testbit s' 0
  else if negb esc && ((d =? 0xAA) || (d =? 0xB6)) then negb (Z.testbit s' 0)
  else Bool.eqb (Z.testbit s' 0) (Z.testbit s 0).

Lemma kbd_typed_all d s : is_u8 d -> 0 <= s < 128 -> typed_ok d s = true.
Proof. apply by_all_keys. vm_compute. reflexivity. Qed.
Lemma kbd_shift_all d s : is_u8 d -> 0 <= s < 128 -> shift_ok d s = true.
Proof. apply by_all_keys. vm_compute. reflexivity. Qed.


(** The SHIFT flag follows the shift keys: pressing one sets it, releasing
    one clears it, and no other key changes it. *)
Lemma kbd_shift_follows (data shift : Z) : is_u8 data -> 0 <= shift < 128 ->
  let shift' := snd (kbdgetc 1 data shift) in
  Z.land shift E0ESC = 0 ->
  (data = 0x2A \/ data = 0x36 -> Z.testbit shift' 0 = true) /\
  (data = 0xAA \/ data = 0xB6 -> Z.testbit shift' 0 = false) /\
  (data <> 0x2A -> data <> 0x36 -> data <> 0xAA -> data <> 0xB6 -> Z.testbit shift' 0 = Z.testbit shift 0).
Proof.
  intros Hd Hs shift' He. pose proof (kbd_shift_all data shift Hd Hs) as H. unfold shift_ok in H.
  fold shift' in H. rewrite He in H. simpl in H. clearbody shift'.
  split_and!.
  - intros [->| ->]; done.
  - intros [->| ->]; simpl in H; by apply negb_true_iff in H.
  - intros. zcases; try done. simpl in H. by apply eqb_prop.
Qed.
