(* ===== verification/Console.v ===== *)
(** * console.c, kbd.c, uart.c, font.c and graphic.c: the console

    [cstate] holds the input ring with its three indices, the cursor, the
    frame buffer and what has gone out on the serial line.  The glyph table of
    font_bin.h is the argument [font_bin]; what lies outside it is whatever
    the argument says there. *)
From stdpp Require Import base numbers list gmap strings.
From S2P Require Import Prelude Memory StringC.
Open Scope Z_scope.

Definition BACKSPACE : Z := 0x100.
Definition CONSOLE_HORIZONTAL_MAX : Z := 53.
Definition CONSOLE_VERTICAL_MAX : Z := 20.
Definition FONT_WIDTH : Z := 15.
Definition FONT_HEIGHT : Z := 30.
Definition INPUT_BUF : Z := 128.
(** [C(x)]: the control character of [x] *)
Definition C (x : Z) : Z := x - 64.

(** [struct gpu] *)
Record gpu := Gpu {
  vvram_addr : Z; vram_size : Z; horizontal_resolution : Z; vertical_resolution : Z; pixels_per_line : Z }.

(** [input] *)
Record inbuf := Inbuf { i_buf : list Z; i_r : Z; i_w : Z; i_e : Z }.

Record cstate := CState {
  input : inbuf; panicked : bool; uart : Z; serial : list Z; console_pos : Z; vram : mem; wakeups : nat }.

Abbreviation CM := (M cstate).
Definition set_input (x : inbuf) (s : cstate) : cstate :=
  CState x (panicked s) (uart s) (serial s) (console_pos s) (vram s) (wakeups s).
Definition set_serial (x : list Z) (s : cstate) : cstate :=
  CState (input s) (panicked s) (uart s) x (console_pos s) (vram s) (wakeups s).
Definition set_pos (x : Z) (s : cstate) : cstate :=
  CState (input s) (panicked s) (uart s) (serial s) x (vram s) (wakeups s).
Definition set_vram (x : mem) (s : cstate) : cstate :=
  CState (input s) (panicked s) (uart s) (serial s) (console_pos s) x (wakeups s).
(** [wakeup(&input.r)] *)
Definition wakeup_readers (s : cstate) : cstate :=
  CState (input s) (panicked s) (uart s) (serial s) (console_pos s) (vram s) (S (wakeups s)).

(** ** The screen *)

Section console.
Context (g : gpu) (font_bin : Z -> Z -> Z).

(** [graphic_draw_pixel(x, y, buffer)] for a grey level *)
Definition graphic_draw_pixel (x y grey : Z) (m : mem) : mem :=
  let a := vvram_addr g +u 4 * (y * pixels_per_line g + x) in
  store8 (store8 (store8 m a grey) (a + 1) grey) (a + 2) grey.

(** [graphic_scroll_up(height)] *)
Definition graphic_scroll_up (height : Z) (m : mem) : mem :=
  let addr_diff := u32 (4 * pixels_per_line g * height) in
  let m := memmove (vvram_addr g) (vvram_addr g +u addr_diff) (vram_size g -u addr_diff) m in
  memset (u32 (vvram_addr g + vram_size g - addr_diff)) 0 addr_diff m.

(** The pixels of a glyph: the two loops of [font_render]. *)
Definition glyph_bits : list (Z * Z) :=
  flat_map (fun i => map (fun k => (i, 14 - k)) (seqZ 0 15)) (seqZ 0 30).
(** [font_render(x, y, index)] *)
Definition font_render (x y index : Z) (m : mem) : mem :=
  fold_left (fun m '(i, j) =>
    let bin := Z.land (font_bin (index - 0x20) i) (Z.shiftl 1 j) in
    graphic_draw_pixel (x + (14 - j)) (y + i) (if bin =? Z.shiftl 1 j then 0xFF else 0x0) m) glyph_bits m.

(** [graphic_putc(c)] *)
Definition scroll : CM unit :=
  modify (fun s => set_pos (console_pos s - CONSOLE_HORIZONTAL_MAX) s) ;;
  modify (fun s => set_vram (graphic_scroll_up 30 (vram s)) s).
Definition graphic_putc (c : Z) : CM unit :=
  let! pos := gets console_pos in
  if c =? 10 then
    let pos := pos + (CONSOLE_HORIZONTAL_MAX - Z.rem pos CONSOLE_HORIZONTAL_MAX) in
    modify (set_pos pos) ;;
    when (CONSOLE_VERTICAL_MAX * CONSOLE_HORIZONTAL_MAX <=? pos) scroll
  else if c =? BACKSPACE then
    when (0 <? pos) (modify (set_pos (pos - 1)))
  else
    when (CONSOLE_VERTICAL_MAX * CONSOLE_HORIZONTAL_MAX <=? pos) scroll ;;
    let! pos := gets console_pos in
    let x := Z.rem pos CONSOLE_HORIZONTAL_MAX * FONT_WIDTH + 2 in
    let y := Z.quot pos CONSOLE_HORIZONTAL_MAX * FONT_HEIGHT in
    modify (fun s => set_vram (font_render x y c (vram s)) s) ;;
    modify (set_pos (pos + 1)).

(** [uartputc(c)]: the byte goes out, also when the port stays busy *)
Definition uartputc (c : Z) : CM unit :=
  let! u := gets uart in
  when (negb (u =? 0)) (modify (fun s => set_serial (serial s ++ [u8 c]) s)).

(** [consputc(c)] *)
Definition consputc (c : Z) : CM unit :=
  let! p := gets panicked in
  if (p : bool) then stop_with Spinning
  else
    (if c =? BACKSPACE then uartputc 8 ;; uartputc 32 ;; uartputc 8 else uartputc c) ;;
    graphic_putc c.

(** ** Output *)

Definition digit (d : Z) : Z := nthZ 0 [48; 49; 50; 51; 52; 53; 54; 55; 56; 57; 97; 98; 99; 100; 101; 102] d.

(** [do { buf[i++] = digits[x % base]; } while((x /= base) != 0)] *)
Fixpoint digits_loop (fuel : nat) (x base : Z) : list Z :=
  match fuel with
  | O => []
  | S fuel' => digit (x mod base) :: (if x / base =? 0 then [] else digits_loop fuel' (x / base) base)
  end.
(** [buf] after the loop: a 32-bit value has at most 32 digits in any base
    the code uses. *)
Definition printint_buf (xx base : Z) (sign : bool) : list Z :=
  let neg := sign && (xx <? 0) in
  let x := if neg then u32 (- xx) else u32 xx in
  digits_loop 32 x base ++ (if neg then [45] else []).
(** [printint(xx, base, sign)] *)
Definition printint (xx base : Z) (sign : bool) : CM unit :=
  mfor (rev (printint_buf xx base sign)) consputc.

(** A [char] as an [int] *)
Definition schar (b : Z) : Z := (b + 128) mod 256 - 128.

(** The argument of a conversion of [cprintf] *)
Inductive fmt_arg := IntArg (x : Z) | StrArg (s : option (list Z)).

(** The loop of [cprintf] on the bytes of the format; [None] when a
    conversion has no argument of its kind. *)
Fixpoint cprintf_loop (fmt : list Z) (args : list fmt_arg) : CM unit :=
  match fmt with
  | [] => ret tt
  | c :: fmt' =>
      if negb (c =? 37) then consputc c ;; cprintf_loop fmt' args
      else
        match fmt' with
        | [] => ret tt
        | c :: fmt' =>
            if c =? 100 then
              match args with
              | IntArg x :: args' => printint (i32 x) 10 true ;; cprintf_loop fmt' args'
              | _ => stop_with (Faulted "cprintf argument")
              end
            else if (c =? 120) || (c =? 112) then
              match args with
              | IntArg x :: args' => printint (i32 x) 16 false ;; cprintf_loop fmt' args'
              | _ => stop_with (Faulted "cprintf argument")
              end
            else if c =? 115 then
              match args with
              | StrArg s :: args' =>
                  mfor (match s with Some l => l | None => [40; 110; 117; 108; 108; 41] end) (fun b => consputc (schar b)) ;;
                  cprintf_loop fmt' args'
              | _ => stop_with (Faulted "cprintf argument")
              end
            else if c =? 37 then consputc 37 ;; cprintf_loop fmt' args
            else consputc 37 ;; consputc c ;; cprintf_loop fmt' args
        end
  end.

(** ** Input *)

Definition at_ring (b : inbuf) (i : Z) : Z := nthZ 0 (i_buf b) (i mod INPUT_BUF).

(** [input.e--; consputc(BACKSPACE)] *)
Definition erase_one : CM unit :=
  modify (fun s => set_input (Inbuf (i_buf (input s)) (i_r (input s)) (i_w (input s)) (i_e (input s) -u 1)) s) ;;
  consputc BACKSPACE.

(** The loop of Control-U; one round per character between [w] and [e]. *)
Fixpoint kill_line (fuel : nat) : CM unit :=
  let! b := gets input in
  if negb (i_e b =? i_w b) && negb (at_ring b (i_e b -u 1) =? 10) then
    match fuel with
    | O => stop_with NoFuel
    | S fuel' => erase_one ;; kill_line fuel'
    end
  else ret tt.

(** One character: the body of the loop of [consoleintr], and whether a
    process listing was asked for. *)
Definition consoleintr_char (c : Z) : CM bool :=
  if c =? C 80 then ret true
  else if c =? C 85 then
    let! b := gets input in
    kill_line (Z.to_nat (i_e b -u i_w b)) ;; ret false
  else if (c =? C 72) || (c =? 0x7f) then
    let! b := gets input in
    when (negb (i_e b =? i_w b)) erase_one ;; ret false
  else
    let! b := gets input in
    if negb (c =? 0) && ((i_e b -u i_r b) <? INPUT_BUF) then
      let c := if c =? 13 then 10 else c in
      let b' := Inbuf (updZ (i_buf b) (i_e b mod INPUT_BUF) (u8 c)) (i_r b) (i_w b) (i_e b +u 1) in
      modify (set_input b') ;;
      consputc c ;;
      when ((c =? 10) || (c =? C 68) || (i_e b' =? i_r b' +u INPUT_BUF))
        (modify (set_input (Inbuf (i_buf b') (i_r b') (i_e b') (i_e b'))) ;; modify wakeup_readers) ;;
      ret false
    else ret false.

(** [consoleintr(getc)] for the characters [getc] returns before a negative
    one; the result is [doprocdump]. *)
Fixpoint consoleintr_loop (cs : list Z) (dump : bool) : CM bool :=
  match cs with
  | [] => ret dump
  | c :: cs' => let! d := consoleintr_char c in consoleintr_loop cs' (dump || d)
  end.
Definition consoleintr (cs : list Z) : CM bool := consoleintr_loop cs false.

(** What a segment of [consoleread] ends with: bytes, an error, or asleep on
    [input.r] with the bytes stored so far. *)
Inductive cread := CDone (bytes : list Z) | CFail | CSleep (bytes : list Z).

(** The loop of [consoleread] with [n] bytes still wanted of [target], from
    its start or from the return of [sleep]. *)
Fixpoint consoleread_loop (killed : bool) (n : nat) (target : Z) (got : list Z) : CM cread :=
  match n with
  | O => ret (CDone got)
  | S n' =>
      let! b := gets input in
      if i_r b =? i_w b then
        if killed then ret CFail else ret (CSleep got)
      else
        let c := at_ring b (i_r b) in
        if c =? C 68 then
          if Z.of_nat n <? target then ret (CDone got)
          else modify (set_input (Inbuf (i_buf b) (i_r b +u 1) (i_w b) (i_e b))) ;; ret (CDone got)
        else
          modify (set_input (Inbuf (i_buf b) (i_r b +u 1) (i_w b) (i_e b))) ;;
          if c =? 10 then ret (CDone (got ++ [c]))
          else consoleread_loop killed n' target (got ++ [c])
  end.
(** [consoleread(ip, dst, n)] *)
Definition consoleread (killed : bool) (n : Z) : CM cread := consoleread_loop killed (Z.to_nat n) (u32 n) [].

(** [consolewrite(ip, buf, n)] *)
Definition consolewrite (buf : list Z) : CM Z :=
  mfor buf (fun b => consputc (Z.land b 0xff)) ;; ret (Z.of_nat (length buf)).
End console.
