(* ===== verification/ConsoleProps.v ===== *)
(** * The console: the screen, numbers, the line editor

    Drawing stays inside the frame buffer; a printed number reads back; the
    input ring with its free-running indices implements a line editor with a
    queue of finished lines. *)
From stdpp Require Import base numbers list gmap strings.
From S2P Require Import Prelude Memory StringC Console.
Open Scope Z_scope.

Section screen.
Context (g : gpu) (font_bin : Z -> Z -> Z).

(** ** The screen *)

(** A frame buffer of at least 800 by 600 pixels below the end of memory. *)
Record gpu_ok : Prop := {
  gpu_base : 0 <= vvram_addr g /\ vvram_addr g + vram_size g <= 4294967296;
  gpu_wide : 800 <= pixels_per_line g;
  gpu_size : 4 * pixels_per_line g * 600 <= vram_size g
}.

(** Only bytes of the frame buffer differ. *)
Definition in_frame (m m' : mem) : Prop :=
  mem_wf m' /\ forall a, a < vvram_addr g \/ vvram_addr g + vram_size g <= a -> m' a = m a.

Lemma in_frame_refl m : mem_wf m -> in_frame m m.
Proof. done. Qed.
Lemma in_frame_trans m1 m2 m3 : in_frame m1 m2 -> in_frame m2 m3 -> in_frame m1 m3.
Proof. intros [_ H1] [W H2]. split; [done|]. intros a Ha. by rewrite H2, H1. Qed.

Section drawing.
Context (Hg : gpu_ok).

Lemma draw_pixel_in_frame x y grey m : mem_wf m -> 0 <= x < 800 -> 0 <= y < 600 ->
  in_frame m (graphic_draw_pixel g x y grey m).
Proof.
  intros Hm Hx Hy. destruct Hg as [Hb Hw Hs]. unfold graphic_draw_pixel.
  assert (Ha : 0 <= y * pixels_per_line g + x /\ y * pixels_per_line g + x < pixels_per_line g * 600) by nia.
  rewrite u32_small by (unfold is_u32; lia). split; [auto with kernel|].
  intros a Ha'. rewrite !store8_ne by lia. done.
Qed.

Lemma scroll_in_frame m : mem_wf m -> in_frame m (graphic_scroll_up g 30 m).
Proof.
  intros Hm. destruct Hg as [Hb Hw Hs]. unfold graphic_scroll_up.
  assert (Hd : is_u32 (4 * pixels_per_line g * 30)) by (unfold is_u32; lia). rewrite (u32_small _ Hd).
  set (d := 4 * pixels_per_line g * 30) in *. assert (0 < d /\ d < vram_size g) by lia. clearbody d.
  rewrite !u32_small by (unfold is_u32 in *; lia).
  assert (E1 : memmove (vvram_addr g) (vvram_addr g + d) (vram_size g - d) m ≡
    copied m (vvram_addr g) (vvram_addr g + d) (vram_size g - d)) by (apply memmove_copied; [done|lia..]).
  set (m1 := memmove _ _ _ m) in *. clearbody m1.
  assert (E2 : memset (vvram_addr g + vram_size g - d) 0 d m1 ≡ fill m1 (vvram_addr g + vram_size g - d) d 0)
    by (apply memset_fill; lia).
  split.
  - intros a. rewrite (E2 a). apply fill_wf. intros b. rewrite (E1 b). by apply copied_wf.
  - intros a Ha. rewrite (E2 a), fill_out by lia. rewrite (E1 a). by apply copied_out; lia.
Qed.

Lemma glyph_bits_range i j : (i, j) ∈ glyph_bits -> 0 <= i < 30 /\ 0 <= j < 15.
Proof.
  intros H. apply list_elem_of_In, in_flat_map in H as (a&Ha&H). apply in_map_iff in H as (k&[= <- <-]&Hk).
  apply list_elem_of_In, elem_of_seqZ in Ha. apply list_elem_of_In, elem_of_seqZ in Hk. lia.
Qed.

Lemma font_render_in_frame x y c m : mem_wf m -> 0 <= x -> x + 15 <= 800 -> 0 <= y -> y + 30 <= 600 ->
  in_frame m (font_render g font_bin x y c m).
Proof.
  intros Hm Hx0 Hx Hy0 Hy. unfold font_render.
  assert (Hall : forall i j, (i, j) ∈ glyph_bits -> 0 <= i < 30 /\ 0 <= j < 15) by apply glyph_bits_range.
  revert m Hm Hall. generalize glyph_bits. intros l. induction l as [|[i j] l IH]; intros m Hm Hall; simpl; [done|].
  destruct (Hall i j) as [Hi Hj]; [constructor|].
  eapply in_frame_trans; [apply draw_pixel_in_frame with (x := x + (14 - j)) (y := y + i); [done|lia..]|].
  apply IH; [|intros i' j' Hin; apply Hall; by constructor].
  by apply (draw_pixel_in_frame (x + (14 - j)) (y + i)); [|lia..].
Qed.
End drawing.

(** The cursor is on the screen or just behind it. *)
Definition cursor_ok (s : cstate) : Prop :=
  mem_wf (vram s) /\ 0 <= console_pos s <= CONSOLE_VERTICAL_MAX * CONSOLE_HORIZONTAL_MAX.

Lemma set_vram_same s p : set_vram (vram s) (set_pos p s) = set_pos p s.
Proof. by destruct s. Qed.

Lemma graphic_putc_run (Hg : gpu_ok) c s : cursor_ok s ->
  exists pos m, graphic_putc g font_bin c s = Ret tt (set_vram m (set_pos pos s)) /\
    cursor_ok (set_vram m (set_pos pos s)) /\ in_frame (vram s) m.
Proof.
  intros [Hm Hp]. unfold cursor_ok, graphic_putc, scroll, CONSOLE_VERTICAL_MAX, CONSOLE_HORIZONTAL_MAX, FONT_WIDTH, FONT_HEIGHT in *.
  rewrite bind_gets. cbv zeta. pose proof (scroll_in_frame Hg _ Hm) as Hsc.
  pose proof (Z.rem_bound_pos (console_pos s) 53 ltac:(lia) ltac:(lia)).
  destruct (c =? 10); [|destruct (c =? BACKSPACE)].
  - rewrite bind_modify. destruct (Z.leb_spec (20 * 53) (console_pos s + (53 - Z.rem (console_pos s) 53))); simpl.
    + eexists _, (graphic_scroll_up g 30 (vram s)). split; [reflexivity|]. simpl. split; [|done]. split; [apply Hsc|lia].
    + eexists _, (vram s). split; [by rewrite set_vram_same|]. split; [|done]. split; [done|simpl; lia].
  - destruct (Z.ltb_spec 0 (console_pos s)); simpl.
    + eexists _, (vram s). split; [by rewrite set_vram_same|]. split; [|done]. split; [done|simpl; lia].
    + exists (console_pos s), (vram s). split; [by rewrite set_vram_same; destruct s|]. split; [|done]. split; [done|simpl; lia].
  - destruct (Z.leb_spec (20 * 53) (console_pos s)); simpl.
    + assert (Hd : forall x y, 0 <= x -> x + 15 <= 800 -> 0 <= y -> y + 30 <= 600 ->
        in_frame (vram s) (font_render g font_bin x y c (graphic_scroll_up g 30 (vram s)))).
      { intros. eapply in_frame_trans; [exact Hsc|]. apply font_render_in_frame; [done|apply Hsc|lia..]. }
      eexists _, _. split; [reflexivity|]. simpl.
      assert (console_pos s = 1060) as E by lia. rewrite E. split; [split|]; [|change (0 <= 1060 - 53 + 1 <= 20 * 53); lia|]; apply (Hd 2 570); lia.
    + eexists _, _. split; [reflexivity|]. simpl.
      assert (0 <= Z.quot (console_pos s) 53 < 20) by (split; [apply Z.quot_pos; lia|apply Z.quot_lt_upper_bound; lia]).
      assert (Hd : in_frame (vram s) (font_render g font_bin (Z.rem (console_pos s) 53 * 15 + 2) (Z.quot (console_pos s) 53 * 30) c (vram s)))
        by (apply font_render_in_frame; [done|done|lia..]).
      split; [split; [apply Hd|change (0 <= console_pos s + 1 <= 20 * 53); lia]|done].
Qed.

(** C29. Whatever is written to the console, the cursor stays on the screen
    and no byte outside the frame buffer changes: every pixel of every glyph
    and every scroll lies within it. *)
Theorem graphic_putc_bounds (s : cstate) (cs : list Z) : gpu_ok -> cursor_ok s ->
  exists s', mfor cs (graphic_putc g font_bin) s = Ret tt s' /\ cursor_ok s' /\ in_frame (vram s) (vram s').
Proof.
  intros Hg. revert s. induction cs as [|c cs IH]; intros s Hs; simpl.
  - exists s. split_and!; [done..|]. apply in_frame_refl, Hs.
  - destruct (graphic_putc_run Hg c s Hs) as (pos&m&E&Hc&Hf). rewrite (bind_run _ _ _ _ _ E).
    destruct (IH _ Hc) as (s'&E'&Hc'&Hf'). exists s'. split_and!; [done..|]. eapply in_frame_trans; [exact Hf|exact Hf'].
Qed.
End screen.

Definition demo_gpu : gpu := Gpu 0xFD000000 1920000 800 600 800.
Definition demo_console : cstate := CState (Inbuf (replicate 128 0) 0 0 0) false 1 [] 1060 (fun _ => 0) 0.
Lemma graphic_putc_bounds_witness :
  exists s', mfor [72; 10; 0x100; 200] (graphic_putc demo_gpu (fun _ _ => 0)) demo_console = Ret tt s' /\
    cursor_ok s' /\ in_frame demo_gpu (vram demo_console) (vram s').
Proof.
  assert (Hg : gpu_ok demo_gpu) by (split; simpl; lia).
  assert (Hs : cursor_ok demo_console) by (split; [exact zero_mem_wf|simpl; unfold CONSOLE_VERTICAL_MAX, CONSOLE_HORIZONTAL_MAX; lia]).
  exact (graphic_putc_bounds demo_gpu (fun _ _ => 0) demo_console [72; 10; 0x100; 200] Hg Hs).
Defined.

(** ** Numbers *)

Section output.
Context (g : gpu) (font_bin : Z -> Z -> Z).

Lemma graphic_putc_total c s : exists pos m, graphic_putc g font_bin c s = Ret tt (set_vram m (set_pos pos s)).
Proof.
  unfold graphic_putc, scroll. rewrite bind_gets. cbv zeta.
  destruct (c =? 10); [|destruct (c =? BACKSPACE)].
  - rewrite bind_modify. destruct (_ <=? _); simpl; [by eexists _, _|]. eexists _, (vram s). by rewrite set_vram_same.
  - destruct (_ <? _); simpl; eexists _, (vram s); rewrite set_vram_same; [done|].
    instantiate (1 := console_pos s). by destruct s.
  - destruct (_ <=? _); simpl; by eexists _, _.
Qed.

(** What [consputc] sends on the serial line. *)
Definition echo (s : cstate) (c : Z) : list Z :=
  if uart s =? 0 then [] else if c =? BACKSPACE then [8; 32; 8] else [u8 c].

Lemma consputc_run c s : panicked s = false ->
  exists pos m, consputc g font_bin c s = Ret tt (set_vram m (set_pos pos (set_serial (serial s ++ echo s c) s))).
Proof.
  intros Hp. destruct (graphic_putc_total c (set_serial (serial s ++ echo s c) s)) as (pos&m&E).
  exists pos, m. rewrite <- E. unfold consputc. rewrite bind_gets, Hp.
  assert (Hs : (if c =? BACKSPACE then uartputc 8 ;; uartputc 32 ;; uartputc 8 else uartputc c) s
    = Ret tt (set_serial (serial s ++ echo s c) s)).
  { unfold echo, uartputc. destruct (c =? BACKSPACE); unfold bind, gets, when, modify;
      destruct (uart s =? 0) eqn:U; do 3 (simpl; rewrite ?U); simpl;
      rewrite <- ?app_assoc, ?app_nil_r; try done; destruct s; reflexivity. }
  by rewrite (bind_run _ _ _ _ _ Hs).
Qed.

(** A string without the backspace code reaches the serial line as it is. *)
Lemma puts_run l s : panicked s = false -> uart s <> 0 -> Forall is_u8 l ->
  exists s', mfor l (consputc g font_bin) s = Ret tt s' /\ serial s' = serial s ++ l /\ input s' = input s.
Proof.
  intros Hp Hu Hl. revert s Hp Hu. induction Hl as [|c l Hc Hl IH]; intros s Hp Hu; simpl.
  - exists s. by rewrite app_nil_r.
  - destruct (consputc_run c s Hp) as (pos&m&E). rewrite (bind_run _ _ _ _ _ E).
    destruct (IH (set_vram m (set_pos pos (set_serial (serial s ++ echo s c) s))) Hp Hu) as (s'&E'&Hs&Hi).
    exists s'. split_and!; [done| |done]. rewrite Hs. simpl. rewrite <- app_assoc. f_equal.
    unfold echo. rewrite (proj2 (Z.eqb_neq _ _) Hu). unfold is_u8, BACKSPACE in *. zcases; [lia|].
    by rewrite u8_small.
Qed.
End output.

(** Reading a number back: the value of a digit, of a digit string with the
    most significant digit first, and of a string with an optional sign. *)
Definition digit_val (d : Z) : Z := if d <=? 57 then d - 48 else d - 87.
Definition read_digits (base : Z) (l : list Z) : Z := fold_left (fun a d => a * base + digit_val d) l 0.
Definition read_number (base : Z) (l : list Z) : Z :=
  match l with
  | 45 :: l' => - read_digits base l'
  | _ => read_digits base l
  end.

Lemma digit_ok d : 0 <= d < 16 -> is_u8 (digit d) /\ digit d <> 45 /\ digit_val (digit d) = d.
Proof.
  intros Hd. assert (H : forallb (fun d => (0 <=? digit d) && (digit d <? 256) && negb (digit d =? 45) && (digit_val (digit d) =? d)) (seqZ 0 16) = true)
    by (vm_compute; reflexivity).
  rewrite forallb_forall in H. specialize (H d). rewrite <- list_elem_of_In, elem_of_seqZ in H.
  specialize (H ltac:(lia)). unfold is_u8. zcases; simpl in H; try discriminate; lia.
Qed.

Section digits.
Context (base : Z) (Hbase : 2 <= base <= 16).

Lemma digits_loop_val fuel x : 0 <= x < base ^ Z.of_nat fuel ->
  foldr (fun d a => a * base + digit_val d) 0 (digits_loop fuel x base) = x.
Proof.
  revert x. induction fuel as [|fuel IH]; intros x Hx; simpl; [change (base ^ Z.of_nat 0) with 1 in Hx; lia|].
  rewrite Nat2Z.inj_succ, Z.pow_succ_r in Hx by lia.
  pose proof (Z.mod_pos_bound x base ltac:(lia)). pose proof (Z.div_mod x base ltac:(lia)).
  destruct (digit_ok (x mod base)) as (_&_&->); [lia|].
  destruct (Z.eqb_spec (x / base) 0) as [E|E]; simpl; [lia|].
  rewrite IH; [lia|]. split; [apply Z.div_pos; lia|]. apply Z.div_lt_upper_bound; lia.
Qed.

Lemma digits_loop_digits fuel x : 0 <= x -> Forall (fun d => is_u8 d /\ d <> 45) (digits_loop fuel x base).
Proof.
  revert x. induction fuel as [|fuel IH]; intros x Hx; simpl; [constructor|]. constructor.
  - destruct (digit_ok (x mod base)) as (?&?&_); [pose proof (Z.mod_pos_bound x base); lia|done].
  - destruct (_ =? 0); [constructor|]. apply IH. apply Z.div_pos; lia.
Qed.

Lemma digits_loop_length fuel k x : 0 <= x < base ^ Z.of_nat k -> (1 <= k)%nat -> (length (digits_loop fuel x base) <= k)%nat.
Proof.
  revert k x. induction fuel as [|fuel IH]; intros k x Hx Hk; simpl; [lia|].
  destruct (Z.eqb_spec (x / base) 0) as [E|E]; simpl; [lia|].
  destruct k as [|[|k]]; [lia| |].
  - change (Z.of_nat 1) with 1 in Hx. rewrite Z.pow_1_r in Hx. rewrite Z.div_small in E by lia. done.
  - rewrite Nat2Z.inj_succ, Z.pow_succ_r in Hx by lia. apply le_n_S, (IH (S k)); [|lia].
    split; [apply Z.div_pos; lia|]. apply Z.div_lt_upper_bound; lia.
Qed.
End digits.

Lemma pow_covers base : base = 10 \/ base = 16 -> 4294967296 <= base ^ Z.of_nat 10.
Proof. intros [->| ->]; vm_compute; discriminate. Qed.

Lemma read_unsigned base l : (forall d l', l = d :: l' -> d <> 45) -> read_number base l = read_digits base l.
Proof.
  intros H. destruct l as [|d l]; [done|]. specialize (H d l eq_refl).
  destruct d as [|p|p]; try done. repeat (destruct p as [p|p|]; try done).
Qed.

(** What [printint] prints. *)
Lemma printint_chars xx base sign : base = 10 \/ base = 16 -> is_i32 xx ->
  let l := rev (printint_buf xx base sign) in
  Forall is_u8 l /\ (length l <= 11)%nat /\ read_number base l = if sign then xx else u32 xx.
Proof.
  intros Hb Hx. unfold printint_buf. set (neg := sign && (xx <? 0)).
  set (x := if neg then u32 (- xx) else u32 xx).
  assert (Hx0 : is_u32 x) by (unfold x; destruct neg; apply u32_range).
  assert (Hx1 : 0 <= x < base ^ Z.of_nat 10) by (pose proof (pow_covers base Hb); unfold is_u32 in Hx0; lia).
  assert (Hx2 : 0 <= x < base ^ Z.of_nat 32).
  { split; [lia|]. eapply Z.lt_le_trans; [apply Hx1|]. apply Z.pow_le_mono_r; lia. }
  pose proof (digits_loop_val base ltac:(lia) 32 x Hx2) as Hv.
  pose proof (digits_loop_digits base ltac:(lia) 32 x ltac:(lia)) as Hd.
  pose proof (digits_loop_length base ltac:(lia) 32 10 x Hx1 ltac:(lia)) as Hl.
  set (ds := digits_loop 32 x base) in *. clearbody ds.
  assert (Hrev : read_digits base (rev ds) = x).
  { rewrite <- (rev_involutive ds), fold_left_rev_right in Hv. exact Hv. }
  assert (Hu : Forall is_u8 (rev ds)) by (apply Forall_rev; eapply Forall_impl; [exact Hd|]; by intros ? []).
  assert (Hhd : forall d l, rev ds = d :: l -> d <> 45).
  { intros d l E. apply Forall_rev in Hd. rewrite E in Hd.
    by apply Forall_cons in Hd as [[_ ?] _]. }
  rewrite rev_app_distr. destruct neg eqn:En.
  - apply andb_true_iff in En as [-> En]. apply Z.ltb_lt in En. simpl.
    split_and!; [constructor; [word|done]|rewrite length_rev; lia|].
    rewrite Hrev. unfold x, is_i32 in *. rewrite u32_small by (unfold is_u32; lia). lia.
  - simpl. split_and!; [done|rewrite length_rev; lia|].
    assert (Hr : read_number base (rev ds) = x).
    { rewrite read_unsigned; [done|]. intros d l E. exact (Hhd d l E). }
    rewrite Hr. unfold x. destruct sign; [|done]. simpl in En. apply Z.ltb_ge in En.
    apply u32_small. unfold is_i32, is_u32 in *. lia.
Qed.

(** A number printed by [printint] reads back: on a machine with a serial
    port the characters sent are a sign and digits whose value is the number,
    as a signed number for %d and as a 32-bit word for %x and %p, also for the
    least integer, whose negation wraps around; the 16-byte buffer is never
    exceeded. *)
Theorem printint_reads_back (g : gpu) (font_bin : Z -> Z -> Z) (s : cstate) (xx base : Z) (sign : bool) :
  panicked s = false -> uart s <> 0 -> base = 10 \/ base = 16 -> is_i32 xx ->
  exists l s', printint g font_bin xx base sign s = Ret tt s' /\ serial s' = serial s ++ l /\
    (length (printint_buf xx base sign) <= 16)%nat /\ read_number base l = if sign then xx else u32 xx.
Proof.
  intros Hp Hu Hb Hx. destruct (printint_chars xx base sign Hb Hx) as (H8&Hl&Hr).
  destruct (puts_run g font_bin _ s Hp Hu H8) as (s'&E&Hs&_). rewrite length_rev in Hl.
  exists (rev (printint_buf xx base sign)), s'. split_and!; [done|done|lia|done].
Qed.
Lemma printint_reads_back_witness :
  exists l s', printint demo_gpu (fun _ _ => 0) (-2147483648) 10 true demo_console = Ret tt s' /\ serial s' = [] ++ l /\
    (length (printint_buf (-2147483648) 10 true) <= 16)%nat /\ read_number 10 l = -2147483648.
Proof.
  assert (Hu : uart demo_console <> 0) by discriminate.
  assert (Hx : is_i32 (-2147483648)) by (unfold is_i32; lia).
  exact (printint_reads_back demo_gpu (fun _ _ => 0) demo_console (-2147483648) 10 true eq_refl Hu (or_introl eq_refl) Hx).
Defined.

(** ** The line editor *)

(** What the ring stands for: characters readers may take, and the line being
    edited. *)
Record editor := Editor { ready : list Z; line : list Z }.

(** The effect of a key. *)
Definition key (a : editor) (c : Z) : editor :=
  if c =? C 80 then a
  else if c =? C 85 then Editor (ready a) []
  else if (c =? C 72) || (c =? 0x7f) then Editor (ready a) (removelast (line a))
  else if negb (c =? 0) && (Z.of_nat (length (ready a ++ line a)) <? INPUT_BUF) then
    let c := if c =? 13 then 10 else c in
    let l := line a ++ [c] in
    if (c =? 10) || (c =? C 68) || (Z.of_nat (length (ready a ++ l)) =? INPUT_BUF) then Editor (ready a ++ l) []
    else Editor (ready a) l
  else a.

(** What [read] of [n] more bytes takes from the characters that are ready:
    up to a newline; an end-of-file mark ends the read and stays for the next
    one when bytes were read before it. *)
Fixpoint take_line (killed : bool) (n : nat) (target : Z) (got l : list Z) : cread * list Z :=
  match n with
  | O => (CDone got, l)
  | S n' =>
      match l with
      | [] => (if killed then CFail else CSleep got, [])
      | c :: l' =>
          if c =? C 68 then (CDone got, if Z.of_nat n <? target then l else l')
          else if c =? 10 then (CDone (got ++ [c]), l')
          else take_line killed n' target (got ++ [c]) l'
      end
  end.

Record ring_holds (b : inbuf) (a : editor) : Prop := {
  rg_len : length (i_buf b) = 128%nat;
  rg_r : is_u32 (i_r b);
  rg_w : i_w b = i_r b +u Z.of_nat (length (ready a));
  rg_e : i_e b = i_r b +u Z.of_nat (length (ready a ++ line a));
  rg_room : Z.of_nat (length (ready a ++ line a)) <= INPUT_BUF;
  rg_bytes : forall k, 0 <= k < Z.of_nat (length (ready a ++ line a)) ->
    at_ring b (i_r b +u k) = nthZ 0 (ready a ++ line a) k
}.
(** The line being edited holds neither a newline nor an end-of-file mark. *)
Definition unfinished (a : editor) : Prop := Forall (fun c => c <> 10 /\ c <> C 68) (line a).

Lemma u32_mod128 z : u32 z mod 128 = z mod 128.
Proof. word. Qed.

Lemma at_ring_u32 b z : at_ring b (u32 z) = at_ring b z.
Proof. unfold at_ring, INPUT_BUF. by rewrite u32_mod128. Qed.

Lemma nthZ_app_l {A} (d : A) l1 l2 i : i < Z.of_nat (length l1) -> nthZ d (l1 ++ l2) i = nthZ d l1 i.
Proof. intros. unfold nthZ. zcases; [done|]. apply app_nth1. lia. Qed.
Lemma nthZ_app_r {A} (d : A) l1 l2 i : Z.of_nat (length l1) <= i ->
  nthZ d (l1 ++ l2) i = nthZ d l2 (i - Z.of_nat (length l1)).
Proof. intros. unfold nthZ. zcases; try lia. rewrite app_nth2 by lia. f_equal. lia. Qed.

(** Offsets from [r] below 2^32 are equal when the indices are. *)
Lemma off_inj r a b : 0 <= a < 4294967296 -> 0 <= b < 4294967296 -> r +u a = r +u b -> a = b.
Proof. intros. word. Qed.

Lemma ring_push b a c : ring_holds b a -> Z.of_nat (length (ready a ++ line a)) < INPUT_BUF -> is_u8 c ->
  ring_holds (Inbuf (updZ (i_buf b) (i_e b mod INPUT_BUF) (u8 c)) (i_r b) (i_w b) (i_e b +u 1))
    (Editor (ready a) (line a ++ [c])).
Proof.
  intros [Hl Hr Hw He Hm Hb] Hroom Hc. unfold INPUT_BUF in *.
  split; simpl; rewrite ?app_assoc, ?length_app; simpl.
  - by rewrite length_updZ.
  - done.
  - done.
  - rewrite He, u32_add_l, length_app. f_equal. lia.
  - rewrite length_app in Hroom. unfold INPUT_BUF. lia.
  - intros k Hk. rewrite length_app in He, Hroom, Hb.
    unfold at_ring, INPUT_BUF in *. simpl. rewrite He, !u32_mod128.
    set (n := Z.of_nat (length (ready a) + length (line a))) in *.
    destruct (decide (k = n)) as [->|Hn].
    + rewrite nthZ_updZ_eq by (rewrite Hl; apply Z.mod_pos_bound; lia).
      rewrite nthZ_app_r by (rewrite length_app; lia). rewrite length_app. fold n. rewrite Z.sub_diag.
      by apply u8_small.
    + rewrite nthZ_updZ_ne by (clear -Hk Hn Hroom Hr; unfold is_u32 in Hr; word).
      rewrite nthZ_app_l by (rewrite length_app; lia). rewrite <- Hb by lia. by rewrite u32_mod128.
Qed.

Lemma ring_commit b a : ring_holds b a ->
  ring_holds (Inbuf (i_buf b) (i_r b) (i_e b) (i_e b)) (Editor (ready a ++ line a) []).
Proof. intros [Hl Hr Hw He Hm Hb]. split; simpl; rewrite ?app_nil_r; done. Qed.

Lemma ring_erase b rd l c : ring_holds b (Editor rd (l ++ [c])) ->
  at_ring b (i_e b -u 1) = c /\
  ring_holds (Inbuf (i_buf b) (i_r b) (i_w b) (i_e b -u 1)) (Editor rd l).
Proof.
  intros [Hl Hr Hw He Hm Hb]. simpl in *. rewrite app_assoc in *. rewrite length_app in *. simpl in *.
  assert (E1 : i_e b -u 1 = i_r b +u Z.of_nat (length (rd ++ l))).
  { rewrite He, u32_sub_l. f_equal. lia. }
  split.
  - rewrite E1, Hb by lia. rewrite nthZ_app_r by lia. by rewrite Z.sub_diag.
  - split; simpl; try done; [unfold INPUT_BUF in *; lia|]. intros k Hk. rewrite <- (nthZ_app_l 0 (rd ++ l) [c]) by lia. apply Hb. lia.
Qed.

Lemma ring_empty_line b a : ring_holds b a -> (i_e b =? i_w b) = bool_decide (line a = []).
Proof.
  intros [Hl Hr Hw He Hm Hb]. unfold INPUT_BUF in *. rewrite length_app in *. rewrite Hw, He.
  case_bool_decide as E.
  - rewrite E. simpl. rewrite Nat.add_0_r. apply Z.eqb_refl.
  - apply Z.eqb_neq. intros H. apply off_inj in H; [|lia..]. destruct (line a); [done|simpl in H; lia].
Qed.

Lemma ring_length b a : ring_holds b a -> i_e b -u i_r b = Z.of_nat (length (ready a ++ line a)).
Proof. intros [Hl Hr Hw He Hm Hb]. unfold INPUT_BUF in *. rewrite He, u32_sub_l. rewrite u32_small by (unfold is_u32; lia). lia. Qed.

Lemma ring_pop b rd l c : ring_holds b (Editor (c :: rd) l) ->
  at_ring b (i_r b) = c /\
  ring_holds (Inbuf (i_buf b) (i_r b +u 1) (i_w b) (i_e b)) (Editor rd l).
Proof.
  intros [Hl Hr Hw He Hm Hb]. simpl in *. split.
  - specialize (Hb 0 ltac:(lia)). by rewrite Z.add_0_r, at_ring_u32 in Hb.
  - split; simpl; [done|apply u32_range|..].
    + rewrite Hw, u32_add_l. f_equal. lia.
    + rewrite He, u32_add_l. f_equal. lia.
    + lia.
    + intros k Hk. rewrite u32_add_l. specialize (Hb (k + 1) ltac:(lia)).
      rewrite at_ring_u32 in *. rewrite <- Z.add_assoc, (Z.add_comm 1 k). unfold at_ring in *. simpl. rewrite Hb.
      unfold nthZ. zcases; try lia. replace (Z.to_nat (k + 1)) with (S (Z.to_nat k)) by lia. done.
Qed.

Lemma ring_empty_ready b a : ring_holds b a -> (i_r b =? i_w b) = bool_decide (ready a = []).
Proof.
  intros [Hl Hr Hw He Hm Hb]. unfold INPUT_BUF in *. rewrite length_app in *. rewrite Hw.
  case_bool_decide as E.
  - rewrite E. simpl. apply Z.eqb_eq. rewrite Z.add_0_r. by rewrite u32_small.
  - apply Z.eqb_neq. intros H. rewrite <- (u32_small _ Hr), <- (Z.add_0_r (i_r b)) in H at 1.
    apply off_inj in H; [|lia..]. destruct (ready a); [done|simpl in H; lia].
Qed.

Lemma ring_line_length b a : ring_holds b a -> i_e b -u i_w b = Z.of_nat (length (line a)).
Proof.
  intros [Hl Hr Hw He Hm Hb]. unfold INPUT_BUF in *. rewrite length_app in *. rewrite He, Hw, u32_sub_l, u32_sub_r.
  rewrite u32_small by (unfold is_u32; lia). lia.
Qed.

Section keys.
Context (g : gpu) (font_bin : Z -> Z -> Z).

Lemma erase_one_run s rd l c : panicked s = false -> ring_holds (input s) (Editor rd (l ++ [c])) ->
  exists s', erase_one g font_bin s = Ret tt s' /\ panicked s' = false /\ ring_holds (input s') (Editor rd l).
Proof.
  intros Hp Hr. unfold erase_one. rewrite bind_modify.
  match goal with |- context [consputc _ _ _ ?x] => destruct (consputc_run g font_bin BACKSPACE x Hp) as (pos&m&E) end.
  eexists. split; [exact E|]. split; [done|]. by apply (ring_erase _ rd l c).
Qed.

Lemma kill_line_run l fuel s rd : (length l <= fuel)%nat -> panicked s = false ->
  ring_holds (input s) (Editor rd l) -> unfinished (Editor rd l) ->
  exists s', kill_line g font_bin fuel s = Ret tt s' /\ panicked s' = false /\ ring_holds (input s') (Editor rd []).
Proof.
  revert fuel s. induction l as [|c l IH] using rev_ind; intros fuel s Hf Hp Hr Hu.
  - exists s. split; [|done]. destruct fuel; simpl; rewrite bind_gets, (ring_empty_line _ _ Hr); done.
  - rewrite length_app in Hf. simpl in Hf. destruct fuel as [|fuel]; [lia|]. simpl.
    rewrite bind_gets, (ring_empty_line _ _ Hr). destruct (ring_erase _ _ _ _ Hr) as [Hc _].
    rewrite bool_decide_false by (simpl; by destruct l). apply Forall_app in Hu as [Hu Hc'].
    apply Forall_cons in Hc' as [[Hc' _] _]. rewrite Hc. apply Z.eqb_neq in Hc'. rewrite Hc'. simpl.
    destruct (erase_one_run s rd l c Hp Hr) as (s1&E1&Hp1&Hr1). rewrite (bind_run _ _ _ _ _ E1).
    apply IH; [lia|done..].
Qed.

Lemma consoleintr_char_run s a c : panicked s = false -> ring_holds (input s) a -> unfinished a -> is_u8 c ->
  exists s', consoleintr_char g font_bin c s = Ret (c =? C 80) s' /\
    panicked s' = false /\ ring_holds (input s') (key a c) /\ unfinished (key a c).
Proof.
  intros Hp Hr Hu Hc. unfold consoleintr_char, key.
  destruct (c =? C 80); [by exists s|]. destruct (c =? C 85).
  { rewrite bind_gets. destruct a as [rd l]. destruct (kill_line_run l (Z.to_nat (i_e (input s) -u i_w (input s))) s rd)
      as (s'&E&Hp'&Hr'); [rewrite (ring_line_length _ _ Hr); simpl; lia|done..|].
    rewrite (bind_run _ _ _ _ _ E). exists s'. split_and!; [done..|]. constructor. }
  destruct ((c =? C 72) || (c =? 127)).
  { rewrite bind_gets, (ring_empty_line _ _ Hr). destruct a as [rd l]. simpl in *.
    destruct l as [|d l _] using rev_ind.
    - rewrite bool_decide_true by done. exists s. split_and!; done.
    - rewrite bool_decide_false by (by destruct l). simpl. destruct (erase_one_run s rd l d Hp Hr) as (s'&E&Hp'&Hr').
      rewrite (bind_run _ _ _ _ _ E). exists s'. rewrite removelast_last. split_and!; [done..|].
      by apply Forall_app in Hu as [Hu _]. }
  rewrite bind_gets, (ring_length _ _ Hr).
  destruct (negb (c =? 0) && (Z.of_nat (length (ready a ++ line a)) <? INPUT_BUF)) eqn:Eroom; [|by exists s].
  apply andb_true_iff in Eroom as [_ Eroom]. apply Z.ltb_lt in Eroom.
  set (c' := if c =? 13 then 10 else c). assert (Hc' : is_u8 c') by (unfold c'; destruct (c =? 13); [word|done]).
  pose proof (ring_push _ _ c' Hr Eroom Hc') as Hpush.
  set (b' := Inbuf _ _ _ _) in *. clearbody c'. cbv zeta. rewrite bind_modify.
  destruct (consputc_run g font_bin c' (set_input b' s) Hp) as (pos&m&E). rewrite (bind_run _ _ _ _ _ E).
  assert (Hfull : (i_e b' =? i_r b' +u INPUT_BUF) = (Z.of_nat (length (ready a ++ line a ++ [c'])) =? INPUT_BUF)).
  { pose proof (rg_e _ _ Hpush) as He. simpl ready in He. simpl line in He. rewrite He.
    pose proof (rg_room _ _ Hpush) as Hm. simpl ready in Hm. simpl line in Hm. unfold INPUT_BUF in *.
    apply eq_bool_prop_intro. rewrite !Is_true_true, !Z.eqb_eq. split; [intros H; apply off_inj in H; lia|by intros ->]. }
  rewrite Hfull. destruct ((c' =? 10) || (c' =? C 68) || _) eqn:Ecommit.
  - eexists. split; [reflexivity|]. split; [done|]. split; [|constructor].
    exact (ring_commit _ _ Hpush).
  - eexists. split; [reflexivity|]. split; [done|]. split; [exact Hpush|].
    apply Forall_app. split; [exact Hu|]. constructor; [|constructor].
    apply orb_false_iff in Ecommit as [Ecommit _]. apply orb_false_iff in Ecommit as [E1 E2].
    apply Z.eqb_neq in E1, E2. done.
Qed.

Lemma consoleintr_loop_run cs s a d :
  panicked s = false -> ring_holds (input s) a -> unfinished a -> Forall is_u8 cs ->
  exists s', consoleintr_loop g font_bin cs d s = Ret (d || existsb (Z.eqb (C 80)) cs) s' /\
    panicked s' = false /\ ring_holds (input s') (fold_left key cs a) /\ unfinished (fold_left key cs a).
Proof.
  intros Hp Hr Hu Hcs. revert s a d Hp Hr Hu. induction Hcs as [|c cs Hc Hcs IH]; intros s a d Hp Hr Hu.
  - exists s. simpl. rewrite orb_false_r. done.
  - destruct (consoleintr_char_run s a c Hp Hr Hu Hc) as (s1&E1&Hp1&Hr1&Hu1). cbn [consoleintr_loop existsb fold_left].
    rewrite (bind_run _ _ _ _ _ E1).
    destruct (IH s1 _ (d || (c =? C 80)) Hp1 Hr1 Hu1) as (s2&E2&H2). exists s2. split; [|exact H2].
    rewrite E2. f_equal. by rewrite <- orb_assoc, (Z.eqb_sym c).
Qed.

(** C27. The input ring is a line editor: from any keys, [consoleintr] returns
    with the ring standing for what the line editor makes of them, over any
    wrap-around of the 32-bit indices.  Erasing and killing never touch a
    finished line, a newline, an end-of-file mark or a full ring finishes the
    line, and keys beyond the 128 places are dropped. *)
Theorem consoleintr_edits (s : cstate) (a : editor) (cs : list Z) :
  panicked s = false -> ring_holds (input s) a -> unfinished a -> Forall is_u8 cs ->
  exists s', consoleintr g font_bin cs s = Ret (existsb (Z.eqb (C 80)) cs) s' /\
    panicked s' = false /\ ring_holds (input s') (fold_left key cs a) /\ unfinished (fold_left key cs a).
Proof. intros Hp Hr Hu Hcs. exact (consoleintr_loop_run cs s a false Hp Hr Hu Hcs). Qed.
End keys.

(** C28. [consoleread] takes what the line editor has finished: a segment of
    it returns or sleeps exactly as [take_line] says and leaves in the ring
    what that leaves; the line being edited stays. *)
Theorem consoleread_takes (s : cstate) (a : editor) (killed : bool) (n : Z) :
  ring_holds (input s) a ->
  exists s', consoleread killed n s = Ret (fst (take_line killed (Z.to_nat n) (u32 n) [] (ready a))) s' /\
    ring_holds (input s') (Editor (snd (take_line killed (Z.to_nat n) (u32 n) [] (ready a))) (line a)).
Proof.
  intros Hr. unfold consoleread. generalize (Z.to_nat n) (u32 n) (@nil Z). intros k. destruct a as [rd l]. simpl.
  revert s rd Hr. induction k as [|k IH]; intros s rd Hr t got; [by exists s|]. cbn [consoleread_loop take_line].
  rewrite bind_gets, (ring_empty_ready _ _ Hr). simpl ready. destruct rd as [|c rd].
  { rewrite bool_decide_true by done. exists s. split; [by destruct killed|done]. }
  rewrite bool_decide_false by done. destruct (ring_pop _ _ _ _ Hr) as [-> Hr'].
  destruct (c =? C 68); [destruct (_ <? t); [by exists s|]|destruct (c =? 10)].
  1,2: eexists; split; [reflexivity|exact Hr'].
  rewrite bind_modify. by apply IH.
Qed.

(** Typing "ab", erasing the b, "c", then Return, with the indices about to
    wrap around: the reader gets "ac". *)
Definition demo_ring : inbuf := Inbuf (replicate 128 0) 4294967295 4294967295 4294967295.
Definition demo_typing : cstate := set_input demo_ring demo_console.
Lemma demo_ring_holds : ring_holds demo_ring (Editor [] []).
Proof. split; simpl; try reflexivity; try (unfold is_u32, INPUT_BUF; lia). Qed.

Lemma consoleintr_edits_witness :
  exists s', consoleintr demo_gpu (fun _ _ => 0) [97; 98; 8; 99; 13; 120] demo_typing = Ret false s' /\
    panicked s' = false /\ ring_holds (input s') (Editor [97; 99; 10] [120]) /\ unfinished (Editor [97; 99; 10] [120]).
Proof.
  assert (Hu : unfinished (Editor [] [])) by constructor.
  assert (Hc : Forall is_u8 [97; 98; 8; 99; 13; 120]) by (repeat constructor; word).
  exact (consoleintr_edits demo_gpu (fun _ _ => 0) demo_typing (Editor [] []) [97; 98; 8; 99; 13; 120]
    eq_refl demo_ring_holds Hu Hc).
Defined.

Definition demo_line : inbuf := Inbuf (updZ (updZ (replicate 128 0) 127 97) 0 10) 4294967295 1 1.
Lemma demo_line_holds : ring_holds demo_line (Editor [97; 10] []).
Proof.
  split; simpl; try reflexivity; try (unfold is_u32, INPUT_BUF; lia).
  intros k Hk. assert (k = 0 \/ k = 1) as [->| ->] by lia; vm_compute; reflexivity.
Qed.
Lemma consoleread_takes_witness :
  exists s', consoleread false 100 (set_input demo_line demo_console) = Ret (CDone [97; 10]) s' /\
    ring_holds (input s') (Editor [] []).
Proof. exact (consoleread_takes (set_input demo_line demo_console) (Editor [97; 10] []) false 100 demo_line_holds). Defined.
