(* ===== verification/Grep.v ===== *)
(** * grep.c: the regular expressions of grep

    C strings are their bytes before the NUL.  [match_] is [match]; the
    reference reads an expression as a sequence of items and says which texts
    it denotes. *)
From stdpp Require Import base numbers list gmap strings.
From S2P Require Import Prelude.
Open Scope Z_scope.

Definition CARET : Z := 94.
Definition DOT : Z := 46.
Definition STAR : Z := 42.
Definition DOLLAR : Z := 36.

(** [*text == c || c == '.'] *)
Definition char_ok (c t : Z) : bool := (t =? c) || (c =? DOT).

(** [matchstar(c, re, text)], with [matchhere(re, _)] as an argument *)
Fixpoint matchstar_with (here : list Z -> bool) (c : Z) (text : list Z) : bool :=
  here text ||
  match text with
  | [] => false
  | t :: text' => if char_ok c t then matchstar_with here c text' else false
  end.

(** [matchhere(re, text)] *)
Fixpoint matchhere (re text : list Z) : bool :=
  match re with
  | [] => true
  | c :: re' =>
      match re' with
      | s :: re'' =>
          if s =? STAR then matchstar_with (matchhere re'') c text
          else match text with
               | t :: text' => if (c =? DOT) || (c =? t) then matchhere re' text' else false
               | [] => false
               end
      | [] =>
          if c =? DOLLAR then (match text with [] => true | _ => false end)
          else match text with
               | t :: text' => if (c =? DOT) || (c =? t) then matchhere re' text' else false
               | [] => false
               end
      end
  end.
Definition matchstar (c : Z) (re text : list Z) : bool := matchstar_with (matchhere re) c text.

(** [do { if(matchhere(re, text)) return 1; } while( *text++)] *)
Fixpoint match_loop (re text : list Z) : bool :=
  matchhere re text || match text with [] => false | _ :: text' => match_loop re text' end.
(** [match(re, text)] *)
Definition match_ (re text : list Z) : bool :=
  match re with
  | c :: re' => if c =? CARET then matchhere re' text else match_loop re text
  | [] => match_loop re text
  end.

(** ** Reference *)

(** One character, or any number of them. *)
Inductive item := One (c : Z) | Many (c : Z).

(** The items of an expression, and whether a final [$] anchors it. *)
Fixpoint parse (re : list Z) : list item * bool :=
  match re with
  | [] => ([], false)
  | c :: re' =>
      match re' with
      | s :: re'' =>
          if s =? STAR then let (l, a) := parse re'' in (Many c :: l, a)
          else let (l, a) := parse re' in (One c :: l, a)
      | [] => if c =? DOLLAR then ([], true) else ([One c], false)
      end
  end.

(** The text an item stands for, and a sequence of them. *)
Definition item_denotes (i : item) (t : list Z) : Prop :=
  match i with
  | One c => exists x, t = [x] /\ char_ok c x = true
  | Many c => Forall (fun x => char_ok c x = true) t
  end.
Fixpoint denotes (l : list item) (t : list Z) : Prop :=
  match l with
  | [] => t = []
  | i :: l' => exists t1 t2, t = t1 ++ t2 /\ item_denotes i t1 /\ denotes l' t2
  end.

(** [text] has the expression at its start. *)
Definition matches_here (re text : list Z) : Prop :=
  exists mid post, text = mid ++ post /\ denotes (parse re).1 mid /\ ((parse re).2 = true -> post = []).
(** [text] has the expression somewhere, at its start behind a [^]. *)
Definition matches (re text : list Z) : Prop :=
  match re with
  | c :: re' => if c =? CARET then matches_here re' text else exists pre mid, text = pre ++ mid /\ matches_here re mid
  | [] => True
  end.

(** ** The matcher is the reference *)

Lemma matches_one c re t text : matches_here re text -> char_ok c t = true ->
  exists mid post, t :: text = mid ++ post /\ denotes (One c :: (parse re).1) mid /\ ((parse re).2 = true -> post = []).
Proof.
  intros (mid&post&->&Hd&Ha) Hc. exists (t :: mid), post. split_and!; [done| |done].
  exists [t], mid. split_and!; [done| |done]. by exists t.
Qed.

Lemma matchstar_spec (here : list Z -> bool) (P : list Z -> Prop) c text :
  (forall t, here t = true <-> P t) ->
  matchstar_with here c text = true <->
  exists reps rest, text = reps ++ rest /\ Forall (fun x => char_ok c x = true) reps /\ P rest.
Proof.
  intros HP. induction text as [|t text IH]; simpl; rewrite orb_true_iff, HP.
  - split; [intros [H|H]; [|done]; by exists [], []|]. intros (reps&rest&E&_&H).
    symmetry in E. apply app_eq_nil in E as [-> ->]. by left.
  - split.
    + intros [H|H]; [by exists [], (t :: text)|]. destruct (char_ok c t) eqn:Ec; [|done].
      apply IH in H as (reps&rest&->&Hr&H). exists (t :: reps), rest. split_and!; [done| |done]. by constructor.
    + intros (reps&rest&E&Hr&H). destruct reps as [|r reps]; simpl in E; [subst; by left|].
      injection E as <- ->. apply Forall_cons in Hr as [Hc Hr]. right. rewrite Hc. apply IH. eauto.
Qed.

Lemma char_ok_alt c t : (c =? DOT) || (c =? t) = char_ok c t.
Proof. unfold char_ok. rewrite (Z.eqb_sym t c). apply orb_comm. Qed.

(** One ordinary character of the expression. *)
Lemma match_one c re text :
  parse (c :: re) = (One c :: (parse re).1, (parse re).2) ->
  (forall t, matchhere re t = true <-> matches_here re t) ->
  (match text with
   | t :: text' => if (c =? DOT) || (c =? t) then matchhere re text' else false
   | [] => false
   end = true) <-> matches_here (c :: re) text.
Proof.
  intros Hp HP. unfold matches_here at 1. rewrite Hp. simpl. destruct text as [|t text].
  - split; [done|]. intros (mid&post&E&(t1&t2&->&(x&->&_)&_)&_). done.
  - rewrite char_ok_alt. split.
    + destruct (char_ok c t) eqn:Ec; [|done]. intros H. apply HP in H. by apply matches_one.
    + intros (mid&post&E&(t1&t2&->&(x&->&Hx)&Hd)&Ha). simpl in E. injection E as <- ->. rewrite Hx.
      apply HP. by exists t2, post.
Qed.

Lemma matchhere_spec_n n re : (length re <= n)%nat -> forall text, matchhere re text = true <-> matches_here re text.
Proof.
  revert re. induction n as [|n IH]; intros re Hn text.
  { destruct re; [|simpl in Hn; lia]. split; [intros _; by exists [], text|done]. }
  destruct re as [|c [|s re]].
  - split; [intros _; by exists [], text|done].
  - cbn [matchhere]. destruct (c =? DOLLAR) eqn:Ed.
    + unfold matches_here. simpl. rewrite Ed. simpl. split.
      * destruct text; [|done]. by exists [], [].
      * intros (mid&post&->&->&H). by rewrite H.
    + apply (match_one c []); [simpl; by rewrite Ed|]. intros t. apply IH. simpl. lia.
  - cbn [matchhere]. destruct (s =? STAR) eqn:Es.
    + rewrite (matchstar_spec _ (matches_here re)) by (intros; apply IH; simpl in *; lia).
      unfold matches_here at 2. simpl. rewrite Es. destruct (parse re) as [l a] eqn:Ep. simpl.
      unfold matches_here. rewrite Ep. simpl. split.
      * intros (reps&rest&->&Hr&(mid&post&->&Hd&Ha)). exists (reps ++ mid), post. rewrite app_assoc.
        split_and!; [done| |done]. by exists reps, mid.
      * intros (mid&post&->&(t1&t2&->&Hr&Hd)&Ha). exists t1, (t2 ++ post). rewrite app_assoc.
        split_and!; [done..|]. by exists t2, post.
    + apply (match_one c (s :: re)); [|intros t; apply IH; simpl in *; lia].
      change (parse (c :: s :: re)) with (if s =? STAR then let (l, a) := parse re in (Many c :: l, a)
        else let (l, a) := parse (s :: re) in (One c :: l, a)). rewrite Es. by destruct (parse (s :: re)).
Qed.
Lemma matchhere_spec re text : matchhere re text = true <-> matches_here re text.
Proof. by apply (matchhere_spec_n (length re)). Qed.

(** C31. [match] decides the expressions: it returns 1 exactly when the text
    has, at its start behind a ^ and anywhere otherwise, a part made of one
    character for each character or dot and any number for each starred one,
    and that ends the text when the expression ends with a $. *)
Theorem match_decides (re text : list Z) : match_ re text = true <-> matches re text.
Proof.
  assert (Hl : forall re text, match_loop re text = true <-> exists pre mid, text = pre ++ mid /\ matches_here re mid).
  { intros r. induction text0 as [|t tx IH]; simpl; rewrite orb_true_iff, matchhere_spec.
    - split; [intros [H|H]; [|done]; by exists [], []|]. intros (pre&mid&E&H).
      symmetry in E. apply app_eq_nil in E as [-> ->]. by left.
    - rewrite IH. split.
      + intros [H|(pre&mid&->&H)]; [by exists [], (t :: tx)|by exists (t :: pre), mid].
      + intros (pre&mid&E&H). destruct pre as [|p pre]; simpl in E; [subst; by left|].
        injection E as <- ->. right. eauto. }
  unfold match_, matches. destruct re as [|c re].
  - split; [done|]. intros _. by destruct text.
  - destruct (c =? CARET); [apply matchhere_spec|apply Hl].
Qed.

(** ** grep(): lines through a 1024-byte buffer *)

(** [strchr(s, c)]: the text before the character and behind it *)
Fixpoint strchr (s : list Z) (c : Z) : option (list Z * list Z) :=
  match s with
  | [] => None
  | x :: s' =>
      if x =? 0 then None
      else if x =? c then Some ([], s')
      else match strchr s' c with Some (a, b) => Some (x :: a, b) | None => None end
  end.

(** [while((q = strchr(p, '\n')) != 0)]: what is written, and [p] at the end;
    one round per line *)
Fixpoint grep_lines (fuel : nat) (pattern p : list Z) : list Z * list Z :=
  match fuel with
  | O => ([], p)
  | S fuel' =>
      match strchr p 10 with
      | None => ([], p)
      | Some (l, rest) =>
          let (out, p') := grep_lines fuel' pattern rest in
          ((if match_ pattern l then l ++ [10] else []) ++ out, p')
      end
  end.

(** One round of the outer loop on the buffer after a [read]: what is written
    and the bytes kept *)
Definition grep_round (pattern buf : list Z) : list Z * list Z :=
  let (out, p) := grep_lines (length buf) pattern buf in
  (out, if Nat.eqb (length p) (length buf) then [] else p).

(** [grep(pattern, fd)] with [text] left to read; [rd m k] is the number of
    bytes a [read] of at most [m] bytes returns of [k]. *)
Fixpoint grep (rd : nat -> nat -> nat) (fuel : nat) (pattern text buf : list Z) : list Z :=
  match fuel with
  | O => []
  | S fuel' =>
      let n := rd (1023 - length buf)%nat (length text) in
      if Nat.eqb n 0 then []
      else
        let (out, buf') := grep_round pattern (buf ++ take n text) in
        out ++ grep rd fuel' pattern (drop n text) buf'
  end.

(** The lines of a text that end with a newline, and what follows them. *)
Fixpoint lines (text : list Z) : list (list Z) * list Z :=
  match text with
  | [] => ([], [])
  | x :: text' =>
      let (ls, tl) := lines text' in
      if x =? 10 then ([] :: ls, tl)
      else match ls with
           | [] => ([], x :: tl)
           | l :: ls' => ((x :: l) :: ls', tl)
           end
  end.

(** What grep is to print: the matching lines, each with its newline. *)
Definition print_matching (pattern : list Z) (ls : list (list Z)) : list Z :=
  concat (map (fun l => l ++ [10]) (filter (fun l => match_ pattern l = true) ls)).

Definition no_nul (text : list Z) : Prop := Forall (fun x => x <> 0) text.

Lemma lines_line l text : Forall (fun x => x <> 10) l ->
  lines (l ++ 10 :: text) = (l :: (lines text).1, (lines text).2).
Proof.
  induction 1 as [|x l Hx Hl IH]; simpl; [by destruct (lines text)|]. rewrite IH. by rewrite (proj2 (Z.eqb_neq _ _) Hx).
Qed.
Lemma lines_none text : Forall (fun x => x <> 10) text -> lines text = ([], text).
Proof. induction 1 as [|x l Hx Hl IH]; simpl; [done|]. rewrite IH. by rewrite (proj2 (Z.eqb_neq _ _) Hx). Qed.

Lemma strchr_spec s : no_nul s ->
  match strchr s 10 with
  | Some (l, rest) => s = l ++ 10 :: rest /\ Forall (fun x => x <> 10) l
  | None => Forall (fun x => x <> 10) s
  end.
Proof.
  induction 1 as [|x s Hx Hs IH]; simpl; [constructor|]. rewrite (proj2 (Z.eqb_neq _ _) Hx).
  destruct (Z.eqb_spec x 10) as [->|Hn]; [done|].
  destruct (strchr s 10) as [[l rest]|]; [|by constructor]. destruct IH as [-> Hl]. split; [done|by constructor].
Qed.

Lemma no_nul_app a b : no_nul (a ++ b) <-> no_nul a /\ no_nul b.
Proof. apply Forall_app. Qed.

(** The inner loop prints the matching complete lines and keeps the rest. *)
Lemma grep_lines_spec fuel pattern p : (length p <= fuel)%nat -> no_nul p ->
  grep_lines fuel pattern p = (print_matching pattern (lines p).1, (lines p).2) /\ Forall (fun x => x <> 10) (lines p).2.
Proof.
  revert p. induction fuel as [|fuel IH]; intros p Hf Hp; simpl.
  { destruct p; [|simpl in Hf; lia]. split; [done|constructor]. }
  pose proof (strchr_spec p Hp) as Hs. destruct (strchr p 10) as [[l rest]|].
  - destruct Hs as [-> Hl]. rewrite (lines_line _ _ Hl). simpl. rewrite length_app in Hf. simpl in Hf.
    apply no_nul_app in Hp as [_ Hp]. apply Forall_cons in Hp as [_ Hp].
    destruct (IH rest) as [-> Hr]; [lia|done|]. split; [|done]. f_equal.
    unfold print_matching. rewrite filter_cons. case_decide as Em; [by rewrite Em|].
    by apply not_true_is_false in Em as ->.
  - rewrite (lines_none _ Hs). simpl. by split.
Qed.

(** Lines of a text cut anywhere. *)
Lemma lines_app a b : lines (a ++ b) = ((lines a).1 ++ (lines ((lines a).2 ++ b)).1, (lines ((lines a).2 ++ b)).2).
Proof.
  induction a as [|x a IH]; simpl; [by destruct (lines b)|]. rewrite IH. destruct (lines a) as [ls tl]. simpl.
  destruct (x =? 10) eqn:Ex; [done|]. destruct ls as [|l ls]; simpl; [|done].
  rewrite Ex. by destruct (lines (tl ++ b)) as [[|? ?] ?].
Qed.

Lemma print_matching_app pattern l1 l2 :
  print_matching pattern (l1 ++ l2) = print_matching pattern l1 ++ print_matching pattern l2.
Proof. unfold print_matching. by rewrite filter_app, map_app, concat_app. Qed.

Lemma grep_round_spec pattern buf : no_nul buf ->
  grep_round pattern buf = (print_matching pattern (lines buf).1, if decide ((lines buf).1 = []) then [] else (lines buf).2).
Proof.
  intros Hb. unfold grep_round. destruct (grep_lines_spec (length buf) pattern buf) as [-> _]; [lia|done|]. f_equal.
  assert (Hlen : forall t, (length (lines t).2 <= length t)%nat /\ ((lines t).1 <> [] -> (length (lines t).2 < length t)%nat)
    /\ ((lines t).1 = [] -> (lines t).2 = t)).
  { clear. induction t as [|x t (H1&H2&H3)]; simpl; [done|]. destruct (lines t) as [ls tl]. simpl in *.
    destruct (x =? 10); simpl; [split_and!; [lia|lia|done]|]. destruct ls as [|l ls]; simpl.
    - rewrite (H3 eq_refl). split_and!; [lia|done|done].
    - split_and!; [lia| |done]. intros _. specialize (H2 ltac:(done)). lia. }
  destruct (Hlen buf) as (_&H2&H3). case_decide as E.
  - by rewrite (H3 E), Nat.eqb_refl.
  - specialize (H2 E). destruct (Nat.eqb_spec (length (lines buf).2) (length buf)); [lia|done].
Qed.

Lemma lines_nil_inv t : (lines t).1 = [] -> Forall (fun x => x <> 10) t.
Proof.
  induction t as [|x t IH]; simpl; [constructor|]. destruct (lines t) as [ls tl]. simpl in *.
  destruct (Z.eqb_spec x 10); [done|]. destruct ls; [|done]. intros _. constructor; auto.
Qed.
Lemma lines_tail_clean t : Forall (fun x => x <> 10) (lines t).2.
Proof.
  induction t as [|x t IH]; simpl; [constructor|]. destruct (lines t) as [ls tl]. simpl in *.
  destruct (Z.eqb_spec x 10); [done|]. destruct ls; [by constructor|done].
Qed.
Lemma lines_first_long a t l ls : Forall (fun x => x <> 10) a -> (lines (a ++ t)).1 = l :: ls -> (length a <= length l)%nat.
Proof.
  intros Ha. revert l. induction Ha as [|x a Hx Ha IH]; intros l; simpl; [lia|].
  destruct (lines (a ++ t)) as [ls' tl]. simpl in *. rewrite (proj2 (Z.eqb_neq _ _) Hx).
  destruct ls' as [|l' ls'']; [done|]. simpl. intros [= <- <-]. simpl. specialize (IH l' eq_refl). lia.
Qed.
Lemma lines_tail_sub (P : Z -> Prop) t : Forall P t -> Forall P (lines t).2.
Proof.
  induction 1 as [|x t Hx Ht IH]; simpl; [constructor|]. destruct (lines t) as [ls tl]. simpl in *.
  destruct (x =? 10); [done|]. destruct ls; [by constructor|done].
Qed.
Lemma lines_tail_length t : (length (lines t).2 <= length t)%nat /\ ((lines t).1 <> [] -> (length (lines t).2 < length t)%nat).
Proof.
  induction t as [|x t [H1 H2]]; simpl; [done|]. destruct (lines t) as [ls tl]. simpl in *.
  destruct (x =? 10); simpl; [lia|]. destruct ls; simpl; [split; [lia|done]|]. split; [lia|]. intros _. lia.
Qed.

(** With reads that fill the buffer, as [read] of a file does. *)
Lemma grep_full_reads fuel pattern text buf :
  (length text < fuel)%nat -> (length buf < 1023)%nat -> no_nul (buf ++ text) -> Forall (fun x => x <> 10) buf ->
  Forall (fun l => (length l < 1023)%nat) (lines (buf ++ text)).1 ->
  grep Nat.min fuel pattern text buf = print_matching pattern (lines (buf ++ text)).1.
Proof.
  revert text buf. induction fuel as [|fuel IH]; intros text buf Hf Hb Hnul Hcl Hlen; [lia|]. cbn [grep].
  set (n := Nat.min (1023 - length buf) (length text)). destruct (Nat.eqb_spec n 0) as [E|E].
  { assert (text = []) as -> by (destruct text; [done|simpl in n; lia]). rewrite app_nil_r, (lines_none _ Hcl). done. }
  set (b' := buf ++ take n text).
  assert (Hsplit : buf ++ text = b' ++ drop n text) by (unfold b'; by rewrite <- app_assoc, take_drop).
  rewrite Hsplit in Hnul. apply no_nul_app in Hnul as [Hn1 Hn2]. rewrite (grep_round_spec _ _ Hn1).
  rewrite Hsplit, lines_app in Hlen |- *. simpl in Hlen |- *. rewrite print_matching_app. f_equal.
  assert (Hb'l : (length b' <= 1023)%nat) by (unfold b'; rewrite length_app, length_take; lia).
  assert (Hdrop : (length (drop n text) < fuel)%nat) by (rewrite length_drop; lia).
  apply Forall_app in Hlen as [_ Hlen]. case_decide as El.
  - pose proof (lines_nil_inv _ El) as Hclean. rewrite (lines_none _ Hclean) in Hlen |- *. simpl in Hlen |- *.
    assert (Hnone : (lines (b' ++ drop n text)).1 = []).
    { destruct (lines (b' ++ drop n text)).1 as [|l ls] eqn:Ell; [done|].
      pose proof (lines_first_long _ _ _ _ Hclean Ell). apply Forall_cons in Hlen as [Hl _].
      destruct (decide (n = length text)) as [En|En].
      - rewrite drop_ge, app_nil_r, (lines_none _ Hclean) in Ell by lia. done.
      - unfold b' in *. rewrite length_app, length_take in *. lia. }
    rewrite Hnone. apply lines_nil_inv, Forall_app in Hnone as [_ Hd].
    rewrite IH; [by rewrite app_nil_l, (lines_none _ Hd)|done|simpl; lia|done|constructor|].
    rewrite app_nil_l, (lines_none _ Hd). constructor.
  - apply IH; [done| | |apply lines_tail_clean|done].
    + pose proof (proj2 (lines_tail_length b') El). lia.
    + apply no_nul_app. split; [by apply lines_tail_sub|done].
Qed.

(** C32. On a text without NULs whose lines fit the buffer, read by [read]s
    that fill it as those of a file do, grep terminates and prints exactly the
    lines that end with a newline and match, in order. *)
Theorem grep_prints_matching (pattern text : list Z) :
  no_nul text -> Forall (fun l => (length l < 1023)%nat) (lines text).1 ->
  grep Nat.min (S (length text)) pattern text [] = print_matching pattern (lines text).1.
Proof. intros Hn Hl. apply grep_full_reads; [lia|simpl; lia|done|constructor|done]. Qed.
Lemma grep_prints_matching_witness :
  grep Nat.min 13 [94; 97; 46; 42; 99; 36] [97; 98; 99; 10; 98; 99; 10; 97; 99; 10; 97; 99] [] = [97; 98; 99; 10; 97; 99; 10].
Proof.
  assert (Hn : no_nul [97; 98; 99; 10; 98; 99; 10; 97; 99; 10; 97; 99]) by (repeat constructor; discriminate).
  assert (Hl : Forall (fun l => (length l < 1023)%nat) (lines [97; 98; 99; 10; 98; 99; 10; 97; 99; 10; 97; 99]).1)
    by (vm_compute; repeat constructor).
  exact (grep_prints_matching [94; 97; 46; 42; 99; 36] _ Hn Hl).
Defined.

(** A [read] that returns part of a line, as one of a pipe may, loses it: the
    text "ab\n" in two pieces prints nothing for "a". *)
Lemma grep_drops_short_reads :
  grep (fun _ k => Nat.min 1 k) 4 [97] [97; 98; 10] [] = [] /\
  print_matching [97] (lines [97; 98; 10]).1 = [97; 98; 10].
Proof. by vm_compute. Qed.
