(* ===== verification/Ide.v ===== *)
(** * ide.c: the disk driver with its request queue

    The drive is what the ports lead to: a command written to port 0x1f7
    starts the request the other ports describe, the drive carries it out
    some time later and then interrupts.  [iderw] ends its first segment in
    the loop that sleeps until the flags say the request is done; [ideintr]
    takes the head of the queue and starts the next request.  [istep]
    interleaves the callers, the drive and the interrupt handler. *)
From stdpp Require Import base numbers list gmap strings.
From S2P Require Import Prelude.
Open Scope Z_scope.

Definition SECTOR_SIZE : Z := 512.
Definition IDE_BSIZE : Z := 512.
Definition IDE_CMD_READ : Z := 0x20.
Definition IDE_CMD_WRITE : Z := 0x30.
Definition IDE_CMD_RDMUL : Z := 0xc4.
Definition IDE_CMD_WRMUL : Z := 0xc5.
Definition FSSIZE : Z := 1000.
Definition IDE_NBUF : Z := 30.
Definition BUF_VALID : Z := 2.
Definition BUF_DIRTY : Z := 4.

(** The fields of [struct buf] the driver uses; 0 is the null pointer. *)
Record ibuf := IBuf { ib_flags : Z; ib_dev : Z; ib_blockno : Z; ib_qnext : Z; ib_data : list Z }.

(** A request the drive has accepted. *)
Record request := Request { rq_write : bool; rq_dev : Z; rq_sector : Z; rq_data : list Z }.

Record istate := IState {
  ibufs : Z -> ibuf; idequeue : Z; havedisk1 : Z;
  ports : Z -> Z; active : option request; finished : bool; failed : bool;
  disks : Z -> Z -> list Z; iwoken : list Z }.
Abbreviation IM := (M istate).

Definition set_ibufs (x : Z -> ibuf) (s : istate) : istate :=
  IState x (idequeue s) (havedisk1 s) (ports s) (active s) (finished s) (failed s) (disks s) (iwoken s).
Definition set_idequeue (x : Z) (s : istate) : istate :=
  IState (ibufs s) x (havedisk1 s) (ports s) (active s) (finished s) (failed s) (disks s) (iwoken s).
Definition set_ports (x : Z -> Z) (s : istate) : istate :=
  IState (ibufs s) (idequeue s) (havedisk1 s) x (active s) (finished s) (failed s) (disks s) (iwoken s).
Definition set_drive (r : option request) (fin err : bool) (d : Z -> Z -> list Z) (s : istate) : istate :=
  IState (ibufs s) (idequeue s) (havedisk1 s) (ports s) r fin err d (iwoken s).
Definition set_iwoken (x : list Z) (s : istate) : istate :=
  IState (ibufs s) (idequeue s) (havedisk1 s) (ports s) (active s) (finished s) (failed s) (disks s) x.
Definition mod_ibuf (b : Z) (f : ibuf -> ibuf) : IM unit :=
  modify (fun s => set_ibufs (fupd (ibufs s) b (f (ibufs s b))) s).
Definition with_flags (v : Z) (x : ibuf) : ibuf := IBuf v (ib_dev x) (ib_blockno x) (ib_qnext x) (ib_data x).
Definition with_qnext (v : Z) (x : ibuf) : ibuf := IBuf (ib_flags x) (ib_dev x) (ib_blockno x) v (ib_data x).
Definition with_data (v : list Z) (x : ibuf) : ibuf := IBuf (ib_flags x) (ib_dev x) (ib_blockno x) (ib_qnext x) v.

(** ** The drive *)

(** The drive is busy from a command until it has carried it out. *)
Definition busy (s : istate) : bool := match active s with Some _ => negb (finished s) | None => false end.

(** The sector the ports name: 28 bits of logical block address. *)
Definition port_sector (p : Z -> Z) : Z :=
  p 0x1f3 + 256 * p 0x1f4 + 65536 * p 0x1f5 + 16777216 * Z.land (p 0x1f6) 0x0f.

(** [outb(port, data)]; a command starts a request. *)
Definition outb (port data : Z) : IM unit :=
  modify (fun s => set_ports (fupd (ports s) port (u8 data)) s) ;;
  when (port =? 0x1f7)
    (modify (fun s =>
       set_drive (Some (Request (data =? IDE_CMD_WRITE) (Z.land (Z.shiftr (ports s 0x1f6) 4) 1) (port_sector (ports s)) []))
         false false (disks s) s)).
(** [outsl(0x1f0, addr, BSIZE/4)]: the data of the write *)
Definition outsl (data : list Z) : IM unit :=
  modify (fun s => set_drive (match active s with
    | Some r => Some (Request (rq_write r) (rq_dev r) (rq_sector r) data) | None => None end)
    (finished s) (failed s) (disks s) s).
(** [insl(0x1f0, addr, BSIZE/4)]: the data of the read *)
Definition insl (b : Z) : IM unit :=
  let! r := gets active in
  let! d := gets disks in
  match r with
  | Some r => mod_ibuf b (with_data (d (rq_dev r) (rq_sector r)))
  | None => ret tt
  end.

(** The drive carries out its request, with or without an error. *)
Definition drive_done (err : bool) (s : istate) : istate :=
  match active s with
  | Some r =>
      set_drive (active s) true err
        (if rq_write r && negb err then fupd (disks s) (rq_dev r) (fupd (disks s (rq_dev r)) (rq_sector r) (rq_data r))
         else disks s) s
  | None => s
  end.

(** ** The driver *)

(** [idewait(checkerr)] *)
Definition idewait (checkerr : bool) : IM Z :=
  let! bsy := gets busy in
  if (bsy : bool) then stop_with Spinning
  else
    let! err := gets failed in
    ret (if checkerr && err then -1 else 0).

(** [ideinit()]: [status] is what the thousand reads of port 0x1f7 return
    with disk 1 selected *)
Definition ideinit (status : list Z) : IM unit :=
  idewait false ;;
  outb 0x1f6 (Z.lor 0xe0 (Z.shiftl 1 4)) ;;
  modify (fun s => IState (ibufs s) (idequeue s)
    (if existsb (fun v => negb (v =? 0)) (take 1000 status) then 1 else havedisk1 s)
    (ports s) (active s) (finished s) (failed s) (disks s) (iwoken s)) ;;
  outb 0x1f6 (Z.lor 0xe0 (Z.shiftl 0 4)).

(** [idestart(b)] *)
Definition idestart (b : Z) : IM unit :=
  if b =? 0 then panic "idestart"
  else
    let! x := gets (fun s => ibufs s b) in
    if FSSIZE <=? ib_blockno x then panic "incorrect blockno"
    else
      let sector_per_block := IDE_BSIZE / SECTOR_SIZE in
      let sector := ib_blockno x * sector_per_block in
      let read_cmd := if sector_per_block =? 1 then IDE_CMD_READ else IDE_CMD_RDMUL in
      let write_cmd := if sector_per_block =? 1 then IDE_CMD_WRITE else IDE_CMD_WRMUL in
      if 7 <? sector_per_block then panic "idestart"
      else
        idewait false ;;
        outb 0x3f6 0 ;;
        outb 0x1f2 sector_per_block ;;
        outb 0x1f3 (Z.land sector 0xff) ;;
        outb 0x1f4 (Z.land (Z.shiftr sector 8) 0xff) ;;
        outb 0x1f5 (Z.land (Z.shiftr sector 16) 0xff) ;;
        outb 0x1f6 (Z.lor (Z.lor 0xe0 (Z.shiftl (Z.land (ib_dev x) 1) 4)) (Z.land (Z.shiftr sector 24) 0x0f)) ;;
        if negb (Z.land (ib_flags x) BUF_DIRTY =? 0) then
          outb 0x1f7 write_cmd ;; outsl (ib_data x)
        else outb 0x1f7 read_cmd.

(** [ideintr()] *)
Definition ideintr : IM unit :=
  let! b := gets idequeue in
  if b =? 0 then ret tt
  else
    let! x := gets (fun s => ibufs s b) in
    modify (set_idequeue (ib_qnext x)) ;;
    (if Z.land (ib_flags x) BUF_DIRTY =? 0 then
       let! r := idewait true in
       when (0 <=? r) (insl b)
     else ret tt) ;;
    mod_ibuf b (fun x => with_flags (Z.lor (ib_flags x) BUF_VALID) x) ;;
    mod_ibuf b (fun x => with_flags (Z.land (ib_flags x) (Z.lnot BUF_DIRTY)) x) ;;
    modify (fun s => set_iwoken (b :: iwoken s) s) ;;
    let! q := gets idequeue in
    when (negb (q =? 0)) (idestart q).

(** [for(pp=&idequeue; *pp; pp=&( *pp)->qnext)]: the last buffer of the queue
    that starts at [p], one round per buffer *)
Fixpoint queue_last (fuel : nat) (bufs : Z -> ibuf) (p : Z) : option Z :=
  match fuel with
  | O => None
  | S fuel' => if ib_qnext (bufs p) =? 0 then Some p else queue_last fuel' bufs (ib_qnext (bufs p))
  end.

(** [(b->flags & (B_VALID|B_DIRTY)) == B_VALID] *)
Definition only_valid (f : Z) : bool := Z.land f (Z.lor BUF_VALID BUF_DIRTY) =? BUF_VALID.

(** [iderw(b)] up to its loop; [holds] is what [holdingsleep(&b->lock)]
    returns to the caller *)
Definition iderw (holds : bool) (b : Z) : IM unit :=
  if negb holds then panic "iderw: buf not locked"
  else
  let! x := gets (fun s => ibufs s b) in
  if only_valid (ib_flags x) then panic "iderw: nothing to do"
  else
    let! d1 := gets havedisk1 in
    if negb (ib_dev x =? 0) && (d1 =? 0) then panic "iderw: ide disk 1 not present"
    else
      mod_ibuf b (with_qnext 0) ;;
      let! q := gets idequeue in
      (if q =? 0 then modify (set_idequeue b)
       else
         let! bufs := gets ibufs in
         match queue_last (Z.to_nat IDE_NBUF) bufs q with
         | Some p => mod_ibuf p (with_qnext b)
         | None => stop_with NoFuel
         end) ;;
      let! q := gets idequeue in
      when (q =? b) (idestart b).
(** The test of its loop: whether the caller leaves it *)
Definition iderw_returns (b : Z) (s : istate) : bool := only_valid (ib_flags (ibufs s b)).

(** ** Reference: a disk that serves one request after the other *)

Inductive op := OpRead (dev blk : Z) (data : list Z) | OpWrite (dev blk : Z) (data : list Z).

Definition apply_op (d : Z -> Z -> list Z) (o : op) : Z -> Z -> list Z :=
  match o with
  | OpRead _ _ _ => d
  | OpWrite dev blk data => fupd d dev (fupd (d dev) blk data)
  end.
Definition final (d : Z -> Z -> list Z) (ops : list op) : Z -> Z -> list Z := fold_left apply_op ops d.
(** Every read returns what the disk holds at its turn. *)
Fixpoint legal (d : Z -> Z -> list Z) (ops : list op) : Prop :=
  match ops with
  | [] => True
  | o :: ops' =>
      match o with OpRead dev blk data => data = d dev blk | OpWrite _ _ _ => True end /\ legal (apply_op d o) ops'
  end.

Definition is_dirty (x : ibuf) : bool := negb (Z.land (ib_flags x) BUF_DIRTY =? 0).
(** The request a buffer stands for, and the one of an operation. *)
Definition req_of (x : ibuf) : request :=
  Request (is_dirty x) (Z.land (ib_dev x) 1) (ib_blockno x) (if is_dirty x then ib_data x else []).
Definition op_req (o : op) : request :=
  match o with
  | OpRead dev blk _ => Request false dev blk []
  | OpWrite dev blk data => Request true dev blk data
  end.
(** The operation of a request that is done: the buffer before and after. *)
Definition op_done (x x' : ibuf) : op :=
  if is_dirty x then OpWrite (Z.land (ib_dev x) 1) (ib_blockno x) (ib_data x)
  else OpRead (Z.land (ib_dev x) 1) (ib_blockno x) (ib_data x').

(** ** The system: callers, the drive, the interrupt handler *)

Record isys := ISys { ist : istate; waiting : gset Z; history : list op; issued : list request }.

Inductive istep : isys -> isys -> Prop :=
| I_own s w h r b x : 1 <= b <= IDE_NBUF -> b ∉ w ->
    istep (ISys s w h r) (ISys (set_ibufs (fupd (ibufs s) b x) s) w h r)
| I_issue s s' w h r b : 1 <= b <= IDE_NBUF -> b ∉ w -> 0 <= ib_blockno (ibufs s b) < FSSIZE ->
    iderw true b s = Ret tt s' ->
    istep (ISys s w h r) (ISys s' ({[b]} ∪ w) h (r ++ [req_of (ibufs s b)]))
| I_drive s w h r : busy s = true ->
    istep (ISys s w h r) (ISys (drive_done false s) w h r)
| I_intr s s' w h r : idequeue s <> 0 -> busy s = false -> ideintr s = Ret tt s' ->
    istep (ISys s w h r) (ISys s' w (h ++ [op_done (ibufs s (idequeue s)) (ibufs s' (idequeue s))]) r)
| I_return s w h r b : b ∈ w -> iderw_returns b s = true ->
    istep (ISys s w h r) (ISys s (w ∖ {[b]}) h r).

(** ** Invariant *)

(** The queue in memory. *)
Fixpoint qlist (bufs : Z -> ibuf) (p : Z) (q : list Z) : Prop :=
  match q with
  | [] => p = 0
  | b :: q' => p = b /\ qlist bufs (ib_qnext (bufs b)) q'
  end.

(** What the drive has done of the head of the queue. *)
Definition with_head (s : istate) (q : list Z) (d : Z -> Z -> list Z) : Z -> Z -> list Z :=
  match q with
  | b :: _ => if finished s && is_dirty (ibufs s b) then apply_op d (op_done (ibufs s b) (ibufs s b)) else d
  | [] => d
  end.

Record iinv (d0 : Z -> Z -> list Z) (g : isys) (q : list Z) : Prop := {
  iv_list : qlist (ibufs (ist g)) (idequeue (ist g)) q;
  iv_nodup : NoDup q;
  iv_queued b : b ∈ q -> 1 <= b <= IDE_NBUF /\ b ∈ waiting g /\ only_valid (ib_flags (ibufs (ist g) b)) = false /\
    0 <= ib_blockno (ibufs (ist g) b) < FSSIZE;
  iv_done b : b ∈ waiting g -> b ∉ q -> only_valid (ib_flags (ibufs (ist g) b)) = true;
  iv_drive : match q with
    | [] => busy (ist g) = false
    | b :: _ => active (ist g) = Some (req_of (ibufs (ist g) b))
    end;
  iv_ok : failed (ist g) = false;
  iv_legal : legal d0 (history g);
  iv_disks : disks (ist g) = with_head (ist g) q (final d0 (history g));
  iv_fifo : issued g = map op_req (history g) ++ map (fun b => req_of (ibufs (ist g) b)) q
}.

Lemma final_snoc d ops o : final d (ops ++ [o]) = apply_op (final d ops) o.
Proof. unfold final. by rewrite fold_left_app. Qed.
Lemma legal_snoc d ops o : legal d (ops ++ [o]) <->
  legal d ops /\ match o with OpRead dev blk data => data = final d ops dev blk | OpWrite _ _ _ => True end.
Proof.
  revert d. induction ops as [|p ops IH]; intros d; simpl; [tauto|]. rewrite IH. unfold final. simpl. tauto.
Qed.

Lemma qlist_ext bufs bufs' p q : (forall b, b ∈ q -> ib_qnext (bufs' b) = ib_qnext (bufs b)) ->
  qlist bufs p q -> qlist bufs' p q.
Proof.
  revert p. induction q as [|b q IH]; intros p He; simpl; [done|]. intros [-> H]. split; [done|].
  rewrite He by constructor. apply IH; [|done]. intros c Hc. apply He. by constructor.
Qed.

Lemma bind_outb {B} port data (k : unit -> IM B) p s : port <> 0x1f7 ->
  bind (outb port data) k (set_ports p s) = k tt (set_ports (fupd p port (u8 data)) s).
Proof.
  intros Hp. unfold outb. rewrite bind_assoc, bind_modify. rewrite (proj2 (Z.eqb_neq _ _) Hp). reflexivity.
Qed.

(** Starting a request: the ports name the block. *)
Lemma idestart_run b s : b <> 0 -> 0 <= ib_blockno (ibufs s b) < FSSIZE -> busy s = false ->
  exists p, idestart b s = Ret tt (set_drive (Some (req_of (ibufs s b))) false false (disks s) (set_ports p s)).
Proof.
  intros Hb Hr Hbusy. unfold idestart. rewrite (proj2 (Z.eqb_neq _ _) Hb), bind_gets.
  set (x := ibufs s b) in *. unfold FSSIZE in *. destruct (Z.leb_spec 1000 (ib_blockno x)); [lia|].
  change (IDE_BSIZE / SECTOR_SIZE) with 1. rewrite Z.mul_1_r. cbv zeta.
  change (7 <? 1) with false. change (1 =? 1) with true. cbv iota.
  unfold idewait. rewrite bind_assoc, bind_gets, Hbusy, bind_assoc, bind_gets, bind_ret_l.
  set (n := ib_blockno x) in *.
  assert (E1 : Z.land n 0xff = n mod 256) by exact (land_mask n 8 ltac:(lia)).
  assert (E2 : Z.land (Z.shiftr n 8) 0xff = n / 256).
  { rewrite Z.shiftr_div_pow2 by lia. change (2 ^ 8) with 256. rewrite (land_mask _ 8 ltac:(lia) : Z.land _ 0xff = _).
    change (2 ^ 8) with 256. word. }
  assert (E3 : Z.shiftr n 16 = 0) by (rewrite Z.shiftr_div_pow2 by lia; change (2 ^ 16) with 65536; word).
  assert (E4 : Z.shiftr n 24 = 0) by (rewrite Z.shiftr_div_pow2 by lia; change (2 ^ 24) with 16777216; word).
  rewrite E1, E2, E3, E4. unfold req_of, is_dirty.
  assert (Hd : Z.land (ib_dev x) 1 = 0 \/ Z.land (ib_dev x) 1 = 1).
  { rewrite (land_mask _ 1 ltac:(lia) : Z.land (ib_dev x) 1 = _). change (2 ^ 1) with 2. word. }
  assert (Hsec : forall p : Z -> Z, p 0x1f3 = u8 (n mod 256) -> p 0x1f4 = u8 (n / 256) -> p 0x1f5 = 0 ->
    (p 0x1f6 = 0xe0 \/ p 0x1f6 = 0xf0) -> port_sector p = n).
  { intros p H3 H4 H5 H6. unfold port_sector. rewrite H3, H4, H5. replace (Z.land (p 0x1f6) 15) with 0 by (by destruct H6 as [-> | ->]). word. }
  match goal with |- context [bind (outb 0x3f6 0) ?k s] =>
    change (bind (outb 0x3f6 0) k s) with (bind (outb 0x3f6 0) k (set_ports (ports s) s)) end.
  do 6 (rewrite bind_outb by lia; cbv beta).
  match goal with |- context [set_ports ?p s] => set (p6 := p) end.
  assert (Hp6 : port_sector (fupd p6 0x1f7 0x20) = n /\ port_sector (fupd p6 0x1f7 0x30) = n /\
    Z.land (Z.shiftr (p6 0x1f6) 4) 1 = Z.land (ib_dev x) 1).
  { unfold p6. split_and!.
    - apply Hsec; rewrite !fupd_ne by lia; rewrite ?fupd_eq; try done. destruct Hd as [-> | ->]; [by left|by right].
    - apply Hsec; rewrite !fupd_ne by lia; rewrite ?fupd_eq; try done. destruct Hd as [-> | ->]; [by left|by right].
    - rewrite fupd_eq. destruct Hd as [-> | ->]; reflexivity. }
  clearbody p6. destruct Hp6 as (S1&S2&D6).
  destruct (Z.land (ib_flags x) BUF_DIRTY =? 0); simpl.
  - exists (fupd p6 0x1f7 0x20). unfold outb. rewrite bind_modify. simpl.
    unfold modify, set_drive, set_ports; simpl. change (u8 IDE_CMD_READ) with 0x20.
    by rewrite S1, fupd_ne, D6.
  - exists (fupd p6 0x1f7 0x30). unfold outb, outsl. rewrite bind_assoc, bind_modify. simpl.
    rewrite bind_modify. unfold modify, set_drive, set_ports; simpl. change (u8 IDE_CMD_WRITE) with 0x30.
    by rewrite S2, fupd_ne, D6.
Qed.

(** ** The queue *)

Lemma queue_last_run fuel bufs q l p : qlist bufs p (q ++ [l]) -> 0 ∉ q ++ [l] -> (length q < fuel)%nat ->
  queue_last fuel bufs p = Some l.
Proof.
  revert fuel p. induction q as [|c q IH]; intros fuel p Hq H0 Hf; destruct fuel as [|fuel]; try (simpl in Hf; lia); simpl in *.
  - destruct Hq as [-> ->]. done.
  - destruct Hq as [-> Hq]. assert (Hn : ib_qnext (bufs c) <> 0).
    { apply not_elem_of_cons in H0 as [_ H0]. destruct q as [|e q]; simpl in Hq; destruct Hq as [-> _];
        intros E; apply H0; simpl; rewrite E; constructor. }
    rewrite (proj2 (Z.eqb_neq _ _) Hn). apply IH; [done| |lia]. by apply not_elem_of_cons in H0 as [_ H0].
Qed.

Lemma qlist_append bufs q l b p : qlist bufs p (q ++ [l]) -> NoDup (q ++ [l]) -> b ∉ q ++ [l] -> ib_qnext (bufs b) = 0 ->
  qlist (fupd bufs l (with_qnext b (bufs l))) p ((q ++ [l]) ++ [b]).
Proof.
  intros Hq Hnd Hb Hn. rewrite <- app_assoc. simpl. apply NoDup_app in Hnd as (_&Hl&_).
  assert (Hbl : b <> l) by (intros ->; apply Hb, elem_of_app; right; constructor).
  assert (Hlq : l ∉ q) by (intros Hin; eapply Hl; [exact Hin|constructor]). clear Hl Hb.
  revert p Hq Hlq. induction q as [|c q IH]; intros p; simpl.
  - intros [-> _] _. split; [done|]. rewrite fupd_eq. simpl. split; [done|]. by rewrite fupd_ne.
  - intros [-> Hq] Hlq. apply not_elem_of_cons in Hlq as [Hc Hlq]. split; [done|].
    rewrite fupd_ne by congruence. by apply IH.
Qed.

(** Buffers that differ only in the link. *)
Definition same_request (x y : ibuf) : Prop :=
  ib_flags x = ib_flags y /\ ib_dev x = ib_dev y /\ ib_blockno x = ib_blockno y /\ ib_data x = ib_data y.
Lemma same_request_of x y : same_request x y -> req_of x = req_of y /\ is_dirty x = is_dirty y /\ op_done x x = op_done y y.
Proof. intros (E1&E2&E3&E4). unfold req_of, op_done, is_dirty. by rewrite E1, E2, E3, E4. Qed.

(** Changes of links that keep the queue keep the rest of the invariant. *)
Lemma iinv_relink d0 s w h r q s' : iinv d0 (ISys s w h r) q ->
  (forall c, c ∈ q \/ c ∈ w -> same_request (ibufs s' c) (ibufs s c)) ->
  active s' = active s -> finished s' = finished s -> failed s' = failed s -> disks s' = disks s ->
  qlist (ibufs s') (idequeue s') q -> iinv d0 (ISys s' w h r) q.
Proof.
  intros [Hl Hn Hq Hd Hdr Hok Hle Hdi Hf] Hs Ea Ef Eo Ed Hl'. simpl in *.
  assert (Hsq : forall c, c ∈ q -> same_request (ibufs s' c) (ibufs s c)) by auto.
  split; simpl; try done.
  - intros b Hb. destruct (Hsq b Hb) as (->&_&->&_). by apply Hq.
  - intros b Hb Hbq. destruct (Hs b (or_intror Hb)) as (->&_). by apply Hd.
  - destruct q as [|b q]; unfold busy in *; rewrite Ea; [by rewrite Ef|].
    by rewrite (proj1 (same_request_of _ _ (Hsq b ltac:(constructor)))).
  - by rewrite Eo.
  - rewrite Ed, Hdi. destruct q as [|b q]; [done|]. simpl.
    destruct (same_request_of _ _ (Hsq b ltac:(constructor))) as (_&->&->). by rewrite Ef.
  - rewrite Hf. f_equal. apply map_ext_in. intros b Hb. symmetry. apply same_request_of, Hsq. by apply list_elem_of_In.
Qed.

Lemma queue_short q : NoDup q -> (forall b, b ∈ q -> 1 <= b <= IDE_NBUF) -> (length q <= 30)%nat.
Proof.
  intros Hn Hq. assert (Hs : length (seqZ 1 30) = 30%nat) by reflexivity. rewrite <- Hs. apply NoDup_incl_length; [by apply NoDup_ListNoDup|].
  intros b Hb. apply list_elem_of_In in Hb. apply list_elem_of_In, elem_of_seqZ. apply Hq in Hb. unfold IDE_NBUF in Hb. lia.
Qed.

(** The queue grows by a buffer that was not under way. *)
Lemma iinv_snoc d0 s w h r q b s' : iinv d0 (ISys s w h r) q -> 1 <= b <= IDE_NBUF -> b ∉ w -> b ∉ q ->
  0 <= ib_blockno (ibufs s b) < FSSIZE -> only_valid (ib_flags (ibufs s b)) = false ->
  (forall c, same_request (ibufs s' c) (ibufs s c)) ->
  match q with
  | [] => active s' = Some (req_of (ibufs s b)) /\ finished s' = false
  | _ => active s' = active s /\ finished s' = finished s
  end ->
  failed s' = false -> disks s' = disks s -> qlist (ibufs s') (idequeue s') (q ++ [b]) ->
  iinv d0 (ISys s' ({[b]} ∪ w) h (r ++ [req_of (ibufs s b)])) (q ++ [b]).
Proof.
  intros [Hl Hn Hq Hd Hdr Hok Hle Hdi Hf] Hb Hw Hbq Hblk Hov Hs Ha Eo Ed Hl'. simpl in *.
  split; simpl; try done.
  - apply NoDup_app. split_and!; [done| |apply NoDup_singleton]. intros c Hc Hcb. apply list_elem_of_singleton in Hcb as ->. done.
  - intros c Hc. destruct (Hs c) as (->&_&->&_). apply elem_of_app in Hc as [Hc|Hc].
    + destruct (Hq c Hc) as (?&?&?&?). split_and!; try done; set_solver.
    + apply list_elem_of_singleton in Hc as ->. split_and!; try done; try lia. set_solver.
  - intros c Hc Hcq. destruct (Hs c) as (->&_). apply Hd; set_solver.
  - destruct q as [|c q]; simpl.
    + destruct Ha as [-> _]. by rewrite (proj1 (same_request_of _ _ (Hs b))).
    + destruct Ha as [-> _]. by rewrite (proj1 (same_request_of _ _ (Hs c))).
  - rewrite Ed, Hdi. destruct q as [|c q]; simpl; [by destruct Ha as [_ ->]|].
    destruct Ha as [_ ->]. by destruct (same_request_of _ _ (Hs c)) as (_&->&->).
  - rewrite Hf, <- app_assoc. f_equal. rewrite map_app. simpl. f_equal.
    + apply map_ext. intros c. symmetry. apply same_request_of, Hs.
    + f_equal. symmetry. apply same_request_of, Hs.
Qed.

(** [iderw] of a buffer that is not under way appends its request, and starts
    it when it is alone. *)
Lemma iderw_run d0 s w h r q b : iinv d0 (ISys s w h r) q -> 1 <= b <= IDE_NBUF -> b ∉ w ->
  0 <= ib_blockno (ibufs s b) < FSSIZE -> only_valid (ib_flags (ibufs s b)) = false ->
  ib_dev (ibufs s b) = 0 \/ havedisk1 s <> 0 ->
  exists s', iderw true b s = Ret tt s' /\ iinv d0 (ISys s' ({[b]} ∪ w) h (r ++ [req_of (ibufs s b)])) (q ++ [b]).
Proof.
  intros Hi Hb Hw Hblk Hov Hdev. unfold iderw. cbn [negb]. rewrite bind_gets, Hov, bind_gets.
  replace (negb (ib_dev (ibufs s b) =? 0) && (havedisk1 s =? 0)) with false
    by (destruct Hdev as [-> |Hd]; [done|]; rewrite (proj2 (Z.eqb_neq _ _) Hd); by rewrite andb_false_r).
  assert (Hbq : b ∉ q) by (intros Hin; destruct (iv_queued _ _ _ Hi b Hin) as (_&?&_); done).
  unfold mod_ibuf at 1. rewrite bind_modify. set (s1 := set_ibufs _ s).
  assert (H1 : iinv d0 (ISys s1 w h r) q).
  { apply (iinv_relink _ _ _ _ _ _ _ Hi); try done.
    - intros c Hc. unfold s1. simpl. rewrite fupd_at. zcases; subst; [|done]. destruct Hc as [Hc|Hc]; done.
    - eapply qlist_ext; [|exact (iv_list _ _ _ Hi)]. intros c Hc. simpl. by rewrite fupd_ne by congruence. }
  assert (Hb1 : ibufs s1 b = with_qnext 0 (ibufs s b)) by (unfold s1; simpl; by rewrite fupd_eq).
  assert (Hblk1 : 0 <= ib_blockno (ibufs s1 b) < FSSIZE) by (by rewrite Hb1).
  assert (Hov1 : only_valid (ib_flags (ibufs s1 b)) = false) by (by rewrite Hb1).
  assert (Hreq : req_of (ibufs s b) = req_of (ibufs s1 b)) by (by rewrite Hb1). rewrite Hreq.
  clearbody s1. clear Hi Hreq. rewrite bind_gets. pose proof (iv_list _ _ _ H1) as Hl. simpl in Hl.
  assert (Hb0 : b <> 0) by lia. destruct q as [|l q _] using rev_ind.
  - simpl in Hl. rewrite Hl. simpl. rewrite bind_modify, bind_gets. simpl. rewrite Z.eqb_refl. simpl.
    destruct (idestart_run b (set_idequeue b s1) Hb0 Hblk1 (iv_drive _ _ _ H1)) as (p&E).
    eexists. split; [exact E|]. eapply (iinv_snoc _ _ _ _ _ [] b); try done. simpl. rewrite Hb1. done.
  - assert (H0 : 0 ∉ q ++ [l]) by (intros Hin; destruct (iv_queued _ _ _ H1 0 Hin) as (?&_); lia).
    assert (Hlen : (length q < Z.to_nat IDE_NBUF)%nat).
    { pose proof (queue_short (q ++ [l]) (iv_nodup _ _ _ H1)) as Hs. rewrite length_app in Hs. simpl in Hs.
      assert (length q + 1 <= 30)%nat by (apply Hs; intros c Hc; by apply (iv_queued _ _ _ H1)). unfold IDE_NBUF. lia. }
    assert (Hhd : idequeue s1 <> 0 /\ idequeue s1 <> b).
    { destruct (q ++ [l]) as [|c qq] eqn:E; [by destruct q|]. simpl in Hl. destruct Hl as [-> _].
      split; intros ->; [apply H0|apply Hbq]; constructor. }
    rewrite (proj2 (Z.eqb_neq _ _) (proj1 Hhd)), bind_assoc, bind_gets, (queue_last_run _ _ _ _ _ Hl H0 Hlen).
    unfold mod_ibuf. rewrite bind_modify, bind_gets. simpl. rewrite (proj2 (Z.eqb_neq _ _) (proj2 Hhd)).
    eexists. split; [reflexivity|]. eapply iinv_snoc; try done.
    + intros c. simpl. rewrite fupd_at. by zcases; subst.
    + by destruct q.
    + exact (iv_ok _ _ _ H1).
    + apply qlist_append; [done|exact (iv_nodup _ _ _ H1)|done|]. by rewrite Hb1.
Qed.

(** ** Completion *)

Lemma done_flags f : only_valid (Z.land (Z.lor f BUF_VALID) (Z.lnot BUF_DIRTY)) = true.
Proof.
  unfold only_valid. apply Z.eqb_eq, Z.bits_inj'. intros n Hn.
  rewrite !Z.land_spec, Z.lor_spec, Z.lnot_spec, Z.lor_spec by done.
  assert (n = 0 \/ n = 1 \/ n = 2 \/ 3 <= n) as [->|[->|[->|H]]] by lia; try (destruct (Z.testbit f _); reflexivity).
  assert (E2 : Z.testbit BUF_VALID n = false) by (apply Z.bits_above_log2; [done|change (Z.log2 BUF_VALID) with 1; lia]).
  assert (E4 : Z.testbit BUF_DIRTY n = false) by (apply Z.bits_above_log2; [done|change (Z.log2 BUF_DIRTY) with 2; lia]).
  rewrite E2, E4. by rewrite andb_false_r.
Qed.

(** The buffer [ideintr] hands back. *)
Definition completed (d : Z -> Z -> list Z) (x : ibuf) : ibuf :=
  with_flags (Z.land (Z.lor (ib_flags x) BUF_VALID) (Z.lnot BUF_DIRTY))
    (if is_dirty x then x else with_data (d (Z.land (ib_dev x) 1) (ib_blockno x)) x).

Lemma completed_op d x : op_req (op_done x (completed d x)) = req_of x.
Proof. unfold op_done, req_of. by destruct (is_dirty x). Qed.

(** [ideintr] after the drive has carried out the head of the queue. *)
Lemma ideintr_run d0 s w h r b q : iinv d0 (ISys s w h r) (b :: q) -> busy s = false ->
  exists s', ideintr s = Ret tt s' /\
    ibufs s' b = completed (disks s) (ibufs s b) /\
    iinv d0 (ISys s' w (h ++ [op_done (ibufs s b) (ibufs s' b)]) r) q.
Proof.
  intros [Hl Hn Hq Hd Hdr Hok Hle Hdi Hf] Hbusy. simpl in *. destruct Hl as [Hb Hl].
  destruct (Hq b) as (Hbr&Hbw&Hov&Hblk); [constructor|]. assert (Hb0 : b <> 0) by lia.
  assert (Hfin : finished s = true) by (unfold busy in Hbusy; rewrite Hdr in Hbusy; by destruct (finished s)).
  apply NoDup_cons in Hn as [Hbq Hn]. set (x := ibufs s b) in *.
  assert (Hrun : exists bs, bs b = completed (disks s) x /\ (forall c, c <> b -> bs c = ibufs s c) /\
    ideintr s = when (negb (ib_qnext x =? 0)) (idestart (ib_qnext x))
      (set_iwoken (b :: iwoken s) (set_idequeue (ib_qnext x) (set_ibufs bs s)))).
  { unfold ideintr. rewrite bind_gets, Hb, (proj2 (Z.eqb_neq _ _) Hb0), bind_gets, bind_modify. fold x.
    unfold completed, is_dirty. destruct (Z.land (ib_flags x) BUF_DIRTY =? 0) eqn:Ed; simpl.
    - eexists. split; [|split; [|unfold idewait, insl, mod_ibuf, bind, gets, modify, ret; simpl;
        change (busy (set_idequeue (ib_qnext x) s)) with (busy s); rewrite Hbusy; simpl; rewrite Hok; simpl; rewrite Hdr; reflexivity]].
      + simpl. unfold fupd. do 4 (rewrite ?Z.eqb_refl; simpl). fold x. reflexivity.
      + intros c Hc. simpl. unfold fupd. rewrite (proj2 (Z.eqb_neq _ _) Hc). reflexivity.
    - eexists. split; [|split; [|unfold mod_ibuf, bind, gets, modify, ret; simpl; reflexivity]].
      + simpl. unfold fupd. do 4 (rewrite ?Z.eqb_refl; simpl). fold x. reflexivity.
      + intros c Hc. simpl. unfold fupd. rewrite (proj2 (Z.eqb_neq _ _) Hc). reflexivity. }
  destruct Hrun as (bs&Ebs&Hbs&Erun). set (s1 := set_iwoken _ _) in Erun.
  assert (Hq1 : forall c, c ∈ q -> bs c = ibufs s c) by (intros c Hc; apply Hbs; congruence).
  assert (Hl1 : qlist bs (ib_qnext x) q) by (eapply qlist_ext; [|exact Hl]; intros c Hc; by rewrite Hq1).
  assert (Hdone : apply_op (final d0 h) (op_done x (completed (disks s) x)) = disks s).
  { rewrite Hdi at 2. simpl. rewrite Hfin. fold x. unfold op_done. by destruct (is_dirty x). }
  assert (Hleg : legal d0 (h ++ [op_done x (completed (disks s) x)])).
  { apply legal_snoc. split; [done|]. unfold op_done, completed. destruct (is_dirty x) eqn:Ex; [done|]. simpl.
    rewrite Hdi. simpl. fold x. by rewrite andb_false_r. }
  assert (Hrest : forall s', ibufs s' = bs -> idequeue s' = ib_qnext x -> failed s' = false -> disks s' = disks s ->
    match q with [] => busy s' = false | c :: _ => active s' = Some (req_of (bs c)) /\ finished s' = false end ->
    iinv d0 (ISys s' w (h ++ [op_done x (completed (disks s) x)]) r) q).
  { intros s' E1 E2 E3 E4 E5. split; simpl; try done.
    - by rewrite E1, E2.
    - intros c Hc. rewrite E1, Hq1 by done. apply Hq. by constructor.
    - intros c Hc Hcq. rewrite E1. destruct (decide (c = b)) as [->|Hcb]; [rewrite Ebs; apply done_flags|].
      rewrite Hbs by done. apply Hd; [done|]. by apply not_elem_of_cons.
    - rewrite E1. destruct q; [done|]. apply E5.
    - rewrite E4, final_snoc, Hdone. destruct q; [done|]. simpl. by destruct E5 as [_ ->].
    - rewrite map_app, Hf, <- app_assoc. simpl. rewrite completed_op. do 2 f_equal.
      apply map_ext_in. intros c Hc. rewrite E1, Hq1; [done|]. by apply list_elem_of_In. }
  destruct q as [|c q].
  - simpl in Hl1. rewrite Hl1 in Erun. simpl in Erun. exists s1. rewrite Erun. unfold s1. simpl. rewrite Ebs.
    split_and!; [done..|]. by apply Hrest.
  - destruct Hl1 as [Hc _]. destruct (Hq c) as (Hcr&_&_&Hcb); [right; constructor|].
    rewrite Hc in Erun. assert (Hc0 : c <> 0) by lia. rewrite (proj2 (Z.eqb_neq _ _) Hc0) in Erun. simpl in Erun.
    destruct (idestart_run c s1 Hc0) as (p&E); [unfold s1; simpl; by rewrite Hq1 by constructor|done|].
    eexists. rewrite Erun. split; [exact E|]. simpl. rewrite Ebs. split; [done|]. apply Hrest; try done.
Qed.

(** A buffer that is not under way may change freely. *)
Lemma iinv_own d0 s w h r q b x : iinv d0 (ISys s w h r) q -> b ∉ w ->
  iinv d0 (ISys (set_ibufs (fupd (ibufs s) b x) s) w h r) q.
Proof.
  intros Hi Hb. assert (Hbq : b ∉ q) by (intros Hin; destruct (iv_queued _ _ _ Hi b Hin) as (_&?&_); done).
  apply (iinv_relink _ _ _ _ _ _ _ Hi); try done.
  - intros c Hc. simpl. rewrite fupd_ne; [done|]. intros ->. by destruct Hc.
  - eapply qlist_ext; [|exact (iv_list _ _ _ Hi)]. intros c Hc. simpl. by rewrite fupd_ne by congruence.
Qed.

(** The drive carries out the head of the queue. *)
Lemma iinv_drive d0 s w h r q : iinv d0 (ISys s w h r) q -> busy s = true ->
  iinv d0 (ISys (drive_done false s) w h r) q.
Proof.
  intros [Hl Hn Hq Hd Hdr Hok Hle Hdi Hf] Hb. simpl in *. destruct q as [|b q]; [congruence|].
  assert (Hfin : finished s = false) by (unfold busy in Hb; rewrite Hdr in Hb; by destruct (finished s)).
  unfold drive_done. rewrite Hdr. split; simpl; try done.
  rewrite andb_true_r. rewrite Hdi. simpl. rewrite Hfin. simpl. unfold op_done. by destruct (is_dirty (ibufs s b)).
Qed.

Lemma iinv_step d0 g g' q : iinv d0 g q -> istep g g' -> exists q', iinv d0 g' q'.
Proof.
  intros Hi Hs. destruct Hs as [s w h r b x Hb Hw|s s' w h r b Hb Hw Hblk E|s w h r Hb|s s' w h r Hq0 Hbusy E|s w h r b Hb Hr].
  - exists q. by apply iinv_own.
  - destruct (only_valid (ib_flags (ibufs s b))) eqn:Ev; [exfalso|].
    { unfold iderw in E. cbn [negb] in E. rewrite bind_gets, Ev in E. discriminate E. }
    destruct (negb (ib_dev (ibufs s b) =? 0) && (havedisk1 s =? 0)) eqn:Ed.
    { unfold iderw in E. cbn [negb] in E. rewrite bind_gets, Ev, bind_gets, Ed in E. discriminate E. }
    destruct (iderw_run d0 s w h r q b Hi Hb Hw Hblk Ev) as (s1&E1&H1).
    { apply andb_false_iff in Ed as [Ed|Ed]; [left; apply negb_false_iff in Ed; by apply Z.eqb_eq|right; by apply Z.eqb_neq]. }
    rewrite E in E1. injection E1 as <-. eauto.
  - exists q. by apply iinv_drive.
  - destruct q as [|b q]; [by pose proof (iv_list _ _ _ Hi)|].
    destruct (ideintr_run _ _ _ _ _ _ _ Hi Hbusy) as (s1&E1&_&H1). rewrite E in E1. injection E1 as <-.
    pose proof (iv_list _ _ _ Hi) as [Hb _]. simpl in Hb. rewrite Hb. eauto.
  - exists q. destruct Hi as [Hl Hn Hq Hd Hdr Hok Hle Hdi Hf]. simpl in *.
    assert (Hbq : b ∉ q). { intros Hin. destruct (Hq b Hin) as (_&_&Hv&_). unfold iderw_returns in Hr. congruence. }
    split; simpl; try done.
    + intros c Hc. destruct (Hq c Hc) as (?&?&?&?). split_and!; try done; try lia. set_solver.
    + intros c Hc. apply Hd. set_solver.
Qed.

(** No request under way, no request done. *)
Definition idle (s : istate) (d0 : Z -> Z -> list Z) : Prop :=
  idequeue s = 0 /\ active s = None /\ failed s = false /\ disks s = d0.

Lemma iinv_idle s d0 : idle s d0 -> iinv d0 (ISys s ∅ [] []) [].
Proof. intros (E1&E2&E3&E4). split; simpl; try done; try (intros; set_solver); try constructor. unfold busy. by rewrite E2. Qed.


(** Witness: buffer 1 writes block 7, buffer 2 reads it behind it. *)
Definition demo_ide : istate :=
  IState (fupd (fupd (fun _ => IBuf 0 0 0 0 []) 1 (IBuf 6 0 7 0 [11; 12])) 2 (IBuf 0 0 7 0 [])) 0 0
    (fun _ => 0) None false false (fun _ _ => [0; 0]) [].
Definition after (m : IM unit) (s : istate) : istate := match m s with Ret _ s' => s' | Stop _ s' => s' end.
Definition returns (m : IM unit) (s : istate) : bool := match m s with Ret _ _ => true | Stop _ _ => false end.
Definition do_issue (b : Z) (g : isys) : isys :=
  ISys (after (iderw true b) (ist g)) ({[b]} ∪ waiting g) (history g) (issued g ++ [req_of (ibufs (ist g) b)]).
Definition do_drive (g : isys) : isys := ISys (drive_done false (ist g)) (waiting g) (history g) (issued g).
Definition do_intr (g : isys) : isys :=
  let s' := after ideintr (ist g) in
  ISys s' (waiting g) (history g ++ [op_done (ibufs (ist g) (idequeue (ist g))) (ibufs s' (idequeue (ist g)))]) (issued g).

Lemma after_returns m s : returns m s = true -> m s = Ret tt (after m s).
Proof. unfold returns, after. by destruct (m s) as [[] |]. Qed.
Lemma do_issue_step b g : 1 <= b <= IDE_NBUF -> b ∉ waiting g ->
  (0 <=? ib_blockno (ibufs (ist g) b)) && (ib_blockno (ibufs (ist g) b) <? FSSIZE) = true ->
  returns (iderw true b) (ist g) = true -> istep g (do_issue b g).
Proof.
  intros Hb Hw Hk Hr. apply andb_true_iff in Hk as [K1 K2]. apply Z.leb_le in K1. apply Z.ltb_lt in K2.
  destruct g. apply I_issue; [done..|]. by apply after_returns.
Qed.
Lemma do_drive_step g : busy (ist g) = true -> istep g (do_drive g).
Proof. intros Hb. destruct g. by apply I_drive. Qed.
Lemma do_intr_step g : negb (idequeue (ist g) =? 0) && negb (busy (ist g)) = true -> returns ideintr (ist g) = true -> istep g (do_intr g).
Proof.
  intros Hb Hr. apply andb_true_iff in Hb as [H1 H2]. apply negb_true_iff, Z.eqb_neq in H1. apply negb_true_iff in H2.
  destruct g. apply I_intr; [done..|]. by apply after_returns.
Qed.

Definition demo_issued : isys := do_issue 2 (do_issue 1 (ISys demo_ide ∅ [] [])).
Definition demo_run : isys := do_intr (do_drive (do_intr (do_drive demo_issued))).

Lemma demo_run_reachable : star istep (ISys demo_ide ∅ [] []) demo_run.
Proof.
  assert (H1 : star istep (ISys demo_ide ∅ [] []) demo_issued).
  { eapply star_snoc; [eapply star_snoc; [apply star_refl|apply (do_issue_step 1)]|apply (do_issue_step 2)].
    1,5: unfold IDE_NBUF; lia.
    1,4: simpl; set_solver.
    all: vm_compute; reflexivity. }
  do 2 (eapply star_snoc; [|apply do_intr_step; vm_compute; reflexivity];
        eapply star_snoc; [|apply do_drive_step; vm_compute; reflexivity]).
  exact H1.
Qed.


(** An error of the drive: a read that failed is handed back as valid, with
    the bytes the buffer had before. *)
Lemma ide_error_is_silent : let s := drive_done true (after (iderw true 2) demo_ide) in
  returns ideintr s = true /\ iderw_returns 2 (after ideintr s) = true /\ ib_data (ibufs (after ideintr s) 2) = [].
Proof. vm_compute. auto. Qed.
