(* ===== verification/Umalloc.v ===== *)
(** * umalloc.c: the allocator of the user library

    Pointers to headers are numbered in units of [sizeof(Header)] = 8 bytes,
    as the pointer arithmetic of the code counts them; 0 is the null pointer.
    [hd] is the header at a unit.  The free blocks form a ring ordered by
    address that starts at the static [base], a block of size 0. *)
From stdpp Require Import base numbers list gmap strings.
From S2P Require Import Prelude.
Open Scope Z_scope.

Record header := Header { h_ptr : Z; h_size : Z }.
Record heap := Heap { hd : Z -> header; freep : Z; brk : Z }.
Abbreviation UM := (M heap).

Definition set_hd (x : Z -> header) (s : heap) : heap := Heap x (freep s) (brk s).
Definition set_freep (x : Z) (s : heap) : heap := Heap (hd s) x (brk s).
Definition set_brk (x : Z) (s : heap) : heap := Heap (hd s) (freep s) x.
Definition set_ptr (p v : Z) : UM unit := modify (fun s => set_hd (fupd (hd s) p (Header v (h_size (hd s p)))) s).
Definition set_size (p v : Z) : UM unit := modify (fun s => set_hd (fupd (hd s) p (Header (h_ptr (hd s p)) v)) s).
Definition ptr (p : Z) : UM Z := gets (fun s => h_ptr (hd s p)).
Definition size (p : Z) : UM Z := gets (fun s => h_size (hd s p)).

Section umalloc.
(** The unit of [base], and whether [growproc] refuses to change a break by a
    number of bytes. *)
Context (BASE : Z) (refuses : Z -> Z -> bool).

(** A walk visits each of the free blocks at most twice. *)
Definition walk_fuel (s : heap) : nat := Z.to_nat (2 * brk s + 4).

(** [for(p = freep; !(bp > p && bp < p->s.ptr); p = p->s.ptr)
      if(p >= p->s.ptr && (bp > p || bp < p->s.ptr)) break;] *)
Fixpoint free_search (fuel : nat) (h : Z -> header) (bp p : Z) : option Z :=
  match fuel with
  | O => None
  | S fuel' =>
      let nx := h_ptr (h p) in
      if (p <? bp) && (bp <? nx) then Some p
      else if (nx <=? p) && ((p <? bp) || (bp <? nx)) then Some p
      else free_search fuel' h bp nx
  end.

(** The join with the block above, the join with the block below, and the
    last assignment of [free] *)
Definition free_upper (bp p : Z) : UM unit :=
  let! bsize := size bp in
  let! nx := ptr p in
  if bp + bsize =? nx then
    let! nsize := size nx in
    set_size bp (bsize + nsize) ;;
    let! nnx := ptr nx in
    set_ptr bp nnx
  else set_ptr bp nx.
Definition free_lower (bp p : Z) : UM unit :=
  let! psize := size p in
  if p + psize =? bp then
    let! bsize := size bp in
    set_size p (psize + bsize) ;;
    let! bnx := ptr bp in
    set_ptr p bnx
  else set_ptr p bp.
Definition free_link (bp p : Z) : UM unit :=
  free_upper bp p ;;
  free_lower bp p ;;
  modify (set_freep p).

(** [free(ap)] *)
Definition free (ap : Z) : UM unit :=
  let bp := ap - 1 in
  let! s := gets (fun s => s) in
  match free_search (walk_fuel s) (hd s) bp (freep s) with
  | Some p => free_link bp p
  | None => stop_with NoFuel
  end.

(** [sys_sbrk]: the old break, or -1 when [growproc] fails *)
Definition sbrk (n : Z) : UM Z :=
  let n := i32 n in
  let! b := gets brk in
  if refuses b n then ret (-1)
  else modify (set_brk (b + n / 8)) ;; ret b.

(** [morecore(nu)] *)
Definition morecore (nu : Z) : UM Z :=
  let nu := if nu <? 4096 then 4096 else nu in
  let! p := sbrk (u32 (nu * 8)) in
  if p =? -1 then ret 0
  else
    set_size p nu ;;
    free (p + 1) ;;
    gets freep.

(** Taking [nunits] units of the block [p] behind [prevp] *)
Definition take_block (nunits prevp p : Z) : UM Z :=
  let! psize := size p in
  let! p :=
    (if psize =? nunits then
       let! nx := ptr p in
       set_ptr prevp nx ;; ret p
     else
       set_size p (psize - nunits) ;;
       let p := p + (psize - nunits) in
       set_size p nunits ;; ret p) in
  modify (set_freep prevp) ;;
  ret (p + 1).

(** The loop of [malloc] *)
Fixpoint malloc_loop (fuel : nat) (nunits prevp p : Z) : UM Z :=
  match fuel with
  | O => stop_with NoFuel
  | S fuel' =>
      let! psize := size p in
      if nunits <=? psize then take_block nunits prevp p
      else
        let! f := gets freep in
        if p =? f then
          let! p := morecore nunits in
          if p =? 0 then ret 0
          else let! nx := ptr p in malloc_loop fuel' nunits p nx
        else let! nx := ptr p in malloc_loop fuel' nunits p nx
  end.

(** [malloc(nbytes)]: the unit behind the header, or 0 *)
Definition malloc (nbytes : Z) : UM Z :=
  let nunits := u32 (nbytes + 8 - 1) / 8 + 1 in
  let! f := gets freep in
  (if f =? 0 then
     set_ptr BASE BASE ;;
     modify (set_freep BASE) ;;
     set_size BASE 0
   else ret tt) ;;
  let! prevp := gets freep in
  let! p := ptr prevp in
  let! s := gets (fun s => s) in
  malloc_loop (S (walk_fuel s + 2)) nunits prevp p.
End umalloc.

(** ** The ring of free blocks *)

Abbreviation block := (Z * Z)%type.
(** The first address of a list of blocks, or [stop]. *)
Definition first (l : list block) (stop : Z) : Z := match l with (a, _) :: _ => a | [] => stop end.
Fixpoint chain (h : Z -> header) (l : list block) (stop : Z) : Prop :=
  match l with
  | [] => True
  | (a, n) :: l' => h a = Header (first l' stop) n /\ chain h l' stop
  end.

(** The free blocks are apart from one another: neighbours have been joined. *)
Definition before (x y : block) : Prop := fst x < fst y /\ fst x + snd x < fst y.
Definition below (x y : block) : Prop := fst x < fst y /\ fst x + snd x <= fst y.
Fixpoint ordered (l : list block) : Prop :=
  match l with
  | [] => True
  | x :: l' => Forall (before x) l' /\ ordered l'
  end.
Definition apart (x y : block) : Prop := fst x + snd x <= fst y \/ fst y + snd y <= fst x.
Definition total (l : list block) : Z := foldr (fun x t => snd x + t) 0 l.

Lemma first_app l1 l2 stop : first (l1 ++ l2) stop = first l1 (first l2 stop).
Proof. by destruct l1 as [|[]]. Qed.
Lemma chain_app h l1 l2 stop : chain h (l1 ++ l2) stop <-> chain h l1 (first l2 stop) /\ chain h l2 stop.
Proof. induction l1 as [|[a n] l1 IH]; simpl; [tauto|]. rewrite IH, first_app. tauto. Qed.
Lemma chain_ext h h' l stop : (forall a n, (a, n) ∈ l -> h' a = h a) -> chain h l stop -> chain h' l stop.
Proof.
  induction l as [|[a n] l IH]; simpl; [done|]. intros He [Ha Hl]. split.
  - rewrite (He a n) by constructor. done.
  - apply IH; [|done]. intros b m Hb. apply (He b m). by constructor.
Qed.
Lemma chain_in h l stop a n : chain h l stop -> (a, n) ∈ l -> h_size (h a) = n.
Proof.
  induction l as [|[b m] l IH]; simpl; [intros _ H; by apply elem_of_nil in H|]. intros [Hb Hl] Hin.
  apply elem_of_cons in Hin as [[= -> ->]|Hin]; [by rewrite Hb|by apply IH].
Qed.

Lemma ordered_app l1 l2 : ordered (l1 ++ l2) <-> ordered l1 /\ ordered l2 /\ (forall x y, x ∈ l1 -> y ∈ l2 -> before x y).
Proof.
  induction l1 as [|x l1 IH]; simpl.
  - split; [intros H; split_and!; [done..|intros ? ? Hx; by apply elem_of_nil in Hx]|tauto].
  - rewrite IH, Forall_app, !Forall_forall. split.
    + intros ((H1&H2)&H3&H4&H5). split_and!; try done. intros a b Ha Hb. apply elem_of_cons in Ha as [->|Ha]; eauto.
    + intros ((H1&H3)&H4&H5). split_and!; try done; intros; apply H5; try done; [constructor|by constructor].
Qed.
Lemma total_app l1 l2 : total (l1 ++ l2) = total l1 + total l2.
Proof. induction l1; unfold total in *; simpl; lia. Qed.

(** Where a block belongs in the ring. *)
Lemma ordered_split l b : (exists x, x ∈ l /\ fst x < b) -> (forall x, x ∈ l -> fst x <> b) -> ordered l ->
  exists l1 p n l2, l = l1 ++ (p, n) :: l2 /\ p < b /\ (forall x, x ∈ l2 -> b < fst x).
Proof.
  induction l as [|[a n] l IH]; intros (x&Hx&Hxb) Hne Ho; [by apply elem_of_nil in Hx|].
  simpl in Ho. destruct Ho as [Hf Ho]. rewrite Forall_forall in Hf.
  assert (Hab : a < b).
  { apply elem_of_cons in Hx as [->|Hx]; [done|]. destruct (Hf x Hx) as [H _]. simpl in H. lia. }
  destruct (decide (Exists (fun y => fst y < b) l)) as [He|Hn].
  - apply Exists_exists in He as (y&Hy&Hyb).
    destruct IH as (l1&p&k&l2&->&?&?); [by exists y|intros z Hz; apply Hne; by constructor|done|].
    by exists ((a, n) :: l1), p, k, l2.
  - exists [], a, n, l. split_and!; [done..|]. intros y Hy.
    assert (fst y <> b) by (apply Hne; by constructor). assert (~ fst y < b) by (intros H'; apply Hn, Exists_exists; eauto). lia.
Qed.

Lemma ordered_once l1 a n l2 : ordered (l1 ++ (a, n) :: l2) -> a ∉ map fst l1 /\ a ∉ map fst l2.
Proof.
  intros Ho. apply ordered_app in Ho as (_&[H2 _]&H1). rewrite Forall_forall in H2.
  split; intros Hin; apply list_elem_of_In, in_map_iff in Hin as ([c k]&Hc&Hin); apply list_elem_of_In in Hin; simpl in Hc; subst c.
  - destruct (H1 _ (a, n) Hin) as [H _]; [constructor|]. simpl in H. lia.
  - destruct (H2 _ Hin) as [H _]. simpl in H. lia.
Qed.

Lemma total_span l lo hi : ordered l -> Forall (fun x => 1 <= snd x /\ lo <= fst x /\ fst x + snd x <= hi) l -> l <> [] ->
  total l + Z.of_nat (length l) - 1 <= hi - lo.
Proof.
  revert lo. induction l as [|[a n] l IH]; intros lo Ho Hf Hne; [done|]. destruct Ho as [Hb Ho].
  apply Forall_cons in Hf as [(Hn&Ha&Hh) Hf]. simpl in Hn, Ha, Hh. destruct l as [|y l]; [unfold total; simpl; lia|].
  assert (H : total (y :: l) + Z.of_nat (length (y :: l)) - 1 <= hi - (a + n + 1)).
  { apply IH; [done| |done]. rewrite Forall_forall in *. intros z Hz. destruct (Hf z Hz) as (?&?&?).
    destruct (Hb z Hz) as [_ Hz2]. simpl in Hz2. lia. }
  unfold total in *. cbn [length foldr] in *. simpl snd in *. lia.
Qed.

(** ** Finding the place of a block *)

Section search.
Context (h : Z -> header) (base b p n : Z) (l1 l2 : list block).
Context (Hc : chain h (l1 ++ (p, n) :: l2) base) (Ho : ordered (l1 ++ (p, n) :: l2)).
Context (Hp : p < b) (Hl2 : forall x, x ∈ l2 -> b < fst x).
Context (Hfirst : first (l1 ++ (p, n) :: l2) base = base).

Lemma ring_above x : x ∈ l1 ++ (p, n) :: l2 -> base <= fst x.
Proof using Ho Hfirst.
  clear Hc Hp Hl2. destruct (l1 ++ (p, n) :: l2) as [|[a k] l]; [intros H; by apply elem_of_nil in H|].
  simpl in Hfirst, Ho. subst a. intros Hx. apply elem_of_cons in Hx as [->|Hx]; [simpl; lia|].
  destruct Ho as [Hf _]. rewrite Forall_forall in Hf. destruct (Hf x Hx) as [H _]. simpl in H. lia.
Qed.

(** From a block at or below the place. *)
Lemma search_up l3 l4 k fuel : l1 ++ [(p, n)] = l3 ++ l4 -> l4 <> [] -> first l4 base = k -> (length l4 <= fuel)%nat ->
  free_search fuel h b k = Some p.
Proof using Hc Ho Hp Hl2 Hfirst.
  assert (Hbp : base <= p) by (apply (ring_above (p, n)); apply elem_of_app; right; constructor).
  revert l3 k fuel. induction l4 as [|[a m] l4 IH]; intros l3 k fuel Hs Hne Hk Hf; [done|]. simpl in Hk. subst k.
  destruct fuel as [|fuel]; [simpl in Hf; lia|]. simpl in Hf.
  assert (E : l1 ++ (p, n) :: l2 = (l3 ++ (a, m) :: l4) ++ l2) by (rewrite <- Hs, <- app_assoc; done).
  pose proof Hc as Hc'. rewrite E, <- app_assoc in Hc'. apply chain_app in Hc' as [_ [Ha _]]. simpl. rewrite Ha. simpl.
  destruct l4 as [|[c j] l4].
  - apply app_inj_tail in Hs as [-> [= -> ->]]. simpl.
    destruct l2 as [|[c j] l2'] eqn:El2; simpl.
    + destruct (Z.ltb_spec a b); [|lia]. destruct (Z.ltb_spec b base); [lia|]. destruct (Z.leb_spec base a); [done|lia].
    + assert (b < c) by (apply (Hl2 (c, j)); constructor).
      destruct (Z.ltb_spec a b); [|lia]. destruct (Z.ltb_spec b c); [done|lia].
  - simpl. pose proof Ho as Ho'. rewrite E, <- app_assoc in Ho'. apply ordered_app in Ho' as (_&[Hf' _]&_).
    rewrite Forall_forall in Hf'. destruct (Hf' (c, j)) as [Hac _]; [constructor|]. simpl in Hac.
    assert (Hcp : c < b).
    { assert (Hin : (c, j) ∈ l1 ++ [(p, n)]) by (rewrite Hs; apply elem_of_app; right; right; constructor).
      apply elem_of_app in Hin as [Hin|Hin]; [|apply list_elem_of_singleton in Hin as [= -> ->]; done].
      pose proof Ho as Ho'. apply ordered_app in Ho' as (_&_&Hb). destruct (Hb (c, j) (p, n) Hin) as [H _]; [constructor|]. simpl in H. lia. }
    destruct (Z.ltb_spec a b); [|lia]. destruct (Z.ltb_spec b c); [lia|]. destruct (Z.leb_spec c a); [lia|]. simpl.
    apply (IH (l3 ++ [(a, m)])); [by rewrite <- app_assoc|done|done|simpl in *; lia].
Qed.

(** From a block above the place: the walk comes round to [base]. *)
Lemma search_wrap l3 l4 fuel : l2 = l3 ++ l4 ->
  free_search (length l4 + fuel) h b (first l4 base) = free_search fuel h b base.
Proof using Hc Ho Hp Hl2 Hfirst.
  revert l3. induction l4 as [|[a m] l4 IH]; intros l3 Hs; [done|]. simpl.
  pose proof Hc as Hc'. rewrite Hs in Hc'. rewrite app_comm_cons, app_assoc in Hc'. apply chain_app in Hc' as [_ [Ha _]]. rewrite Ha. simpl.
  assert (Hab : b < a) by (apply (Hl2 (a, m)); rewrite Hs; apply elem_of_app; right; constructor).
  assert (Hbb : base <= p) by (apply (ring_above (p, n)); apply elem_of_app; right; constructor).
  destruct (Z.ltb_spec a b); [lia|]. simpl.
  replace (b <? first l4 base) with (match l4 with [] => false | _ => b <? first l4 base end) by (destruct l4; [symmetry; apply Z.ltb_ge; simpl; lia|done]).
  assert (Hno : (first l4 base <=? a) && match l4 with [] => false | _ => b <? first l4 base end = false).
  { destruct l4 as [|[c j] l4']; [by rewrite andb_false_r|]. apply andb_false_iff. left. apply Z.leb_gt. simpl.
    pose proof Ho as Ho'. rewrite Hs, app_comm_cons, app_assoc in Ho'. apply ordered_app in Ho' as (_&[Hf _]&_).
    rewrite Forall_forall in Hf. destruct (Hf (c, j)) as [H1 _]; [constructor|]. exact H1. }
  rewrite Hno. apply (IH (l3 ++ [(a, m)])). by rewrite <- app_assoc.
Qed.

Lemma free_search_finds x fuel : x ∈ map fst (l1 ++ (p, n) :: l2) ->
  (2 * length (l1 ++ (p, n) :: l2) <= fuel)%nat -> free_search fuel h b x = Some p.
Proof using Hc Ho Hp Hl2 Hfirst.
  intros Hx Hf. rewrite length_app in Hf. simpl in Hf. apply list_elem_of_In, in_map_iff in Hx as ([a m]&<-&Hx).
  apply list_elem_of_In in Hx. simpl.
  assert (Hsplit : (a, m) ∈ l1 ++ [(p, n)] \/ (a, m) ∈ l2).
  { apply elem_of_app in Hx as [Hx|Hx]; [left; apply elem_of_app; by left|].
    apply elem_of_cons in Hx as [->|Hx]; [left; apply elem_of_app; right; constructor|by right]. }
  destruct Hsplit as [Hin|Hin]; apply list_elem_of_split in Hin as (l3&l4&E).
  - apply (search_up l3 ((a, m) :: l4)); [done..|].
    apply (f_equal length) in E. rewrite !length_app in E. simpl in *. lia.
  - assert (Hl : length l2 = (length l3 + S (length l4))%nat) by (rewrite E, length_app; done).
    replace fuel with (length ((a, m) :: l4) + (fuel - length ((a, m) :: l4)))%nat by (simpl; lia).
    change a with (first ((a, m) :: l4) base). rewrite (search_wrap l3) by done.
    apply (search_up [] (l1 ++ [(p, n)])); [done|by destruct l1| |rewrite length_app; simpl in *; lia].
    rewrite first_app. rewrite first_app in Hfirst. done.
Qed.
End search.

(** ** Joining a block into the ring *)

(** The free blocks from [p] on after [b] is joined in behind it. *)
Definition join_right (b m : Z) (l2 : list block) : Z * list block :=
  match l2 with
  | (c, k) :: l3 => if b + m =? c then (m + k, l3) else (m, l2)
  | [] => (m, [])
  end.
Definition join (p n b m : Z) (l2 : list block) : list block :=
  let (m', rest) := join_right b m l2 in
  if p + n =? b then (p, n + m') :: rest else (p, n) :: (b, m') :: rest.

Section link.
Context (s : heap) (base b m p n : Z) (l1 l2 : list block).
Context (Hc : chain (hd s) (l1 ++ (p, n) :: l2) base) (Ho : ordered (l1 ++ (p, n) :: l2)).
Context (Hp : p < b) (Hl2 : forall x, x ∈ l2 -> b < fst x) (Hb : h_size (hd s b) = m) (Hm : b + m <> base).

(** Headers other than those of [b] and [p] stay. *)
Definition relinked (h' : Z -> header) : Prop := forall x, x <> b -> x <> p -> h' x = hd s x.

Lemma link_chain h' k rest l3 : relinked h' -> l2 = l3 ++ rest -> 
  chain h' k (first rest base) -> first (k ++ rest) base = p -> chain h' (l1 ++ k ++ rest) base.
Proof using Hc Ho Hp Hl2.
  intros Hr El2 Hk Hf. apply chain_app in Hc as [H1 [_ H2]]. pose proof Ho as Ho'. apply ordered_app in Ho' as (_&[Hf2 _]&Ho1).
  apply chain_app. split.
  - rewrite Hf. eapply chain_ext; [|exact H1]. intros a j Ha. destruct (Ho1 (a, j) (p, n) Ha) as [Hap _]; [constructor|].
    simpl in Hap. apply Hr; lia.
  - apply chain_app. split; [done|]. subst l2. apply chain_app in H2 as [_ H2]. eapply chain_ext; [|exact H2].
    intros a j Ha. assert (Ha2 : (a, j) ∈ l3 ++ rest) by (apply elem_of_app; by right).
    specialize (Hl2 _ Ha2). simpl in Hl2. apply Hr; lia.
Qed.

Lemma free_link_run : exists h', free_link b p s = Ret tt (Heap h' p (brk s)) /\
  chain h' (l1 ++ join p n b m l2) base /\ relinked h'.
Proof using Hc Ho Hp Hl2 Hb Hm.
  assert (Hpn : hd s p = Header (first l2 base) n) by (apply chain_app in Hc as [_ [H _]]; exact H).
  assert (Hpb : p <> b) by lia. assert (Hbp : b <> p) by lia.
  assert (Hright : exists h1 nx m' rest l3, join_right b m l2 = (m', rest) /\ l2 = l3 ++ rest /\ nx = first rest base /\
    h1 b = Header nx m' /\ (forall x, x <> b -> h1 x = hd s x) /\
    free_upper b p s = Ret tt (set_hd h1 s)).
  { unfold free_upper, size, ptr, set_size, set_ptr. rewrite !bind_gets, Hb, Hpn. simpl. destruct l2 as [|[c k] l3] eqn:E2; simpl.
    - rewrite (proj2 (Z.eqb_neq _ _) Hm). exists (fupd (hd s) b (Header base (h_size (hd s b)))), base, m, [], []. split_and!; try done.
      + by rewrite fupd_eq, Hb.
      + intros x Hx. by rewrite fupd_ne.
    - assert (Hcb : c <> b) by (specialize (Hl2 (c, k)); simpl in Hl2; assert (b < c) by (apply Hl2; constructor); lia).
      pose proof Hc as Hc'. apply chain_app in Hc' as [_ [_ [Hck _]]].
      destruct (b + m =? c).
      + rewrite bind_gets, bind_modify, bind_gets. simpl. rewrite fupd_ne, Hck by done. simpl.
        exists (fupd (fupd (hd s) b (Header (h_ptr (hd s b)) (m + k))) b (Header (first l3 base) (m + k))), (first l3 base), (m + k), l3, [(c, k)].
        split_and!; try done.
        * rewrite !fupd_eq. done.
        * intros x Hx. by rewrite !fupd_ne.
        * unfold modify. simpl. by rewrite fupd_eq.
      + exists (fupd (hd s) b (Header c (h_size (hd s b)))), c, m, ((c, k) :: l3), []. split_and!; try done.
        * by rewrite fupd_eq, Hb.
        * intros x Hx. by rewrite fupd_ne. }
  destruct Hright as (h1&nx&m'&rest&l3&Ej&E2&Enx&Hh1&Hrel&Erun).
  unfold free_link. rewrite (bind_run _ _ _ _ _ Erun).
  unfold free_lower, size, ptr, set_size, set_ptr. rewrite bind_assoc, bind_gets. simpl hd. rewrite (Hrel p Hpb), Hpn. simpl h_size.
  unfold join. rewrite Ej. destruct (Z.eqb_spec p b) as [|_]; [lia|].
  destruct (p + n =? b).
  - eexists. split; [unfold bind, gets, modify; simpl; reflexivity|]. split.
    + rewrite (app_comm_cons [] rest). apply (link_chain _ [(p, n + m')] rest l3); [|done| |done].
      * intros x Hx Hxp. simpl. rewrite !fupd_ne by done. by apply Hrel.
      * split; [|done]. simpl. rewrite fupd_eq. simpl. rewrite fupd_eq, fupd_ne by done. rewrite Hh1. simpl. by rewrite Enx.
    + intros x Hx Hxp. simpl. rewrite !fupd_ne by done. by apply Hrel.
  - eexists. split; [unfold bind, gets, modify; simpl; reflexivity|]. split.
    + change ((p, n) :: (b, m') :: rest) with ([(p, n); (b, m')] ++ rest). apply (link_chain _ _ rest l3); [|done| |done].
      * intros x Hx Hxp. simpl. rewrite !fupd_ne by done. by apply Hrel.
      * split; [|split; [|done]].
        -- simpl. rewrite fupd_eq, (Hrel p Hpb), Hpn. done.
        -- simpl. rewrite fupd_ne, Hh1, Enx by done. done.
    + intros x Hx Hxp. simpl. rewrite !fupd_ne by done. by apply Hrel.
Qed.
End link.

(** Properties of blocks that pass to the union of adjacent ones. *)
Lemma join_Forall (Q : block -> Prop) p n b m l2 :
  (forall a i j, Q (a, i) -> Q (a + i, j) -> Q (a, i + j)) ->
  Q (p, n) -> Q (b, m) -> Forall Q l2 -> Forall Q (join p n b m l2).
Proof.
  intros HQ Hp Hb Hl. unfold join. assert (Hr : Q (b, (join_right b m l2).1) /\ Forall Q (join_right b m l2).2).
  { destruct l2 as [|[c k] l3]; simpl; [done|]. apply Forall_cons in Hl as [Hc Hl].
    destruct (Z.eqb_spec (b + m) c) as [<-|]; simpl; [auto|]. split; [done|]. by constructor. }
  destruct (join_right b m l2) as [m' rest]. simpl in Hr. destruct Hr as [Hm Hr].
  destruct (Z.eqb_spec (p + n) b) as [<-|]; [constructor; auto|]. constructor; [done|]. by constructor.
Qed.

Lemma join_total p n b m l2 : total (join p n b m l2) = n + m + total l2.
Proof.
  unfold join. destruct l2 as [|[c k] l3]; simpl; [|destruct (b + m =? c)];
    destruct (p + n =? b); unfold total; simpl; lia.
Qed.

Lemma join_length p n b m l2 : (length (join p n b m l2) <= S (S (length l2)))%nat.
Proof.
  unfold join. destruct l2 as [|[c k] l3]; simpl; [|destruct (b + m =? c)];
    destruct (p + n =? b); simpl; lia.
Qed.

Lemma join_big p n b m l2 : 0 <= n -> Forall (fun x => 0 <= snd x) l2 -> exists x, x ∈ join p n b m l2 /\ m <= snd x.
Proof.
  intros Hn Hl. unfold join. assert (Hr : m <= (join_right b m l2).1).
  { destruct l2 as [|[c k] l3]; simpl; [lia|]. apply Forall_cons in Hl as [Hk _]. simpl in Hk. destruct (b + m =? c); simpl; lia. }
  destruct (join_right b m l2) as [m' rest]. simpl in Hr.
  destruct (p + n =? b); [exists (p, n + m'); split; [constructor|simpl; lia]|].
  exists (b, m'). split; [right; constructor|done].
Qed.

Lemma join_ordered p n b m l2 : 0 <= n -> 0 <= m -> Forall (fun x => 0 <= snd x) l2 ->
  below (p, n) (b, m) -> Forall (below (b, m)) l2 -> ordered l2 ->
  ordered (join p n b m l2) /\ forall x, before x (p, n) -> Forall (before x) l2 -> Forall (before x) (join p n b m l2).
Proof.
  intros Hn Hm Hl [Hpb Hpn] Hb Ho. simpl in *.
  assert (Hr : forall m' rest, join_right b m l2 = (m', rest) -> m <= m' /\ Forall (before (b, m')) rest /\ ordered rest /\
    forall Q, Forall Q l2 -> Forall Q rest).
  { intros m' rest. destruct l2 as [|[c k] l3]; simpl; [intros [= <- <-]; split_and!; [lia|constructor|done|done]|].
    apply Forall_cons in Hl as [Hk Hl]. simpl in Hk. destruct Ho as [Hc Ho'].
    destruct (Z.eqb_spec (b + m) c) as [E|E]; intros [= <- <-].
    - split_and!; [lia| |done|].
      + eapply Forall_impl; [exact Hc|]. intros [d j] [H1 H2]. split; simpl in *; lia.
      + intros Q HQ. by apply Forall_cons in HQ as [_ HQ].
    - apply Forall_cons in Hb as [[Hbc Hbc'] _]. simpl in *. split_and!; [lia| |done..].
      constructor; [split; simpl; lia|]. eapply Forall_impl; [exact Hc|]. intros [d j] [H1 H2]. split; simpl in *; lia. }
  unfold join. destruct (join_right b m l2) as [m' rest]. destruct (Hr m' rest eq_refl) as (Hmm&Hbr&Hor&Hsub).
  destruct (Z.eqb_spec (p + n) b) as [E|E]; simpl.
  - split; [split; [|done]|].
    + eapply Forall_impl; [exact Hbr|]. intros [d j] [H1 H2]. split; simpl in *; lia.
    + intros x [H1 H2] Hx. constructor; [done|]. by apply Hsub.
  - split; [split; [|split; done]|].
    + constructor; [split; simpl; lia|]. eapply Forall_impl; [exact Hbr|]. intros [d j] [H1 H2]. split; simpl in *; lia.
    + intros x [H1 H2] Hx. simpl in *. constructor; [done|]. constructor; [split; simpl; lia|]. by apply Hsub.
Qed.

(** ** Invariant *)

Fixpoint pairwise (l : list block) : Prop :=
  match l with
  | [] => True
  | x :: l' => Forall (apart x) l' /\ pairwise l'
  end.
Lemma apart_sym x y : apart x y -> apart y x.
Proof. unfold apart. tauto. Qed.
Lemma pairwise_remove l1 x l2 : pairwise (l1 ++ x :: l2) -> pairwise (l1 ++ l2) /\ Forall (apart x) (l1 ++ l2).
Proof.
  induction l1 as [|y l1 IH]; simpl; [tauto|]. intros [Hy H]. destruct (IH H) as [H1 H2].
  apply Forall_app in Hy as [Hy1 Hy2]. apply Forall_cons in Hy2 as [Hyx Hy2].
  split; [split; [|done]; by apply Forall_app|]. constructor; [by apply apart_sym|done].
Qed.

Section invariant.
Context (BASE HEAP : Z) (Hbase : 0 < BASE < HEAP).

(** A block of the memory the kernel has given. *)
Definition in_heap (s : heap) (x : block) : Prop := 1 <= snd x /\ HEAP <= fst x /\ fst x + snd x <= brk s.

(** The free blocks form the ring [R]; the blocks handed out are [L]; they
    tile the memory. *)
Record uinv (s : heap) (R L : list block) : Prop := {
  uv_first : exists F, R = (BASE, 0) :: F;
  uv_chain : chain (hd s) R BASE;
  uv_ord : ordered R;
  uv_free : Forall (fun x => x = (BASE, 0) \/ in_heap s x) R;
  uv_live : Forall (in_heap s) L;
  uv_freep : freep s ∈ map fst R;
  uv_apart : forall x, x ∈ L -> Forall (apart x) R;
  uv_pair : pairwise L;
  uv_size : forall a n, (a, n) ∈ L -> h_size (hd s a) = n;
  uv_total : total R + total L = brk s - HEAP
}.

Lemma total_live s l : Forall (in_heap s) l -> Z.of_nat (length l) <= total l.
Proof. induction 1 as [|x l [Hx _] _ IH]; simpl; [done|]. unfold total in *. simpl. lia. Qed.

Lemma ring_tail s F L : uinv s ((BASE, 0) :: F) L -> Forall (in_heap s) F.
Proof.
  intros [_ _ [Ho _] Hf _ _ _ _ _ _]. apply Forall_cons in Hf as [_ Hf]. rewrite Forall_forall in *. intros x Hx.
  destruct (Hf x Hx) as [->|]; [|done]. destruct (Ho _ Hx) as [H _]. simpl in H. lia.
Qed.

Lemma free_ring_length s R L : uinv s R L -> Z.of_nat (length R) <= brk s.
Proof using Hbase.
  intros Hi. destruct (uv_first _ _ _ Hi) as [F ->]. pose proof (total_live _ _ (ring_tail _ _ _ Hi)).
  pose proof (total_live _ _ (uv_live _ _ _ Hi)). pose proof (uv_total _ _ _ Hi) as Ht. unfold total in *. simpl in *. lia.
Qed.

(** [free] of a block handed out: it joins the ring, nothing else changes. *)
Lemma free_run s R L1 b m L2 : uinv s R (L1 ++ (b, m) :: L2) ->
  exists s' R', free (b + 1) s = Ret tt s' /\ brk s' = brk s /\ uinv s' R' (L1 ++ L2) /\
    (length R' <= S (length R))%nat /\ exists x, x ∈ R' /\ m <= snd x.
Proof using Hbase.
  intros Hi. pose proof (free_ring_length _ _ _ Hi) as Hlen. destruct Hi as [[F HF] Hc Ho Hf Hl Hp Ha Hpw Hs Ht].
  assert (HbL : (b, m) ∈ L1 ++ (b, m) :: L2) by (apply elem_of_app; right; constructor).
  assert (Hbm : in_heap s (b, m)) by (rewrite Forall_forall in Hl; by apply Hl). pose proof (Ha _ HbL) as Hap.
  destruct Hbm as (Hm1&Hb1&Hb2). simpl in Hm1, Hb1, Hb2. rewrite Forall_forall in Hap, Hf.
  assert (Hne : forall x, x ∈ R -> fst x <> b).
  { intros [a n] Hx. simpl. intros ->. destruct (Hf _ Hx) as [[= -> ->]|[Hn _]]; [lia|].
    destruct (Hap _ Hx) as [H|H]; simpl in *; lia. }
  destruct (ordered_split R b) as (l1&p&n&l2&ER&Hpb&Hl2); [|done|done|].
  { exists (BASE, 0). rewrite HF. split; [constructor|simpl; lia]. }
  assert (Hpn : 0 <= n /\ p + n <= b).
  { assert (Hin : (p, n) ∈ R) by (rewrite ER; apply elem_of_app; right; constructor).
    destruct (Hf _ Hin) as [[= -> ->]|[Hn _]]; [lia|]. simpl in Hn. destruct (Hap _ Hin) as [H|H]; simpl in *; lia. }
  assert (Hl2b : Forall (below (b, m)) l2 /\ Forall (fun x => 0 <= snd x) l2).
  { split; apply Forall_forall; intros [c k] Hc2; (assert (Hin : (c, k) ∈ R) by (rewrite ER; apply elem_of_app; right; by right)).
    - specialize (Hl2 _ Hc2). simpl in Hl2. split; [done|]. simpl.
      destruct (Hf _ Hin) as [[= -> ->]|[Hk _]]; [lia|]. simpl in Hk. destruct (Hap _ Hin) as [H|H]; simpl in *; lia.
    - destruct (Hf _ Hin) as [[= -> ->]|[Hk _]]; simpl in *; lia. }
  destruct Hl2b as [Hl2b Hl2n].
  assert (Hfst : first R BASE = BASE) by (by rewrite HF).
  rewrite ER in Hc, Ho, Hfst, Hp, Hlen. pose proof Ho as Ho'. apply ordered_app in Ho' as (Ho1&[Hpl2 Ho2]&Hcross).
  unfold free. replace (b + 1 - 1) with b by lia. rewrite bind_gets.
  rewrite (free_search_finds _ _ _ _ _ _ _ Hc Ho Hpb Hl2 Hfst _ _ Hp) by (unfold walk_fuel; lia).
  destruct (free_link_run s BASE b m p n l1 l2 Hc Ho Hpb Hl2 (Hs _ _ HbL) ltac:(lia)) as (h'&E&Hc'&Hrel).
  eexists _, (l1 ++ join p n b m l2). split; [exact E|]. split; [done|].
  destruct (join_ordered p n b m l2) as [Hjo Hjb]; [lia|lia|done|split; simpl; lia|done|done|].
  split; [split; simpl|].
  - destruct l1 as [|x l1]; simpl in *.
    + rewrite HF in ER. injection ER as <- <- <-. unfold join. destruct (join_right b m F).
      destruct (Z.eqb_spec (BASE + 0) b); [lia|]. eauto.
    + rewrite HF in ER. injection ER as <- _. eauto.
  - done.
  - apply ordered_app. split_and!; [done..|]. intros x y Hx Hy.
    assert (Hall : Forall (before x) (join p n b m l2)); [|rewrite Forall_forall in Hall; by apply Hall].
    apply Hjb; [apply Hcross; [done|constructor]|]. apply Forall_forall. intros z Hz. apply Hcross; [done|by right].
  - assert (Hff : Forall (fun x => x = (BASE, 0) \/ in_heap s x) (l1 ++ (p, n) :: l2)) by (rewrite <- ER; by apply Forall_forall).
    apply Forall_app in Hff as [Hf1 Hf2]. apply Forall_cons in Hf2 as [Hfp Hf2]. apply Forall_app. split; [done|].
    apply join_Forall; [|done|right; done|done]. intros a i j H1 H2.
    destruct H1 as [[= -> ->]|(?&?&?)]; destruct H2 as [[= E1 ->]|(?&?&?)]; simpl in *.
    + left. f_equal; lia.
    + lia.
    + lia.
    + right. unfold in_heap. simpl. lia.
  - apply Forall_app in Hl as [Hl1 Hl']. apply Forall_cons in Hl' as [_ Hl']. by apply Forall_app.
  - rewrite map_app. apply elem_of_app. right. unfold join. destruct (join_right b m l2).
    destruct (p + n =? b); constructor.
  - intros [y k] Hy. assert (HyL : (y, k) ∈ L1 ++ (b, m) :: L2) by (rewrite elem_of_app in *; destruct Hy; [by left|right; by right]).
    assert (Hyk : 1 <= k) by (rewrite Forall_forall in Hl; destruct (Hl _ HyL) as [? _]; done).
    specialize (Ha _ HyL). rewrite ER in Ha. apply Forall_app in Ha as [Ha1 Ha2]. apply Forall_cons in Ha2 as [Hap2 Ha2].
    apply Forall_app. split; [done|]. apply join_Forall; [|done| |done].
    + intros a i j [H1|H1] [H2|H2]; unfold apart; simpl in *; lia.
    + apply apart_sym. destruct (pairwise_remove _ _ _ Hpw) as [_ Hb']. rewrite Forall_forall in Hb'. by apply Hb'.
  - exact (proj1 (pairwise_remove _ _ _ Hpw)).
  - intros a i Hai. assert (HaL : (a, i) ∈ L1 ++ (b, m) :: L2) by (rewrite elem_of_app in *; destruct Hai; [by left|right; by right]).
    rewrite Hrel; [by apply Hs| |].
    + intros ->. destruct (pairwise_remove _ _ _ Hpw) as [_ Hb']. rewrite Forall_forall in Hb'. specialize (Hb' _ Hai).
      rewrite Forall_forall in Hl. destruct (Hl _ HaL) as [Hi1 _]. destruct Hb' as [H|H]; simpl in *; lia.
    + intros ->. rewrite Forall_forall in Hl. destruct (Hl _ HaL) as (Hi1&Hi2&_). simpl in *.
      assert (Hin : (p, n) ∈ R) by (rewrite ER; apply elem_of_app; right; constructor).
      specialize (Ha _ HaL). rewrite Forall_forall in Ha. specialize (Ha _ Hin).
      destruct (Hf _ Hin) as [[= -> ->]|[Hn _]]; [lia|]. simpl in Hn. destruct Ha as [H|H]; simpl in *; lia.
  - rewrite ER in Ht. rewrite !total_app in *. rewrite join_total. unfold total in *. simpl in *. lia.
  - split; [rewrite ER, !length_app; pose proof (join_length p n b m l2); simpl; lia|].
    destruct (join_big p n b m l2) as (x&Hx&Hxm); [lia|done|]. exists x. split; [|done]. apply elem_of_app. by right.
Qed.

(** ** Taking a block *)

Lemma live_not_free s R L a i c j : uinv s R L -> (a, i) ∈ L -> (c, j) ∈ R -> a <> c /\ ~ (c <= a < c + j).
Proof using Hbase.
  intros Hi Ha Hc. pose proof (uv_live _ _ _ Hi) as Hl. rewrite Forall_forall in Hl. destruct (Hl _ Ha) as (H1&H2&_).
  pose proof (uv_apart _ _ _ Hi _ Ha) as Hap. rewrite Forall_forall in Hap. specialize (Hap _ Hc).
  pose proof (uv_free _ _ _ Hi) as Hf. rewrite Forall_forall in Hf.
  destruct (Hf _ Hc) as [[= -> ->]|[Hj _]]; destruct Hap as [H|H]; simpl in *; lia.
Qed.

(** What is left of the block [p] of [n] units after [nunits] are taken. *)
Definition left_over (p n nunits : Z) : list block := if n =? nunits then [] else [(p, n - nunits)].

(** A ring with the block behind [q] cut, over the headers [h']. *)
Lemma uinv_cut s L R1 q k p n R2 nunits h' : uinv s (R1 ++ (q, k) :: (p, n) :: R2) L -> 1 <= nunits <= n ->
  let r := p + (n - nunits) in
  h' q = Header (first (left_over p n nunits ++ R2) BASE) k ->
  (n <> nunits -> h' p = Header (first R2 BASE) (n - nunits)) -> h_size (h' r) = nunits ->
  (forall x, x <> q -> x <> p -> x <> r -> h' x = hd s x) ->
  uinv (Heap h' q (brk s)) (R1 ++ (q, k) :: left_over p n nunits ++ R2) ((r, nunits) :: L).
Proof using Hbase.
  intros Hi Hn r Hq Hp Hr Hh. pose proof Hi as [[F HF] Hc Ho Hf Hl Hfp Ha Hpw Hs Ht].
  pose proof Ho as Ho'. apply ordered_app in Ho' as (Ho1&[Hq2 [Hp2 Ho2]]&Hcr).
  apply Forall_cons in Hq2 as [[Hqp Hqp'] Hq2]. simpl in Hqp, Hqp'.
  assert (Hpin : (p, n) ∈ R1 ++ (q, k) :: (p, n) :: R2) by (apply elem_of_app; right; right; constructor).
  assert (Hph : in_heap s (p, n)).
  { rewrite Forall_forall in Hf. destruct (Hf _ Hpin) as [[= -> ->]|]; [lia|done]. }
  assert (Hlo : forall P : block -> Prop, (n <> nunits -> P (p, n - nunits)) -> Forall P (left_over p n nunits)).
  { intros P HP. unfold left_over. destruct (Z.eqb_spec n nunits); [constructor|]. constructor; [auto|constructor]. }
  assert (Hsub : forall x, before (p, n) x -> before (p, n - nunits) x) by (intros [c j] [H1 H2]; split; simpl in *; lia).
  apply Forall_app in Hf as [Hf1 Hf2]. apply Forall_cons in Hf2 as [Hfq Hf2]. apply Forall_cons in Hf2 as [_ Hf2].
  assert (Hold : forall x, apart x (p, n) -> 1 <= snd x -> (n <> nunits -> apart x (p, n - nunits)) /\ apart x (r, nunits)).
  { intros [a i] [H|H] Hi1; unfold apart, r; simpl in *; lia. }
  split; simpl.
  - destruct R1 as [|x R1]; simpl in *; [injection HF as -> -> _|injection HF as -> _]; eexists; reflexivity.
  - apply chain_app in Hc as (Hc1&Hcq&Hcp&Hc2). apply chain_app. split; [|split; [done|]].
    + eapply chain_ext; [|exact Hc1]. intros a i Hai. destruct (Hcr (a, i) (q, k) Hai) as [H1 _]; [constructor|].
      destruct (Hcr (a, i) (p, n) Hai) as [H2 _]; [right; constructor|]. simpl in *. apply Hh; unfold r; lia.
    + apply chain_app. split.
      * unfold left_over in *. destruct (Z.eqb_spec n nunits); simpl; [done|]. split; [auto|done].
      * eapply chain_ext; [|exact Hc2]. intros a i Hai. rewrite Forall_forall in Hp2. destruct (Hp2 _ Hai) as [H1 H2].
        simpl in *. apply Hh; unfold r; lia.
  - apply ordered_app. split_and!; [done| |].
    + simpl. split; [apply Forall_app; split; [|done]; apply Hlo; intros _; split; simpl; lia|].
      apply ordered_app. split_and!; [|done|].
      * unfold left_over. destruct (n =? nunits); simpl; [done|]. split; constructor.
      * intros x y Hx Hy. unfold left_over in Hx. destruct (n =? nunits); [by apply elem_of_nil in Hx|].
        apply list_elem_of_singleton in Hx as ->. apply Hsub. rewrite Forall_forall in Hp2. by apply Hp2.
    + intros x y Hx Hy. apply elem_of_cons in Hy as [->|Hy]; [apply Hcr; [done|constructor]|].
      apply elem_of_app in Hy as [Hy|Hy]; [|apply Hcr; [done|right; by right]].
      unfold left_over in Hy. destruct (n =? nunits); [by apply elem_of_nil in Hy|]. apply list_elem_of_singleton in Hy as ->.
      destruct (Hcr x (p, n) Hx) as [H1 H2]; [right; constructor|]. split; simpl in *; lia.
  - apply Forall_app. split; [done|]. constructor; [done|]. apply Forall_app. split; [|done]. apply Hlo. intros Hne. right.
    destruct Hph as (?&?&?). unfold in_heap. simpl in *. lia.
  - constructor; [|done]. destruct Hph as (?&?&?). unfold in_heap, r. simpl in *. lia.
  - rewrite map_app. apply elem_of_app. right. constructor.
  - intros x Hx. apply elem_of_cons in Hx as [->|Hx].
    + assert (Hnew : forall y, before y (p, n) \/ before (p, n) y -> apart (r, nunits) y).
      { intros [c j] [[H1 H2]|[H1 H2]]; unfold apart, r; simpl in *; lia. }
      apply Forall_app. split; [apply Forall_forall; intros y Hy; apply Hnew; left; apply Hcr; [done|right; constructor]|].
      constructor; [apply Hnew; left; done|]. apply Forall_app. split.
      * apply Hlo. intros _. unfold apart, r. simpl. lia.
      * eapply Forall_impl; [exact Hp2|]. intros y Hy. apply Hnew. by right.
    + pose proof (Ha _ Hx) as Hax. apply Forall_app in Hax as [Ha1 Ha2]. apply Forall_cons in Ha2 as [Haq Ha2].
      apply Forall_cons in Ha2 as [Hap Ha2]. rewrite Forall_forall in Hl. destruct (Hl _ Hx) as [Hx1 _].
      apply Forall_app. split; [done|]. constructor; [done|]. apply Forall_app. split; [|done]. apply Hlo. by apply Hold.
  - split; [|done]. apply Forall_forall. intros x Hx. apply apart_sym. pose proof (Ha _ Hx) as Hax. rewrite Forall_forall in Hax.
    rewrite Forall_forall in Hl. destruct (Hl _ Hx) as [Hx1 _]. by apply Hold; [apply Hax|].
  - intros a i Hai. apply elem_of_cons in Hai as [[= -> ->]|Hai]; [done|].
    assert (Hqin : (q, k) ∈ R1 ++ (q, k) :: (p, n) :: R2) by (apply elem_of_app; right; constructor).
    destruct (live_not_free _ _ _ _ _ _ _ Hi Hai Hqin) as [Hnq _].
    destruct (live_not_free _ _ _ _ _ _ _ Hi Hai Hpin) as [Hnp Hnr].
    rewrite Hh; [by apply Hs|done|done|]. unfold r. lia.
  - assert (Hlt : total (left_over p n nunits) = n - nunits).
    { unfold left_over. destruct (Z.eqb_spec n nunits); unfold total; simpl; lia. }
    change ((q, k) :: (p, n) :: R2) with ([(q, k); (p, n)] ++ R2) in Ht. rewrite (app_comm_cons _ R2), !total_app in *.
    change ((q, k) :: left_over p n nunits) with ([(q, k)] ++ left_over p n nunits). rewrite total_app, Hlt.
    unfold total in *. simpl in *. lia.
Qed.

Lemma take_block_run s L R1 q k p n R2 nunits : uinv s (R1 ++ (q, k) :: (p, n) :: R2) L -> 1 <= nunits <= n ->
  exists s' R', take_block nunits q p s = Ret (p + (n - nunits) + 1) s' /\ brk s' = brk s /\
    uinv s' R' ((p + (n - nunits), nunits) :: L).
Proof using Hbase.
  intros Hi Hn. pose proof (uv_chain _ _ _ Hi) as Hc. apply chain_app in Hc as (_&Hcq&Hcp&_). simpl in Hcq.
  pose proof (uv_ord _ _ _ Hi) as Ho. apply ordered_app in Ho as (_&[Hq2 _]&_). apply Forall_cons in Hq2 as [[Hqp _] _]. simpl in Hqp.
  unfold take_block, size, ptr, set_size, set_ptr. rewrite bind_gets, Hcp. simpl h_size.
  pose proof (uinv_cut s L R1 q k p n R2 nunits) as Hcut. unfold left_over in Hcut.
  destruct (Z.eqb_spec n nunits) as [E|E].
  - subst n. rewrite bind_assoc, bind_gets, bind_assoc, bind_modify, bind_ret_l, bind_modify. rewrite Hcp.
    eexists _, _. split; [replace (p + (nunits - nunits)) with p by lia; reflexivity|]. split; [done|]. simpl.
    apply Hcut; try done; simpl; replace (p + (nunits - nunits)) with p by lia.
    + rewrite fupd_eq. by rewrite Hcq.
    + rewrite fupd_ne, Hcp by lia. done.
    + intros x H1 H2 _. by rewrite fupd_ne.
  - rewrite bind_assoc, bind_modify, bind_assoc, bind_modify, bind_ret_l, bind_modify.
    eexists _, _. split; [reflexivity|]. split; [done|]. simpl. apply Hcut; try done; simpl.
    + rewrite !fupd_ne, Hcq by lia. done.
    + intros _. rewrite fupd_ne, fupd_eq, Hcp by lia. done.
    + by rewrite fupd_eq.
    + intros x H1 H2 H3. by rewrite !fupd_ne.
Qed.

(** ** The loop of malloc *)

Context (refuses : Z -> Z -> bool).

(** The block [(r, nunits)] has been handed out. *)
Definition handed (s : heap) (L : list block) (nunits : Z) (c : UM Z) (b : Z) : Prop :=
  exists r s' R', c s = Ret (r + 1) s' /\ brk s' = b /\ uinv s' R' ((r, nunits) :: L).

Lemma loop_fit s L R1 q k p n R2 nunits fuel : uinv s (R1 ++ (q, k) :: (p, n) :: R2) L -> 1 <= nunits <= n ->
  handed s L nunits (malloc_loop refuses (S fuel) nunits q p) (brk s).
Proof using Hbase.
  intros Hi Hn. destruct (take_block_run _ _ _ _ _ _ _ _ _ Hi Hn) as (s'&R'&E&Hb&Hi').
  exists (p + (n - nunits)), s', R'. split; [|done]. simpl. unfold size at 1. rewrite bind_gets.
  pose proof (uv_chain _ _ _ Hi) as Hc. apply chain_app in Hc as (_&_&Hcp&_). rewrite Hcp. simpl.
  destruct (Z.leb_spec nunits n); [done|lia].
Qed.

Lemma loop_next s p nunits prevp fuel : h_size (hd s p) < nunits -> p <> freep s ->
  malloc_loop refuses (S fuel) nunits prevp p s = malloc_loop refuses fuel nunits p (h_ptr (hd s p)) s.
Proof.
  intros Hp Hf. simpl. unfold size at 1, ptr. rewrite bind_gets. destruct (Z.leb_spec nunits (h_size (hd s p))); [lia|].
  rewrite bind_gets. rewrite (proj2 (Z.eqb_neq _ _) Hf). by rewrite bind_gets.
Qed.

(** Over the blocks [B] behind [(q, k)]: one of them fits, or all are passed. *)
Lemma loop_scan s L nunits A q k B C fuel : uinv s (A ++ (q, k) :: B ++ C) L -> 1 <= nunits ->
  (freep s ∉ map fst B) ->
  handed s L nunits (malloc_loop refuses (length B + fuel) nunits q (first (B ++ C) BASE)) (brk s) \/
  (Forall (fun x => snd x < nunits) B /\ exists A' q' k', A ++ (q, k) :: B = A' ++ [(q', k')] /\
   malloc_loop refuses (length B + fuel) nunits q (first (B ++ C) BASE) s = malloc_loop refuses fuel nunits q' (first C BASE) s).
Proof using Hbase.
  revert A q k. induction B as [|[p n] B IH]; intros A q k Hi Hn Hf.
  - right. split; [done|]. by exists A, q, k.
  - destruct (Z.le_gt_cases nunits n) as [Hfit|Hsmall].
    + left. apply (loop_fit s L A q k p n (B ++ C)); [done|lia].
    + pose proof (uv_chain _ _ _ Hi) as Hc. apply chain_app in Hc as (_&_&Hcp&_).
      simpl in Hf. apply not_elem_of_cons in Hf as [Hfp HfB].
      assert (E : malloc_loop refuses (length ((p, n) :: B) + fuel) nunits q (first (((p, n) :: B) ++ C) BASE) s =
        malloc_loop refuses (length B + fuel) nunits p (first (B ++ C) BASE) s).
      { cbn [length Nat.add app first]. rewrite loop_next; [by rewrite Hcp|rewrite Hcp; done|done]. }
      destruct (IH (A ++ [(q, k)]) p n) as [(r&s'&R'&Hr&Hrest)|(HB&A'&q'&k'&EA&Er)];
        [by rewrite <- app_assoc|done|done| |].
      * left. exists r, s', R'. by rewrite E.
      * right. split; [by constructor|]. exists A', q', k'. split; [by rewrite <- EA, <- app_assoc|by rewrite E].
Qed.

(** What the loop does when it comes to [freep] and the block there is too
    small. *)
Definition grow (nunits : Z) (fuel : nat) : UM Z :=
  let! p := morecore refuses nunits in
  if p =? 0 then ret 0 else let! nx := ptr p in malloc_loop refuses fuel nunits p nx.

Lemma loop_freep s p nunits prevp fuel : h_size (hd s p) < nunits -> p = freep s ->
  malloc_loop refuses (S fuel) nunits prevp p s = grow nunits fuel s.
Proof.
  intros Hp Hf. simpl. unfold size at 1. rewrite bind_gets. destruct (Z.leb_spec nunits (h_size (hd s p))); [lia|].
  rewrite bind_gets, (proj2 (Z.eqb_eq _ _) Hf). done.
Qed.

(** Once round the ring. *)
Lemma loop_round s R L nunits fuel : uinv s R L -> 1 <= nunits ->
  let c := malloc_loop refuses (length R + fuel) nunits (freep s) (h_ptr (hd s (freep s))) in
  handed s L nunits c (brk s) \/ (Forall (fun x => snd x < nunits) R /\ c s = grow nunits fuel s).
Proof using Hbase.
  intros Hi Hn. pose proof (uv_freep _ _ _ Hi) as Hf. apply list_elem_of_In, in_map_iff in Hf as ([f nf]&Ef&Hf).
  simpl in Ef. rewrite <- Ef. apply list_elem_of_In, list_elem_of_split in Hf as (A&B&ER).
  pose proof (uv_ord _ _ _ Hi) as Ho. rewrite ER in Ho. destruct (ordered_once _ _ _ _ Ho) as [HfA HfB].
  pose proof (uv_chain _ _ _ Hi) as Hc. rewrite ER in Hc. apply chain_app in Hc as (_&Hcf&_). rewrite Hcf. simpl h_ptr.
  destruct (uv_first _ _ _ Hi) as [F HF]. rewrite ER in HF. destruct A as [|x A]; simpl in HF.
  - injection HF as -> -> ->. simpl in ER.
    destruct (loop_scan s L nunits [] BASE 0 F [] (S fuel)) as [Hh|(HB&A'&q'&k'&_&E)];
      [by rewrite app_nil_r, <- ER|done|by rewrite <- Ef| |]; rewrite app_nil_r in *;
      replace (length F + S fuel)%nat with (length R + fuel)%nat in * by (rewrite ER; simpl; lia); [by left|].
    right. split; [rewrite ER; constructor; [simpl; lia|done]|]. rewrite E. simpl first.
    apply loop_freep; [rewrite Hcf; simpl; lia|done].
  - injection HF as -> _. simpl in HfA. apply not_elem_of_cons in HfA as [HfBASE HfA].
    assert (Hbh : hd s BASE = Header (first (A ++ (f, nf) :: B) BASE) 0).
    { pose proof (uv_chain _ _ _ Hi) as Hc. rewrite ER in Hc. by destruct Hc. }
    destruct (loop_scan s L nunits ((BASE, 0) :: A) f nf B [] (S (length A + S fuel))) as [Hh|(HB&_&q'&_&_&E)];
      [by rewrite app_nil_r, <- ER|done|by rewrite <- Ef| |]; rewrite app_nil_r in *;
      replace (length B + S (length A + S fuel))%nat with (length R + fuel)%nat in * by (rewrite ER, length_app; simpl; lia); [by left|].
    simpl first in E. rewrite loop_next, Hbh in E; [|rewrite Hbh; simpl; lia|by rewrite <- Ef]. simpl h_ptr in E.
    destruct (loop_scan s L nunits [] BASE 0 A ((f, nf) :: B) (S fuel)) as [(r&s'&R'&Hr&H1)|(HA&A'&q&k&EA&E2)];
      [by rewrite ER in Hi|done|by rewrite <- Ef|left; exists r, s', R'; by rewrite E|].
    simpl first in E2. destruct (Z.le_gt_cases nunits nf) as [Hfit|Hsmall].
    + left. destruct (loop_fit s L A' q k f nf B nunits fuel) as (r&s'&R'&Hr&H1); [|lia|exists r, s', R'; by rewrite E, E2].
      simpl in EA. by rewrite ER, EA, <- app_assoc in Hi.
    + right. split; [rewrite ER; constructor; [simpl; lia|]; apply Forall_app; split; [done|]; by constructor|].
      rewrite E, E2. apply loop_freep; [by rewrite Hcf|done].
Qed.

(** ** More memory *)

Lemma brk_above s R L : uinv s R L -> HEAP <= brk s.
Proof.
  intros Hi. destruct (uv_first _ _ _ Hi) as [F ->]. pose proof (total_live _ _ (ring_tail _ _ _ Hi)).
  pose proof (total_live _ _ (uv_live _ _ _ Hi)). pose proof (uv_total _ _ _ Hi) as Ht. unfold total in *. simpl in *. lia.
Qed.

(** The new memory as a block handed out. *)
Lemma uinv_grow s R L v nu : uinv s R L -> 1 <= nu ->
  uinv (Heap (fupd (hd s) (brk s) (Header v nu)) (freep s) (brk s + nu)) R ((brk s, nu) :: L).
Proof using Hbase.
  intros Hi Hnu. pose proof (brk_above _ _ _ Hi) as Hb.
  assert (Hw : forall x, in_heap s x -> in_heap (Heap (fupd (hd s) (brk s) (Header v nu)) (freep s) (brk s + nu)) x).
  { intros x (?&?&?). unfold in_heap. simpl. lia. }
  assert (Hbelow : forall x, x ∈ R -> fst x < brk s /\ fst x + snd x <= brk s).
  { intros x Hx. pose proof (uv_free _ _ _ Hi) as Hf. rewrite Forall_forall in Hf.
    destruct (Hf _ Hx) as [->|(?&?&?)]; simpl; lia. }
  pose proof (uv_live _ _ _ Hi) as Hl. rewrite Forall_forall in Hl.
  destruct Hi as [Hfi Hc Ho Hf _ Hfp Ha Hpw Hs Ht]. split; try done; simpl.
  - eapply chain_ext; [|exact Hc]. intros a n Hin. destruct (Hbelow _ Hin). simpl in *. rewrite fupd_ne by lia. done.
  - eapply Forall_impl; [exact Hf|]. intros x [->|Hx]; [by left|right; auto].
  - constructor; [unfold in_heap; simpl; lia|]. apply Forall_forall. auto.
  - intros x Hx. apply elem_of_cons in Hx as [->|Hx]; [|auto]. apply Forall_forall. intros y Hy.
    destruct (Hbelow _ Hy). right. done.
  - split; [|done]. apply Forall_forall. intros x Hx. destruct (Hl _ Hx) as (?&?&?). right. done.
  - intros a n Hin. apply elem_of_cons in Hin as [[= -> ->]|Hin]; [by rewrite fupd_eq|].
    destruct (Hl _ Hin) as (?&?&?). simpl in *. rewrite fupd_ne by lia. auto.
  - unfold total in *. simpl. lia.
Qed.

(** The units [morecore] asks for. *)
Definition core_units (nu : Z) : Z := if nu <? 4096 then 4096 else nu.

Lemma morecore_run s R L nunits : uinv s R L -> 1 <= nunits -> nunits * 8 < 2 ^ 31 ->
  if refuses (brk s) (core_units nunits * 8) then morecore refuses nunits s = Ret 0 s
  else exists s' R', morecore refuses nunits s = Ret (freep s') s' /\ freep s' <> 0 /\ brk s' = brk s + core_units nunits /\
    uinv s' R' L /\ (length R' <= S (length R))%nat /\ exists x, x ∈ R' /\ nunits <= snd x.
Proof using Hbase.
  intros Hi H1 H2. pose proof (brk_above _ _ _ Hi) as Hb. unfold morecore. fold (core_units nunits).
  assert (Hu : nunits <= core_units nunits /\ 1 <= core_units nunits /\ core_units nunits * 8 < 2 ^ 31).
  { unfold core_units. destruct (Z.ltb_spec nunits 4096); lia. }
  set (nu := core_units nunits) in *. unfold sbrk. rewrite u32_small, i32_small, Z.div_mul by (unfold is_u32, is_i32; lia).
  rewrite bind_assoc, bind_gets. destruct (refuses (brk s) (nu * 8)); [by rewrite bind_ret_l|].
  rewrite bind_assoc, bind_modify, bind_ret_l. rewrite (proj2 (Z.eqb_neq (brk s) (-1))) by lia.
  unfold set_size. rewrite bind_modify.
  destruct (free_run _ _ [] _ _ _ (uinv_grow s R L (h_ptr (hd s (brk s))) nu Hi ltac:(lia))) as (s'&R'&E&Hb'&Hi'&Hlen&x&Hx&Hxn).
  exists s', R'. split; [|split_and!; [|exact Hb'|done|done|exists x; split; [done|lia]]].
  - unfold set_brk, set_hd. cbn [hd freep brk]. rewrite (bind_run _ _ _ _ _ E). done.
  - pose proof (uv_freep _ _ _ Hi') as Hf. apply list_elem_of_In, in_map_iff in Hf as (y&<-&Hy). apply list_elem_of_In in Hy.
    pose proof (uv_free _ _ _ Hi') as Hf'. rewrite Forall_forall in Hf'. destruct (Hf' _ Hy) as [->|(?&?&?)]; simpl; lia.
Qed.

(** ** malloc *)

(** The units of a block for [nbytes] bytes, its header included. *)
Definition units_of (nbytes : Z) : Z := (nbytes + 7) / 8 + 1.

Lemma units_small nbytes : 0 <= nbytes -> units_of nbytes * 8 < 2 ^ 31 ->
  1 <= units_of nbytes /\ u32 (nbytes + 8 - 1) / 8 + 1 = units_of nbytes.
Proof.
  intros H0 H. unfold units_of in *. pose proof (Z.div_mod (nbytes + 7) 8 ltac:(lia)). pose proof (Z.mod_pos_bound (nbytes + 7) 8 ltac:(lia)).
  rewrite u32_small by (unfold is_u32; lia). replace (nbytes + 8 - 1) with (nbytes + 7) by lia. split; [|done].
  pose proof (Z.div_pos (nbytes + 7) 8). lia.
Qed.

(** From a ring: a block from the ring, a block from new memory, or nothing
    because no block is large enough and the kernel refuses. *)
Lemma malloc_from s R L nbytes fuel : uinv s R L -> 0 <= nbytes -> units_of nbytes * 8 < 2 ^ 31 ->
  (2 * length R + 1 <= fuel)%nat ->
  let nunits := units_of nbytes in
  let c := malloc_loop refuses fuel nunits (freep s) (h_ptr (hd s (freep s))) in
  handed s L nunits c (brk s) \/ (Forall (fun x => snd x < nunits) R /\ handed s L nunits c (brk s + core_units nunits)) \/
  (c s = Ret 0 s /\ Forall (fun x => snd x < nunits) R /\ refuses (brk s) (core_units nunits * 8) = true).
Proof using Hbase.
  intros Hi H0 H31 Hfuel nunits c. destruct (units_small nbytes H0 H31) as [H1 _].
  pose proof (loop_round s R L nunits (fuel - length R) Hi H1) as Hround.
  replace (length R + (fuel - length R))%nat with fuel in Hround by lia. fold c in Hround.
  destruct Hround as [Hh|[Hsmall E]]; [by left|]. right. unfold grow in E. pose proof (morecore_run s R L nunits Hi H1 H31) as Hm.
  destruct (refuses (brk s) (core_units nunits * 8)) eqn:Eref.
  - right. rewrite (bind_run _ _ _ _ _ Hm) in E. done.
  - left. split; [done|]. destruct Hm as (s'&R'&Em&Hf0&Hb&Hi'&Hlen&x&Hx&Hxn). rewrite (bind_run _ _ _ _ _ Em) in E.
    rewrite (proj2 (Z.eqb_neq _ _) Hf0) in E. unfold ptr in E. rewrite bind_gets in E.
    replace (fuel - length R)%nat with (length R' + (fuel - length R - length R'))%nat in E by lia.
    destruct (loop_round s' R' L nunits (fuel - length R - length R') Hi' H1) as [(r&s2&R2&Er&Hb2&Hi2)|[Hsm _]].
    + exists r, s2, R2. rewrite E. split_and!; [exact Er|lia|done].
    + rewrite Forall_forall in Hsm. specialize (Hsm _ Hx). lia.
Qed.

(** Before the first call there is no ring. *)
Definition uinit (s : heap) : Prop := freep s = 0 /\ brk s = HEAP.
Definition fresh_ring (s : heap) : heap := 
  Heap (fupd (fupd (hd s) BASE (Header BASE (h_size (hd s BASE)))) BASE (Header BASE 0)) BASE (brk s).

Lemma uinit_ring s : uinit s -> uinv (fresh_ring s) [(BASE, 0)] [].
Proof.
  intros [Hf Hb]. split; simpl.
  - by exists [].
  - split; [by rewrite fupd_eq|done].
  - split; [constructor|done].
  - constructor; [by left|constructor].
  - constructor.
  - constructor.
  - intros x Hx. by apply elem_of_nil in Hx.
  - done.
  - intros a n Hin. by apply elem_of_nil in Hin.
  - unfold total. simpl. lia.
Qed.

Lemma malloc_ring s R L nbytes : uinv s R L -> 0 <= nbytes -> units_of nbytes * 8 < 2 ^ 31 ->
  malloc BASE refuses nbytes s =
  malloc_loop refuses (S (walk_fuel s + 2)) (units_of nbytes) (freep s) (h_ptr (hd s (freep s))) s.
Proof using Hbase.
  intros Hi H0 H31. destruct (units_small nbytes H0 H31) as [_ Eu]. unfold malloc. rewrite bind_gets.
  assert (Hf0 : freep s <> 0).
  { pose proof (uv_freep _ _ _ Hi) as Hf. apply list_elem_of_In, in_map_iff in Hf as (y&<-&Hy). apply list_elem_of_In in Hy.
    pose proof (uv_free _ _ _ Hi) as Hf'. rewrite Forall_forall in Hf'. destruct (Hf' _ Hy) as [->|(?&?&?)]; simpl; lia. }
  rewrite (proj2 (Z.eqb_neq _ _) Hf0), bind_ret_l, bind_gets. unfold ptr. rewrite !bind_gets, Eu. done.
Qed.

Lemma malloc_first s nbytes : uinit s -> malloc BASE refuses nbytes s = malloc BASE refuses nbytes (fresh_ring s).
Proof using Hbase.
  intros [Hf Hb]. unfold malloc. rewrite !bind_gets, Hf. simpl freep. rewrite (proj2 (Z.eqb_neq BASE 0)) by lia.
  rewrite bind_ret_l. simpl. unfold set_ptr, set_size. rewrite bind_assoc, bind_modify, bind_assoc, bind_modify, bind_modify.
  unfold fresh_ring, set_hd, set_freep. cbn [hd freep brk]. by rewrite fupd_eq.
Qed.

(** The blocks handed out, before the first call or after it. *)
Definition holds (s : heap) (L : list block) : Prop := (uinit s /\ L = []) \/ exists R, uinv s R L.

Lemma malloc_run s L nbytes : holds s L -> 0 <= nbytes -> units_of nbytes * 8 < 2 ^ 31 ->
  (exists r s', malloc BASE refuses nbytes s = Ret (r + 1) s' /\ holds s' ((r, units_of nbytes) :: L) /\ 0 < r) \/
  (exists s', malloc BASE refuses nbytes s = Ret 0 s' /\ holds s' L /\ refuses (brk s) (core_units (units_of nbytes) * 8) = true).
Proof using Hbase.
  intros Hh H0 H31.
  assert (Hring : forall s R, uinv s R L ->
    (exists r s', malloc BASE refuses nbytes s = Ret (r + 1) s' /\ holds s' ((r, units_of nbytes) :: L) /\ 0 < r) \/
    (exists s', malloc BASE refuses nbytes s = Ret 0 s' /\ holds s' L /\ refuses (brk s) (core_units (units_of nbytes) * 8) = true)).
  { clear s Hh. intros s R Hi. rewrite (malloc_ring _ _ _ _ Hi H0 H31). pose proof (free_ring_length _ _ _ Hi).
    assert (Hpos : forall s' R' r n, uinv s' R' ((r, n) :: L) -> 0 < r).
    { intros s' R' r n Hi'. pose proof (uv_live _ _ _ Hi') as Hl. apply Forall_cons in Hl as [(?&?&?) _]. simpl in *. lia. }
    destruct (malloc_from s R L nbytes (S (walk_fuel s + 2)) Hi H0 H31) as [(r&s'&R'&E&_&Hi')|[(_&r&s'&R'&E&_&Hi')|(E&_&Hl)]];
      [unfold walk_fuel; lia|left; exists r, s'; split; [done|]; split; [right; by exists R'|by eapply Hpos]..|].
    right. exists s. split; [done|]. split; [right; by exists R|done]. }
  destruct Hh as [[Hu ->]|[R Hi]]; [|by eapply Hring]. rewrite malloc_first by done.
  replace (brk s) with (brk (fresh_ring s)) by done. apply (Hring (fresh_ring s) [(BASE, 0)]), uinit_ring, Hu.
Qed.

Lemma free_held s L1 b m L2 : holds s (L1 ++ (b, m) :: L2) ->
  exists s', free (b + 1) s = Ret tt s' /\ brk s' = brk s /\ holds s' (L1 ++ L2).
Proof using Hbase.
  intros [[_ H]|[R Hi]]; [by destruct L1|]. destruct (free_run _ _ _ _ _ _ Hi) as (s'&R'&E&Hb&Hi'&_).
  exists s'. split_and!; [done..|right; by exists R'].
Qed.

(** The holder of a block writes behind its header. *)
Lemma write_held s L b m x v : holds s L -> (b, m) ∈ L -> b < x < b + m -> holds (set_hd (fupd (hd s) x v) s) L.
Proof using Hbase.
  intros [[_ ->]|[R Hi]] Hb Hx; [by apply elem_of_nil in Hb|]. right. exists R.
  assert (Hrest : forall a n, (a, n) ∈ R \/ (a, n) ∈ L -> a <> x).
  { intros a n [Hin|Hin] ->.
    - pose proof (uv_apart _ _ _ Hi _ Hb) as Ha. rewrite Forall_forall in Ha. specialize (Ha _ Hin).
      pose proof (uv_free _ _ _ Hi) as Hf. pose proof (uv_live _ _ _ Hi) as Hl. rewrite Forall_forall in Hf, Hl.
      destruct (Hl _ Hb) as (?&?&?). destruct (Hf _ Hin) as [[= -> ->]|(?&?&?)]; destruct Ha; simpl in *; lia.
    - apply list_elem_of_split in Hb as (L1&L2&->). destruct (pairwise_remove _ _ _ (uv_pair _ _ _ Hi)) as [_ Ha].
      pose proof (uv_live _ _ _ Hi) as Hl. rewrite Forall_forall in Ha, Hl. destruct (Hl _ Hin) as (?&?&?).
      apply elem_of_app in Hin as [Hin|Hin]; [|apply elem_of_cons in Hin as [[= -> ->]|Hin]; [lia|]];
        (destruct (Ha (x, n)); [apply elem_of_app; auto|simpl in *; lia..]). }
  destruct Hi as [Hfi Hc Ho Hf Hl Hfp Ha Hpw Hs Ht]. split; try done; simpl.
  - eapply chain_ext; [|exact Hc]. intros a n Hin. rewrite fupd_ne; [done|]. apply (Hrest a n). by left.
  - intros a n Hin. rewrite fupd_ne; [auto|]. apply (Hrest a n). by right.
Qed.

(** With nothing handed out the ring is one block. *)
Lemma ring_whole s R : uinv s R [] -> HEAP < brk s -> R = [(BASE, 0); (HEAP, brk s - HEAP)].
Proof.
  intros Hi Hb. destruct (uv_first _ _ _ Hi) as [F ->]. pose proof (ring_tail _ _ _ Hi) as HF.
  pose proof (uv_total _ _ _ Hi) as Ht. destruct (uv_ord _ _ _ Hi) as [_ Ho]. unfold total in Ht. simpl in Ht.
  destruct F as [|x F]; [simpl in Ht; lia|].
  pose proof (total_span (x :: F) HEAP (brk s) Ho HF ltac:(done)) as Hs. unfold total in Hs. simpl in *.
  destruct F as [|y F]; [|simpl in *; lia]. apply Forall_cons in HF as [(?&?&?) _]. simpl in *.
  destruct x as [a n]. simpl in *. do 2 f_equal. f_equal; lia.
Qed.
End invariant.

(** ** A program that uses the allocator *)

Section client.
Context (BASE HEAP : Z).

(** It calls [malloc], frees what it holds, and writes behind the headers of
    the blocks it holds.  What the kernel refuses may differ from call to
    call. *)
Inductive ustep : heap * list block -> heap * list block -> Prop :=
| us_malloc refuses s L nbytes r s' : 0 <= nbytes -> units_of nbytes * 8 < 2 ^ 31 -> malloc BASE refuses nbytes s = Ret r s' ->
    ustep (s, L) (s', if r =? 0 then L else (r - 1, units_of nbytes) :: L)
| us_free s L1 b m L2 s' : free (b + 1) s = Ret tt s' -> ustep (s, L1 ++ (b, m) :: L2) (s', L1 ++ L2)
| us_write s L b m x v : (b, m) ∈ L -> b < x < b + m -> ustep (s, L) (set_hd (fupd (hd s) x v) s, L).

Lemma ustep_holds x y : 0 < BASE < HEAP -> ustep x y -> holds BASE HEAP x.1 x.2 -> holds BASE HEAP y.1 y.2.
Proof.
  intros Hbase [refuses s L n r s' H0 H31 E|s L1 b m L2 s' E|s L b m z v Hb Hz] Hh; simpl in *.
  - destruct (malloc_run _ _ Hbase refuses _ _ _ Hh H0 H31) as [(r'&s2&E2&Hh2&Hr)|(s2&E2&Hh2&_)];
      rewrite E in E2; injection E2 as -> ->; [|done].
    destruct (Z.eqb_spec (r' + 1) 0); [lia|]. by replace (r' + 1 - 1) with r' by lia.
  - destruct (free_held _ _ Hbase _ _ _ _ _ Hh) as (s2&E2&_&Hh2). rewrite E in E2. by injection E2 as ->.
  - by apply (write_held _ _ Hbase _ _ b m).
Qed.
Lemma usteps_hold x y : 0 < BASE < HEAP -> rtc ustep x y -> holds BASE HEAP x.1 x.2 -> holds BASE HEAP y.1 y.2.
Proof. intros Hb. induction 1 as [|x y z H _ IH]; [done|]. intros Hh. by apply IH, (ustep_holds x y). Qed.

(** C39. A program that mallocs, frees what it holds and writes only behind the
    headers of its blocks always holds disjoint blocks within the memory the
    kernel has given it.  In every state it reaches, [malloc] returns: a block
    apart from all it holds, or 0, and 0 only when the kernel refuses to grow
    the process; and [free] of any block it holds returns. *)
Theorem umalloc_disjoint s0 s L : 0 < BASE < HEAP -> freep s0 = 0 -> brk s0 = HEAP -> rtc ustep (s0, []) (s, L) ->
  pairwise L /\ Forall (in_heap HEAP s) L /\
  (forall refuses nbytes, 0 <= nbytes -> units_of nbytes * 8 < 2 ^ 31 ->
     exists r s', malloc BASE refuses nbytes s = Ret r s' /\
       (r = 0 -> refuses (brk s) (core_units (units_of nbytes) * 8) = true) /\
       (r <> 0 -> Forall (apart (r - 1, units_of nbytes)) L /\ in_heap HEAP s' (r - 1, units_of nbytes))) /\
  (forall b m, (b, m) ∈ L -> exists s', free (b + 1) s = Ret tt s').
Proof.
  intros Hbase Hf Hb Hr. assert (Hh : holds BASE HEAP s L) by (apply (usteps_hold _ _ Hbase Hr); left; done).
  assert (Hfacts : forall s L, holds BASE HEAP s L -> pairwise L /\ Forall (in_heap HEAP s) L).
  { intros s1 L1 [[_ ->]|[R Hi]]; [split; [done|constructor]|]. split; [exact (uv_pair _ _ _ _ _ Hi)|exact (uv_live _ _ _ _ _ Hi)]. }
  destruct (Hfacts _ _ Hh) as [Hp Hl]. split_and!; [done|done| |].
  - intros refuses n H0 H31. destruct (malloc_run _ _ Hbase refuses _ _ _ Hh H0 H31) as [(r&s'&E&Hh2&Hr0)|(s'&E&_&Hlim)].
    + exists (r + 1), s'. split; [done|]. split; [lia|]. intros _. replace (r + 1 - 1) with r by lia.
      destruct (Hfacts _ _ Hh2) as [[Ha _] Hin]. apply Forall_cons in Hin as [Hin _]. done.
    + by exists 0, s'.
  - intros b m Hin. apply list_elem_of_split in Hin as (L1&L2&->).
    destruct (free_held _ _ Hbase _ _ _ _ _ Hh) as (s'&E&_). by exists s'.
Qed.

(** C40. Nothing is lost: once the program has freed all it holds, the free
    blocks have been joined to the single block of all the memory the kernel
    has given, and [malloc] serves any request that fits in it without asking
    for more. *)
Theorem umalloc_coalesces refuses s0 s nbytes : 0 < BASE < HEAP -> freep s0 = 0 -> brk s0 = HEAP -> rtc ustep (s0, []) (s, []) ->
  HEAP < brk s -> 0 <= nbytes -> units_of nbytes * 8 < 2 ^ 31 -> units_of nbytes <= brk s - HEAP ->
  hd s BASE = Header HEAP 0 /\ hd s HEAP = Header BASE (brk s - HEAP) /\
  exists r s', malloc BASE refuses nbytes s = Ret (r + 1) s' /\ in_heap HEAP s' (r, units_of nbytes) /\ brk s' = brk s.
Proof.
  intros Hbase Hf Hb Hr Hgt H0 H31 Hfit. assert (Hh : holds BASE HEAP s []) by (apply (usteps_hold _ _ Hbase Hr); left; done).
  destruct Hh as [[[_ H] _]|[R Hi]]; [lia|]. pose proof (ring_whole _ _ _ _ Hi Hgt) as ->.
  destruct (uv_chain _ _ _ _ _ Hi) as (H1&H2&_). split; [done|]. split; [done|].
  rewrite (malloc_ring _ _ Hbase refuses _ _ _ _ Hi H0 H31).
  destruct (malloc_from _ _ Hbase refuses _ _ _ nbytes (S (walk_fuel s + 2)) Hi H0 H31) as [(r&s'&R'&E&Hb'&Hi')|[[Hs _]|(_&Hs&_)]];
    [unfold walk_fuel; simpl; lia|..].
  - exists r, s'. split_and!; [done| |done]. pose proof (uv_live _ _ _ _ _ Hi') as Hl. by apply Forall_cons in Hl as [Hl _].
  - apply Forall_cons in Hs as [_ Hs]. apply Forall_cons in Hs as [Hs _]. simpl in Hs. lia.
  - apply Forall_cons in Hs as [_ Hs]. apply Forall_cons in Hs as [Hs _]. simpl in Hs. lia.
Qed.
End client.

(** ** Witnesses *)

Definition w_full (b n : Z) : bool := 100000 <? b + n / 8.
Definition w_init : heap := Heap (fun _ => Header 0 0) 0 16.
Definition w_after (c : UM Z) (s : heap) : heap := match c s with Ret _ s' => s' | Stop _ s' => s' end.
Definition w_one : heap := w_after (malloc 8 w_full 20) w_init.
Definition w_freed : heap := w_after (free 4109 ;; ret 0) w_one.

Lemma w_one_step : ustep 8 (w_init, []) (w_one, [(4108, 4)]).
Proof. apply (us_malloc 8 w_full w_init [] 20 4109); [lia|by vm_compute|vm_compute; reflexivity]. Qed.
Lemma w_freed_step : ustep 8 (w_one, [(4108, 4)]) (w_freed, []).
Proof. apply (us_free 8 w_one [] 4108 4 [] w_freed). vm_compute. reflexivity. Qed.

(** One block of 20 bytes, which [malloc] cuts off the end of the 4096 new
    units. *)
Lemma umalloc_disjoint_witness : pairwise [(4108, 4)] /\ exists r s', malloc 8 w_full 100 w_one = Ret r s' /\
  (r <> 0 -> Forall (apart (r - 1, units_of 100)) [(4108, 4)]).
Proof.
  destruct (umalloc_disjoint 8 16 w_init w_one [(4108, 4)]) as (H1&_&H2&_);
    [lia|reflexivity|reflexivity|apply rtc_once, w_one_step|].
  split; [exact H1|]. destruct (H2 w_full 100) as (r&s'&E&_&H3); [lia|by vm_compute|].
  exists r, s'. split; [exact E|]. intros Hr. exact (proj1 (H3 Hr)).
Defined.

(** After it is freed the memory is one block again. *)
Lemma umalloc_coalesces_witness : hd w_freed 16 = Header 8 4096 /\
  exists r s', malloc 8 w_full 32760 w_freed = Ret (r + 1) s' /\ brk s' = 4112.
Proof.
  destruct (umalloc_coalesces 8 16 w_full w_init w_freed 32760) as (_&H1&r&s'&E&_&H2);
    [lia|reflexivity|reflexivity|eapply rtc_l; [apply w_one_step|apply rtc_once, w_freed_step]|by vm_compute|lia|by vm_compute|by vm_compute|].
  split; [exact H1|]. exists r, s'. split; [exact E|exact H2].
Defined.

(** The sum that rounds up wraps around: a request for all but the whole
    address space is served with a block that has no room at all. *)
Lemma malloc_wraps : exists s', malloc 8 w_full 4294967295 w_init = Ret 4112 s' /\ h_size (hd s' 4111) = 1.
Proof. eexists. split; vm_compute; reflexivity. Qed.
