(* ===== verification/Sh.v ===== *)
(** * sh.c: the parser of the shell

    A position in the line is its index; the line ends at [es] with a NUL.
    The nodes [malloc] gives are numbered in the order they are made; the
    model takes for granted that [malloc] finds room for them.  The
    parser keeps pointers into the line for every word and [nulterminate]
    writes the NULs behind them at the end. *)
From stdpp Require Import base numbers list gmap strings.
From S2P Require Import Prelude.
Open Scope Z_scope.

(** [argv] and [eargv] are the entries before the null pointer. *)
Inductive node :=
| NExec (argv : list (nat * nat))
| NRedir (cmd : nat) (file efile : nat) (mode fd : Z)
| NPipe (left right : nat)
| NList (left right : nat)
| NBack (cmd : nat).

Definition MAXARGS : Z := 10.
Definition O_RDONLY : Z := 0.
Definition O_WRONLY : Z := 1.
Definition O_CREATE : Z := 512.

Definition BAR : Z := 124.
Definition LPAREN : Z := 40.
Definition RPAREN : Z := 41.
Definition SEMI : Z := 59.
Definition AMP : Z := 38.
Definition LESS : Z := 60.
Definition GREATER : Z := 62.
Definition PLUS : Z := 43.
Definition WORD : Z := 97.

Definition whitespace : list Z := [32; 9; 13; 10; 11].
Definition symbols : list Z := [LESS; BAR; GREATER; AMP; SEMI; LPAREN; RPAREN].
(** [strchr(l, c)] as a truth value, for [c] other than NUL *)
Definition among (l : list Z) (c : Z) : bool := existsb (Z.eqb c) l.

(** The characters a loop [while(s < es && p( *s)) s++] passes *)
Fixpoint span (p : Z -> bool) (l : list Z) : nat :=
  match l with
  | c :: l' => if p c then S (span p l') else O
  | [] => O
  end.

Record shell := Shell { pos : nat; nodes : list node; line : list Z }.
Abbreviation SH := (M shell).
Definition set_pos (x : nat) (s : shell) : shell := Shell x (nodes s) (line s).
Definition set_nodes (x : list node) (s : shell) : shell := Shell (pos s) x (line s).
Definition set_line (x : list Z) (s : shell) : shell := Shell (pos s) (nodes s) x.

Section parser.
(** The line as [parsecmd] is given it: what is before the NUL. *)
Context (txt : list Z).

Definition skip (s : nat) : nat := (s + span (among whitespace) (drop s txt))%nat.
Definition char_at (s : nat) : Z := default 0 (txt !! s).
Definition word_char (c : Z) : bool := negb (among whitespace c) && negb (among symbols c).

(** [gettoken]: the token, its two ends, and the position behind it *)
Definition token_at (s : nat) : Z * nat * nat * nat :=
  let s := skip s in
  let q := s in
  let c := char_at s in
  let '(r, s) :=
    if c =? 0 then (c, s)
    else if among [BAR; LPAREN; RPAREN; SEMI; AMP; LESS] c then (c, S s)
    else if c =? GREATER then
      (if char_at (S s) =? GREATER then (PLUS, S (S s)) else (c, S s))
    else (WORD, (s + span word_char (drop s txt))%nat) in
  (r, q, s, skip s).
Definition gettoken : SH (Z * nat * nat) :=
  let! s := gets pos in
  let '(r, q, eq, s') := token_at s in
  modify (set_pos s') ;; ret (r, q, eq).

(** [peek] *)
Definition peek (toks : list Z) : SH bool :=
  let! s := gets pos in
  modify (set_pos (skip s)) ;;
  ret (negb (char_at (skip s) =? 0) && among toks (char_at (skip s))).

(** The constructors *)
Definition new_node (n : node) : SH nat :=
  let! l := gets nodes in
  modify (set_nodes (l ++ [n])) ;; ret (length l).
Definition execcmd : SH nat := new_node (NExec []).
Definition redircmd (subcmd file efile : nat) (mode fd : Z) : SH nat := new_node (NRedir subcmd file efile mode fd).
Definition pipecmd (left right : nat) : SH nat := new_node (NPipe left right).
Definition listcmd (left right : nat) : SH nat := new_node (NList left right).
Definition backcmd (subcmd : nat) : SH nat := new_node (NBack subcmd).

(** [parseredirs] *)
Fixpoint parseredirs (fuel : nat) (cmd : nat) : SH nat :=
  match fuel with
  | O => stop_with NoFuel
  | S fuel' =>
      let! b := peek [LESS; GREATER] in
      if b then
        let! (tok, _, _) := gettoken in
        let! (t, q, eq) := gettoken in
        if negb (t =? WORD) then panic "missing file for redirection"
        else
          let! cmd :=
            (if tok =? LESS then redircmd cmd q eq O_RDONLY 0
             else if tok =? GREATER then redircmd cmd q eq (Z.lor O_WRONLY O_CREATE) 1
             else if tok =? PLUS then redircmd cmd q eq (Z.lor O_WRONLY O_CREATE) 1
             else ret cmd) in
          parseredirs fuel' cmd
      else ret cmd
  end.

(** [cmd->argv[argc] = q; cmd->eargv[argc] = eq] *)
Definition add_arg (cmd q eq : nat) : SH unit :=
  modify (fun s => set_nodes (alter (fun n => match n with NExec a => NExec (a ++ [(q, eq)]) | _ => n end) cmd (nodes s)) s).

(** The loop of [parseexec] *)
Fixpoint parseargs (fuel : nat) (cmd : nat) (argc : Z) (r : nat) : SH nat :=
  match fuel with
  | O => stop_with NoFuel
  | S fuel' =>
      let! b := peek [BAR; RPAREN; AMP; SEMI] in
      if b then ret r
      else
        let! (tok, q, eq) := gettoken in
        if tok =? 0 then ret r
        else if negb (tok =? WORD) then panic "syntax"
        else
          add_arg cmd q eq ;;
          if MAXARGS <=? argc + 1 then panic "too many args"
          else
            let! r := parseredirs fuel' r in
            parseargs fuel' cmd (argc + 1) r
  end.

(** [while(peek(ps, es, "&"))] of [parseline] *)
Fixpoint parsebacks (fuel : nat) (cmd : nat) : SH nat :=
  match fuel with
  | O => stop_with NoFuel
  | S fuel' =>
      let! b := peek [AMP] in
      if b then
        gettoken ;;
        let! cmd := backcmd cmd in
        parsebacks fuel' cmd
      else ret cmd
  end.

Fixpoint parseline (fuel : nat) : SH nat :=
  match fuel with
  | O => stop_with NoFuel
  | S fuel' =>
      let! cmd := parsepipe fuel' in
      let! cmd := parsebacks fuel' cmd in
      let! b := peek [SEMI] in
      if b then
        gettoken ;;
        let! rest := parseline fuel' in
        listcmd cmd rest
      else ret cmd
  end
with parsepipe (fuel : nat) : SH nat :=
  match fuel with
  | O => stop_with NoFuel
  | S fuel' =>
      let! cmd := parseexec fuel' in
      let! b := peek [BAR] in
      if b then
        gettoken ;;
        let! rest := parsepipe fuel' in
        pipecmd cmd rest
      else ret cmd
  end
with parseexec (fuel : nat) : SH nat :=
  match fuel with
  | O => stop_with NoFuel
  | S fuel' =>
      let! b := peek [LPAREN] in
      if b then parseblock fuel'
      else
        let! cmd := execcmd in
        let! r := parseredirs fuel' cmd in
        parseargs fuel' cmd 0 r
  end
with parseblock (fuel : nat) : SH nat :=
  match fuel with
  | O => stop_with NoFuel
  | S fuel' =>
      let! b := peek [LPAREN] in
      if negb b then panic "parseblock"
      else
        gettoken ;;
        let! cmd := parseline fuel' in
        let! b := peek [RPAREN] in
        if negb b then panic "syntax - missing )"
        else
          gettoken ;;
          parseredirs fuel' cmd
  end.

(** [*e = 0] *)
Definition put_nul (e : nat) : SH unit := modify (fun s => set_line (<[e := 0]> (line s)) s).

(** [nulterminate]; a node is made after the nodes it points to *)
Fixpoint nulterminate (fuel : nat) (cmd : nat) : SH unit :=
  match fuel with
  | O => stop_with NoFuel
  | S fuel' =>
      let! l := gets nodes in
      match l !! cmd with
      | Some (NExec argv) => mfor argv (fun a => put_nul a.2)
      | Some (NRedir c _ efile _ _) => nulterminate fuel' c ;; put_nul efile
      | Some (NPipe l1 l2) => nulterminate fuel' l1 ;; nulterminate fuel' l2
      | Some (NList l1 l2) => nulterminate fuel' l1 ;; nulterminate fuel' l2
      | Some (NBack c) => nulterminate fuel' c
      | None => stop_with (Faulted "nulterminate")
      end
  end.

(** Every call consumes a character or is one of a chain of four. *)
Definition parse_fuel : nat := (4 * length txt + 5)%nat.

(** [parsecmd] *)
Definition parsecmd : SH nat :=
  let! cmd := parseline parse_fuel in
  peek [] ;;
  let! s := gets pos in
  if negb (Nat.eqb s (length txt)) then panic "syntax"
  else
    nulterminate (S cmd) cmd ;;
    ret cmd.
End parser.

(** The state [parsecmd(buf)] starts from. *)
Definition sh_start (txt : list Z) : shell := Shell 0 [] (txt ++ [0]).
