(* ===== verification/ShProps.v ===== *)
(** * What the shell's parser accepts

    The tokens of a line, the grammar over them and the trees it builds are
    defined here independently of the code of sh.c; [parsecmd] is proved to
    accept exactly the lines of the grammar. *)
From stdpp Require Import base numbers list gmap strings.
From S2P Require Import Prelude Sh.
Open Scope Z_scope.

#[local] Arguments among : simpl never.
#[local] Arguments word_char : simpl never.

(** ** Tokens *)

Inductive tok := TSym (c : Z) | TWord (w : list Z).

(** A character in front of the tokens that follow it directly. *)
Definition glue (c : Z) (next : bool) (l : list tok) : list tok :=
  match next, l with
  | true, TWord w :: l' => TWord (c :: w) :: l'
  | _, _ => TWord [c] :: l
  end.
Definition starts_word (l : list Z) : bool := match l with c :: _ => word_char c | [] => false end.
Fixpoint tokens (l : list Z) : list tok :=
  match l with
  | [] => []
  | c :: l' =>
      if among whitespace c then tokens l'
      else if c =? GREATER then
        match l' with
        | d :: l'' => if d =? GREATER then TSym PLUS :: tokens l'' else TSym GREATER :: tokens l'
        | [] => [TSym GREATER]
        end
      else if among symbols c then TSym c :: tokens l'
      else glue c (starts_word l') (tokens l')
  end.

Definition is_sym (c : Z) : bool := among symbols c || (c =? PLUS).

(** ** Grammar *)

Inductive rkind := RIn | ROut | RAppend.
Definition rsym (k : rkind) : Z := match k with RIn => LESS | ROut => GREATER | RAppend => PLUS end.
Definition rmode (k : rkind) : Z := match k with RIn => O_RDONLY | _ => Z.lor O_WRONLY O_CREATE end.
Definition rfd (k : rkind) : Z := match k with RIn => 0 | _ => 1 end.

Inductive item := IWord (w : list Z) | IRedir (k : rkind) (f : list Z).
Inductive gline :=
| GLast (p : gpipe) (bg : nat)
| GSeq (p : gpipe) (bg : nat) (rest : gline)
with gpipe :=
| GOne (e : gexec)
| GPipe (e : gexec) (rest : gpipe)
with gexec :=
| GSimple (items : list item)
| GBlock (l : gline) (item_redirs : list (rkind * list Z)).

Scheme gline_rect' := Induction for gline Sort Prop
with gpipe_rect' := Induction for gpipe Sort Prop
with gexec_rect' := Induction for gexec Sort Prop.
Combined Scheme grammar_ind from gline_rect', gpipe_rect', gexec_rect'.

Definition pr_redir (r : rkind * list Z) : list tok := [TSym (rsym r.1); TWord r.2].
Definition pr_item (i : item) : list tok := match i with IWord w => [TWord w] | IRedir k f => pr_redir (k, f) end.
Fixpoint pr_line (l : gline) : list tok :=
  match l with
  | GLast p bg => pr_pipe p ++ replicate bg (TSym AMP)
  | GSeq p bg rest => pr_pipe p ++ replicate bg (TSym AMP) ++ TSym SEMI :: pr_line rest
  end
with pr_pipe (p : gpipe) : list tok :=
  match p with
  | GOne e => pr_exec e
  | GPipe e rest => pr_exec e ++ TSym BAR :: pr_pipe rest
  end
with pr_exec (e : gexec) : list tok :=
  match e with
  | GSimple items => flat_map pr_item items
  | GBlock l rs => TSym LPAREN :: pr_line l ++ TSym RPAREN :: flat_map pr_redir rs
  end.

(** The command a line stands for *)
Inductive cmd :=
| Exec (argv : list (list Z))
| Redir (c : cmd) (k : rkind) (f : list Z)
| Pipe (l r : cmd)
| Seq (l r : cmd)
| Back (c : cmd).

Definition item_words (l : list item) : list (list Z) := flat_map (fun i => match i with IWord w => [w] | _ => [] end) l.
Definition item_redirs (l : list item) : list (rkind * list Z) := flat_map (fun i => match i with IRedir k f => [(k, f)] | _ => [] end) l.
Definition wrap (c : cmd) (rs : list (rkind * list Z)) : cmd := foldl (fun c r => Redir c r.1 r.2) c rs.
Definition backs (n : nat) (c : cmd) : cmd := Nat.iter n Back c.
Fixpoint cmd_line (l : gline) : cmd :=
  match l with
  | GLast p bg => backs bg (cmd_pipe p)
  | GSeq p bg rest => Seq (backs bg (cmd_pipe p)) (cmd_line rest)
  end
with cmd_pipe (p : gpipe) : cmd :=
  match p with
  | GOne e => cmd_exec e
  | GPipe e rest => Pipe (cmd_exec e) (cmd_pipe rest)
  end
with cmd_exec (e : gexec) : cmd :=
  match e with
  | GSimple items => wrap (Exec (item_words items)) (item_redirs items)
  | GBlock l rs => wrap (cmd_line l) rs
  end.

(** No command has more than the nine words [argv] has room for. *)
Fixpoint short_line (l : gline) : Prop :=
  match l with
  | GLast p _ => short_pipe p
  | GSeq p _ rest => short_pipe p /\ short_line rest
  end
with short_pipe (p : gpipe) : Prop :=
  match p with
  | GOne e => short_exec e
  | GPipe e rest => short_exec e /\ short_pipe rest
  end
with short_exec (e : gexec) : Prop :=
  match e with
  | GSimple items => Z.of_nat (length (item_words items)) < MAXARGS
  | GBlock l _ => short_line l
  end.

(** The node [p] is the root of the tree of [c]; [W q e w] says that the word
    [w] lies between [q] and [e].  A node is younger than those it points to. *)
Definition args_at (W : nat -> nat -> list Z -> Prop) (a : list (nat * nat)) (ws : list (list Z)) : Prop :=
  Forall2 (fun x w => W x.1 x.2 w) a ws.
Fixpoint tree (W : nat -> nat -> list Z -> Prop) (N : list node) (p : nat) (c : cmd) : Prop :=
  match c with
  | Exec ws => exists a, N !! p = Some (NExec a) /\ args_at W a ws
  | Redir c k f => exists i q e, N !! p = Some (NRedir i q e (rmode k) (rfd k)) /\ (i < p)%nat /\ W q e f /\ tree W N i c
  | Pipe l r => exists i j, N !! p = Some (NPipe i j) /\ (i < p)%nat /\ (j < p)%nat /\ tree W N i l /\ tree W N j r
  | Seq l r => exists i j, N !! p = Some (NList i j) /\ (i < p)%nat /\ (j < p)%nat /\ tree W N i l /\ tree W N j r
  | Back c => exists i, N !! p = Some (NBack i) /\ (i < p)%nat /\ tree W N i c
  end.
Lemma tree_impl (W W' : nat -> nat -> list Z -> Prop) N p c : (forall q e w, W q e w -> W' q e w) -> tree W N p c -> tree W' N p c.
Proof.
  intros HW. revert p. induction c as [ws|c IH k f|l IHl r IHr|l IHl r IHr|c IH]; intros p; simpl; intros H.
  - destruct H as (a&H1&H2). exists a. split; [done|]. eapply Forall2_impl; [exact H2|]. intros x w. apply HW.
  - destruct H as (i&q&e&H1&H2&H3&H4). exists i, q, e. auto 10.
  - destruct H as (i&j&H1&H2&H3&H4&H5). exists i, j. auto 10.
  - destruct H as (i&j&H1&H2&H3&H4&H5). exists i, j. auto 10.
  - destruct H as (i&H1&H2&H3). exists i. auto.
Qed.
(** A C string in the buffer. *)
Definition cstring (b : list Z) (q : nat) : list Z := take (span (fun c => negb (c =? 0)) (drop q b)) (drop q b).

(** ** Reading tokens *)

Section reading.
Context (txt : list Z) (Hnz : Forall (fun c => c <> 0) txt).

Lemma span_le p l : (span p l <= length l)%nat.
Proof. induction l as [|c l IH]; simpl; [done|]. destruct (p c); lia. Qed.
Lemma span_take p l : Forall (fun c => p c = true) (take (span p l) l).
Proof. induction l as [|c l IH]; simpl; [constructor|]. destruct (p c) eqn:E; simpl; [by constructor|constructor]. Qed.
Lemma span_stop p l : match drop (span p l) l with [] => True | c :: _ => p c = false end.
Proof. induction l as [|c l IH]; simpl; [done|]. by destruct (p c) eqn:E. Qed.

Lemma tokens_span l : tokens (drop (span (among whitespace) l) l) = tokens l.
Proof. induction l as [|c l IH]; simpl; [done|]. destruct (among whitespace c) eqn:E; simpl; [done|by rewrite E]. Qed.
Lemma word_not_ws c : word_char c = true -> among whitespace c = false /\ among symbols c = false.
Proof. unfold word_char. intros H. apply andb_true_iff in H as [H1 H2]. by rewrite negb_true_iff in H1, H2. Qed.
Lemma word_not_greater c : among symbols c = false -> (c =? GREATER) = false.
Proof. unfold among, symbols. cbn [existsb]. intros H. repeat (apply orb_false_iff in H as [? H]). done. Qed.

Lemma tokens_word l : starts_word l = true ->
  tokens l = TWord (take (span word_char l) l) :: tokens (drop (span word_char l) l).
Proof.
  induction l as [|c l IH]; [done|]. intros Hc. simpl in Hc. pose proof (word_not_ws c Hc) as [H1 H2].
  simpl. rewrite H1, (word_not_greater c H2), H2, Hc. simpl. destruct (starts_word l) eqn:E.
  - rewrite (IH eq_refl). simpl. done.
  - assert (Hs : span word_char l = O) by (destruct l as [|d l]; simpl in *; [done|by rewrite E]). rewrite Hs. by destruct l.
Qed.

(** The word [w] lies between [q] and [e], and [e] is not a character of a word. *)
Definition word_at (q e : nat) (w : list Z) : Prop :=
  (q <= e <= length txt)%nat /\ take (e - q) (drop q txt) = w /\ Forall (fun c => word_char c = true) w /\
  starts_word (drop e txt) = false.

(** The parser stands before the tokens [t]. *)
Definition ahead (s : shell) (t : list tok) : Prop := (pos s <= length txt)%nat /\ tokens (drop (pos s) txt) = t.

Lemma char_at_drop s : char_at txt s = match drop s txt with c :: _ => c | [] => 0 end.
Proof. clear Hnz. unfold char_at. revert txt. induction s as [|s IH]; intros [|c l]; simpl; auto. Qed.
Lemma drop_nz s : Forall (fun c => c <> 0) (drop s txt).
Proof using Hnz. by apply Forall_drop. Qed.

Lemma skip_tokens s : tokens (drop (skip txt s) txt) = tokens (drop s txt).
Proof. unfold skip. by rewrite <- drop_drop, tokens_span. Qed.
Lemma skip_le s : (s <= length txt)%nat -> (skip txt s <= length txt)%nat.
Proof. intros H. unfold skip. pose proof (span_le (among whitespace) (drop s txt)) as H'. rewrite length_drop in H'. lia. Qed.
Lemma skip_head s : match drop (skip txt s) txt with [] => True | c :: _ => among whitespace c = false end.
Proof. unfold skip. rewrite <- drop_drop. apply span_stop. Qed.
Lemma ahead_skip s t : ahead s t -> ahead (set_pos (skip txt (pos s)) s) t.
Proof. intros [H1 H2]. split; simpl; [by apply skip_le|by rewrite skip_tokens]. Qed.

(** What [token_at] finds at the first character that is not a space. *)
Lemma token_at_spec s r q e s' : (s <= length txt)%nat -> token_at txt s = (r, q, e, s') ->
  (s' <= length txt)%nat /\
  match tokens (drop s txt) with
  | [] => r = 0 /\ tokens (drop s' txt) = []
  | TSym c :: t => r = c /\ is_sym c = true /\ tokens (drop s' txt) = t
  | TWord w :: t => r = WORD /\ word_at q e w /\ tokens (drop s' txt) = t
  end.
Proof using Hnz.
  intros Hs. unfold token_at. rewrite <- (skip_tokens s). pose proof (skip_le s Hs) as Hk. pose proof (skip_head s) as Hh.
  set (k := skip txt s) in *. clearbody k. clear s Hs. rewrite !char_at_drop.
  pose proof (drop_nz k) as Hn. assert (Hlen : length (drop k txt) = (length txt - k)%nat) by apply length_drop.
  replace (drop (S k) txt) with (drop 1 (drop k txt)) by (rewrite drop_drop; f_equal; lia).
  destruct (drop k txt) as [|c l] eqn:El.
  - intros [= <- <- <- <-]. rewrite skip_tokens, El. split; [by apply skip_le|done].
  - apply Forall_cons in Hn as [Hc0 Hn]. simpl in Hlen.
    destruct (Z.eqb_spec c 0) as [|_]; [done|].
    assert (Htail : forall j, drop (k + j) txt = drop j (c :: l)) by (intros j; by rewrite <- drop_drop, El).
    assert (Hadv : forall j, (j <= S (length l))%nat -> (skip txt (k + j) <= length txt)%nat /\
      tokens (drop (skip txt (k + j)) txt) = tokens (drop j (c :: l))).
    { intros j Hj. split; [apply skip_le; lia|]. by rewrite skip_tokens, Htail. }
    cbn [tokens]. rewrite Hh. destruct (Z.eqb_spec c GREATER) as [->|Hng].
    + change (among [BAR; LPAREN; RPAREN; SEMI; AMP; LESS] GREATER) with false. cbv iota beta.
      destruct l as [|d l]; simpl in Hlen.
      * change (0 =? GREATER) with false. cbv iota beta. intros [= <- <- <- <-].
        replace (S k) with (k + 1)%nat by lia. by destruct (Hadv 1%nat ltac:(simpl; lia)).
      * replace (drop 1 (GREATER :: d :: l)) with (d :: l) by done. cbv iota beta.
        destruct (d =? GREATER); intros [= <- <- <- <-].
        -- replace (S (S k)) with (k + 2)%nat by lia. by destruct (Hadv 2%nat ltac:(simpl; lia)).
        -- replace (S k) with (k + 1)%nat by lia. by destruct (Hadv 1%nat ltac:(simpl; lia)).
    + assert (Hsy : among symbols c = among [BAR; LPAREN; RPAREN; SEMI; AMP; LESS] c).
      { unfold among, symbols. cbn [existsb]. rewrite (proj2 (Z.eqb_neq c GREATER) Hng).
        destruct (c =? LESS), (c =? BAR), (c =? AMP), (c =? SEMI), (c =? LPAREN), (c =? RPAREN); done. }
      rewrite <- Hsy. destruct (among symbols c) eqn:Es.
      * intros [= <- <- <- <-]. replace (S k) with (k + 1)%nat by lia. destruct (Hadv 1%nat ltac:(lia)) as [H1 H2].
        split; [done|]. unfold is_sym. by rewrite Es.
      * assert (Hw : starts_word (c :: l) = true) by (simpl; unfold word_char; by rewrite Hh, Es).
        pose proof (tokens_word (c :: l) Hw) as Ht. cbn [tokens] in Ht.
        rewrite Hh, (proj2 (Z.eqb_neq c GREATER) Hng), Es in Ht. rewrite Ht.
        pose proof (span_le word_char (c :: l)) as Hl. cbn [length] in Hl.
        intros [= <- <- <- <-]. destruct (Hadv (span word_char (c :: l))) as [H1 H2]; [done|].
        split; [done|]. split; [done|]. split; [|done]. split_and!.
        -- simpl in *. lia.
        -- simpl in *. lia.
        -- rewrite El, Nat.add_comm, Nat.add_sub. done.
        -- apply span_take.
        -- pose proof (span_stop word_char (c :: l)) as H3. rewrite <- Htail in H3. simpl span in H3. unfold starts_word. revert H3. by case_match.
Qed.

(** The two operations of the parser on tokens. *)
Definition peeks (set : list Z) (t : list tok) : bool :=
  match t with TSym c :: _ => among set (if c =? PLUS then GREATER else c) | _ => false end.

Lemma tokens_peek set l : forallb (among symbols) set = true -> Forall (fun c => c <> 0) l ->
  match l with c :: _ => among whitespace c = false | [] => True end ->
  (let c := match l with c :: _ => c | [] => 0 end in negb (c =? 0) && among set c) = peeks set (tokens l).
Proof.
  intros Hset Hn Hh. destruct l as [|c l]; [done|]. apply Forall_cons in Hn as [Hc _]. cbv zeta. rewrite (proj2 (Z.eqb_neq c 0) Hc).
  cbn [negb andb tokens]. rewrite Hh. destruct (Z.eqb_spec c GREATER) as [->|Hg].
  - destruct l as [|d l]; [done|]. by destruct (d =? GREATER).
  - destruct (among symbols c) eqn:Es; simpl.
    + destruct (Z.eqb_spec c PLUS) as [->|]; [done|done].
    + destruct (among set c) eqn:Ec; [|by destruct (starts_word l), (tokens l) as [|[]]].
      unfold among in Ec. apply existsb_exists in Ec as (x&Hx&Ex). apply Z.eqb_eq in Ex as <-.
      rewrite forallb_forall in Hset. rewrite (Hset _ Hx) in Es. done.
Qed.

Lemma peek_run set s t : forallb (among symbols) set = true -> ahead s t ->
  exists p, peek txt set s = Ret (peeks set t) (set_pos p s) /\ ahead (set_pos p s) t.
Proof using Hnz.
  intros Hset Ha. exists (skip txt (pos s)). split; [|by apply ahead_skip]. unfold peek. rewrite bind_gets, bind_modify.
  unfold ret. f_equal. destruct Ha as [_ <-]. rewrite <- (skip_tokens (pos s)), char_at_drop.
  apply tokens_peek; [done|apply drop_nz|apply skip_head].
Qed.

Lemma gettoken_run s t : ahead s t ->
  exists r q e p, gettoken txt s = Ret (r, q, e) (set_pos p s) /\
  match t with
  | [] => r = 0 /\ ahead (set_pos p s) []
  | TSym c :: t' => r = c /\ is_sym c = true /\ ahead (set_pos p s) t'
  | TWord w :: t' => r = WORD /\ word_at q e w /\ ahead (set_pos p s) t'
  end.
Proof using Hnz.
  intros [Hp Ht]. unfold gettoken. rewrite bind_gets. destruct (token_at txt (pos s)) as [[[r q] e] p] eqn:E.
  destruct (token_at_spec _ _ _ _ _ Hp E) as [Hle Hm]. rewrite Ht in Hm. exists r, q, e, p.
  split; [by rewrite bind_modify|]. unfold ahead. simpl. destruct t as [|[c|w] t']; naive_solver.
Qed.

(** ** Trees in the store *)

Abbreviation reps := (tree word_at).

Lemma reps_lt N p c : reps N p c -> (p < length N)%nat.
Proof. destruct c; simpl; intros H; naive_solver eauto using lookup_lt_Some. Qed.
Lemma reps_prefix N N' p c : N `prefix_of` N' -> reps N p c -> reps N' p c.
Proof.
  intros HN. revert p. induction c as [ws|c IH k f|l IHl r IHr|l IHl r IHr|c IH]; intros p; simpl; intros H; destruct_and?.
  - destruct H as (a&H1&H2). exists a. eauto using prefix_lookup_Some.
  - destruct H as (i&q&e&H1&H2&H3&H4). exists i, q, e. eauto 10 using prefix_lookup_Some.
  - destruct H as (i&j&H1&H2&H3&H4&H5). exists i, j. eauto 10 using prefix_lookup_Some.
  - destruct H as (i&j&H1&H2&H3&H4&H5). exists i, j. eauto 10 using prefix_lookup_Some.
  - destruct H as (i&H1&H2&H3). exists i. eauto using prefix_lookup_Some.
Qed.

(** [r] is the redirections [R], the last first, over [i]. *)
Fixpoint over (N : list node) (r i : nat) (R : list (rkind * list Z)) : Prop :=
  match R with
  | [] => r = i
  | (k, f) :: R' => exists r' q e, N !! r = Some (NRedir r' q e (rmode k) (rfd k)) /\ (r' < r)%nat /\ word_at q e f /\ over N r' i R'
  end.
Lemma over_prefix N N' r i R : N `prefix_of` N' -> over N r i R -> over N' r i R.
Proof.
  intros HN. revert r. induction R as [|[k f] R IH]; intros r; simpl; [done|].
  intros (r'&q&e&H1&H2&H3&H4). exists r', q, e. eauto 10 using prefix_lookup_Some.
Qed.
Lemma over_alter N r i R g a : N !! i = Some (NExec a) -> over N r i R -> over (alter g i N) r i R.
Proof.
  intros Hi. revert r. induction R as [|[k f] R IH]; intros r; simpl; [done|].
  intros (r'&q&e&H1&H2&H3&H4). exists r', q, e. split_and!; [|done|done|auto].
  rewrite list_lookup_alter_ne; [done|]. intros ->. congruence.
Qed.
Lemma over_lt N r i R : (i < length N)%nat -> over N r i R -> (r < length N)%nat.
Proof. destruct R as [|[k f] R]; simpl; [by intros ? ->|]. intros _ (?&?&?&H&_). by apply lookup_lt_Some in H. Qed.
Lemma over_reps N r i R c : over N r i R -> reps N i c -> reps N r (wrap c (rev R)).
Proof.
  revert r. induction R as [|[k f] R IH]; intros r; simpl; [by intros -> ?|].
  intros (r'&q&e&H1&H2&H3&H4) Hc. unfold wrap. rewrite foldl_app. simpl. exists r', q, e. split_and!; [done..|].
  by apply IH.
Qed.

Lemma new_node_run n s : new_node n s = Ret (length (nodes s)) (set_nodes (nodes s ++ [n]) s).
Proof. done. Qed.
Lemma lookup_new (N : list node) n : (N ++ [n]) !! length N = Some n.
Proof. by rewrite lookup_app_r, Nat.sub_diag. Qed.

(** ** The parser accepts the grammar *)

Definition stop_at (set : list Z) (t : list tok) : Prop := t = [] \/ peeks set t = true.
Lemma stop_not set set' t : stop_at set t -> forallb (fun c => negb (among set' c)) set = true -> peeks set' t = false.
Proof.
  intros [->|H] Hd; [done|]. destruct t as [|[c|] t]; [done| |done]. simpl in *. unfold among in H.
  apply existsb_exists in H as (x&Hx&Ex). apply Z.eqb_eq in Ex as <-. rewrite forallb_forall in Hd.
  specialize (Hd _ Hx). by apply negb_true_iff in Hd.
Qed.

Lemma redir_node k r q e :
  (if rsym k =? LESS then redircmd r q e O_RDONLY 0
   else if rsym k =? GREATER then redircmd r q e (Z.lor O_WRONLY O_CREATE) 1
   else if rsym k =? PLUS then redircmd r q e (Z.lor O_WRONLY O_CREATE) 1
   else ret r) = new_node (NRedir r q e (rmode k) (rfd k)).
Proof. by destruct k. Qed.

Lemma redirs_step fuel s r k f t : ahead s (pr_redir (k, f) ++ t) ->
  exists q e p, word_at q e f /\
    let s' := set_nodes (nodes s ++ [NRedir r q e (rmode k) (rfd k)]) (set_pos p s) in
    parseredirs txt (S fuel) r s = parseredirs txt fuel (length (nodes s)) s' /\ ahead s' t.
Proof using Hnz.
  intros Ha. simpl parseredirs. destruct (peek_run [LESS; GREATER] s _ eq_refl Ha) as (p&Ep&Ha1). rewrite (bind_run _ _ _ _ _ Ep).
  replace (peeks _ _) with true by (by destruct k). simpl in Ha1.
  destruct (gettoken_run _ _ Ha1) as (c1&q1&e1&p1&E1&->&_&Ha2). rewrite (bind_run _ _ _ _ _ E1).
  destruct (gettoken_run _ _ Ha2) as (c2&q&e&p2&E2&->&Hw&Ha3). rewrite (bind_run _ _ _ _ _ E2).
  change (negb (WORD =? WORD)) with false. cbv iota. rewrite redir_node, (bind_run _ _ _ _ _ (new_node_run _ _)).
  by exists q, e, p2.
Qed.
Lemma redirs_stop fuel s r t : ahead s t -> peeks [LESS; GREATER] t = false ->
  exists p, parseredirs txt (S fuel) r s = Ret r (set_pos p s) /\ ahead (set_pos p s) t.
Proof using Hnz.
  intros Ha Ht. simpl. destruct (peek_run [LESS; GREATER] s t eq_refl Ha) as (p&Ep&Ha1).
  rewrite (bind_run _ _ _ _ _ Ep), Ht. by exists p.
Qed.

Lemma over_new N r i R k f q e : (i < length N)%nat -> over N r i R -> word_at q e f ->
  over (N ++ [NRedir r q e (rmode k) (rfd k)]) (length N) i ((k, f) :: R).
Proof.
  intros Hi Ho Hw. exists r, q, e. split_and!; [by apply lookup_new|by eapply over_lt|done|].
  eapply over_prefix; [|done]. by eexists.
Qed.

Lemma redirs_run rs : forall fuel s r i R t, ahead s (flat_map pr_redir rs ++ t) -> peeks [LESS; GREATER] t = false ->
  (length rs < fuel)%nat -> (i < length (nodes s))%nat -> over (nodes s) r i R ->
  exists r' s', parseredirs txt fuel r s = Ret r' s' /\ ahead s' t /\ line s' = line s /\
    nodes s `prefix_of` nodes s' /\ over (nodes s') r' i (rev rs ++ R).
Proof using Hnz.
  induction rs as [|[k f] rs IH]; intros fuel s r i R t Ha Ht Hf Hi Ho; (destruct fuel as [|fuel]; [simpl in Hf; lia|]).
  - destruct (redirs_stop fuel s r t Ha Ht) as (p&E&Ha1). by exists r, (set_pos p s).
  - destruct (redirs_step fuel s r k f (flat_map pr_redir rs ++ t) Ha) as (q&e&p&Hw&E&Ha1).
    destruct (IH fuel (set_nodes (nodes s ++ [NRedir r q e (rmode k) (rfd k)]) (set_pos p s)) (length (nodes s)) i ((k, f) :: R) t)
      as (r'&s'&E'&Ha'&Hl'&HN'&Ho'); [done|done|simpl in Hf; lia|simpl; rewrite length_app; lia|by apply over_new|].
    exists r', s'. split_and!; [by rewrite E|done|done|etrans; [by eexists|exact HN']|].
    simpl. rewrite <- app_assoc. exact Ho'.
Qed.

(** The words and redirections of a command. *)
Definition plain (N : list node) (i : nat) (ws : list (list Z)) : Prop := exists a, N !! i = Some (NExec a) /\ args_at word_at a ws.

Lemma plain_prefix N N' i ws : N `prefix_of` N' -> plain N i ws -> plain N' i ws.
Proof. intros HN (a&H1&H2). exists a. eauto using prefix_lookup_Some. Qed.
Lemma add_arg_run N0 s r R ws q e w : let i := length N0 in N0 `prefix_of` nodes s -> plain (nodes s) i ws -> over (nodes s) r i R ->
  word_at q e w -> exists N', add_arg i q e s = Ret tt (set_nodes N' s) /\ N0 `prefix_of` N' /\ plain N' i (ws ++ [w]) /\ over N' r i R.
Proof.
  intros i HN (a&Hi&Ha) Ho Hw. eexists. split; [reflexivity|]. split_and!.
  - destruct HN as [M HM]. rewrite HM. replace i with (length N0 + 0)%nat by (unfold i; lia).
    rewrite alter_app_r. by eexists.
  - exists (a ++ [(q, e)]). rewrite list_lookup_alter_eq, Hi. split; [done|]. apply Forall2_app; [done|]. constructor; [done|constructor].
  - by eapply over_alter.
Qed.

Lemma args_run items : forall f1 f2 N0 s r R ws t, ahead s (flat_map pr_item items ++ t) -> stop_at [BAR; RPAREN; AMP; SEMI] t ->
  let i := length N0 in
  N0 `prefix_of` nodes s -> plain (nodes s) i ws -> over (nodes s) r i R ->
  Z.of_nat (length ws + length (item_words items)) < MAXARGS -> (length items < f1)%nat -> (length items < f2)%nat ->
  exists r' s', (let! r := parseredirs txt f1 r in parseargs txt f2 i (Z.of_nat (length ws)) r) s = Ret r' s' /\
    ahead s' t /\ line s' = line s /\ N0 `prefix_of` nodes s' /\ plain (nodes s') i (ws ++ item_words items) /\
    over (nodes s') r' i (rev (item_redirs items) ++ R).
Proof using Hnz.
  induction items as [|[w|k f] items IH]; intros f1 f2 N0 s r R ws t Ha Ht i HN Hpl Ho Hlen Hf1 Hf2;
    (destruct f1 as [|f1]; [simpl in Hf1; lia|]); (destruct f2 as [|f2]; [simpl in Hf2; lia|]).
  - destruct (redirs_stop f1 s r t Ha) as (p&E&Ha1); [by eapply stop_not|]. rewrite (bind_run _ _ _ _ _ E). simpl parseargs.
    destruct (peek_run [BAR; RPAREN; AMP; SEMI] _ _ eq_refl Ha1) as (p2&Ep&Ha2). rewrite (bind_run _ _ _ _ _ Ep).
    simpl item_words. rewrite app_nil_r. destruct Ht as [-> | Hpk].
    + simpl. destruct (gettoken_run _ _ Ha2) as (c&q&e&p3&E3&->&Ha3). rewrite (bind_run _ _ _ _ _ E3).
      eexists _, _. split; [reflexivity|]. done.
    + rewrite Hpk. eexists _, _. split; [reflexivity|]. done.
  - destruct (redirs_stop f1 s r _ Ha eq_refl) as (p&E&Ha1). rewrite (bind_run _ _ _ _ _ E). simpl parseargs.
    destruct (peek_run [BAR; RPAREN; AMP; SEMI] _ _ eq_refl Ha1) as (p2&Ep&Ha2). rewrite (bind_run _ _ _ _ _ Ep).
    replace (peeks _ _) with false by done. destruct (gettoken_run _ _ Ha2) as (c&q&e&p3&E3&->&Hw&Ha3). rewrite (bind_run _ _ _ _ _ E3).
    change (WORD =? 0) with false. change (negb (WORD =? WORD)) with false. cbv iota.
    set (s3 := set_pos p3 (set_pos p2 (set_pos p s))) in *.
    destruct (add_arg_run N0 s3 r R ws q e w) as (N'&Ea&HN'&Hpl'&Ho'); [done..|]. rewrite (bind_run _ _ _ _ _ Ea).
    simpl item_words in Hlen. simpl length in Hlen. destruct (Z.leb_spec MAXARGS (Z.of_nat (length ws) + 1)); [lia|].
    replace (Z.of_nat (length ws) + 1) with (Z.of_nat (length (ws ++ [w]))) by (rewrite length_app; simpl; lia).
    destruct (IH f2 f2 N0 (set_nodes N' s3) r R (ws ++ [w]) t) as (r'&s'&E'&Ha'&Hl'&HNs&Hpls&Hos);
      [done..|rewrite length_app; simpl; lia|simpl in *; lia|simpl in *; lia|].
    exists r', s'. split; [exact E'|]. split_and!; [done..| |done]. simpl item_words. by rewrite <- app_assoc in Hpls.
  - destruct (redirs_step f1 s r k f (flat_map pr_item items ++ t) Ha) as (q&e&p&Hw&E&Ha1).
    set (s1 := set_nodes (nodes s ++ [NRedir r q e (rmode k) (rfd k)]) (set_pos p s)) in *.
    assert (HNs : nodes s `prefix_of` nodes s1) by (by eexists).
    assert (Hi : (i < length (nodes s))%nat) by (destruct Hpl as (a&Hi&_); by apply lookup_lt_Some in Hi).
    destruct (IH f1 (S f2) N0 s1 (length (nodes s)) ((k, f) :: R) ws t) as (r'&s'&E'&Ha'&Hl'&HN'&Hpl'&Ho');
      [done|done|by etrans|by eapply plain_prefix|by apply over_new|done|simpl in *; lia|simpl in *; lia|].
    exists r', s'. split; [unfold bind in *; by rewrite E|]. split_and!; [done..|]. simpl. rewrite <- app_assoc. exact Ho'.
Qed.

Lemma items_length items t : (length items <= length (flat_map pr_item items ++ t))%nat.
Proof. rewrite length_app. induction items as [|[] items IH]; simpl; lia. Qed.
Lemma redirs_length rs t : (length rs <= length (flat_map pr_redir rs ++ t))%nat.
Proof. rewrite length_app. induction rs as [|[] rs IH]; simpl; lia. Qed.

(** A piece of the line has been read up to the tokens [t] and stands for [c]. *)
Definition parsed (m : SH nat) (s : shell) (t : list tok) (c : cmd) : Prop :=
  exists p s', m s = Ret p s' /\ ahead s' t /\ line s' = line s /\ nodes s `prefix_of` nodes s' /\ reps (nodes s') p c.

Lemma simple_run items fuel s t : Z.of_nat (length (item_words items)) < MAXARGS -> ahead s (pr_exec (GSimple items) ++ t) ->
  stop_at [BAR; RPAREN; AMP; SEMI] t -> (length (pr_exec (GSimple items) ++ t) + 1 < fuel)%nat ->
  parsed (parseexec txt fuel) s t (cmd_exec (GSimple items)).
Proof using Hnz.
  intros Hw Ha Ht Hf. destruct fuel as [|fuel]; [lia|]. simpl pr_exec in *. pose proof (items_length items t) as Hil.
  unfold parsed. simpl parseexec. destruct (peek_run [LPAREN] s _ eq_refl Ha) as (p&Ep&Ha1). rewrite (bind_run _ _ _ _ _ Ep).
  replace (peeks _ _) with false; [|destruct items as [|[w|[] f] items]; [symmetry; by eapply stop_not|done..]].
  unfold execcmd. rewrite (bind_run _ _ _ _ _ (new_node_run _ _)).
  set (s1 := set_nodes (nodes (set_pos p s) ++ [NExec []]) (set_pos p s)).
  destruct (args_run items fuel fuel (nodes s) s1 (length (nodes s)) [] [] t) as (r&s'&E&Ha'&Hl'&HN'&Hpl'&Ho');
    [exact Ha1|done|by eexists|exists []; split; [by apply lookup_new|constructor]|done|done|lia|lia|].
  exists r, s'. split_and!; [exact E|done..|]. rewrite app_nil_r in Ho'. simpl.
  replace (item_redirs items) with (rev (rev (item_redirs items))) by apply rev_involutive.
  eapply over_reps; [exact Ho'|]. destruct Hpl' as (a&H1&H2). by exists a.
Qed.

Lemma sym_step c set s t : ahead s (TSym c :: t) -> forallb (among symbols) set = true -> peeks set (TSym c :: t) = true ->
  exists r q e p p', peek txt set s = Ret true (set_pos p s) /\ gettoken txt (set_pos p s) = Ret (r, q, e) (set_pos p' s) /\
    ahead (set_pos p' s) t.
Proof using Hnz.
  intros Ha Hset Hp. destruct (peek_run set s _ Hset Ha) as (p&Ep&Ha1). rewrite Hp in Ep.
  destruct (gettoken_run _ _ Ha1) as (r&q&e&p'&E'&_&_&Ha2). by exists r, q, e, p, p'.
Qed.

Lemma backs_back n c : backs n (Back c) = backs (S n) c.
Proof. unfold backs. by rewrite Nat.iter_succ_r. Qed.

Lemma backs_run n : forall fuel s p c t, reps (nodes s) p c -> ahead s (replicate n (TSym AMP) ++ t) -> peeks [AMP] t = false ->
  (n < fuel)%nat -> parsed (parsebacks txt fuel p) s t (backs n c).
Proof using Hnz.
  induction n as [|n IH]; intros fuel s p c t Hr Ha Ht Hf; (destruct fuel as [|fuel]; [lia|]); unfold parsed; simpl parsebacks.
  - destruct (peek_run [AMP] s t eq_refl Ha) as (k&Ep&Ha1). rewrite (bind_run _ _ _ _ _ Ep), Ht. by exists p, (set_pos k s).
  - destruct (sym_step AMP [AMP] s _ Ha eq_refl eq_refl) as (r&q&e&k&k'&E1&E2&Ha2).
    rewrite (bind_run _ _ _ _ _ E1), (bind_run _ _ _ _ _ E2). unfold backcmd. rewrite (bind_run _ _ _ _ _ (new_node_run _ _)).
    set (s1 := set_nodes (nodes s ++ [NBack p]) (set_pos k' s)).
    destruct (IH fuel s1 (length (nodes s)) (Back c) t) as (p'&s'&E'&Ha'&Hl'&HN'&Hr'); [|done|done|lia|].
    + exists p. split_and!; [by apply lookup_new|by eapply reps_lt|]. eapply reps_prefix; [|done]. by eexists.
    + exists p', s'. rewrite <- backs_back. split_and!; [exact E'|done|done|etrans; [by eexists|exact HN']|done].
Qed.

Definition runs_exec (e : gexec) : Prop := forall fuel s t, short_exec e -> ahead s (pr_exec e ++ t) ->
  stop_at [BAR; RPAREN; AMP; SEMI] t -> (4 * length (pr_exec e ++ t) + 2 <= fuel)%nat -> parsed (parseexec txt fuel) s t (cmd_exec e).
Definition runs_pipe (e : gpipe) : Prop := forall fuel s t, short_pipe e -> ahead s (pr_pipe e ++ t) ->
  stop_at [RPAREN; AMP; SEMI] t -> (4 * length (pr_pipe e ++ t) + 3 <= fuel)%nat -> parsed (parsepipe txt fuel) s t (cmd_pipe e).
Definition runs_line (e : gline) : Prop := forall fuel s t, short_line e -> ahead s (pr_line e ++ t) ->
  stop_at [RPAREN] t -> (4 * length (pr_line e ++ t) + 4 <= fuel)%nat -> parsed (parseline txt fuel) s t (cmd_line e).

Lemma stop_weaken set set' t : stop_at set t -> forallb (among set') set = true -> stop_at set' t.
Proof.
  intros [->|H] Hs; [by left|]. right. destruct t as [|[c|] t]; [done| |done]. simpl in *.
  unfold among in H. apply existsb_exists in H as (x&Hx&Ex). apply Z.eqb_eq in Ex as <-. rewrite forallb_forall in Hs. by apply Hs.
Qed.
Lemma stop_cons set c t : among set c = true -> (c =? PLUS) = false -> stop_at set (TSym c :: t).
Proof. intros H Hc. right. simpl. by rewrite Hc. Qed.
Lemma stop_backs n set t : among set AMP = true -> stop_at set t -> stop_at set (replicate n (TSym AMP) ++ t).
Proof. intros H Ht. destruct n; [done|]. simpl. by apply stop_cons. Qed.

Lemma block_run l rs : runs_line l -> runs_exec (GBlock l rs).
Proof using Hnz.
  intros IH fuel s t Hs Ha Ht Hf. simpl pr_exec in *. rewrite <- app_comm_cons, <- app_assoc, <- app_comm_cons in *.
  simpl length in Hf. destruct fuel as [|[|fuel]]; [lia|lia|]. unfold parsed. simpl parseexec.
  destruct (peek_run [LPAREN] s _ eq_refl Ha) as (k0&E0&Ha0). rewrite (bind_run _ _ _ _ _ E0).
  replace (peeks _ _) with true by done. simpl parseblock.
  destruct (sym_step LPAREN [LPAREN] _ _ Ha0 eq_refl eq_refl) as (r1&q1&e1&k1&k2&E1&E2&Ha2).
  rewrite (bind_run _ _ _ _ _ E1). change (negb true) with false. cbv iota. rewrite (bind_run _ _ _ _ _ E2).
  destruct (IH fuel _ _ Hs Ha2) as (p&s3&E3&Ha3&Hl3&HN3&Hr3); [by apply stop_cons|lia|]. rewrite (bind_run _ _ _ _ _ E3).
  destruct (sym_step RPAREN [RPAREN] _ _ Ha3 eq_refl eq_refl) as (r4&q4&e4&k4&k5&E4&E5&Ha5).
  rewrite (bind_run _ _ _ _ _ E4). change (negb true) with false. cbv iota. rewrite (bind_run _ _ _ _ _ E5).
  pose proof (redirs_length rs t) as Hrl. rewrite length_app in Hf. simpl length in Hf.
  destruct (redirs_run rs fuel (set_pos k5 s3) p p [] t) as (r'&s'&E'&Ha'&Hl'&HN'&Ho');
    [done|by eapply stop_not|lia|by eapply reps_lt|done|].
  exists r', s'. split_and!; [exact E'|done|by rewrite Hl'|by etrans|]. simpl. rewrite app_nil_r in Ho'.
  replace rs with (rev (rev rs)) by apply rev_involutive. eapply over_reps; [exact Ho'|]. by eapply reps_prefix.
Qed.

Lemma grammar_runs : (forall l, runs_line l) /\ (forall p, runs_pipe p) /\ (forall e, runs_exec e).
Proof using Hnz.
  apply grammar_ind.
  - intros p IHp bg fuel s t Hs Ha Ht Hf. simpl pr_line in *. rewrite <- app_assoc in *. destruct fuel as [|fuel]; [lia|].
    unfold parsed. simpl parseline.
    destruct (IHp fuel s _ Hs Ha) as (p1&s1&E1&Ha1&Hl1&HN1&Hr1); [apply stop_backs; [done|]; by eapply stop_weaken|lia|].
    rewrite (bind_run _ _ _ _ _ E1). rewrite !length_app, length_replicate in Hf.
    destruct (backs_run bg fuel s1 p1 _ t Hr1 Ha1) as (p2&s2&E2&Ha2&Hl2&HN2&Hr2); [by eapply stop_not|lia|].
    rewrite (bind_run _ _ _ _ _ E2). destruct (peek_run [SEMI] s2 t eq_refl Ha2) as (k&Ek&Ha3). rewrite (bind_run _ _ _ _ _ Ek).
    replace (peeks _ _) with false by (symmetry; by eapply stop_not).
    exists p2, (set_pos k s2). split_and!; [done|done|simpl; congruence|by etrans|done].
  - intros p IHp bg l IHl fuel s t [Hs Hsl] Ha Ht Hf. simpl pr_line in *. rewrite <- !app_assoc in *. cbn [app] in *. destruct fuel as [|fuel]; [lia|].
    unfold parsed. simpl parseline.
    destruct (IHp fuel s _ Hs Ha) as (p1&s1&E1&Ha1&Hl1&HN1&Hr1); [apply stop_backs; [done|]; by apply stop_cons|lia|].
    rewrite (bind_run _ _ _ _ _ E1). rewrite !length_app, length_replicate in Hf. simpl length in Hf. rewrite length_app in Hf.
    destruct (backs_run bg fuel s1 p1 _ _ Hr1 Ha1) as (p2&s2&E2&Ha2&Hl2&HN2&Hr2); [done|lia|].
    rewrite (bind_run _ _ _ _ _ E2). destruct (sym_step SEMI [SEMI] _ _ Ha2 eq_refl eq_refl) as (r3&q3&e3&k3&k4&E3&E4&Ha4).
    rewrite (bind_run _ _ _ _ _ E3), (bind_run _ _ _ _ _ E4).
    destruct (IHl fuel _ _ Hsl Ha4) as (p5&s5&E5&Ha5&Hl5&HN5&Hr5); [done|rewrite length_app; lia|].
    rewrite (bind_run _ _ _ _ _ E5). unfold listcmd. rewrite new_node_run. eexists _, _. split; [reflexivity|].
    split_and!; [done|simpl in *; congruence|etrans; [exact HN1|]; etrans; [exact HN2|]; etrans; [exact HN5|by eexists]|].
    apply reps_lt in Hr5 as Hlt5. assert (Hr2' := reps_prefix _ _ _ _ HN5 Hr2). apply reps_lt in Hr2' as Hlt2.
    exists p2, p5. split_and!; [by apply lookup_new|done|done|..]; (eapply reps_prefix; [|done]; by eexists).
  - intros e IHe fuel s t Hs Ha Ht Hf. simpl pr_pipe in *. destruct fuel as [|fuel]; [lia|]. unfold parsed. simpl parsepipe.
    destruct (IHe fuel s _ Hs Ha) as (p1&s1&E1&Ha1&Hl1&HN1&Hr1); [by eapply stop_weaken|lia|].
    rewrite (bind_run _ _ _ _ _ E1). destruct (peek_run [BAR] s1 t eq_refl Ha1) as (k&Ek&Ha3). rewrite (bind_run _ _ _ _ _ Ek).
    replace (peeks _ _) with false by (symmetry; by eapply stop_not). by exists p1, (set_pos k s1).
  - intros e IHe p IHp fuel s t [Hs Hsp] Ha Ht Hf. simpl pr_pipe in *. rewrite <- !app_assoc in *. cbn [app] in *. destruct fuel as [|fuel]; [lia|].
    unfold parsed. simpl parsepipe.
    destruct (IHe fuel s _ Hs Ha) as (p1&s1&E1&Ha1&Hl1&HN1&Hr1); [by apply stop_cons|lia|].
    rewrite (bind_run _ _ _ _ _ E1). rewrite !length_app in Hf. simpl length in Hf. rewrite length_app in Hf.
    destruct (sym_step BAR [BAR] _ _ Ha1 eq_refl eq_refl) as (r3&q3&e3&k3&k4&E3&E4&Ha4).
    rewrite (bind_run _ _ _ _ _ E3), (bind_run _ _ _ _ _ E4).
    destruct (IHp fuel _ _ Hsp Ha4) as (p5&s5&E5&Ha5&Hl5&HN5&Hr5); [done|rewrite length_app; lia|].
    rewrite (bind_run _ _ _ _ _ E5). unfold pipecmd. rewrite new_node_run. eexists _, _. split; [reflexivity|].
    split_and!; [done|simpl in *; congruence|etrans; [exact HN1|]; etrans; [exact HN5|by eexists]|].
    apply reps_lt in Hr5 as Hlt5. assert (Hr1' := reps_prefix _ _ _ _ HN5 Hr1). apply reps_lt in Hr1' as Hlt1.
    exists p1, p5. split_and!; [by apply lookup_new|done|done|..]; (eapply reps_prefix; [|done]; by eexists).
  - intros items fuel s t Hs Ha Ht Hf. by apply simple_run; [..|lia].
  - intros l IH rs. by apply block_run.
Qed.

(** ** The parser accepts nothing else *)

(** [m] reads the tokens of some [e], or panics. *)
Definition reads {G} (pr : G -> list tok) (ok : G -> Prop) (m : SH nat) (s : shell) (t : list tok) : Prop :=
  (exists e t' p s', m s = Ret p s' /\ t = pr e ++ t' /\ ahead s' t' /\ ok e) \/ (exists msg s', m s = Stop (Panicked msg) s').

Lemma sym_not_word c : is_sym c = true -> (c =? WORD) = false /\ (c =? 0) = false.
Proof.
  unfold is_sym, among, symbols. intros H. split; apply Z.eqb_neq; intros ->; done.
Qed.
Lemma redir_sym t : peeks [LESS; GREATER] t = true -> exists k t', t = TSym (rsym k) :: t'.
Proof.
  destruct t as [|[c|] t]; [done| |done]. simpl. destruct (Z.eqb_spec c PLUS) as [->|Hc]; [by exists RAppend, t|].
  unfold among. simpl. intros H. apply orb_true_iff in H as [H|H]; [|rewrite orb_false_r in H]; apply Z.eqb_eq in H as ->.
  - by exists RIn, t.
  - by exists ROut, t.
Qed.

Lemma redirs_reads fuel : forall r s t, ahead s t -> (length t < fuel)%nat ->
  reads (flat_map pr_redir) (fun _ => True) (parseredirs txt fuel r) s t.
Proof using Hnz.
  induction fuel as [|fuel IH]; intros r s t Ha Hf; [lia|].
  destruct (peeks [LESS; GREATER] t) eqn:Ep.
  - destruct (redir_sym t Ep) as (k&t'&->). destruct t' as [|[c|f] t'].
    + right. simpl. destruct (sym_step (rsym k) [LESS; GREATER] s _ Ha eq_refl Ep) as (r1&q1&e1&k1&k2&E1&E2&Ha2).
      rewrite (bind_run _ _ _ _ _ E1), (bind_run _ _ _ _ _ E2).
      destruct (gettoken_run _ _ Ha2) as (c3&q3&e3&k3&E3&->&_). rewrite (bind_run _ _ _ _ _ E3). by eexists _, _.
    + right. simpl. destruct (sym_step (rsym k) [LESS; GREATER] s _ Ha eq_refl Ep) as (r1&q1&e1&k1&k2&E1&E2&Ha2).
      rewrite (bind_run _ _ _ _ _ E1), (bind_run _ _ _ _ _ E2).
      destruct (gettoken_run _ _ Ha2) as (c3&q3&e3&k3&E3&->&Hs&_). rewrite (bind_run _ _ _ _ _ E3).
      destruct (sym_not_word c Hs) as [-> _]. by eexists _, _.
    + destruct (redirs_step fuel s r k f t' Ha) as (q&e&p&_&E&Ha1). rewrite <- (app_nil_r t') in Ha1.
      simpl in Hf. rewrite app_nil_r in Ha1.
      destruct (IH (length (nodes s)) _ _ Ha1) as [(rs&t2&p2&s2&E2&Et&Ha2&_)|(msg&s2&E2)]; [lia|left|right].
      * exists ((k, f) :: rs), t2, p2, s2. split; [by rewrite E|]. split_and!; [simpl; by rewrite Et|done|done].
      * exists msg, s2. by rewrite E.
  - left. destruct (redirs_stop fuel s r t Ha Ep) as (p&E&Ha1). by exists [], t, r, (set_pos p s).
Qed.

Lemma redir_items rs : flat_map pr_redir rs = flat_map pr_item (map (fun x => IRedir x.1 x.2) rs) /\
  item_words (map (fun x => IRedir x.1 x.2) rs) = [].
Proof. induction rs as [|[k f] rs [IH1 IH2]]; simpl; [done|]. by rewrite IH1. Qed.

Lemma args_reads f2 : forall f1 i argc r s t, ahead s t -> (length t < f1)%nat -> (length t < f2)%nat -> argc < MAXARGS ->
  reads (flat_map pr_item) (fun l => argc + Z.of_nat (length (item_words l)) < MAXARGS)
    (let! r := parseredirs txt f1 r in parseargs txt f2 i argc r) s t.
Proof using Hnz.
  induction f2 as [|f2 IH]; intros f1 i argc r s t Ha Hf1 Hf2 Hm; [lia|].
  destruct (redirs_reads f1 r s t Ha Hf1) as [(rs&t1&r1&s1&E1&Et&Ha1&_)|(msg&s1&E1)];
    [|right; exists msg, s1; by rewrite (bind_stop _ _ _ _ _ E1)].
  destruct (redir_items rs) as [Ers Ews]. rewrite Ers in Et.
  set (l0 := map (fun x => IRedir x.1 x.2) rs) in *. rewrite Et, length_app in Hf2.
  unfold reads. rewrite (bind_run _ _ _ _ _ E1). simpl parseargs.
  destruct (peek_run [BAR; RPAREN; AMP; SEMI] _ _ eq_refl Ha1) as (p2&Ep&Ha2). rewrite (bind_run _ _ _ _ _ Ep).
  destruct (peeks _ t1).
  { left. exists l0, t1, r1, (set_pos p2 s1). rewrite Ews. simpl. split_and!; [done|done|done|lia]. }
  destruct (gettoken_run _ _ Ha2) as (c&q&e&p3&E3&Hc). rewrite (bind_run _ _ _ _ _ E3). destruct t1 as [|[c1|w] t1].
  - destruct Hc as [-> Ha3]. left. exists l0, [], r1, (set_pos p3 (set_pos p2 s1)). rewrite Ews. simpl. split_and!; [done|done|done|lia].
  - destruct Hc as (->&Hs&_). destruct (sym_not_word _ Hs) as [Hw Hz]. right. rewrite Hz, Hw. by eexists _, _.
  - destruct Hc as (->&_&Ha3). change (WORD =? 0) with false. change (negb (WORD =? WORD)) with false. cbv iota.
    unfold add_arg. rewrite bind_modify. destruct (Z.leb_spec MAXARGS (argc + 1)); [right; by eexists _, _|].
    simpl in Hf2.
    match goal with |- context [(let! _ := parseredirs txt f2 r1 in _) ?x] => set (s3 := x) end.
    destruct (IH f2 i (argc + 1) r1 s3 t1 Ha3) as [(l&t'&p&s'&E'&Et'&Ha'&Hl)|(msg&s'&E')]; [lia|lia|lia|left|right].
    + exists (l0 ++ IWord w :: l), t', p, s'. split_and!; [exact E'| |done|].
      * rewrite Et, flat_map_app. simpl. by rewrite <- app_assoc, Et'.
      * unfold item_words in *. rewrite flat_map_app, Ews. simpl. lia.
    + exists msg, s'. exact E'.
Qed.

Lemma peeks_one c t : (GREATER =? c) = false -> peeks [c] t = true -> exists t', t = TSym c :: t'.
Proof.
  intros Hc. destruct t as [|[d|] t]; [done| |done]. simpl. unfold among. simpl. rewrite orb_false_r.
  destruct (Z.eqb_spec d PLUS) as [->|]; [by rewrite Hc|]. intros H. apply Z.eqb_eq in H as ->. by exists t.
Qed.

Lemma backs_reads fuel : forall p s t, ahead s t -> (length t < fuel)%nat ->
  reads (fun n => replicate n (TSym AMP)) (fun _ => True) (parsebacks txt fuel p) s t.
Proof using Hnz.
  induction fuel as [|fuel IH]; intros p s t Ha Hf; [lia|]. unfold reads. simpl parsebacks.
  destruct (peek_run [AMP] s t eq_refl Ha) as (k&Ek&Ha1). rewrite (bind_run _ _ _ _ _ Ek).
  destruct (peeks [AMP] t) eqn:Ep; [|left; by exists O, t, p, (set_pos k s)].
  destruct (peeks_one AMP t eq_refl Ep) as [t1 ->]. rename t1 into t.
  destruct (gettoken_run _ _ Ha1) as (c3&q3&e3&k3&E3&->&_&Ha3). rewrite (bind_run _ _ _ _ _ E3).
  unfold backcmd. rewrite (bind_run _ _ _ _ _ (new_node_run _ _)). simpl in Hf.
  match goal with |- context [parsebacks txt fuel ?a ?x] =>
    destruct (IH a x t Ha3) as [(n&t'&p'&s'&E'&->&Ha'&_)|(msg&s'&E')]; [lia|left|right] end.
  - by exists (S n), t', p', s'.
  - by exists msg, s'.
Qed.

Definition reads_exec (fuel : nat) : Prop := forall s t, ahead s t -> (4 * length t + 2 <= fuel)%nat -> reads pr_exec short_exec (parseexec txt fuel) s t.
Definition reads_pipe (fuel : nat) : Prop := forall s t, ahead s t -> (4 * length t + 3 <= fuel)%nat -> reads pr_pipe short_pipe (parsepipe txt fuel) s t.
Definition reads_line (fuel : nat) : Prop := forall s t, ahead s t -> (4 * length t + 4 <= fuel)%nat -> reads pr_line short_line (parseline txt fuel) s t.

Lemma line_reads fuel : reads_line fuel -> reads_pipe fuel -> reads_line (S fuel).
Proof using Hnz.
  intros IHl IHp s t Ha Hf. unfold reads. simpl parseline.
  destruct (IHp s t Ha) as [(e&t1&p1&s1&E1&->&Ha1&Hs1)|(msg&s1&E1)]; [lia| |right; exists msg, s1; by rewrite (bind_stop _ _ _ _ _ E1)].
  rewrite (bind_run _ _ _ _ _ E1). rewrite length_app in Hf.
  destruct (backs_reads fuel p1 s1 t1 Ha1) as [(n&t2&p2&s2&E2&->&Ha2&_)|(msg&s2&E2)]; [lia| |right; exists msg, s2; by rewrite (bind_stop _ _ _ _ _ E2)].
  rewrite (bind_run _ _ _ _ _ E2). rewrite length_app in Hf.
  destruct (peek_run [SEMI] s2 t2 eq_refl Ha2) as (k&Ek&Ha3). rewrite (bind_run _ _ _ _ _ Ek).
  destruct (peeks [SEMI] t2) eqn:Ep.
  - destruct (peeks_one SEMI t2 eq_refl Ep) as [t3 ->]. simpl in Hf.
    destruct (gettoken_run _ _ Ha3) as (c3&q3&e3&k3&E3&->&_&Ha4). rewrite (bind_run _ _ _ _ _ E3).
    destruct (IHl _ t3 Ha4) as [(l&t4&p4&s4&E4&->&Ha5&Hs4)|(msg&s4&E4)]; [lia| |right; exists msg, s4; by rewrite (bind_stop _ _ _ _ _ E4)].
    rewrite (bind_run _ _ _ _ _ E4). left. eexists (GSeq e n l), t4, _, _. split; [reflexivity|].
    split_and!; [simpl; by rewrite <- !app_assoc|done|done].
  - left. exists (GLast e n), t2, p2, (set_pos k s2). split_and!; [done|simpl; by rewrite <- app_assoc|done|done].
Qed.

Lemma pipe_reads fuel : reads_pipe fuel -> reads_exec fuel -> reads_pipe (S fuel).
Proof using Hnz.
  intros IHp IHe s t Ha Hf. unfold reads. simpl parsepipe.
  destruct (IHe s t Ha) as [(e&t1&p1&s1&E1&->&Ha1&Hs1)|(msg&s1&E1)]; [lia| |right; exists msg, s1; by rewrite (bind_stop _ _ _ _ _ E1)].
  rewrite (bind_run _ _ _ _ _ E1). rewrite length_app in Hf.
  destruct (peek_run [BAR] s1 t1 eq_refl Ha1) as (k&Ek&Ha3). rewrite (bind_run _ _ _ _ _ Ek).
  destruct (peeks [BAR] t1) eqn:Ep.
  - destruct (peeks_one BAR t1 eq_refl Ep) as [t3 ->]. simpl in Hf.
    destruct (gettoken_run _ _ Ha3) as (c3&q3&e3&k3&E3&->&_&Ha4). rewrite (bind_run _ _ _ _ _ E3).
    destruct (IHp _ t3 Ha4) as [(l&t4&p4&s4&E4&->&Ha5&Hs4)|(msg&s4&E4)]; [lia| |right; exists msg, s4; by rewrite (bind_stop _ _ _ _ _ E4)].
    rewrite (bind_run _ _ _ _ _ E4). left. eexists (GPipe e l), t4, _, _. split; [reflexivity|].
    split_and!; [simpl; by rewrite <- !app_assoc|done|done].
  - left. by exists (GOne e), t1, p1, (set_pos k s1).
Qed.

Lemma exec_reads fuel : reads_line fuel -> reads_exec (S (S fuel)).
Proof using Hnz.
  intros IHl s t Ha Hf. unfold reads. cbn [parseexec].
  destruct (peek_run [LPAREN] s t eq_refl Ha) as (k&Ek&Ha1). rewrite (bind_run _ _ _ _ _ Ek).
  destruct (peeks [LPAREN] t) eqn:Ep.
  - destruct (peeks_one LPAREN t eq_refl Ep) as [t1 ->]. cbn [parseblock]. simpl in Hf.
    destruct (sym_step LPAREN [LPAREN] _ _ Ha1 eq_refl eq_refl) as (r1&q1&e1&k1&k2&E1&E2&Ha2).
    rewrite (bind_run _ _ _ _ _ E1). change (negb true) with false. cbv iota. rewrite (bind_run _ _ _ _ _ E2).
    destruct (IHl _ t1 Ha2) as [(l&t3&p3&s3&E3&->&Ha3&Hs3)|(msg&s3&E3)]; [lia| |right; exists msg, s3; by rewrite (bind_stop _ _ _ _ _ E3)].
    rewrite (bind_run _ _ _ _ _ E3). rewrite length_app in Hf.
    destruct (peek_run [RPAREN] s3 t3 eq_refl Ha3) as (k4&Ek4&Ha4). rewrite (bind_run _ _ _ _ _ Ek4).
    destruct (peeks [RPAREN] t3) eqn:Ep3; [|right; by eexists _, _]. change (negb true) with false. cbv iota.
    destruct (peeks_one RPAREN t3 eq_refl Ep3) as [t5 ->]. simpl in Hf.
    destruct (gettoken_run _ _ Ha4) as (c5&q5&e5&k5&E5&->&_&Ha5). rewrite (bind_run _ _ _ _ _ E5).
    destruct (redirs_reads fuel p3 _ t5 Ha5) as [(rs&t6&p6&s6&E6&->&Ha6&_)|(msg&s6&E6)]; [lia| |right; by exists msg, s6].
    left. exists (GBlock l rs), t6, p6, s6. split_and!; [done|simpl; rewrite <- !app_assoc; simpl; by rewrite <- ?app_assoc|done|done].
  - unfold execcmd. rewrite (bind_run _ _ _ _ _ (new_node_run _ _)).
    match goal with |- context [(let! r := parseredirs txt ?f ?c in _) ?x] =>
      destruct (args_reads f f c 0 c x t Ha1) as [(l&t'&p'&s'&E'&->&Ha'&Hl)|(msg&s'&E')]; [lia|lia|done|left|right] end.
    + by exists (GSimple l), t', p', s'.
    + by exists msg, s'.
Qed.

Lemma grammar_reads fuel : reads_line fuel /\ reads_pipe fuel /\ reads_exec fuel /\ reads_exec (S fuel).
Proof using Hnz.
  induction fuel as [|fuel (IHl&IHp&IHe&IHe')].
  - split_and!; intros s t _ Hf; lia.
  - split_and!; [by apply line_reads|by apply pipe_reads|done|by apply exec_reads].
Qed.

(** ** nulterminate *)

(** The characters of words are as they were. *)
Definition keeps (b : list Z) : Prop := length b = S (length txt) /\
  forall i c, txt !! i = Some c -> word_char c = true -> b !! i = Some c.
Definition ended (b : list Z) (q e : nat) (w : list Z) : Prop := word_at q e w /\ b !! e = Some 0.

Lemma put_nul_keeps b q e w : keeps b -> word_at q e w -> keeps (<[e := 0]> b) /\ <[e := 0]> b !! e = Some 0.
Proof.
  intros [Hl Hk] ((_&He)&_&_&Hs). split; [split|].
  - by rewrite length_insert.
  - intros i c Hi Hc. rewrite list_lookup_insert_ne; [auto|]. intros ->.
    apply drop_S in Hi. rewrite Hi in Hs. simpl in Hs. congruence.
  - apply list_lookup_insert_eq. lia.
Qed.
Lemma insert_zero (b : list Z) e i : b !! i = Some 0 -> <[e := 0]> b !! i = Some 0.
Proof.
  intros H. destruct (decide (i = e)) as [->|]; [|by rewrite list_lookup_insert_ne].
  apply list_lookup_insert_eq. by apply lookup_lt_Some in H.
Qed.

Definition nulled (m : SH unit) (s : shell) (N : list node) (p : nat) (c : cmd) : Prop :=
  exists b, m s = Ret tt (set_line b s) /\ keeps b /\ (forall i, line s !! i = Some 0 -> b !! i = Some 0) /\ tree (ended b) N p c.

Lemma args_nul a ws s : keeps (line s) -> args_at word_at a ws ->
  exists b, mfor a (fun x => put_nul x.2) s = Ret tt (set_line b s) /\ keeps b /\
    (forall i, line s !! i = Some 0 -> b !! i = Some 0) /\ args_at (ended b) a ws.
Proof.
  intros Hk Ha. revert s Hk. induction Ha as [|[q e] w a ws Hw Ha IH]; intros s Hk.
  - exists (line s). split; [by destruct s|]. split_and!; [done|done|constructor].
  - simpl. unfold put_nul at 1. rewrite bind_modify. simpl in Hw. destruct (put_nul_keeps _ _ _ _ Hk Hw) as [Hk1 He].
    destruct (IH (set_line (<[e := 0]> (line s)) s) Hk1) as (b&E&Hkb&Hz&Hab). exists b. split_and!; [exact E|done| |].
    + intros i Hi. apply Hz. by apply insert_zero.
    + constructor; [|done]. split; [done|]. by apply Hz.
Qed.

Lemma ended_later b b' N p c : (forall i, b !! i = Some 0 -> b' !! i = Some 0) -> tree (ended b) N p c -> tree (ended b') N p c.
Proof. intros Hz. apply tree_impl. intros q e w [H1 H2]. split; auto. Qed.

(** Two trees one after the other. *)
Lemma nulled_both m1 m2 s i j c1 c2 : nulled m1 s (nodes s) i c1 ->
  (forall s', nodes s' = nodes s -> keeps (line s') -> nulled m2 s' (nodes s) j c2) ->
  exists b, (m1 ;; m2) s = Ret tt (set_line b s) /\ keeps b /\ (forall i, line s !! i = Some 0 -> b !! i = Some 0) /\
    tree (ended b) (nodes s) i c1 /\ tree (ended b) (nodes s) j c2.
Proof.
  intros (b1&E1&Hk1&Hz1&Ht1) H2. destruct (H2 (set_line b1 s) eq_refl Hk1) as (b2&E2&Hk2&Hz2&Ht2).
  exists b2. rewrite (bind_run _ _ _ _ _ E1). split_and!; [exact E2|done|auto|by eapply ended_later|done].
Qed.

Lemma nulterminate_run c : forall fuel p s, reps (nodes s) p c -> (p < fuel)%nat -> keeps (line s) ->
  nulled (nulterminate fuel p) s (nodes s) p c.
Proof.
  induction c as [ws|c IH k f|l IHl r IHr|l IHl r IHr|c IH]; intros fuel p s Hr Hf Hk; (destruct fuel as [|fuel]; [lia|]);
    unfold nulled; simpl nulterminate; rewrite bind_gets; simpl in Hr.
  - destruct Hr as (a&Hp&Ha). rewrite Hp. destruct (args_nul a ws s Hk Ha) as (b&E&Hkb&Hz&Hab). exists b.
    split_and!; [done..|]. by exists a.
  - destruct Hr as (i&q&e&Hp&Hi&Hw&Hc). rewrite Hp. destruct (IH fuel i s Hc) as (b&E&Hkb&Hz&Ht); [lia|done|].
    rewrite (bind_run _ _ _ _ _ E). destruct (put_nul_keeps _ _ _ _ Hkb Hw) as [Hk1 He].
    exists (<[e := 0]> b). split_and!; [done|done|intros x Hx; by apply insert_zero, Hz|].
    exists i, q, e. split_and!; [done|done|by split|]. eapply ended_later; [|exact Ht]. intros x. apply insert_zero.
  - destruct Hr as (i&j&Hp&Hi&Hj&Hl&Hr). rewrite Hp.
    destruct (nulled_both (nulterminate fuel i) (nulterminate fuel j) s i j l r) as (b&E&Hkb&Hz&Ht1&Ht2);
      [apply IHl; [done|lia|done]|intros s' Es Hs; rewrite <- Es; apply IHr; [by rewrite Es|lia|done]|].
    exists b. split_and!; [done..|]. by exists i, j.
  - destruct Hr as (i&j&Hp&Hi&Hj&Hl&Hr). rewrite Hp.
    destruct (nulled_both (nulterminate fuel i) (nulterminate fuel j) s i j l r) as (b&E&Hkb&Hz&Ht1&Ht2);
      [apply IHl; [done|lia|done]|intros s' Es Hs; rewrite <- Es; apply IHr; [by rewrite Es|lia|done]|].
    exists b. split_and!; [done..|]. by exists i, j.
  - destruct Hr as (i&Hp&Hi&Hc). rewrite Hp. destruct (IH fuel i s Hc) as (b&E&Hkb&Hz&Ht); [lia|done|].
    exists b. split_and!; [done..|]. by exists i.
Qed.

Lemma span_app_stop (p : Z -> bool) w c r : Forall (fun x => p x = true) w -> p c = false -> span p (w ++ c :: r) = length w.
Proof. intros Hw Hc. induction Hw as [|x w Hx _ IH]; simpl; [by rewrite Hc|]. by rewrite Hx, IH. Qed.

Lemma ended_cstring b q e w : keeps b -> ended b q e w -> cstring b q = w.
Proof using Hnz.
  intros [Hl Hk] [((Hqe&He)&Ew&Hw&_) Hz].
  assert (Hlw : length w = (e - q)%nat) by (rewrite <- Ew, length_take, length_drop; lia).
  assert (Hn : Forall (fun c => negb (c =? 0) = true) w).
  { rewrite <- Ew. apply Forall_take, Forall_drop. eapply Forall_impl; [exact Hnz|]. intros c Hc. by apply negb_true_iff, Z.eqb_neq. }
  assert (Hpre : take (e - q) (drop q b) = w).
  { apply list_eq. intros j. destruct (decide (j < e - q)%nat) as [Hj|Hj].
    - rewrite lookup_take_lt, lookup_drop by done. destruct (lookup_lt_is_Some_2 w j ltac:(lia)) as [c Hc]. rewrite Hc.
      rewrite Forall_forall in Hw. apply Hk; [|apply Hw; by eapply list_elem_of_lookup_2].
      rewrite <- Ew, lookup_take_lt, lookup_drop in Hc by done. done.
    - rewrite lookup_ge_None_2, lookup_ge_None_2; [done|lia|rewrite length_take; lia]. }
  assert (Ed : drop q b = w ++ 0 :: drop (S e) b).
  { rewrite <- (take_drop (e - q) (drop q b)), Hpre. f_equal. rewrite drop_drop. replace (q + (e - q))%nat with e by lia.
    by apply drop_S. }
  unfold cstring. rewrite Ed, span_app_stop by done. by rewrite take_app_length.
Qed.

(** ** parsecmd *)

Lemma tokens_length l : (length (tokens l) <= length l)%nat.
Proof.
  induction l as [l IH] using (induction_ltof1 _ (@length Z)). unfold ltof in IH. destruct l as [|c l]; [done|].
  cbn [tokens]. assert (H1 : (length (tokens l) <= length l)%nat) by (apply IH; simpl; lia).
  destruct (among whitespace c); [simpl; lia|]. destruct (c =? GREATER).
  - destruct l as [|d l]; [simpl; lia|]. destruct (d =? GREATER).
    + assert (H2 : (length (tokens l) <= length l)%nat) by (apply IH; simpl; lia). simpl in *. lia.
    + simpl in *. lia.
  - destruct (among symbols c); [simpl; lia|]. unfold glue. destruct (starts_word l), (tokens l) as [|[]]; simpl in *; lia.
Qed.
Lemma start_ahead : ahead (sh_start txt) (tokens txt).
Proof. split; simpl; [lia|done]. Qed.
Lemma start_keeps : keeps (txt ++ [0]).
Proof. split; [rewrite length_app; simpl; lia|]. intros i c Hi _. by apply lookup_app_l_Some. Qed.
Lemma tokens_nil l : tokens l = [] -> match l with c :: _ => among whitespace c = true | [] => True end.
Proof.
  destruct l as [|c l]; [done|]. cbn [tokens]. destruct (among whitespace c); [done|]. destruct (c =? GREATER).
  - destruct l as [|d l]; [done|]. by destruct (d =? GREATER).
  - destruct (among symbols c); [done|]. unfold glue. by destruct (starts_word l), (tokens l) as [|[]].
Qed.
(** At the last check of [parsecmd] the position is the end exactly when no
    token is left. *)
Lemma end_reached s t : ahead s t -> exists p, peek txt [] s = Ret false (set_pos p s) /\ (Nat.eqb p (length txt) = true <-> t = []).
Proof using Hnz.
  intros Ha. exists (skip txt (pos s)). split; [unfold peek; rewrite bind_gets, bind_modify; unfold ret; by rewrite andb_false_r|].
  destruct Ha as [Hp <-]. rewrite <- (skip_tokens (pos s)). pose proof (skip_le _ Hp) as Hle. pose proof (skip_head (pos s)) as Hh.
  rewrite Nat.eqb_eq. split.
  - intros ->. by rewrite drop_all.
  - intros H. apply tokens_nil in H. destruct (drop (skip txt (pos s)) txt) as [|c l] eqn:E; [|congruence].
    apply (f_equal length) in E. rewrite length_drop in E. simpl in E. lia.
Qed.

(** A line of the grammar. *)
Lemma parsecmd_run l : short_line l -> tokens txt = pr_line l ->
  exists p s', parsecmd txt (sh_start txt) = Ret p s' /\ tree (fun q _ w => cstring (line s') q = w) (nodes s') p (cmd_line l).
Proof using Hnz.
  intros Hs Ht. destruct grammar_runs as [Hrun _]. pose proof (tokens_length txt) as Hlen.
  destruct (Hrun l (parse_fuel txt) (sh_start txt) [] Hs) as (p&s1&E1&Ha1&Hl1&_&Hr1);
    [rewrite app_nil_r, <- Ht; apply start_ahead|by left|rewrite app_nil_r, <- Ht; unfold parse_fuel; lia|].
  unfold parsecmd. rewrite (bind_run _ _ _ _ _ E1). destruct (end_reached s1 [] Ha1) as (k&Ek&[_ Hend]).
  rewrite (bind_run _ _ _ _ _ Ek), bind_gets. change (pos (set_pos k s1)) with k. rewrite (Hend eq_refl). change (negb true) with false. cbv iota.
  destruct (nulterminate_run (cmd_line l) (S p) p (set_pos k s1) Hr1) as (b&E&Hkb&_&Htr); [lia|simpl; rewrite Hl1; apply start_keeps|].
  rewrite (bind_run _ _ _ _ _ E). eexists _, _. split; [reflexivity|]. simpl. eapply tree_impl; [|exact Htr].
  intros q e w. by apply ended_cstring.
Qed.

(** Any other line. *)
Lemma parsecmd_rejects : (forall l, short_line l -> tokens txt <> pr_line l) ->
  exists msg s', parsecmd txt (sh_start txt) = Stop (Panicked msg) s'.
Proof using Hnz.
  intros Hno. destruct (grammar_reads (parse_fuel txt)) as [Hread _]. pose proof (tokens_length txt) as Hlen. unfold parsecmd.
  destruct (Hread (sh_start txt) (tokens txt) start_ahead) as [(l&t&p&s1&E1&Et&Ha1&Hs)|(msg&s1&E1)];
    [unfold parse_fuel; lia| |exists msg, s1; by rewrite (bind_stop _ _ _ _ _ E1)].
  rewrite (bind_run _ _ _ _ _ E1). destruct (end_reached s1 t Ha1) as (k&Ek&[Hend _]).
  rewrite (bind_run _ _ _ _ _ Ek), bind_gets. change (pos (set_pos k s1)) with k. destruct (Nat.eqb k (length txt)); [|by eexists _, _].
  rewrite (Hend eq_refl), app_nil_r in Et. by destruct (Hno l Hs).
Qed.

Lemma grammar_decided : (exists l, short_line l /\ tokens txt = pr_line l) \/ (forall l, short_line l -> tokens txt <> pr_line l).
Proof using Hnz.
  destruct (grammar_reads (parse_fuel txt)) as [Hread _]. pose proof (tokens_length txt) as Hlen.
  destruct (Hread (sh_start txt) (tokens txt) start_ahead) as [(l&t&p&s1&E1&Et&Ha1&Hs)|(msg&s1&E1)]; [unfold parse_fuel; lia| |].
  - destruct t as [|x t]; [left; exists l; by rewrite app_nil_r in Et|right].
    intros l' Hs' Et'. destruct grammar_runs as [Hrun _].
    destruct (Hrun l' (parse_fuel txt) (sh_start txt) [] Hs') as (p'&s2&E2&Ha2&_);
      [rewrite app_nil_r, <- Et'; apply start_ahead|by left|rewrite app_nil_r, <- Et'; unfold parse_fuel; lia|].
    rewrite E1 in E2. injection E2 as _ <-. destruct Ha1 as [_ Ha1], Ha2 as [_ Ha2]. congruence.
  - right. intros l' Hs' Et'. destruct grammar_runs as [Hrun _].
    destruct (Hrun l' (parse_fuel txt) (sh_start txt) [] Hs') as (p'&s2&E2&_);
      [rewrite app_nil_r, <- Et'; apply start_ahead|by left|rewrite app_nil_r, <- Et'; unfold parse_fuel; lia|].
    congruence.
Qed.
End reading.

(** C38. For every line the parser returns or panics.  It returns exactly on
    the lines whose tokens, however they are spaced, form a sentence of the
    grammar with at most nine words to a command; then the tree it builds is
    that of the sentence, and every word pointed to is, after [nulterminate],
    the C string of that word in the line. *)
Theorem parsecmd_accepts_grammar txt : Forall (fun c => c <> 0) txt ->
  (exists p s', parsecmd txt (sh_start txt) = Ret p s' /\ (exists l, short_line l /\ tokens txt = pr_line l) /\
     forall l, short_line l -> tokens txt = pr_line l -> tree (fun q _ w => cstring (line s') q = w) (nodes s') p (cmd_line l)) \/
  (exists msg s', parsecmd txt (sh_start txt) = Stop (Panicked msg) s' /\ forall l, short_line l -> tokens txt <> pr_line l).
Proof.
  intros Hnz. destruct (grammar_decided txt Hnz) as [(l&Hs&Ht)|Hno].
  - left. destruct (parsecmd_run txt Hnz l Hs Ht) as (p&s'&E&_). exists p, s'. split_and!; [done|by exists l|].
    intros l' Hs' Ht'. destruct (parsecmd_run txt Hnz l' Hs' Ht') as (p2&s2&E2&Htr). rewrite E in E2. by injection E2 as <- <-.
  - right. destruct (parsecmd_rejects txt Hnz Hno) as (msg&s'&E). by exists msg, s'.
Qed.

(** ** Witness *)

(** [ls  -l <f | (a;b>>x)&;] *)
Definition w_txt : list Z := [108; 115; 32; 32; 45; 108; 32; 60; 102; 32; 124; 32; 40; 97; 59; 98; 62; 62; 120; 41; 38; 59].
Definition w_sentence : gline :=
  GSeq (GPipe (GSimple [IWord [108; 115]; IWord [45; 108]; IRedir RIn [102]])
          (GOne (GBlock (GSeq (GOne (GSimple [IWord [97]])) 0 (GLast (GOne (GSimple [IWord [98]; IRedir RAppend [120]])) 0)) []))) 1
    (GLast (GOne (GSimple [])) 0).

Lemma parsecmd_accepts_grammar_witness : exists p s', parsecmd w_txt (sh_start w_txt) = Ret p s' /\
  tree (fun q _ w => cstring (line s') q = w) (nodes s') p
    (Seq (Back (Pipe (Redir (Exec [[108; 115]; [45; 108]]) RIn [102]) (Seq (Exec [[97]]) (Redir (Exec [[98]]) RAppend [120])))) (Exec [])).
Proof.
  assert (Hs : short_line w_sentence) by (repeat split; vm_compute; reflexivity).
  assert (Ht : tokens w_txt = pr_line w_sentence) by (vm_compute; reflexivity).
  destruct (parsecmd_accepts_grammar w_txt) as [(p&s'&E&_&H)|(msg&s'&_&H)].
  - repeat constructor; discriminate.
  - exists p, s'. split; [exact E|exact (H w_sentence Hs Ht)].
  - destruct (H w_sentence Hs Ht).
Defined.
