(* ===== verification/Mkfs.v ===== *)
(** * mkfs.c: building the initial file system

    The image is a file of sectors; [nsect] of them have been written.  A read
    past the end or a failed assertion ends the program.  [files] are the
    arguments after the image: the names and the bytes of the host's files,
    which [read] delivers in whole buffers until the last. *)
From stdpp Require Import base numbers list gmap strings.
From S2P Require Import Prelude Block Bio Log Fs.
Open Scope Z_scope.

Definition FSSIZE : Z := 1000.
Definition NINODES : Z := 200.
Definition nbitmap : Z := FSSIZE / (BSIZE * 8) + 1.
Definition ninodeblocks : Z := NINODES / IPB + 1.
Definition nlog : Z := LOGSIZE.
Definition nmeta : Z := 2 + nlog + ninodeblocks + nbitmap.
Definition nblocks : Z := FSSIZE - nmeta.

Record mkstate := Mk { img : Z -> list Z; nsect : Z; freeinode : Z; freeblock : Z }.
Abbreviation MK := (M mkstate).
(** Nobody reads a sector that has not been written. *)
Definition mk_start : mkstate := Mk (fun _ => zeros) 0 1 0.

(** [xshort] and [xint]: the bytes of the result are those of [x], the lowest
    first, read back on a little-endian host *)
Definition xshort (x : Z) : Z := u8 x + 256 * u8 (x / 256).
Definition xint (x : Z) : Z := u8 x + 256 * u8 (x / 256) + 65536 * (u8 (x / 65536) + 256 * u8 (x / 16777216)).

(** The superblock [main] fills in *)
Definition sb : superblock :=
  Superblock (xint FSSIZE) (xint nblocks) (xint NINODES) (xint nlog) (xint 2) (xint (2 + nlog)) (xint (2 + nlog + ninodeblocks)).
Definition sb_words (x : superblock) : list Z :=
  [sb_size x; sb_nblocks x; sb_ninodes x; sb_nlog x; sb_logstart x; sb_inodestart x; sb_bmapstart x].
(** [memset(buf, 0, sizeof(buf)); memmove(buf, &sb, sizeof(sb))] *)
Definition sb_buf : list Z := write_addrs zeros 0 (sb_words sb).

Definition wsect (sec : Z) (buf : list Z) : MK unit :=
  modify (fun s => Mk (fupd (img s) sec buf) (Z.max (nsect s) (sec + 1)) (freeinode s) (freeblock s)).
Definition rsect (sec : Z) : MK (list Z) :=
  let! n := gets nsect in
  if n <=? sec then panic "read" else gets (fun s => img s sec).

Definition winode (inum : Z) (ip : dinode) : MK unit :=
  let bn := IBLOCK inum sb in
  let! buf := rsect bn in
  wsect bn (write_dinode buf (inum mod IPB) ip).
Definition rinode (inum : Z) : MK dinode :=
  let bn := IBLOCK inum sb in
  let! buf := rsect bn in
  ret (read_dinode buf (inum mod IPB)).

Definition ialloc (type : Z) : MK Z :=
  let! inum := gets freeinode in
  modify (fun s => Mk (img s) (nsect s) (inum + 1) (freeblock s)) ;;
  winode inum (Dinode (xshort type) 0 0 (xshort 1) (xint 0) (replicate 13 0)) ;;
  ret inum.

(** [freeblock++] *)
Definition next_block : MK Z :=
  let! b := gets freeblock in
  modify (fun s => Mk (img s) (nsect s) (freeinode s) (b + 1)) ;; ret b.

Definition set_daddr (x : dinode) (i v : Z) : dinode :=
  Dinode (d_type x) (d_major x) (d_minor x) (d_nlink x) (d_size x) (updZ (d_addrs x) i v).
Definition set_dsize (x : dinode) (n : Z) : dinode :=
  Dinode (d_type x) (d_major x) (d_minor x) (d_nlink x) n (d_addrs x).

(** The address of block [fbn], which is made if there is none *)
Definition append_block (din : dinode) (fbn : Z) : MK (dinode * Z) :=
  if fbn <? NDIRECT then
    let! din :=
      (if xint (nthZ 0 (d_addrs din) fbn) =? 0 then
         let! b := next_block in ret (set_daddr din fbn (xint b))
       else ret din) in
    ret (din, xint (nthZ 0 (d_addrs din) fbn))
  else
    let! din :=
      (if xint (nthZ 0 (d_addrs din) NDIRECT) =? 0 then
         let! b := next_block in ret (set_daddr din NDIRECT (xint b))
       else ret din) in
    let a := xint (nthZ 0 (d_addrs din) NDIRECT) in
    let! indirect := rsect a in
    let! indirect :=
      (if ld32 indirect (4 * (fbn - NDIRECT)) =? 0 then
         let! b := next_block in
         let indirect := st32 indirect (4 * (fbn - NDIRECT)) (xint b) in
         wsect a indirect ;; ret indirect
       else ret indirect) in
    ret (din, xint (ld32 indirect (4 * (fbn - NDIRECT)))).

(** The loop of [iappend]; every round copies at least one byte *)
Fixpoint iappend_loop (fuel : nat) (din : dinode) (off : Z) (p : list Z) : MK (dinode * Z) :=
  let n := Z.of_nat (length p) in
  if n <=? 0 then ret (din, off)
  else
    match fuel with
    | O => stop_with NoFuel
    | S fuel' =>
        let fbn := off / BSIZE in
        if MAXFILE <=? fbn then panic "fbn < MAXFILE"
        else
          let! (din, x) := append_block din fbn in
          let n1 := Z.min n ((fbn + 1) * BSIZE - off) in
          let! buf := rsect x in
          wsect x (splice buf (off - fbn * BSIZE) (take (Z.to_nat n1) p)) ;;
          iappend_loop fuel' din (off + n1) (drop (Z.to_nat n1) p)
    end.
Definition iappend (inum : Z) (p : list Z) : MK unit :=
  let! din := rinode inum in
  let! (din, off) := iappend_loop (length p) din (xint (d_size din)) p in
  winode inum (set_dsize din (xint off)).

(** [balloc(used)] *)
Definition balloc (used : Z) : MK unit :=
  if BSIZE * 8 <=? used then panic "used < BSIZE*8"
  else
    wsect (sb_bmapstart sb)
      (foldl (fun buf i => st8 buf (i / 8) (Z.lor (ld8 buf (i / 8)) (Z.shiftl 1 (i mod 8)))) zeros (seqZ 0 used)).

(** The buffers [while((cc = read(fd, buf, sizeof(buf))) > 0)] sees *)
Fixpoint chunks (fuel : nat) (l : list Z) : list (list Z) :=
  match fuel, l with
  | S fuel', _ :: _ => take (Z.to_nat BSIZE) l :: chunks fuel' (drop (Z.to_nat BSIZE) l)
  | _, _ => []
  end.

(** [if(argv[i][0] == '_') ++argv[i]] *)
Definition UNDERSCORE : Z := 95.
Definition file_name (arg : list Z) : list Z :=
  match arg with
  | c :: rest => if c =? UNDERSCORE then rest else arg
  | [] => []
  end.

(** The body of the loop over the files *)
Definition add_file (rootino : Z) (f : list Z * list Z) : MK unit :=
  let (arg, bytes) := f in
  if existsb (Z.eqb SLASH) arg then panic "index(argv[i], '/') == 0"
  else
    let! inum := ialloc T_FILE in
    iappend rootino (mk_dirent (xshort inum) (file_name arg)) ;;
    mfor (chunks (length bytes) bytes) (iappend inum).

(** [main] *)
Definition DOTCH : Z := 46.
Definition main (files : list (list Z * list Z)) : MK unit :=
  modify (fun s => Mk (img s) (nsect s) (freeinode s) nmeta) ;;
  mfor (seqZ 0 FSSIZE) (fun i => wsect i zeros) ;;
  wsect 1 sb_buf ;;
  let! rootino := ialloc T_DIR in
  if negb (rootino =? ROOTINO) then panic "rootino == ROOTINO"
  else
    iappend rootino (mk_dirent (xshort rootino) [DOTCH]) ;;
    iappend rootino (mk_dirent (xshort rootino) [DOTCH; DOTCH]) ;;
    mfor files (add_file rootino) ;;
    let! din := rinode rootino in
    let off := xint (d_size din) in
    let off := (off / BSIZE + 1) * BSIZE in
    winode rootino (set_dsize din (xint off)) ;;
    let! used := gets freeblock in
    balloc used.
