(* ===== verification/MkfsProps.v ===== *)
(** * The image mkfs builds

    What [main] leaves in the image, in the terms of the file system: the
    superblock, an empty log, inodes whose blocks hold the bytes of the files,
    no block in two of them, and a bitmap that marks them. *)
From stdpp Require Import base numbers list gmap strings.
From S2P Require Import Prelude Block Bio Log Blk Fs FsBlocks FsInode FsFile FsDir Mkfs.
Open Scope Z_scope.

Lemma xint_u32 x : xint x = u32 x.
Proof.
  unfold xint, u8, u32. replace (x / 65536) with (x / 256 / 256) by (rewrite Z.div_div by lia; done).
  replace (x / 16777216) with (x / 256 / 256 / 256) by (rewrite !Z.div_div by lia; done). Z.div_mod_to_equations. lia.
Qed.
Lemma xint_small x : is_u32 x -> xint x = x.
Proof. intros H. rewrite xint_u32. by apply u32_small. Qed.
Lemma xshort_small x : 0 <= x < 65536 -> xshort x = x.
Proof. intros H. unfold xshort, u8. Z.div_mod_to_equations. lia. Qed.

(** ** Files in the image *)

(** The inode the kernel has for a dinode. *)
Definition loaded (k : Z) (x : dinode) : inode := load_dinode x (Inode 1 k 0 (Sleeplock 0 0) 0 0 0 0 0 0 []).

(** Blocks for a number of bytes, and with the indirect block. *)
Definition nblk (n : Z) : Z := (n + 511) / 512.
Definition need (n : Z) : Z := n + (if NDIRECT <? n then 1 else 0).

(** Inode [k], its dinode [x] with [n] blocks, holds the bytes [c].  [own]
    says whose a block is, and which of its blocks. *)
Record file_in (V : Z -> list Z) (fb : Z) (own : Z -> option (Z * Z)) (k : Z) (x : dinode) (n : Z) (c : list Z) : Prop := {
  fi_len : length (d_addrs x) = 13%nat;
  fi_u32 : Forall is_u32 (d_addrs x);
  fi_n : 0 <= n <= MAXFILE /\ Z.of_nat (length c) <= n * BSIZE;
  fi_blk : forall bn, in_file bn -> if bn <? n then nmeta <= blkno V (loaded k x) bn < fb /\ own (blkno V (loaded k x) bn) = Some (k, bn)
    else blkno V (loaded k x) bn = 0;
  fi_ind : if NDIRECT <? n then nmeta <= ind_of (loaded k x) < fb /\ own (ind_of (loaded k x)) = Some (k, -1)
    else ind_of (loaded k x) = 0;
  fi_bytes : forall o, 0 <= o < MAXFILE * BSIZE -> byte_at V (loaded k x) o = nthZ 0 c o
}.

Lemma blkno_frame V V' i bn : (ind_of i <> 0 -> V' (ind_of i) = V (ind_of i)) -> blkno V' i bn = blkno V i bn.
Proof. intros H. unfold blkno. destruct (bn <? NDIRECT); [done|]. destruct (Z.eqb_spec (ind_of i) 0); [done|]. by rewrite H. Qed.

Lemma file_frame V V' fb fb' own own' k x n c : file_in V fb own k x n c -> fb <= fb' ->
  (forall b, b < fb -> own' b = own b) -> (forall b j, b < fb -> own b = Some (k, j) -> V' b = V b) -> file_in V' fb' own' k x n c.
Proof.
  intros [Hl Hu Hn Hb Hi Hby] Hfb Hown HV.
  assert (Hiv : ind_of (loaded k x) <> 0 -> V' (ind_of (loaded k x)) = V (ind_of (loaded k x))).
  { destruct (NDIRECT <? n); [|done]. destruct Hi as [Hr Ho]. intros _. apply (HV _ (-1)); [lia|done]. }
  assert (Hbv : forall bn, blkno V' (loaded k x) bn = blkno V (loaded k x) bn) by (intros bn; by apply blkno_frame).
  split; [done|done|done| | |].
  - intros bn Hbn. specialize (Hb bn Hbn). rewrite Hbv. destruct (bn <? n); [|done]. destruct Hb as [Hr Ho].
    split; [lia|]. rewrite Hown by lia. done.
  - destruct (NDIRECT <? n); [|done]. destruct Hi as [Hr Ho]. split; [lia|]. rewrite Hown by lia. done.
  - intros o Ho. rewrite <- (Hby o Ho). unfold byte_at. rewrite Hbv. destruct (Z.eqb_spec (blkno V (loaded k x) (o / BSIZE)) 0) as [|Hne]; [done|].
    assert (Hbn : in_file (o / BSIZE)) by (unfold in_file, BSIZE, MAXFILE, NDIRECT, NINDIRECT in *; Z.div_mod_to_equations; lia).
    specialize (Hb _ Hbn). destruct (o / BSIZE <? n); [|done]. destruct Hb as [Hr Hob]. rewrite (HV _ (o / BSIZE)); [done|lia|done].
Qed.

(** The data of all inodes below [N], the blocks below [fb] taken. *)
Record data_ok (V : Z -> list Z) (fb N : Z) (own : Z -> option (Z * Z)) (D : Z -> dinode) (K : Z -> Z) (C : Z -> list Z) : Prop := {
  da_blocks : forall n, is_block_data (V n);
  da_range : nmeta <= fb <= FSSIZE;
  da_fresh : forall b, fb <= b -> V b = zeros;
  da_files : forall k, 1 <= k < N -> file_in V fb own k (D k) (K k) (C k)
}.

(** ** One more block for a file *)

Lemma nthZ_past {A} (d : A) l i : Z.of_nat (length l) <= i -> nthZ d l i = d.
Proof. intros H. unfold nthZ. destruct (i <? 0); [done|]. apply nth_overflow. lia. Qed.

Lemma grow_file V fb own k x n c V' fb' own' x' b :
  file_in V fb own k x n c -> n < MAXFILE -> fb <= fb' -> nmeta <= b < fb' -> V' b = zeros ->
  length (d_addrs x') = 13%nat -> Forall is_u32 (d_addrs x') ->
  (forall bn, in_file bn -> blkno V' (loaded k x') bn = if bn =? n then b else blkno V (loaded k x) bn) ->
  (forall a j, a < fb -> own a = Some (k, j) -> 0 <= j -> V' a = V a) ->
  (forall a, a < fb -> own' a = own a) -> own' b = Some (k, n) ->
  (if NDIRECT <? n + 1 then nmeta <= ind_of (loaded k x') < fb' /\ own' (ind_of (loaded k x')) = Some (k, -1)
   else ind_of (loaded k x') = 0) ->
  file_in V' fb' own' k x' (n + 1) c.
Proof.
  intros [Hl Hu [Hn Hc] Hb Hi Hby] Hmax Hfb Hbr Hz Hl' Hu' Hblk HV Hown Hob Hind.
  assert (Hnm : 0 < nmeta) by (vm_compute; done).
  split; [done|done| | |done|].
  - split; [|unfold BSIZE in *]; lia.
  - intros bn Hbn. rewrite Hblk by done. specialize (Hb bn Hbn). destruct (Z.eqb_spec bn n) as [->|Hne].
    + destruct (Z.ltb_spec n (n + 1)); [done|lia].
    + destruct (Z.ltb_spec bn n), (Z.ltb_spec bn (n + 1)); try lia. destruct Hb as [Hr Ho]. split; [lia|].
      rewrite Hown by lia. done.
  - intros o Ho. assert (Hbn : in_file (o / BSIZE)) by (unfold in_file, BSIZE, MAXFILE, NDIRECT, NINDIRECT in *; Z.div_mod_to_equations; lia).
    unfold byte_at. rewrite Hblk by done. destruct (Z.eqb_spec (o / BSIZE) n) as [En|Hne].
    + destruct (Z.eqb_spec b 0); [lia|]. rewrite Hz, ld8_zeros, nthZ_past; [done|]. unfold BSIZE in *. Z.div_mod_to_equations. lia.
    + rewrite <- (Hby o Ho). unfold byte_at. specialize (Hb _ Hbn).
      destruct (Z.eqb_spec (blkno V (loaded k x) (o / BSIZE)) 0); [done|].
      destruct (o / BSIZE <? n); [|done]. destruct Hb as [Hr Hob']. rewrite (HV _ (o / BSIZE)); [done|lia|done|]. apply Hbn.
Qed.

Lemma data_change V fb N own D K C V' fb' own' k D' K' C' :
  data_ok V fb N own D K C -> 1 <= k < N -> (forall n, is_block_data (V' n)) -> fb <= fb' <= FSSIZE ->
  (forall b, fb' <= b -> V' b = zeros) -> (forall b k' j, b < fb -> own b = Some (k', j) -> k' <> k -> V' b = V b) ->
  (forall b, b < fb -> own' b = own b) -> (forall j, j <> k -> D' j = D j /\ K' j = K j /\ C' j = C j) ->
  file_in V' fb' own' k (D' k) (K' k) (C' k) -> data_ok V' fb' N own' D' K' C'.
Proof.
  intros [Hbl Hr Hfr Hfi] Hk Hbl' Hfb Hfr' HV Hown Hj Hf. split; [done|lia|done|]. intros j Hjr.
  destruct (Z.eq_dec j k) as [->|Hne]; [done|]. destruct (Hj j Hne) as (->&->&->). eapply file_frame; [by apply Hfi|lia|done|].
  intros b i Hb Hob. by apply (HV b j i).
Qed.

Lemma nmeta_val : nmeta = 59.
Proof. reflexivity. Qed.
Lemma block_u32 b : nmeta <= b <= FSSIZE -> is_u32 b.
Proof. rewrite nmeta_val. unfold is_u32, FSSIZE. lia. Qed.

Lemma Forall_updZ {A} (P : A -> Prop) l i x : Forall P l -> P x -> Forall P (updZ l i x).
Proof. intros Hl Hx. unfold updZ. destruct (i <? 0); [done|]. by apply Forall_insert. Qed.

(** The first blocks are in the dinode. *)
Lemma add_direct V fb N own D K C k : data_ok V fb N own D K C -> 1 <= k < N -> K k < NDIRECT -> fb < FSSIZE ->
  data_ok V (fb + 1) N (fupd own fb (Some (k, K k))) (fupd D k (set_daddr (D k) (K k) fb)) (fupd K k (K k + 1)) C.
Proof.
  intros Hd Hk HK Hfb. pose proof (da_files _ _ _ _ _ _ _ Hd k Hk) as Hf. pose proof (da_range _ _ _ _ _ _ _ Hd) as Hr.
  pose proof (fi_len _ _ _ _ _ _ _ Hf) as Hl. destruct (fi_n _ _ _ _ _ _ _ Hf) as [Hn _].
  apply (data_change V fb N own D K C _ _ _ k); [done|done|apply Hd|lia|intros b Hb; apply (da_fresh _ _ _ _ _ _ _ Hd); lia|done| | |].
  { intros b Hb. rewrite fupd_ne by lia. done. }
  { intros j Hj. by rewrite !fupd_ne. }
  rewrite !fupd_eq.
  assert (Hfi : ind_of (loaded k (set_daddr (D k) (K k) fb)) = ind_of (loaded k (D k))).
  { unfold ind_of, loaded, set_daddr. simpl. apply nthZ_updZ_ne. lia. }
  apply (grow_file V fb own k (D k) (K k) (C k) V (fb + 1) _ _ fb);
    [done|unfold MAXFILE, NDIRECT, NINDIRECT in *; lia|lia|lia|apply (da_fresh _ _ _ _ _ _ _ Hd); lia| | | |done| | |].
  - simpl. by rewrite length_updZ.
  - simpl. apply Forall_updZ; [apply Hf|]. by apply block_u32.
  - intros bn [Hbn _]. unfold blkno. rewrite Hfi. simpl. destruct (Z.eqb_spec bn (K k)) as [->|Hne].
    + destruct (Z.ltb_spec (K k) NDIRECT); [|lia]. apply nthZ_updZ_eq. rewrite Hl. unfold NDIRECT in *. lia.
    + rewrite nthZ_updZ_ne by done. done.
  - intros a Ha. rewrite fupd_ne by lia. done.
  - by rewrite fupd_eq.
  - destruct (Z.ltb_spec NDIRECT (K k + 1)); [unfold NDIRECT in *; lia|]. rewrite Hfi.
    pose proof (fi_ind _ _ _ _ _ _ _ Hf) as Hi. destruct (Z.ltb_spec NDIRECT (K k)); [lia|done].
Qed.

(** Later blocks are in the indirect block [a]; when it is new, [b0] is the
    block after it. *)
Definition indirect_of (x : dinode) : Z := nthZ 0 (d_addrs x) NDIRECT.
Lemma add_indirect V fb N own D K C k : data_ok V fb N own D K C -> 1 <= k < N -> NDIRECT <= K k < MAXFILE ->
  let fresh := indirect_of (D k) =? 0 in
  let a := if fresh then fb else indirect_of (D k) in
  let b := if fresh then fb + 1 else fb in
  let x := if fresh then set_daddr (D k) NDIRECT fb else D k in
  b < FSSIZE ->
  data_ok (fupd V a (st32 (V a) (4 * (K k - NDIRECT)) b)) (b + 1) N
    (fupd (if fresh then fupd own fb (Some (k, -1)) else own) b (Some (k, K k))) (fupd D k x) (fupd K k (K k + 1)) C /\
  fresh = (K k =? NDIRECT) /\ nmeta <= a < b + 1 /\ a <> b /\ ld32 (V a) (4 * (K k - NDIRECT)) = 0 /\ indirect_of x = a.
Proof.
  intros Hd Hk HK fresh a b x Hb. pose proof (da_files _ _ _ _ _ _ _ Hd k Hk) as Hf. pose proof (da_range _ _ _ _ _ _ _ Hd) as Hr.
  pose proof (fi_len _ _ _ _ _ _ _ Hf) as Hl. pose proof (fi_ind _ _ _ _ _ _ _ Hf) as Hi. pose proof nmeta_val as Hnm.
  assert (Hio : ind_of (loaded k (D k)) = indirect_of (D k)) by done. rewrite Hio in Hi.
  assert (Hfr : fresh = (K k =? NDIRECT)).
  { unfold fresh. destruct (Z.ltb_spec NDIRECT (K k)); [destruct Hi|]; destruct (Z.eqb_spec (indirect_of (D k)) 0), (Z.eqb_spec (K k) NDIRECT); lia || done. }
  assert (Hx : length (d_addrs x) = 13%nat /\ Forall is_u32 (d_addrs x) /\ indirect_of x = a /\
    forall bn, 0 <= bn < NDIRECT -> nthZ 0 (d_addrs x) bn = nthZ 0 (d_addrs (D k)) bn).
  { unfold x, a. destruct fresh; [|split_and!; [done|apply Hf|done|done]]. simpl. split_and!.
    - by rewrite length_updZ.
    - apply Forall_updZ; [apply Hf|]. apply block_u32. lia.
    - unfold indirect_of. simpl. apply nthZ_updZ_eq. rewrite Hl. done.
    - intros bn Hbn. apply nthZ_updZ_ne. lia. }
  destruct Hx as (Hx1&Hx2&Hx3&Hx4).
  assert (Ha : nmeta <= a < b + 1 /\ a <> b).
  { unfold a, b. destruct fresh eqn:Ef; [lia|]. destruct (Z.ltb_spec NDIRECT (K k)); [lia|].
    symmetry in Hfr. apply Z.eqb_neq in Hfr. lia. }
  assert (Hlen : length (V a) = 512%nat) by apply Hd.
  assert (Hentry : forall bn, NDIRECT <= bn < MAXFILE -> ld32 (V a) (4 * (bn - NDIRECT)) = blkno V (loaded k (D k)) bn).
  { intros bn Hbn. unfold blkno. destruct (Z.ltb_spec bn NDIRECT); [lia|]. rewrite Hio. unfold a. fold fresh. destruct fresh; [|done].
    rewrite (da_fresh _ _ _ _ _ _ _ Hd) by lia. apply ld32_zeros. }
  assert (Hz : ld32 (V a) (4 * (K k - NDIRECT)) = 0).
  { rewrite Hentry by done. pose proof (fi_blk _ _ _ _ _ _ _ Hf (K k)) as H. destruct (Z.ltb_spec (K k) (K k)); [lia|].
    apply H. unfold in_file, NDIRECT, MAXFILE in *. lia. }
  split; [|by split_and!; [|apply Ha..| |]].
  set (own1 := if fresh then fupd own fb (Some (k, -1)) else own).
  assert (Hoa : own1 a = Some (k, -1)).
  { unfold own1, a. destruct fresh; [by rewrite fupd_eq|]. symmetry in Hfr. apply Z.eqb_neq in Hfr.
    destruct (Z.ltb_spec NDIRECT (K k)); [apply Hi|lia]. }
  assert (Hob1 : forall c, c < fb -> own1 c = own c).
  { intros c Hc. unfold own1. destruct fresh; [|done]. rewrite fupd_ne by lia. done. }
  assert (Hfb : fb <= b) by (unfold b; destruct fresh; lia).
  assert (HV : forall c k' j, c < fb -> own c = Some (k', j) -> k' <> k \/ 0 <= j ->
    fupd V a (st32 (V a) (4 * (K k - NDIRECT)) b) c = V c).
  { intros c k' j Hc Ho Hne. apply fupd_ne. intros ->. rewrite <- Hob1, Hoa in Ho by done. injection Ho as <- <-. lia. }
  assert (Hoff : 0 <= 4 * (K k - NDIRECT) /\ 4 * (K k - NDIRECT) + 4 <= Z.of_nat (length (V a))).
  { rewrite Hlen. unfold MAXFILE, NDIRECT, NINDIRECT in *. lia. }
  apply (data_change V fb N own D K C _ _ _ k); [done|done| |lia| | | | |].
  - intros n. rewrite fupd_at. destruct (n =? a); [apply st32_block|]; apply Hd.
  - intros c Hc. rewrite fupd_ne by lia. apply (da_fresh _ _ _ _ _ _ _ Hd). lia.
  - intros c k' j Hc Ho Hne. apply (HV c k' j Hc Ho). by left.
  - intros c Hc. rewrite fupd_ne by lia. by apply Hob1.
  - intros j Hj. by rewrite !fupd_ne.
  - rewrite !fupd_eq. apply (grow_file V fb own k (D k) (K k) (C k) _ _ _ _ b); [done|lia|lia|lia| |done|done| | | | |].
    + rewrite fupd_ne by lia. apply (da_fresh _ _ _ _ _ _ _ Hd). lia.
    + intros bn Hbn. unfold blkno at 1. change (ind_of (loaded k x)) with (indirect_of x). rewrite Hx3.
      change (i_addrs (loaded k x)) with (d_addrs x). destruct (Z.ltb_spec bn NDIRECT) as [Hlt|Hge].
      * rewrite Hx4 by (destruct Hbn; lia). destruct (Z.eqb_spec bn (K k)); [lia|]. unfold blkno.
        destruct (Z.ltb_spec bn NDIRECT); [done|lia].
      * destruct (Z.eqb_spec a 0); [lia|]. rewrite fupd_eq. destruct (Z.eqb_spec bn (K k)) as [->|Hne].
        -- rewrite ld32_st32 by lia. apply u32_small, block_u32. lia.
        -- rewrite ld32_st32_ne by lia. apply Hentry. destruct Hbn. lia.
    + intros c j Hc Ho Hj. apply (HV c k j Hc Ho). by right.
    + intros c Hc. rewrite fupd_ne by lia. by apply Hob1.
    + by rewrite fupd_eq.
    + destruct (Z.ltb_spec NDIRECT (K k + 1)); [|lia]. change (ind_of (loaded k x)) with (indirect_of x). rewrite Hx3.
      split; [lia|]. rewrite fupd_ne by lia. done.
Qed.

Lemma data_ext V fb N own D K C D' K' C' : data_ok V fb N own D K C ->
  (forall k, D' k = D k /\ K' k = K k /\ C' k = C k) -> data_ok V fb N own D' K' C'.
Proof. intros [H1 H2 H3 H4] He. split; try done. intros k Hk. destruct (He k) as (->&->&->). by apply H4. Qed.

Lemma nthZ_app {A} (d : A) l p i : 0 <= i -> nthZ d (l ++ p) i =
  if i <? Z.of_nat (length l) then nthZ d l i else nthZ d p (i - Z.of_nat (length l)).
Proof.
  intros Hi. unfold nthZ. destruct (Z.ltb_spec i 0); [lia|]. destruct (Z.ltb_spec i (Z.of_nat (length l))).
  - by rewrite app_nth1 by lia.
  - destruct (Z.ltb_spec (i - Z.of_nat (length l)) 0); [lia|]. rewrite app_nth2 by lia. f_equal. lia.
Qed.

(** Bytes at the end of a file, within one block. *)
Lemma add_bytes V fb N own D K C k p : data_ok V fb N own D K C -> 1 <= k < N -> Forall is_u8 p ->
  let off := Z.of_nat (length (C k)) in
  let fbn := off / BSIZE in
  let x := blkno V (loaded k (D k)) fbn in
  fbn < K k -> off mod BSIZE + Z.of_nat (length p) <= BSIZE ->
  data_ok (fupd V x (splice (V x) (off - fbn * BSIZE) p)) fb N own D K (fupd C k (C k ++ p)) /\ nmeta <= x < fb.
Proof.
  intros Hd Hk Hp off fbn x HK Hfit. pose proof (da_files _ _ _ _ _ _ _ Hd k Hk) as Hf. pose proof (da_range _ _ _ _ _ _ _ Hd) as Hr.
  pose proof (fi_len _ _ _ _ _ _ _ Hf) as Hl. destruct (fi_n _ _ _ _ _ _ _ Hf) as [Hn Hc]. fold off in Hc.
  assert (H0 : 0 <= off) by lia. assert (Hfbn : 0 <= fbn) by (apply Z.div_pos; [done|reflexivity]).
  assert (Hin : in_file fbn) by (split; lia).
  pose proof (fi_blk _ _ _ _ _ _ _ Hf fbn Hin) as Hx. destruct (Z.ltb_spec fbn (K k)); [|lia]. fold x in Hx. destruct Hx as [Hxr Hxo].
  split; [|lia].
  assert (Hrel : off - fbn * BSIZE = off mod BSIZE) by (unfold fbn, BSIZE; Z.div_mod_to_equations; lia).
  assert (Hm : 0 <= off mod BSIZE < BSIZE) by (apply Z.mod_pos_bound; reflexivity).
  assert (Hlen : length (V x) = 512%nat) by apply Hd. rewrite Hrel.
  set (V' := fupd V x (splice (V x) (off mod BSIZE) p)).
  assert (Hiv : ind_of (loaded k (D k)) <> 0 -> V' (ind_of (loaded k (D k))) = V (ind_of (loaded k (D k)))).
  { intros Hne. apply fupd_ne. intros E. pose proof (fi_ind _ _ _ _ _ _ _ Hf) as Hi. destruct (NDIRECT <? K k); [|done].
    destruct Hi as [_ Hi]. rewrite E, Hxo in Hi. injection Hi as Hi. lia. }
  apply (data_change V fb N own D K C _ _ _ k); [done|done| |lia| | |done| |].
  - intros n. unfold V'. rewrite fupd_at. destruct (n =? x); [apply splice_block; [|done]|]; apply Hd.
  - intros b Hb. unfold V'. rewrite fupd_ne by lia. by apply (da_fresh _ _ _ _ _ _ _ Hd).
  - intros b k' j Hb Ho Hne. apply fupd_ne. intros ->. rewrite Hxo in Ho. injection Ho as <- _. done.
  - intros j Hj. by rewrite !fupd_ne.
  - rewrite fupd_eq. destruct Hf as [_ Hu _ Hb Hi Hby].
    assert (Hbv : forall bn, blkno V' (loaded k (D k)) bn = blkno V (loaded k (D k)) bn) by (intros bn; by apply blkno_frame).
    split; [done|done| | |done|].
    + split; [done|]. rewrite length_app, Nat2Z.inj_add. fold off. unfold fbn, BSIZE in *. Z.div_mod_to_equations. lia.
    + intros bn Hbn. rewrite Hbv. by apply Hb.
    + intros o Ho. rewrite nthZ_app by lia. fold off.
      assert (Hon : in_file (o / BSIZE)) by (unfold in_file, BSIZE, MAXFILE, NDIRECT, NINDIRECT in *; Z.div_mod_to_equations; lia).
      specialize (Hby o Ho). unfold byte_at in *. rewrite Hbv. destruct (Z.eq_dec (o / BSIZE) fbn) as [Eo|Ne].
      * rewrite Eo in Hby |- *. fold x in Hby |- *. destruct (Z.eqb_spec x 0); [pose proof nmeta_val; lia|]. unfold V'.
        rewrite fupd_eq, ld8_splice by (unfold BSIZE in *; lia).
        rewrite Hby. destruct (Z.ltb_spec o off).
        -- replace (off mod BSIZE <=? o mod BSIZE) with false by (symmetry; apply Z.leb_gt; unfold fbn, BSIZE in *; Z.div_mod_to_equations; lia).
           done.
        -- replace (off mod BSIZE <=? o mod BSIZE) with true by (symmetry; apply Z.leb_le; unfold fbn, BSIZE in *; Z.div_mod_to_equations; lia).
           replace (o mod BSIZE - off mod BSIZE) with (o - off) by (unfold fbn, BSIZE in *; Z.div_mod_to_equations; lia). simpl.
           destruct (Z.ltb_spec (o mod BSIZE) (off mod BSIZE + Z.of_nat (length p))); [done|].
           rewrite !nthZ_past; [done| |lia]. unfold fbn, BSIZE in *. Z.div_mod_to_equations; lia.
      * assert (HVb : blkno V (loaded k (D k)) (o / BSIZE) <> 0 -> V' (blkno V (loaded k (D k)) (o / BSIZE)) = V (blkno V (loaded k (D k)) (o / BSIZE))).
        { intros Hne. apply fupd_ne. intros E. specialize (Hb _ Hon). destruct (o / BSIZE <? K k); [|done].
          destruct Hb as [_ Hb]. rewrite E, Hxo in Hb. injection Hb as Hb. lia. }
        assert (Hpast : off <= o -> nthZ 0 p (o - off) = 0 /\ nthZ 0 (C k) o = 0).
        { intros Hge. split; apply nthZ_past; [|fold off; lia]. unfold fbn, BSIZE in *. Z.div_mod_to_equations; lia. }
        destruct (Z.eqb_spec (blkno V (loaded k (D k)) (o / BSIZE)) 0) as [|Hne]; [|rewrite HVb by done];
          (destruct (Z.ltb_spec o off); [exact Hby|]); destruct (Hpast ltac:(lia)); congruence.
Qed.

(** ** iappend *)

Definition mrep (s : mkstate) (own : Z -> option (Z * Z)) (D : Z -> dinode) (K : Z -> Z) (C : Z -> list Z) : Prop :=
  nsect s = FSSIZE /\ data_ok (img s) (freeblock s) (freeinode s) own D K C.
Definition kept (s s' : mkstate) : Prop := freeinode s' = freeinode s /\ forall n, n < nmeta -> img s' n = img s n.
Definition same_head (x y : dinode) : Prop :=
  d_type x = d_type y /\ d_major x = d_major y /\ d_minor x = d_minor y /\ d_nlink x = d_nlink y /\ d_size x = d_size y.

Lemma rsect_run s sec : sec < nsect s -> rsect sec s = Ret (img s sec) s.
Proof. intros H. unfold rsect. rewrite bind_gets. destruct (Z.leb_spec (nsect s) sec); [lia|done]. Qed.
Lemma wsect_run s sec buf : 0 <= sec < nsect s -> wsect sec buf s = Ret tt (Mk (fupd (img s) sec buf) (nsect s) (freeinode s) (freeblock s)).
Proof. intros H. unfold wsect, modify. by rewrite Z.max_l by lia. Qed.
Lemma next_block_run s : next_block s = Ret (freeblock s) (Mk (img s) (nsect s) (freeinode s) (freeblock s + 1)).
Proof. done. Qed.

(** A block that is there. *)
Lemma append_old s own D K C k fbn : mrep s own D K C -> 1 <= k < freeinode s -> 0 <= fbn < K k ->
  append_block (D k) fbn s = Ret (D k, blkno (img s) (loaded k (D k)) fbn) s.
Proof.
  intros [Hn Hd] Hk Hf. pose proof (da_files _ _ _ _ _ _ _ Hd k Hk) as Hfi. pose proof (da_range _ _ _ _ _ _ _ Hd) as Hr.
  pose proof nmeta_val as Hnm. destruct (fi_n _ _ _ _ _ _ _ Hfi) as [HK _]. assert (Hin : in_file fbn) by (split; lia).
  pose proof (fi_blk _ _ _ _ _ _ _ Hfi fbn Hin) as Hb. destruct (Z.ltb_spec fbn (K k)); [|lia]. destruct Hb as [Hb _].
  pose proof (fi_ind _ _ _ _ _ _ _ Hfi) as Hi.
  unfold append_block, blkno in *. destruct (Z.ltb_spec fbn NDIRECT).
  - change (i_addrs (loaded k (D k))) with (d_addrs (D k)) in *.
    rewrite xint_small by (apply block_u32; lia). destruct (Z.eqb_spec (nthZ 0 (d_addrs (D k)) fbn) 0); [lia|].
    rewrite bind_ret_l, xint_small by (apply block_u32; lia). done.
  - destruct (Z.ltb_spec NDIRECT (K k)); [|lia]. destruct Hi as [Hi _]. change (ind_of (loaded k (D k))) with (nthZ 0 (d_addrs (D k)) NDIRECT) in *.
    destruct (Z.eqb_spec (nthZ 0 (d_addrs (D k)) NDIRECT) 0); [lia|]. rewrite xint_small by (apply block_u32; lia).
    destruct (Z.eqb_spec (nthZ 0 (d_addrs (D k)) NDIRECT) 0); [lia|].
    rewrite bind_ret_l, xint_small by (apply block_u32; lia). rewrite (bind_run _ _ _ _ _ (rsect_run s (nthZ 0 (d_addrs (D k)) NDIRECT) ltac:(lia))).
    destruct (Z.eqb_spec (ld32 (img s (nthZ 0 (d_addrs (D k)) NDIRECT)) (4 * (fbn - NDIRECT))) 0); [lia|].
    rewrite bind_ret_l, xint_small by (apply block_u32; lia). done.
Qed.

(** The next block. *)
Lemma append_new s own D K C k : mrep s own D K C -> 1 <= k < freeinode s -> K k < MAXFILE ->
  freeblock s + need (K k + 1) - need (K k) <= FSSIZE ->
  exists x s' own', append_block (D k) (K k) s = Ret (x, blkno (img s') (loaded k x) (K k)) s' /\
    mrep s' own' (fupd D k x) (fupd K k (K k + 1)) C /\ kept s s' /\ same_head x (D k) /\
    freeblock s' = freeblock s + need (K k + 1) - need (K k).
Proof.
  intros [Hn Hd] Hk HK Hfit. pose proof (da_files _ _ _ _ _ _ _ Hd k Hk) as Hfi. pose proof (da_range _ _ _ _ _ _ _ Hd) as Hr.
  pose proof nmeta_val as Hnm. destruct (fi_n _ _ _ _ _ _ _ Hfi) as [HK0 _]. pose proof (fi_len _ _ _ _ _ _ _ Hfi) as Hl.
  assert (Hin : in_file (K k)) by (split; lia).
  pose proof (fi_blk _ _ _ _ _ _ _ Hfi (K k) Hin) as Hb. destruct (Z.ltb_spec (K k) (K k)); [lia|].
  unfold need in *. destruct (Z.ltb_spec (K k) NDIRECT) as [Hdir|Hindir].
  - destruct (Z.ltb_spec NDIRECT (K k + 1)), (Z.ltb_spec NDIRECT (K k)); try lia.
    pose proof (add_direct _ _ _ _ _ _ _ _ Hd Hk Hdir ltac:(lia)) as Hd'.
    exists (set_daddr (D k) (K k) (freeblock s)), (Mk (img s) (nsect s) (freeinode s) (freeblock s + 1)), (fupd own (freeblock s) (Some (k, K k))).
    split_and!; [|by split|done|done|simpl; lia]. unfold append_block, blkno in *. destruct (Z.ltb_spec (K k) NDIRECT); [|lia].
    change (i_addrs (loaded k (D k))) with (d_addrs (D k)) in Hb. rewrite Hb. change (xint 0 =? 0) with true. cbv iota.
    rewrite bind_assoc, (bind_run _ _ _ _ _ (next_block_run s)), bind_ret_l. rewrite (xint_small (freeblock s)) by (apply block_u32; lia).
    unfold ret. simpl. rewrite nthZ_updZ_eq by (rewrite Hl; unfold NDIRECT in *; lia). rewrite xint_small by (apply block_u32; lia). done.
  - pose proof (add_indirect _ _ _ _ _ _ _ _ Hd Hk ltac:(lia)) as Hadd. cbv zeta in Hadd.
    set (fresh := indirect_of (D k) =? 0) in *. set (a := if fresh then freeblock s else indirect_of (D k)) in *.
    set (b := if fresh then freeblock s + 1 else freeblock s) in *.
    set (x := if fresh then set_daddr (D k) NDIRECT (freeblock s) else D k) in *.
    assert (Efr : fresh = (K k =? NDIRECT)).
    { unfold fresh. pose proof (fi_ind _ _ _ _ _ _ _ Hfi) as Hi. change (ind_of (loaded k (D k))) with (indirect_of (D k)) in Hi.
      destruct (Z.ltb_spec NDIRECT (K k)); [destruct Hi|]; destruct (Z.eqb_spec (indirect_of (D k)) 0), (Z.eqb_spec (K k) NDIRECT); lia || done. }
    assert (Hcount : b + 1 = freeblock s + (K k + 1 + (if NDIRECT <? K k + 1 then 1 else 0)) - (K k + (if NDIRECT <? K k then 1 else 0))).
    { unfold b. rewrite Efr. destruct (Z.eqb_spec (K k) NDIRECT), (Z.ltb_spec NDIRECT (K k + 1)), (Z.ltb_spec NDIRECT (K k)); lia. }
    destruct Hadd as (Hd'&_&Ha&Hab&Hz&Hxa); [lia|].
    set (V' := fupd (img s) a (st32 (img s a) (4 * (K k - NDIRECT)) b)) in *.
    eexists x, (Mk V' (nsect s) (freeinode s) (b + 1)), _. split; [|split; [split; [exact Hn|exact Hd']|split; [split; [done|]|split; [|simpl; lia]]]].
    2:{ intros n Hlt. simpl. unfold V'. apply fupd_ne. lia. }
    2:{ unfold x. by destruct fresh. }
    unfold append_block. destruct (Z.ltb_spec (K k) NDIRECT); [lia|].
    assert (Eind : (if xint (nthZ 0 (d_addrs (D k)) NDIRECT) =? 0
         then let! b0 := next_block in ret (set_daddr (D k) NDIRECT (xint b0)) else ret (D k)) s =
         Ret x (Mk (img s) (nsect s) (freeinode s) b)).
    { assert (Hi32 : is_u32 (nthZ 0 (d_addrs (D k)) NDIRECT)).
      { pose proof (fi_u32 _ _ _ _ _ _ _ Hfi) as Hu. rewrite Forall_forall in Hu. apply Hu. eapply list_elem_of_lookup_2.
        apply (lookup_nthZ 0 _ NDIRECT). rewrite Hl. done. }
      rewrite xint_small by done. fold (indirect_of (D k)). fold fresh. unfold x, b. destruct fresh.
      - rewrite (bind_run _ _ _ _ _ (next_block_run s)). rewrite xint_small by (apply block_u32; lia). done.
      - by destruct s. }
    rewrite (bind_run _ _ _ _ _ Eind). fold (indirect_of x). rewrite Hxa, xint_small by (apply block_u32; lia).
    set (s1 := Mk (img s) (nsect s) (freeinode s) b).
    assert (Hsz : a < nsect s1 /\ 0 <= a) by (simpl; lia).
    rewrite (bind_run _ _ _ _ _ (rsect_run s1 a (proj1 Hsz))). simpl img. rewrite Hz. change (0 =? 0) with true. cbv iota.
    rewrite bind_assoc, (bind_run _ _ _ _ _ (next_block_run s1)). simpl freeblock. rewrite (xint_small b) by (apply block_u32; lia).
    rewrite bind_assoc. erewrite bind_run; [|apply wsect_run; simpl; lia]. rewrite bind_ret_l. unfold ret. simpl. fold V'.
    f_equal. f_equal. unfold blkno. destruct (Z.ltb_spec (K k) NDIRECT); [lia|]. change (ind_of (loaded k x)) with (indirect_of x).
    rewrite Hxa. destruct (Z.eqb_spec a 0); [lia|]. unfold V'. rewrite fupd_eq.
    assert (Hlv : length (img s a) = 512%nat) by apply Hd.
    rewrite ld32_st32 by (rewrite ?Hlv; unfold MAXFILE, NDIRECT, NINDIRECT in *; lia).
    rewrite u32_small by (apply block_u32; lia). apply xint_small, block_u32. lia.
Qed.

Lemma append_at s own D K C k : let off := Z.of_nat (length (C k)) in
  mrep s own D K C -> 1 <= k < freeinode s -> K k = nblk off -> off < MAXFILE * BSIZE ->
  freeblock s + need (off / BSIZE + 1) - need (K k) <= FSSIZE ->
  exists x s' own', append_block (D k) (off / BSIZE) s = Ret (x, blkno (img s') (loaded k x) (off / BSIZE)) s' /\
    mrep s' own' (fupd D k x) (fupd K k (off / BSIZE + 1)) C /\ kept s s' /\ same_head x (D k) /\
    freeblock s' = freeblock s + need (off / BSIZE + 1) - need (K k).
Proof.
  intros off Hm Hk HK Hmax Hfit. assert (H0 : 0 <= off) by lia. unfold nblk, BSIZE in *.
  destruct (Z.eq_dec (off mod 512) 0) as [E|E].
  - assert (Ek : off / 512 = K k) by (Z.div_mod_to_equations; lia). rewrite Ek in *.
    destruct (append_new s own D K C k Hm Hk) as (x&s'&own'&H); [|done|by exists x, s', own'].
    unfold MAXFILE, NDIRECT, NINDIRECT in *. Z.div_mod_to_equations; lia.
  - assert (Ek : off / 512 + 1 = K k) by (Z.div_mod_to_equations; lia). rewrite Ek.
    assert (Hd0 : 0 <= off / 512) by (apply Z.div_pos; lia).
    exists (D k), s, own. split; [apply (append_old s own D K C k); [done|done|lia]|]. split_and!; [|done|done|lia].
    destruct Hm as [Hn Hd]. split; [done|]. eapply data_ext; [exact Hd|]. intros j. rewrite !fupd_at.
    destruct (Z.eqb_spec j k) as [->|]; done.
Qed.

Lemma need_mono a b : a <= b -> need a <= need b.
Proof. intros H. unfold need. destruct (Z.ltb_spec NDIRECT a), (Z.ltb_spec NDIRECT b); lia. Qed.

Lemma iappend_loop_run fuel : forall s own D K C k p, let off := Z.of_nat (length (C k)) in
  mrep s own D K C -> 1 <= k < freeinode s -> K k = nblk off -> Forall is_u8 p -> (length p <= fuel)%nat ->
  off + Z.of_nat (length p) <= MAXFILE * BSIZE ->
  freeblock s + need (nblk (off + Z.of_nat (length p))) - need (nblk off) <= FSSIZE ->
  exists x s' own', iappend_loop fuel (D k) off p s = Ret (x, off + Z.of_nat (length p)) s' /\
    mrep s' own' (fupd D k x) (fupd K k (nblk (off + Z.of_nat (length p)))) (fupd C k (C k ++ p)) /\ kept s s' /\ same_head x (D k) /\
    freeblock s' = freeblock s + need (nblk (off + Z.of_nat (length p))) - need (nblk off).
Proof.
  induction fuel as [|fuel IH]; intros s own D K C k p off Hm Hk HK Hp Hf Hmax Hfit; simpl iappend_loop;
    (destruct (Z.leb_spec (Z.of_nat (length p)) 0) as [Hz|Hpos]; [|try lia]).
  1,2: (destruct p; [|simpl in Hz; lia]); simpl length in *; rewrite Z.add_0_r in *; exists (D k), s, own; split_and!; [done| |done|done|lia];
    destruct Hm as [Hn Hd]; split; [done|]; eapply data_ext; [exact Hd|]; intros j; rewrite !fupd_at, app_nil_r;
    destruct (Z.eqb_spec j k) as [->|]; done.
  assert (H0 : 0 <= off) by lia. assert (Hfbn : 0 <= off / BSIZE < MAXFILE).
  { unfold BSIZE, MAXFILE, NDIRECT, NINDIRECT in *. Z.div_mod_to_equations; lia. }
  destruct (Z.leb_spec MAXFILE (off / BSIZE)); [lia|].
  assert (Hle : need (off / BSIZE + 1) <= need (nblk (off + Z.of_nat (length p)))).
  { apply need_mono. unfold nblk, BSIZE in *. Z.div_mod_to_equations; lia. }
  destruct (append_at s own D K C k Hm Hk HK) as (x1&s1&own1&E1&Hm1&[Hk1i Hk1v]&Hh1&Hb1); [fold off; lia|fold off; rewrite HK; lia|].
  fold off in E1, Hm1, Hb1. rewrite (bind_run _ _ _ _ _ E1). rewrite HK in Hb1.
  set (fbn := off / BSIZE) in *. set (n1 := Z.min (Z.of_nat (length p)) ((fbn + 1) * BSIZE - off)).
  set (D1 := fupd D k x1) in *. set (K1 := fupd K k (fbn + 1)) in *.
  assert (Hn1 : 0 < n1 <= Z.of_nat (length p) /\ off + n1 <= (fbn + 1) * BSIZE /\ (n1 = Z.of_nat (length p) \/ off + n1 = (fbn + 1) * BSIZE)).
  { unfold n1, fbn, BSIZE. Z.div_mod_to_equations; lia. }
  set (p1 := take (Z.to_nat n1) p). set (p2 := drop (Z.to_nat n1) p).
  assert (Hl1 : Z.of_nat (length p1) = n1) by (unfold p1; rewrite length_take; lia).
  assert (Hl2 : Z.of_nat (length p2) = Z.of_nat (length p) - n1) by (unfold p2; rewrite length_drop; lia).
  destruct Hm1 as [Hns1 Hd1].
  assert (ED1 : D1 k = x1) by (unfold D1; by rewrite fupd_eq). assert (EK1 : K1 k = fbn + 1) by (unfold K1; by rewrite fupd_eq).
  destruct (add_bytes (img s1) (freeblock s1) (freeinode s1) own1 D1 K1 C k p1 Hd1) as [Hd2 Hx];
    [rewrite Hk1i; done|by apply Forall_take|rewrite EK1; fold off fbn; lia| |].
  { fold off. rewrite Hl1. unfold fbn, BSIZE in *. Z.div_mod_to_equations; lia. }
  fold off in Hd2, Hx. fold fbn in Hd2, Hx. rewrite ED1 in Hd2, Hx.
  set (x := blkno (img s1) (loaded k x1) fbn) in *. pose proof (da_range _ _ _ _ _ _ _ Hd1) as Hr1. pose proof nmeta_val as Hnm.
  assert (Hxs : x < nsect s1 /\ 0 <= x < nsect s1) by lia. rewrite (bind_run _ _ _ _ _ (rsect_run s1 x (proj1 Hxs))).
  rewrite (bind_run _ _ _ _ _ (wsect_run s1 x _ (proj2 Hxs))).
  set (s2 := Mk _ _ _ _).
  set (C2 := fupd C k (C k ++ p1)) in *. assert (EC2 : C2 k = C k ++ p1) by (unfold C2; by rewrite fupd_eq).
  assert (Hoff2 : Z.of_nat (length (C2 k)) = off + n1) by (rewrite EC2, length_app, Nat2Z.inj_add, Hl1; done).
  assert (EK2 : K1 k = nblk (off + n1)).
  { rewrite EK1. unfold nblk, fbn, BSIZE in *. Z.div_mod_to_equations; lia. }
  destruct (IH s2 own1 D1 K1 C2 k p2) as (x3&s3&own3&E3&[Hn3 Hd3]&[Hk3i Hk3v]&Hh3&Hb3);
    [by split|simpl; lia|by rewrite Hoff2|by apply Forall_drop|lia|lia| |].
  { rewrite Hoff2, Hl2. replace (off + n1 + (Z.of_nat (length p) - n1)) with (off + Z.of_nat (length p)) by lia.
    simpl freeblock. rewrite <- EK2, EK1. lia. }
  rewrite Hoff2, Hl2 in *. replace (off + n1 + (Z.of_nat (length p) - n1)) with (off + Z.of_nat (length p)) in * by lia.
  rewrite ED1 in E3, Hh3. exists x3, s3, own3. split; [exact E3|]. split_and!.
  - split; [done|]. eapply data_ext; [exact Hd3|]. intros j. unfold D1, K1. rewrite !fupd_at, EC2.
    destruct (Z.eqb_spec j k) as [->|Hne]; [split_and!; [done|done|]|unfold C2; by rewrite fupd_ne].
    rewrite <- app_assoc. unfold p1, p2. by rewrite take_drop.
  - split; [by rewrite Hk3i|]. intros n Hlt. rewrite Hk3v by done. simpl. rewrite fupd_ne by lia. by apply Hk1v.
  - unfold same_head in *. naive_solver congruence.
  - rewrite Hb3. simpl freeblock. rewrite <- EK2, EK1. lia.
Qed.

(** ** The image *)

Record image (s : mkstate) (C : Z -> list Z) (T : Z -> Z) (own : Z -> option (Z * Z)) (D : Z -> dinode) : Prop := {
  im_rep : mrep s own D (fun k => nblk (Z.of_nat (length (C k)))) C;
  im_itab : forall k, 1 <= k < freeinode s -> read_dinode (img s (IBLOCK k sb)) (k mod IPB) = D k;
  im_free : forall k, freeinode s <= k < NINODES -> d_type (read_dinode (img s (IBLOCK k sb)) (k mod IPB)) = 0;
  im_head : forall k, 1 <= k < freeinode s -> d_type (D k) = T k /\ d_major (D k) = 0 /\ d_minor (D k) = 0 /\ d_nlink (D k) = 1 /\
    d_size (D k) = Z.of_nat (length (C k));
  im_types : forall k, 1 <= k < freeinode s -> 0 <= T k < 32768;
  im_n : 1 <= freeinode s <= NINODES;
  im_sb : img s 1 = sb_buf;
  im_log : forall n, 2 <= n < 2 + nlog -> img s n = zeros
}.

Lemma sb_val : sb = Superblock 1000 941 200 30 2 32 58.
Proof. vm_compute. reflexivity. Qed.
Lemma iblock_range k : 0 <= k < NINODES -> 32 <= IBLOCK k sb < 58 /\ 0 <= k mod IPB < IPB.
Proof. intros Hk. rewrite sb_val. unfold IBLOCK, IPB, NINODES in *. simpl. split; [|apply Z.mod_pos_bound; lia]. Z.div_mod_to_equations; lia. Qed.
Lemma iblock_inj j k : IBLOCK j sb = IBLOCK k sb -> j mod IPB = k mod IPB -> j = k.
Proof. unfold IBLOCK, IPB. intros H1 H2. Z.div_mod_to_equations. lia. Qed.

(** The inode table after [winode]. *)
Lemma winode_run s k x : nsect s = FSSIZE -> 0 <= k < NINODES -> (forall n, is_block_data (img s n)) -> dinode_ok x ->
  exists V', winode k x s = Ret tt (Mk V' (nsect s) (freeinode s) (freeblock s)) /\ (forall n, is_block_data (V' n)) /\
    (forall n, n < 32 \/ 58 <= n -> V' n = img s n) /\
    forall j, 0 <= j < NINODES -> read_dinode (V' (IBLOCK j sb)) (j mod IPB) =
      if j =? k then x else read_dinode (img s (IBLOCK j sb)) (j mod IPB).
Proof.
  intros Hn Hk Hbl Hx. destruct (iblock_range k Hk) as [Hb Hm]. unfold winode.
  assert (Hs : IBLOCK k sb < nsect s /\ 0 <= IBLOCK k sb < nsect s) by (unfold FSSIZE in *; lia).
  rewrite (bind_run _ _ _ _ _ (rsect_run s _ (proj1 Hs))), (wsect_run s _ _ (proj2 Hs)). eexists. split; [reflexivity|].
  assert (Hlen : length (img s (IBLOCK k sb)) = 512%nat) by apply Hbl. split_and!.
  - intros n. rewrite fupd_at. destruct (n =? IBLOCK k sb); [|done]. by apply write_dinode_block.
  - intros n Hne. apply fupd_ne. lia.
  - intros j Hj. destruct (iblock_range j Hj) as [Hjb Hjm]. rewrite fupd_at. destruct (Z.eqb_spec (IBLOCK j sb) (IBLOCK k sb)) as [E|E].
    + destruct (Z.eqb_spec j k) as [->|Hne]; [by apply dinode_rw|]. rewrite E.
      apply dinode_other; [done|lia| |done|apply Hx]. intros Em. by apply Hne, iblock_inj.
    + destruct (Z.eqb_spec j k) as [->|]; done.
Qed.

(** Writing inodes leaves the data alone. *)
Lemma data_meta V V' fb N own D K C : data_ok V fb N own D K C -> (forall n, is_block_data (V' n)) -> (forall n, nmeta <= n -> V' n = V n) ->
  data_ok V' fb N own D K C.
Proof.
  intros [H1 H2 H3 H4] Hb HV. split; [done|done| |].
  - intros b Hfb. rewrite HV by lia. by apply H3.
  - intros k Hk. specialize (H4 k Hk). pose proof nmeta_val as Hnm.
    assert (Hblk : forall bn, blkno V' (loaded k (D k)) bn = blkno V (loaded k (D k)) bn).
    { intros bn. apply blkno_frame. intros Hne. apply HV. pose proof (fi_ind _ _ _ _ _ _ _ H4) as Hi. destruct (NDIRECT <? K k); [lia|done]. }
    destruct H4 as [Hl Hu Hn Hbk Hi Hby]. split; [done|done|done| |done|].
    + intros bn Hbn. rewrite Hblk. by apply Hbk.
    + intros o Ho. rewrite <- (Hby o Ho). unfold byte_at. rewrite Hblk.
      assert (Hbn : in_file (o / BSIZE)) by (unfold in_file, BSIZE, MAXFILE, NDIRECT, NINDIRECT in *; Z.div_mod_to_equations; lia).
      specialize (Hbk _ Hbn). destruct (Z.eqb_spec (blkno V (loaded k (D k)) (o / BSIZE)) 0); [done|].
      destruct (o / BSIZE <? K k); [|done]. rewrite HV by lia. done.
Qed.

(** An inode without blocks. *)
Lemma empty_file V fb own k x : d_addrs x = replicate 13 0 -> file_in V fb own k x 0 [].
Proof.
  intros Hx. assert (Hz : forall i, nthZ 0 (d_addrs x) i = 0).
  { intros i. rewrite Hx. unfold nthZ. destruct (i <? 0); [done|]. generalize (Z.to_nat i). intros n.
    do 14 (destruct n as [|n]; [done|]). done. }
  assert (Hb : forall bn, blkno V (loaded k x) bn = 0).
  { intros bn. unfold blkno, ind_of. simpl. rewrite !Hz. by destruct (bn <? NDIRECT). }
  split.
  - by rewrite Hx.
  - rewrite Hx. apply Forall_replicate. done.
  - done.
  - intros bn Hbn. destruct (Z.ltb_spec bn 0); [destruct Hbn; lia|]. apply Hb.
  - apply Hz.
  - intros o Ho. unfold byte_at. rewrite Hb. rewrite nthZ_past; [done|simpl; lia].
Qed.

Lemma ialloc_run s C T own D type : image s C T own D -> freeinode s < NINODES -> 0 < type < 32768 ->
  exists s' D', ialloc type s = Ret (freeinode s) s' /\ freeinode s' = freeinode s + 1 /\ freeblock s' = freeblock s /\
    image s' (fupd C (freeinode s) []) (fupd T (freeinode s) type) own D'.
Proof.
  intros [[Hn Hd] Hit Hfr Hh Hty Hni Hsb Hlog] Hlt Ht. unfold ialloc. rewrite bind_gets, bind_modify.
  rewrite xshort_small by lia. change (xshort 1) with 1. change (xint 0) with 0.
  set (n := freeinode s) in *. set (x := Dinode type 0 0 1 0 (replicate 13 0)).
  assert (Hx : dinode_ok x) by (split; simpl; try done; try lia; repeat constructor; done).
  set (s1 := Mk (img s) (nsect s) (n + 1) (freeblock s)).
  destruct (winode_run s1 n x Hn ltac:(lia)) as (V'&E&Hbl&HV&Htab); [apply Hd|done|].
  rewrite (bind_run _ _ _ _ _ E). eexists _, (fupd D n x). split; [reflexivity|]. simpl. split_and!; [done|done|].
  assert (Hin : forall k, 1 <= k < n -> fupd D n x k = D k) by (intros k Hk; rewrite fupd_ne by lia; done).
  split; cbn [img nsect freeinode freeblock].
  - split; [done|]. cbn [img nsect freeinode freeblock]. assert (Hd' : data_ok V' (freeblock s) n own D (fun k => nblk (Z.of_nat (length (C k)))) C).
    { eapply data_meta; [exact Hd|done|]. intros m Hm. rewrite HV; [done|]. right. rewrite nmeta_val in Hm. lia. }
    destruct Hd' as [H1 H2 H3 H4]. split; [done|done|done|]. intros k Hk. rewrite !fupd_at. destruct (Z.eqb_spec k n) as [->|].
    + by apply empty_file.
    + apply H4. lia.
  - intros k Hk. rewrite Htab by lia. rewrite fupd_at. destruct (k =? n) eqn:Ek; [done|]. apply Z.eqb_neq in Ek. apply Hit. lia.
  - intros k Hk. rewrite Htab by lia. destruct (Z.eqb_spec k n); [lia|]. apply Hfr. lia.
  - intros k Hk. rewrite !fupd_at. destruct (Z.eqb_spec k n); [done|]. apply Hh. lia.
  - intros k Hk. rewrite !fupd_at. destruct (Z.eqb_spec k n); [lia|]. apply Hty. lia.
  - lia.
  - rewrite HV by lia. done.
  - intros m Hm. rewrite HV; [by apply Hlog|]. unfold nlog, LOGSIZE in Hm. lia.
Qed.

(** Blocks for the bytes of a file. *)
Definition fneed (n : Z) : Z := need (nblk n).

Lemma iappend_run s C T own D k p : image s C T own D -> 1 <= k < freeinode s -> Forall is_u8 p ->
  let off := Z.of_nat (length (C k)) in
  off + Z.of_nat (length p) <= MAXFILE * BSIZE -> freeblock s + fneed (off + Z.of_nat (length p)) - fneed off <= FSSIZE ->
  exists s' own' D', iappend k p s = Ret tt s' /\ freeinode s' = freeinode s /\
    freeblock s' = freeblock s + fneed (off + Z.of_nat (length p)) - fneed off /\
    image s' (fupd C k (C k ++ p)) T own' D'.
Proof.
  intros [Hm Hit Hfr Hh Hty Hni Hsb Hlog] Hk Hp off Hmax Hfit. destruct Hm as [Hn Hd]. destruct (iblock_range k ltac:(lia)) as [Hib _].
  assert (Hs : IBLOCK k sb < nsect s) by (rewrite Hn; unfold FSSIZE; lia).
  unfold iappend, rinode. rewrite bind_assoc, (bind_run _ _ _ _ _ (rsect_run s _ Hs)), bind_ret_l, (Hit k Hk).
  destruct (Hh k Hk) as (Et&Ema&Emi&Enl&Esz). rewrite Esz. fold off.
  assert (Hu : forall z, 0 <= z <= MAXFILE * BSIZE -> is_u32 z) by (unfold is_u32, MAXFILE, NDIRECT, NINDIRECT, BSIZE; lia).
  rewrite xint_small by (apply Hu; lia).
  destruct (iappend_loop_run (length p) s own D (fun k => nblk (Z.of_nat (length (C k)))) C k p)
    as (x&s1&own1&E1&[Hn1 Hd1]&[Hk1 HV1]&(Ht1&Hma1&Hmi1&Hnl1&_)&Hb1); [by split|done|done|done|done|done|done|].
  fold off in E1, Hd1, Hb1. rewrite (bind_run _ _ _ _ _ E1). rewrite xint_small by (apply Hu; lia).
  set (len := off + Z.of_nat (length p)) in *. set (x' := set_dsize x len).
  assert (Hf1 : file_in (img s1) (freeblock s1) own1 k x (nblk len) (C k ++ p)).
  { rewrite <- Hk1 in Hk. pose proof (da_files _ _ _ _ _ _ _ Hd1 k Hk) as H. by rewrite !fupd_eq in H. }
  assert (Hx' : dinode_ok x').
  { split; simpl; rewrite ?Ht1, ?Hma1, ?Hmi1, ?Hnl1, ?Et, ?Ema, ?Emi, ?Enl; try lia; [specialize (Hty k Hk); lia|apply Hu; lia|apply Hf1|apply Hf1]. }
  destruct (winode_run s1 k x' Hn1 ltac:(lia)) as (V'&E&Hbl&HV&Htab); [apply Hd1|done|]. rewrite E.
  assert (Hlow : forall n, n < 32 \/ n = 58 -> V' n = img s n).
  { intros n Hlt. rewrite HV by lia. apply HV1. rewrite nmeta_val. lia. }
  assert (Htab' : forall j, 0 <= j < NINODES -> read_dinode (V' (IBLOCK j sb)) (j mod IPB) =
      if j =? k then x' else read_dinode (img s (IBLOCK j sb)) (j mod IPB)).
  { intros j Hj. rewrite Htab by done. destruct (j =? k); [done|]. rewrite HV1; [done|]. rewrite nmeta_val.
    destruct (iblock_range j Hj). lia. }
  eexists _, own1, (fupd D k x'). split; [reflexivity|]. simpl. rewrite Hk1. split_and!; [done|done|].
  split; cbn [img nsect freeinode freeblock].
  - split; [done|]. cbn [img nsect freeinode freeblock]. rewrite Hk1 in Hd1.
    assert (Hd2 : data_ok V' (freeblock s1) (freeinode s) own1 (fupd D k x) (fupd (fun k => nblk (Z.of_nat (length (C k)))) k (nblk len)) (fupd C k (C k ++ p))).
    { eapply data_meta; [exact Hd1|done|]. intros m Hge. apply HV. right. rewrite nmeta_val in Hge. lia. }
    destruct Hd2 as [H1 H2 H3 H4]. split; [done|done|done|]. intros j Hj. specialize (H4 j Hj). cbv beta in H4 |- *. rewrite !fupd_at in H4 |- *.
    destruct (Z.eqb_spec j k) as [Ejk|Hjk]; [subst j; rewrite fupd_eq in H4|rewrite fupd_ne in H4 by done; done].
    rewrite length_app, Nat2Z.inj_add. fold off. fold len.
    destruct H4 as [Hl Hu32 Hnn Hbk Hi Hby]. by split.
  - intros j Hj. rewrite Htab', fupd_at by lia. destruct (j =? k); [done|by apply Hit].
  - intros j Hj. rewrite Htab' by lia. destruct (Z.eqb_spec j k); [lia|by apply Hfr].
  - intros j Hj. rewrite !fupd_at. destruct (Z.eqb_spec j k) as [->|]; [|by apply Hh]. simpl.
    rewrite Ht1, Hma1, Hmi1, Hnl1, length_app, Nat2Z.inj_add. done.
  - done.
  - lia.
  - rewrite Hlow by lia. done.
  - intros m Hm. rewrite Hlow; [by apply Hlog|]. unfold nlog, LOGSIZE in Hm. lia.
Qed.

(** ** The files *)

Lemma image_ext s C T C' T' own D : image s C T own D -> (forall k, C' k = C k) -> (forall k, T' k = T k) -> image s C' T' own D.
Proof.
  intros [[Hn Hd] H2 H3 H4 H5 H6 H7 H8] HC HT. split; [split; [done|]| | | | |done|done|done].
  - eapply data_ext; [exact Hd|]. intros k. by rewrite HC.
  - done.
  - done.
  - intros k Hk. rewrite HC, HT. by apply H4.
  - intros k Hk. rewrite HT. by apply H5.
Qed.

Lemma chunks_spec fuel l : (length l <= fuel)%nat -> concat (chunks fuel l) = l.
Proof.
  revert l. induction fuel as [|fuel IH]; intros [|c l] Hl; simpl in Hl; [done|lia|done|].
  cbn [chunks concat]. rewrite IH, take_drop; [done|]. rewrite length_drop. unfold BSIZE. simpl length. lia.
Qed.

Lemma fneed_mono a b : a <= b -> fneed a <= fneed b.
Proof. intros H. apply need_mono. unfold nblk. apply Z.div_le_mono; lia. Qed.

Lemma append_chunks ls : forall s C T own D k, image s C T own D -> 1 <= k < freeinode s -> Forall is_u8 (concat ls) ->
  let off := Z.of_nat (length (C k)) in let n := Z.of_nat (length (concat ls)) in
  off + n <= MAXFILE * BSIZE -> freeblock s + fneed (off + n) - fneed off <= FSSIZE ->
  exists s' own' D', mfor ls (iappend k) s = Ret tt s' /\ freeinode s' = freeinode s /\
    freeblock s' = freeblock s + fneed (off + n) - fneed off /\ image s' (fupd C k (C k ++ concat ls)) T own' D'.
Proof.
  induction ls as [|l ls IH]; intros s C T own D k Hi Hk Hu off n Hmax Hfit; simpl.
  - exists s, own, D. unfold n in *. simpl in *. rewrite Z.add_0_r in *. split_and!; [done|done|lia|].
    eapply image_ext; [exact Hi| |done]. intros j. rewrite fupd_at, app_nil_r. destruct (Z.eqb_spec j k) as [->|]; done.
  - cbn [concat] in Hu. apply Forall_app in Hu as [Hu1 Hu2].
    assert (Hn : n = Z.of_nat (length l) + Z.of_nat (length (concat ls))) by (unfold n; cbn [concat]; rewrite length_app; lia).
    pose proof (fneed_mono (off + Z.of_nat (length l)) (off + n) ltac:(lia)) as Hmono.
    destruct (iappend_run s C T own D k l Hi Hk Hu1) as (s1&own1&D1&E1&Hf1&Hb1&Hi1); [fold off; lia|fold off; lia|].
    fold off in Hb1. rewrite (bind_run _ _ _ _ _ E1).
    assert (Hoff : Z.of_nat (length (fupd C k (C k ++ l) k)) = off + Z.of_nat (length l)) by (rewrite fupd_eq, length_app; lia).
    destruct (IH s1 _ T own1 D1 k Hi1) as (s2&own2&D2&E2&Hf2&Hb2&Hi2); [lia|done|rewrite Hoff; lia| |].
    { rewrite Hoff. replace (off + Z.of_nat (length l) + Z.of_nat (length (concat ls))) with (off + n) by lia. lia. }
    rewrite Hoff in Hb2. replace (off + Z.of_nat (length l) + Z.of_nat (length (concat ls))) with (off + n) in Hb2 by lia.
    exists s2, own2, D2. split_and!; [done|lia|lia|]. eapply image_ext; [exact Hi2| |done].
    intros j. rewrite !fupd_at, Z.eqb_refl. destruct (Z.eqb_spec j k) as [->|]; [|done]. by rewrite <- app_assoc.
Qed.

Abbreviation hostfile := (list Z * list Z)%type.
(** A file [mkfs] can take. *)
Definition takes (f : hostfile) : Prop := existsb (Z.eqb SLASH) f.1 = false /\ Forall is_u8 f.1 /\ Forall is_u8 f.2 /\
  Z.of_nat (length f.2) <= MAXFILE * BSIZE.
Fixpoint dir_entries (n : Z) (fs : list hostfile) : list Z :=
  match fs with
  | [] => []
  | f :: fs' => mk_dirent n (file_name f.1) ++ dir_entries (n + 1) fs'
  end.
Definition files_need (fs : list hostfile) : Z := foldr (fun f n => fneed (Z.of_nat (length f.2)) + n) 0 fs.
Lemma files_need_nonneg fs : 0 <= files_need fs.
Proof.
  induction fs as [|f fs IH]; simpl; [lia|]. pose proof (fneed_mono 0 (Z.of_nat (length f.2)) ltac:(lia)) as H.
  change (fneed 0) with 0 in H. lia.
Qed.
Lemma file_name_u8 a : Forall is_u8 a -> Forall is_u8 (file_name a).
Proof. intros Ha. destruct a as [|c a]; [done|]. simpl. destruct (c =? UNDERSCORE); [|done]. by apply Forall_cons in Ha as [_ Ha]. Qed.

Lemma add_file_run s C T own D f : image s C T own D -> 2 <= freeinode s < NINODES -> takes f ->
  let len := Z.of_nat (length (C 1)) in let n := freeinode s in
  len + 16 <= MAXFILE * BSIZE -> freeblock s + fneed (len + 16) - fneed len + fneed (Z.of_nat (length f.2)) <= FSSIZE ->
  exists s' own' D', add_file 1 f s = Ret tt s' /\ freeinode s' = n + 1 /\
    freeblock s' = freeblock s + fneed (len + 16) - fneed len + fneed (Z.of_nat (length f.2)) /\
    image s' (fupd (fupd C 1 (C 1 ++ mk_dirent n (file_name f.1))) n f.2) (fupd T n T_FILE) own' D'.
Proof.
  intros Hi Hn (Hsl&Hu1&Hu2&Hmax2) len n Hmax Hfit. destruct f as [arg bytes]. simpl in Hsl, Hu1, Hu2, Hmax2, Hfit. simpl snd. simpl fst.
  unfold add_file. rewrite Hsl. destruct (ialloc_run s C T own D T_FILE Hi) as (s1&D1&E1&Hf1&Hb1&Hi1); [lia|unfold T_FILE; lia|].
  rewrite (bind_run _ _ _ _ _ E1). fold n in Hf1, Hi1 |- *. rewrite xshort_small by (unfold NINODES in *; lia).
  set (ent := mk_dirent n (file_name arg)). assert (Hle : length ent = 16%nat) by apply length_mk_dirent.
  assert (EC1 : fupd C n [] 1 = C 1) by (rewrite fupd_ne by lia; done).
  pose proof (fneed_mono 0 (Z.of_nat (length bytes)) ltac:(lia)) as Hm0. change (fneed 0) with 0 in Hm0.
  destruct (iappend_run s1 _ _ own D1 1 ent Hi1) as (s2&own2&D2&E2&Hf2&Hb2&Hi2);
    [lia|apply mk_dirent_u8, file_name_u8; done|rewrite EC1, Hle; fold len; lia|rewrite EC1, Hle; fold len; change (Z.of_nat 16) with 16; lia|].
  rewrite EC1 in Hb2, Hi2. rewrite Hle in Hb2. fold len in Hb2. change (Z.of_nat 16) with 16 in Hb2. rewrite (bind_run _ _ _ _ _ E2).
  set (C2 := fupd (fupd C n []) 1 (C 1 ++ ent)) in *. assert (EC2 : C2 n = []) by (unfold C2; rewrite fupd_ne, fupd_eq by lia; done).
  destruct (append_chunks (chunks (length bytes) bytes) s2 C2 _ own2 D2 n Hi2) as (s3&own3&D3&E3&Hf3&Hb3&Hi3);
    [lia|by rewrite chunks_spec|rewrite EC2, chunks_spec by done; simpl; lia|rewrite EC2, chunks_spec by done; simpl length; change (Z.of_nat 0) with 0; rewrite Z.add_0_l; change (fneed 0) with 0; lia|].
  rewrite EC2, chunks_spec in Hb3, Hi3 by done. simpl length in Hb3. change (fneed (Z.of_nat 0)) with 0 in Hb3.
  change (Z.of_nat 0 + Z.of_nat (length bytes)) with (0 + Z.of_nat (length bytes)) in Hb3. rewrite Z.add_0_l in Hb3.
  exists s3, own3, D3. split_and!; [exact E3|lia|lia|]. eapply image_ext; [exact Hi3| |done]. intros j. simpl app. unfold C2.
  rewrite !fupd_at. destruct (Z.eqb_spec j n); [done|]. done.
Qed.

Lemma add_files_run fs : forall s C T own D, image s C T own D -> 2 <= freeinode s -> Forall takes fs ->
  let len := Z.of_nat (length (C 1)) in let n := freeinode s in let m := Z.of_nat (length fs) in
  n + m <= NINODES -> len + 16 * m <= MAXFILE * BSIZE ->
  freeblock s + fneed (len + 16 * m) - fneed len + files_need fs <= FSSIZE ->
  exists s' C' T' own' D', mfor fs (add_file 1) s = Ret tt s' /\ freeinode s' = n + m /\
    freeblock s' = freeblock s + fneed (len + 16 * m) - fneed len + files_need fs /\ image s' C' T' own' D' /\
    C' 1 = C 1 ++ dir_entries n fs /\ T' 1 = T 1 /\
    (forall i f, fs !! i = Some f -> C' (n + Z.of_nat i) = f.2 /\ T' (n + Z.of_nat i) = T_FILE) /\
    (forall k, k <> 1 -> k < n -> C' k = C k /\ T' k = T k).
Proof.
  induction fs as [|f fs IH]; intros s C T own D Hi Hn Ht len n m Hnm Hmax Hfit; simpl.
  - exists s, C, T, own, D. unfold m in *. simpl length in *. change (16 * Z.of_nat 0) with 0 in *. rewrite !Z.add_0_r in *.
    split_and!; [done|done|lia|done|by rewrite app_nil_r|done|intros i f Hf; done|done].
  - apply Forall_cons in Ht as [Htf Ht]. assert (Em : m = Z.of_nat (length fs) + 1) by (unfold m; simpl length; lia).
    cbn [files_need foldr] in Hfit. fold (files_need fs) in Hfit. pose proof (files_need_nonneg fs) as Hnn.
    pose proof (fneed_mono (len + 16) (len + 16 * m) ltac:(lia)) as Hmono.
    destruct (add_file_run s C T own D f Hi) as (s1&own1&D1&E1&Hf1&Hb1&Hi1); [lia|done|fold len; lia|fold len; lia|].
    fold len in Hb1. fold n in Hf1, Hi1. rewrite (bind_run _ _ _ _ _ E1).
    set (C1 := fupd (fupd C 1 (C 1 ++ mk_dirent n (file_name f.1))) n f.2) in *.
    assert (EC : C1 1 = C 1 ++ mk_dirent n (file_name f.1)) by (unfold C1; rewrite fupd_ne, fupd_eq by lia; done).
    assert (Hlen : Z.of_nat (length (C1 1)) = len + 16) by (rewrite EC, length_app, length_mk_dirent; lia).
    destruct (IH s1 C1 _ own1 D1 Hi1) as (s2&C2&T2&own2&D2&E2&Hf2&Hb2&Hi2&EC1&ET1&Hfs&Hlow); [lia|done|lia|lia| |].
    { rewrite Hlen. replace (len + 16 + 16 * Z.of_nat (length fs)) with (len + 16 * m) by lia. lia. }
    rewrite Hlen in Hb2. replace (len + 16 + 16 * Z.of_nat (length fs)) with (len + 16 * m) in Hb2 by lia.
    rewrite Hf1 in *. exists s2, C2, T2, own2, D2. split_and!; [done|lia|lia|done| | | |].
    + rewrite EC1, EC, <- app_assoc. done.
    + rewrite ET1, fupd_ne by lia. done.
    + intros [|i] g Hg; simpl in Hg.
      * injection Hg as <-. rewrite Z.add_0_r. destruct (Hlow n) as [H1 H2]; [lia|lia|]. rewrite H1, H2. unfold C1. by rewrite !fupd_eq.
      * destruct (Hfs i g Hg) as [H1 H2]. replace (n + Z.of_nat (S i)) with (n + 1 + Z.of_nat i) by lia. done.
    + intros k Hk1 Hk2. destruct (Hlow k) as [H1 H2]; [done|lia|]. rewrite H1, H2. unfold C1. rewrite !fupd_ne by lia. done.
Qed.

(** ** main *)

Lemma zero_image l : forall s, (forall k, img s k = zeros) ->
  exists V, mfor l (fun i => wsect i zeros) s = Ret tt (Mk V (foldl (fun n i => Z.max n (i + 1)) (nsect s) l) (freeinode s) (freeblock s)) /\
    forall k, V k = zeros.
Proof.
  induction l as [|i l IH]; intros s Hz; simpl.
  - exists (img s). split; [by destruct s|done].
  - unfold wsect at 1. rewrite bind_modify. apply (IH (Mk _ _ _ _)). intros k. simpl. rewrite fupd_at. by destruct (k =? i).
Qed.

Lemma blank_image V : (forall k, V k = zeros) -> image (Mk (fupd V 1 sb_buf) FSSIZE 1 nmeta) (fun _ => []) (fun _ => 0) (fun _ => None) (fun _ => Dinode 0 0 0 0 0 []).
Proof.
  intros Hz. assert (Hb : forall n, is_block_data (fupd V 1 sb_buf n)).
  { intros n. rewrite fupd_at. destruct (n =? 1); [apply write_addrs_block, zeros_block|rewrite Hz; apply zeros_block]. }
  split; cbn [img nsect freeinode freeblock].
  - split; [done|]. cbn [img nsect freeinode freeblock]. split; [done|by vm_compute| |intros k Hk; lia].
    intros b Hfb. rewrite nmeta_val in Hfb. rewrite fupd_ne by lia. apply Hz.
  - intros k Hk. lia.
  - intros k Hk. destruct (iblock_range k ltac:(lia)) as [Hr _]. rewrite fupd_ne by lia. rewrite Hz. simpl. unfold ld16. by rewrite !ld8_zeros.
  - intros k Hk. lia.
  - intros k Hk. lia.
  - done.
  - by rewrite fupd_eq.
  - intros n Hn. rewrite fupd_ne by lia. apply Hz.
Qed.

Lemma bits_set l d j : is_block_data d -> Forall (fun i => 0 <= i < BPB) l -> 0 <= j < BPB ->
  is_block_data (foldl bit_set d l) /\ bit_clear (foldl bit_set d l) j = if existsb (Z.eqb j) l then false else bit_clear d j.
Proof.
  intros Hd Hl Hj. revert d Hd. induction Hl as [|i l Hi _ IH]; intros d Hd; simpl; [done|].
  destruct (IH (bit_set d i)) as [H1 H2]; [by apply st8_block|]. split; [done|]. rewrite H2.
  rewrite (bit_set_spec d i j) by (split; [done|apply Hd]). destruct (j =? i); simpl; by destruct (existsb _ _).
Qed.
Lemma bitmap_bits used j : 0 <= used <= BPB -> 0 <= j < BPB ->
  is_block_data (foldl bit_set zeros (seqZ 0 used)) /\ bit_clear (foldl bit_set zeros (seqZ 0 used)) j = negb (j <? used).
Proof.
  intros Hu Hj. destruct (bits_set (seqZ 0 used) zeros j zeros_block) as [H1 H2]; [|done|].
  { apply Forall_forall. intros i Hi. apply elem_of_seqZ in Hi. lia. }
  split; [done|]. rewrite H2. destruct (Z.ltb_spec j used) as [Hlt|Hge]; simpl.
  - replace (existsb (Z.eqb j) (seqZ 0 used)) with true; [done|]. symmetry. apply existsb_exists. exists j.
    split; [apply list_elem_of_In, elem_of_seqZ; lia|apply Z.eqb_refl].
  - replace (existsb (Z.eqb j) (seqZ 0 used)) with false.
    + unfold bit_clear. by rewrite ld8_zeros.
    + symmetry. apply not_true_is_false. intros He. apply existsb_exists in He as (i&Hi&E). apply Z.eqb_eq in E as <-.
      apply list_elem_of_In, elem_of_seqZ in Hi. lia.
Qed.

(** The last steps of [main]. *)
Definition finish (rootino : Z) : MK unit :=
  let! din := rinode rootino in
  let off := xint (d_size din) in
  let off := (off / BSIZE + 1) * BSIZE in
  winode rootino (set_dsize din (xint off)) ;;
  let! used := gets freeblock in
  balloc used.

(** The finished image: [fb] blocks taken, inodes below [N]. *)
Record built (V : Z -> list Z) (fb N : Z) (C : Z -> list Z) (T : Z -> Z) (own : Z -> option (Z * Z)) (D : Z -> dinode) : Prop := {
  bu_data : data_ok V fb N own D (fun k => nblk (Z.of_nat (length (C k)))) C;
  bu_itab : forall k, 1 <= k < N -> read_dinode (V (IBLOCK k sb)) (k mod IPB) =
    if k =? 1 then set_dsize (D 1) ((Z.of_nat (length (C 1)) / BSIZE + 1) * BSIZE) else D k;
  bu_head : forall k, 1 <= k < N -> d_type (D k) = T k /\ d_nlink (D k) = 1 /\ d_size (D k) = Z.of_nat (length (C k));
  bu_free : forall k, N <= k < NINODES -> d_type (read_dinode (V (IBLOCK k sb)) (k mod IPB)) = 0;
  bu_sb : V 1 = sb_buf;
  bu_log : V 2 = zeros;
  bu_bits : forall b, 0 <= b < FSSIZE -> bit_clear (V 58) b = negb (b <? fb)
}.

Lemma finish_run s C T own D : image s C T own D -> 2 <= freeinode s -> Z.of_nat (length (C 1)) + BSIZE <= MAXFILE * BSIZE ->
  exists V, finish 1 s = Ret tt (Mk V (nsect s) (freeinode s) (freeblock s)) /\ built V (freeblock s) (freeinode s) C T own D.
Proof.
  intros [[Hn Hd] Hit Hfr Hh Hty Hni Hsb Hlog] Hf Hmax. unfold finish, rinode.
  assert (H1 : 1 <= 1 < freeinode s) by lia. destruct (iblock_range 1 ltac:(unfold NINODES; lia)) as [Hib _].
  assert (Hs : IBLOCK 1 sb < nsect s) by (rewrite Hn; unfold FSSIZE; lia).
  rewrite bind_assoc, (bind_run _ _ _ _ _ (rsect_run s _ Hs)), bind_ret_l, (Hit 1 H1).
  destruct (Hh 1 H1) as (Et&Ema&Emi&Enl&Esz). rewrite Esz. set (len := Z.of_nat (length (C 1))) in *.
  assert (Hsz : is_u32 len /\ is_u32 ((len / BSIZE + 1) * BSIZE)).
  { unfold is_u32, MAXFILE, NDIRECT, NINDIRECT, BSIZE in *. Z.div_mod_to_equations; lia. }
  destruct Hsz as [Hu1 Hu2]. rewrite !xint_small by (rewrite ?xint_small; done).
  set (x := set_dsize (D 1) ((len / BSIZE + 1) * BSIZE)). pose proof (da_files _ _ _ _ _ _ _ Hd 1 H1) as Hfi.
  assert (Hx : dinode_ok x).
  { split; simpl; rewrite ?Et, ?Ema, ?Emi, ?Enl; try lia; [specialize (Hty 1 H1); lia|done|apply Hfi|apply Hfi]. }
  destruct (winode_run s 1 x Hn) as (V'&E&Hbl&HV&Htab); [unfold NINODES; lia|apply Hd|done|].
  rewrite (bind_run _ _ _ _ _ E), bind_gets. cbn [freeblock]. pose proof (da_range _ _ _ _ _ _ _ Hd) as Hr.
  unfold balloc. destruct (Z.leb_spec (BSIZE * 8) (freeblock s)); [unfold BSIZE, FSSIZE in *; lia|].
  rewrite sb_val. cbn [sb_bmapstart]. rewrite wsect_run by (cbn [nsect]; rewrite Hn; unfold FSSIZE; lia). cbn [img nsect freeinode freeblock].
  eexists. split; [reflexivity|]. change (fun buf i => st8 buf (i / 8) (Z.lor (ld8 buf (i / 8)) (Z.shiftl 1 (i mod 8)))) with bit_set.
  pose proof nmeta_val as Hnm. assert (Hub : 0 <= freeblock s <= BPB) by (unfold BPB, FSSIZE in *; lia).
  split; cbn [img nsect freeinode freeblock].
  - eapply data_meta; [exact Hd| |].
    + intros n. rewrite fupd_at. destruct (n =? 58); [|done]. apply (bitmap_bits _ 0 Hub). done.
    + intros n Hge. rewrite fupd_ne, HV by lia. done.
  - intros k Hk. destruct (iblock_range k ltac:(lia)) as [Hkb _]. rewrite fupd_ne by lia. rewrite Htab by lia.
    destruct (k =? 1); [done|by apply Hit].
  - intros k Hk. destruct (Hh k Hk) as (?&_&_&?&?). done.
  - intros k Hk. destruct (iblock_range k ltac:(lia)) as [Hkb _]. rewrite fupd_ne by lia. rewrite Htab by lia.
    destruct (Z.eqb_spec k 1); [lia|by apply Hfr].
  - rewrite fupd_ne, HV by lia. done.
  - rewrite fupd_ne, HV by lia. apply Hlog. unfold nlog, LOGSIZE. lia.
  - intros b Hb. rewrite fupd_eq. apply (bitmap_bits _ b Hub). unfold BPB, FSSIZE in *. lia.
Qed.

Lemma main_run files : Forall takes files -> 2 + Z.of_nat (length files) <= NINODES ->
  let len := 32 + 16 * Z.of_nat (length files) in
  nmeta + fneed len + files_need files <= FSSIZE ->
  exists V C T own D, let fb := nmeta + fneed len + files_need files in let N := 2 + Z.of_nat (length files) in
    main files mk_start = Ret tt (Mk V FSSIZE N fb) /\ built V fb N C T own D /\
    C 1 = mk_dirent 1 [DOTCH] ++ mk_dirent 1 [DOTCH; DOTCH] ++ dir_entries 2 files /\ T 1 = T_DIR /\
    (forall i f, files !! i = Some f -> C (2 + Z.of_nat i) = f.2 /\ T (2 + Z.of_nat i) = T_FILE).
Proof.
  intros Ht Hn len Hfit. unfold main. rewrite bind_modify.
  destruct (zero_image (seqZ 0 FSSIZE) (Mk (img mk_start) (nsect mk_start) (freeinode mk_start) nmeta)) as (V0&E0&Hz); [done|].
  rewrite (bind_run _ _ _ _ _ E0). cbn [nsect freeinode freeblock mk_start].
  replace (foldl (fun n i => Z.max n (i + 1)) 0 (seqZ 0 FSSIZE)) with FSSIZE by (vm_compute; reflexivity).
  rewrite (bind_run _ _ _ _ _ (wsect_run (Mk V0 FSSIZE 1 nmeta) 1 sb_buf ltac:(simpl; unfold FSSIZE; lia))). cbn [img nsect freeinode freeblock].
  pose proof (blank_image V0 Hz) as Hi0. pose proof (files_need_nonneg files) as Hnn.
  pose proof (fneed_mono 32 len ltac:(lia)) as Hm32. change (fneed 32) with 1 in Hm32. pose proof nmeta_val as Hnm.
  destruct (ialloc_run _ _ _ _ _ T_DIR Hi0) as (s1&D1&E1&Hf1&Hb1&Hi1); [done|done|]. cbn [freeinode freeblock] in *.
  rewrite (bind_run _ _ _ _ _ E1). change (negb (1 =? ROOTINO)) with false. cbv iota. change (xshort 1) with 1.
  assert (Hu : Forall is_u8 [DOTCH; DOTCH]) by (repeat constructor; done). assert (Hu1 : Forall is_u8 [DOTCH]) by (repeat constructor; done).
  destruct (iappend_run _ _ _ _ _ 1 (mk_dirent 1 [DOTCH]) Hi1) as (s2&own2&D2&E2&Hf2&Hb2&Hi2);
    [lia|by apply mk_dirent_u8|done| |]. 
  { rewrite fupd_eq, length_mk_dirent, Hb1. simpl length. change (fneed (Z.of_nat 0 + Z.of_nat 16)) with 1. change (fneed (Z.of_nat 0)) with 0. lia. }
  rewrite fupd_eq, length_mk_dirent in Hb2. simpl length in Hb2. change (fneed (Z.of_nat 0 + Z.of_nat 16)) with 1 in Hb2. change (fneed (Z.of_nat 0)) with 0 in Hb2.
  rewrite (bind_run _ _ _ _ _ E2). rewrite fupd_eq, app_nil_l in Hi2.
  destruct (iappend_run _ _ _ _ _ 1 (mk_dirent 1 [DOTCH; DOTCH]) Hi2) as (s3&own3&D3&E3&Hf3&Hb3&Hi3);
    [lia|by apply mk_dirent_u8|rewrite fupd_eq, !length_mk_dirent; done| |].
  { rewrite fupd_eq, !length_mk_dirent, Hb2. change (fneed (Z.of_nat 16 + Z.of_nat 16)) with 1. change (fneed (Z.of_nat 16)) with 1. lia. }
  rewrite fupd_eq, !length_mk_dirent in Hb3. change (fneed (Z.of_nat 16 + Z.of_nat 16)) with 1 in Hb3. change (fneed (Z.of_nat 16)) with 1 in Hb3.
  rewrite (bind_run _ _ _ _ _ E3). rewrite fupd_eq in Hi3. set (dots := mk_dirent 1 [DOTCH] ++ mk_dirent 1 [DOTCH; DOTCH]) in *.
  match type of Hi3 with image _ ?c ?t _ _ => set (C3 := c) in *; set (T3 := t) in * end.
  assert (EC3 : C3 1 = dots) by (unfold C3; by rewrite fupd_eq). assert (Hl3 : Z.of_nat (length (C3 1)) = 32) by (rewrite EC3; done).
  destruct (add_files_run files s3 C3 T3 own3 D3 Hi3) as (s4&C4&T4&own4&D4&E4&Hf4&Hb4&Hi4&EC4&ET4&Hfs&_); [lia|done|lia| | |].
  { rewrite Hl3. unfold NINODES, MAXFILE, NDIRECT, NINDIRECT, BSIZE in *. lia. }
  { rewrite Hl3. fold len. change (fneed 32) with 1. lia. }
  rewrite Hl3 in Hb4. fold len in Hb4. change (fneed 32) with 1 in Hb4. rewrite (bind_run _ _ _ _ _ E4). fold (finish 1).
  assert (Efi : freeinode s3 = 2) by lia. rewrite Efi in *.
  assert (Hl4 : Z.of_nat (length (C4 1)) = len).
  { rewrite EC4, length_app, Nat2Z.inj_add, Hl3. unfold len. f_equal. clear. generalize 2. induction files as [|f fs IH]; intros n; [done|].
    cbn [dir_entries length]. rewrite length_app, length_mk_dirent, Nat2Z.inj_add, IH. lia. }
  destruct (finish_run s4 C4 T4 own4 D4 Hi4) as (V&E5&Hbu); [lia|rewrite Hl4; unfold len, NINODES, MAXFILE, NDIRECT, NINDIRECT, BSIZE in *; lia|].
  assert (Eb4 : freeblock s4 = nmeta + fneed len + files_need files) by lia. rewrite Hf4, Eb4 in *.
  pose proof (im_rep _ _ _ _ _ Hi4) as [Hns _]. rewrite Hns in E5.
  exists V, C4, T4, own4, D4. split_and!; [exact E5|exact Hbu| | |].
  - rewrite EC4, EC3. unfold dots. by rewrite <- app_assoc.
  - rewrite ET4. unfold T3. by rewrite fupd_eq.
  - exact Hfs.
Qed.

(** ** The image as the kernel finds it *)

(** The inode [ilock] loads. *)
Definition inode_at (V : Z -> list Z) (k : Z) : inode :=
  loaded k (read_dinode (V (IBLOCK k (decode_sb (V 1)))) (k mod IPB)).

Section found.
Context (V : Z -> list Z) (fb N : Z) (C : Z -> list Z) (T : Z -> Z) (own : Z -> option (Z * Z)) (D : Z -> dinode).
Context (Hbu : built V fb N C T own D).

Lemma found_sb : decode_sb (V 1) = sb.
Proof using Hbu. rewrite (bu_sb _ _ _ _ _ _ _ Hbu). vm_compute. reflexivity. Qed.

Lemma found_use b : 0 <= b < FSSIZE -> in_use V b <-> b < fb.
Proof using Hbu.
  intros Hb. unfold in_use, BBLOCK. rewrite found_sb, sb_val. cbn [sb_bmapstart]. unfold FSSIZE, BPB in *.
  rewrite Z.div_small, Z.mod_small by lia. change (0 + 58) with 58. rewrite (bu_bits _ _ _ _ _ _ _ Hbu) by (unfold FSSIZE; lia).
  rewrite negb_false_iff, Z.ltb_lt. done.
Qed.
Lemma found_data b : nmeta <= b < fb -> is_data V b /\ in_use V b.
Proof using Hbu.
  intros Hb. pose proof (da_range _ _ _ _ _ _ _ (bu_data _ _ _ _ _ _ _ Hbu)) as Hr. pose proof nmeta_val as Hnm.
  split; [|apply found_use; lia]. unfold is_data. rewrite found_sb, sb_val.
  change (data_start (Superblock 1000 941 200 30 2 32 58)) with 59. cbn [sb_size]. unfold FSSIZE in *. lia.
Qed.

Lemma found_inode k bn : 1 <= k < N -> blkno V (inode_at V k) bn = blkno V (loaded k (D k)) bn /\
  ind_of (inode_at V k) = ind_of (loaded k (D k)) /\ (forall o, byte_at V (inode_at V k) o = byte_at V (loaded k (D k)) o).
Proof using Hbu.
  intros Hk. unfold inode_at. rewrite found_sb, (bu_itab _ _ _ _ _ _ _ Hbu k Hk). by destruct (Z.eqb_spec k 1) as [->|].
Qed.

Lemma found_disk_ok {St} {BL : BlockLayer St} : (forall n, n = 1 \/ 32 <= n < FSSIZE -> blk_usable n) -> disk_ok V.
Proof using Hbu.
  intros Hu. split.
  - rewrite found_sb, sb_val. split; cbn [sb_inodestart sb_ninodes sb_bmapstart sb_size]; try (vm_compute; intuition discriminate).
    + apply Hu. by left.
    + intros n Hn. apply Hu. right. unfold FSSIZE. lia.
  - apply (da_blocks _ _ _ _ _ _ _ (bu_data _ _ _ _ _ _ _ Hbu)).
  - intros b Hb. rewrite found_sb, sb_val in Hb. change (data_start (Superblock 1000 941 200 30 2 32 58)) with 59 in Hb.
    pose proof (da_range _ _ _ _ _ _ _ (bu_data _ _ _ _ _ _ _ Hbu)) as Hr. rewrite nmeta_val in Hr. apply found_use; unfold FSSIZE in *; lia.
Qed.

(** Who owns a block of an inode. *)
Lemma found_owner k bn : 1 <= k < N -> in_file bn -> blkno V (inode_at V k) bn <> 0 ->
  nmeta <= blkno V (inode_at V k) bn < fb /\ own (blkno V (inode_at V k) bn) = Some (k, bn).
Proof using Hbu.
  intros Hk Hbn Hne. destruct (found_inode k bn Hk) as (E&_&_). rewrite E in *.
  pose proof (fi_blk _ _ _ _ _ _ _ (da_files _ _ _ _ _ _ _ (bu_data _ _ _ _ _ _ _ Hbu) k Hk) bn Hbn) as Hb. cbv beta in Hb.
  destruct (bn <? _); [done|lia].
Qed.
Lemma found_owner_ind k : 1 <= k < N -> ind_of (inode_at V k) <> 0 ->
  nmeta <= ind_of (inode_at V k) < fb /\ own (ind_of (inode_at V k)) = Some (k, -1).
Proof using Hbu.
  intros Hk Hne. destruct (found_inode k 0 Hk) as (_&E&_). rewrite E in *.
  pose proof (fi_ind _ _ _ _ _ _ _ (da_files _ _ _ _ _ _ _ (bu_data _ _ _ _ _ _ _ Hbu) k Hk)) as Hb. cbv beta in Hb.
  destruct (NDIRECT <? _); [done|lia].
Qed.

Lemma found_inode_ok k : 1 <= k < N -> inode_ok V (inode_at V k).
Proof using Hbu.
  intros Hk. pose proof (da_files _ _ _ _ _ _ _ (bu_data _ _ _ _ _ _ _ Hbu) k Hk) as Hf. split.
  - done.
  - unfold inode_at. rewrite found_sb, (bu_itab _ _ _ _ _ _ _ Hbu k Hk). pose proof (fi_len _ _ _ _ _ _ _ Hf).
    by destruct (Z.eqb_spec k 1) as [->|].
  - intros Hne. by apply found_data, found_owner_ind.
  - intros bn Hbn Hne. by apply found_data, found_owner.
  - intros bn bn' Hbn Hbn' Hne E. destruct (found_owner k bn Hk Hbn Hne) as [_ H1]. rewrite E in Hne, H1.
    destruct (found_owner k bn' Hk Hbn' Hne) as [_ H2]. congruence.
  - intros bn Hbn Hne E. destruct (found_owner k bn Hk Hbn Hne) as [_ H1]. rewrite E in Hne, H1.
    destruct (found_owner_ind k Hk Hne) as [_ H2]. rewrite H1 in H2. injection H2 as H2. destruct Hbn. lia.
Qed.

Lemma found_bytes k l1 l l2 : 1 <= k < N -> C k = l1 ++ l ++ l2 ->
  file_bytes V (inode_at V k) (Z.of_nat (length l1)) (Z.of_nat (length l)) = l.
Proof using Hbu.
  intros Hk EC. pose proof (da_files _ _ _ _ _ _ _ (bu_data _ _ _ _ _ _ _ Hbu) k Hk) as Hf.
  destruct (fi_n _ _ _ _ _ _ _ Hf) as [Hn1 Hn2]. cbv beta in Hn1, Hn2. set (n := nblk _) in *. clearbody n.
  assert (Hl : (length (C k) = length l1 + (length l + length l2))%nat) by (rewrite EC, !length_app; lia).
  apply file_bytes_list. intros j Hj. destruct (found_inode k 0 Hk) as (_&_&->). rewrite (fi_bytes _ _ _ _ _ _ _ Hf) by (unfold BSIZE in *; lia).
  rewrite EC, nthZ_app by lia. destruct (Z.ltb_spec (Z.of_nat (length l1) + j) (Z.of_nat (length l1))); [lia|].
  rewrite nthZ_app by lia. replace (Z.of_nat (length l1) + j - Z.of_nat (length l1)) with j by lia.
  destruct (Z.ltb_spec j (Z.of_nat (length l))); [done|lia].
Qed.
End found.

Lemma dir_entries_split fs i f : forall n, fs !! i = Some f ->
  exists pre post, dir_entries n fs = pre ++ mk_dirent (n + Z.of_nat i) (file_name f.1) ++ post /\ Z.of_nat (length pre) = 16 * Z.of_nat i.
Proof.
  revert i. induction fs as [|g fs IH]; intros [|i] n Hi; simpl in Hi; [done|done| |].
  - injection Hi as ->. exists [], (dir_entries (n + 1) fs). simpl. rewrite Z.add_0_r. done.
  - destruct (IH i (n + 1) Hi) as (pre&post&E&Hl). exists (mk_dirent n (file_name g.1) ++ pre), post. cbn [dir_entries].
    rewrite E, <- app_assoc, length_app, length_mk_dirent. replace (n + 1 + Z.of_nat i) with (n + Z.of_nat (S i)) by lia. split; [done|lia].
Qed.

(** C33. mkfs, given files that fit, finishes, and leaves an image on which the
    log and the file system start: the superblock describes it, the log is
    empty, exactly the blocks handed out are marked in the bitmap, the root
    directory holds [.], [..] and an entry for every file, every file's inode
    has its size and its bytes, and no block is in two places. *)
Theorem mkfs_builds_fs files : Forall takes files -> 2 + Z.of_nat (length files) <= NINODES ->
  nmeta + fneed (32 + 16 * Z.of_nat (length files)) + files_need files <= FSSIZE ->
  exists s, main files mk_start = Ret tt s /\ let V := img s in let root := inode_at V 1 in
    (forall St (BL : BlockLayer St), (forall n, n = 1 \/ 32 <= n < FSSIZE -> blk_usable n) -> disk_ok V) /\
    sb_describes V FSSIZE 2 LOGSIZE /\ hdr_n (V 2) = 0 /\
    (forall b, 0 <= b < FSSIZE -> in_use V b <-> b < freeblock s) /\
    dir_ok V root /\ entry V root 0 = mk_dirent 1 [DOTCH] /\ entry V root 16 = mk_dirent 1 [DOTCH; DOTCH] /\
    (forall i f, files !! i = Some f -> let k := 2 + Z.of_nat i in let x := inode_at V k in
       entry V root (32 + 16 * Z.of_nat i) = mk_dirent k (file_name f.1) /\
       inode_ok V x /\ i_type x = T_FILE /\ i_nlink x = 1 /\ i_size x = Z.of_nat (length f.2) /\ file_bytes V x 0 (i_size x) = f.2) /\
    (forall k k' bn bn', 1 <= k < freeinode s -> 1 <= k' < freeinode s -> in_file bn -> in_file bn' -> blkno V (inode_at V k) bn <> 0 ->
       (blkno V (inode_at V k) bn = blkno V (inode_at V k') bn' -> k = k' /\ bn = bn') /\
       blkno V (inode_at V k) bn <> ind_of (inode_at V k')).
Proof.
  intros Ht Hn Hfit. destruct (main_run files Ht Hn Hfit) as (V&C&T&own&D&E&Hbu&EC1&ET1&Hfs). cbv zeta in *.
  eexists. split; [exact E|]. cbn [img freeblock freeinode]. set (N := 2 + Z.of_nat (length files)) in *.
  assert (H1 : 1 <= 1 < N) by lia. set (dots := mk_dirent 1 [DOTCH] ++ mk_dirent 1 [DOTCH; DOTCH]).
  assert (Hinode : forall k, 1 <= k < N -> i_type (inode_at V k) = T k /\ i_nlink (inode_at V k) = 1 /\
    i_size (inode_at V k) = if k =? 1 then (Z.of_nat (length (C 1)) / BSIZE + 1) * BSIZE else Z.of_nat (length (C k))).
  { intros k Hk. unfold inode_at. rewrite (found_sb _ _ _ _ _ _ _ Hbu), (bu_itab _ _ _ _ _ _ _ Hbu k Hk).
    destruct (bu_head _ _ _ _ _ _ _ Hbu k Hk) as (?&?&?). unfold loaded, load_dinode, set_dsize.
    destruct (Z.eqb_spec k 1) as [->|]; cbn [i_type i_nlink i_size d_type d_nlink d_size]; split_and!; assumption || reflexivity. }
  split_and!.
  - intros St BL Hu. by eapply found_disk_ok.
  - split; rewrite ?(found_sb _ _ _ _ _ _ _ Hbu), ?sb_val; vm_compute; intuition discriminate.
  - rewrite (bu_log _ _ _ _ _ _ _ Hbu). unfold hdr_n. by rewrite ld32_zeros.
  - intros b Hb. by eapply found_use.
  - assert (Hlen : Z.of_nat (length (C 1)) <= 32 + 16 * Z.of_nat (length files)).
    { rewrite EC1, app_assoc, length_app, Nat2Z.inj_add. change (Z.of_nat (length (mk_dirent 1 [DOTCH] ++ mk_dirent 1 [DOTCH; DOTCH]))) with 32.
      enough (Z.of_nat (length (dir_entries 2 files)) = 16 * Z.of_nat (length files)) by lia.
      clear. generalize 2. induction files as [|f fs IH]; intros n; [done|]. cbn [dir_entries length].
      rewrite length_app, length_mk_dirent, Nat2Z.inj_add, IH. lia. }
    destruct (Hinode 1 H1) as (Et&_&Es). rewrite Z.eqb_refl in Es.
    split; [by eapply found_inode_ok|by rewrite Et|..]; rewrite Es; unfold N, NINODES, DIRENT, MAXFILE, NDIRECT, NINDIRECT, BSIZE in *;
      Z.div_mod_to_equations; lia.
  - apply (found_bytes _ _ _ _ _ _ _ Hbu 1 [] (mk_dirent 1 [DOTCH]) (mk_dirent 1 [DOTCH; DOTCH] ++ dir_entries 2 files) H1). done.
  - apply (found_bytes _ _ _ _ _ _ _ Hbu 1 (mk_dirent 1 [DOTCH]) (mk_dirent 1 [DOTCH; DOTCH]) (dir_entries 2 files) H1). done.
  - intros i f Hi. assert (Hlt := lookup_lt_Some _ _ _ Hi). assert (Hk : 1 <= 2 + Z.of_nat i < N) by lia.
    destruct (Hfs i f Hi) as [ECk ETk]. destruct (Hinode _ Hk) as (Et&Enl&Es). destruct (Z.eqb_spec (2 + Z.of_nat i) 1); [lia|].
    rewrite ECk in Es. split_and!; [|by eapply found_inode_ok|by rewrite Et|done|done|].
    + destruct (dir_entries_split files i f 2 Hi) as (pre&post&Ed&Hl). rewrite Ed in EC1.
      replace (32 + 16 * Z.of_nat i) with (Z.of_nat (length (dots ++ pre))) by (rewrite length_app, Nat2Z.inj_add, Hl; done).
      pose proof (found_bytes _ _ _ _ _ _ _ Hbu 1 (dots ++ pre) (mk_dirent (2 + Z.of_nat i) (file_name f.1)) post H1) as Hb.
      rewrite length_mk_dirent in Hb. apply Hb. rewrite EC1. unfold dots. by rewrite <- !app_assoc.
    + rewrite Es. apply (found_bytes _ _ _ _ _ _ _ Hbu _ [] f.2 [] Hk). simpl. by rewrite ECk, app_nil_r.
  - intros k k' bn bn' Hk Hk' Hbn Hbn' Hne. destruct (found_owner _ _ _ _ _ _ _ Hbu k bn Hk Hbn Hne) as [_ Ho]. split.
    + intros Eb. rewrite Eb in Hne, Ho. destruct (found_owner _ _ _ _ _ _ _ Hbu k' bn' Hk' Hbn' Hne) as [_ Ho']. rewrite Ho in Ho'. injection Ho' as <- <-. split; reflexivity.
    + intros Eb. rewrite Eb in Hne, Ho. destruct (found_owner_ind _ _ _ _ _ _ _ Hbu k' Hk' Hne) as [_ Ho']. rewrite Ho in Ho'.
      injection Ho' as _ Ho'. destruct Hbn as [Hbn _]. rewrite Ho' in Hbn. revert Hbn. clear. lia.
Qed.

(** Two files: [_cat], which loses its underscore, and [README]. *)
Definition w_files : list hostfile := [([95; 99; 97; 116], [127; 69; 76; 70]); ([82; 69; 65; 68; 77; 69], [104; 105; 10])].
Lemma mkfs_builds_fs_witness : exists s, main w_files mk_start = Ret tt s /\
  entry (img s) (inode_at (img s) 1) 32 = mk_dirent 2 [99; 97; 116] /\ file_bytes (img s) (inode_at (img s) 3) 0 3 = [104; 105; 10].
Proof.
  destruct (mkfs_builds_fs w_files) as (s&E&_&_&_&_&_&_&_&Hf&_).
  - repeat constructor; vm_compute; intuition discriminate.
  - vm_compute. discriminate.
  - vm_compute. discriminate.
  - exists s. split; [exact E|]. destruct (Hf 0%nat _ eq_refl) as (H1&_). destruct (Hf 1%nat _ eq_refl) as (_&_&_&_&H2&H3).
    split; [exact H1|]. rewrite H2 in H3. exact H3.
Defined.
