(* ===== verification/Ulib.v ===== *)
(** * ulib.c and printf.c: the user library

    The string routines over the byte memory of [Memory], with pointers kept
    at 32 bits; a loop that runs to a NUL or to the end of the digits has
    fuel and gives [None] when it is used up.  [user_gets] is given the
    results of its calls of read: a byte, or [None] for an end of file or an
    error.  [printf] gives the bytes it writes to its descriptor. *)
From stdpp Require Import base numbers list.
From S2P Require Import Prelude Memory StringC Console ConsoleProps.
Open Scope Z_scope.

(** ** Strings *)

(** [strcpy(s, t)]; it returns [s] *)
Fixpoint strcpy_loop (s t : Z) (fuel : nat) (m : mem) : option mem :=
  match fuel with
  | O => None
  | S fuel' =>
      let c := m t in
      let m := store8 m s c in
      if c =? 0 then Some m else strcpy_loop (s +u 1) (t +u 1) fuel' m
  end.
Definition strcpy (s t : Z) (fuel : nat) (m : mem) : option (Z * mem) :=
  m ← strcpy_loop s t fuel m; Some (s, m).

(** [strcmp(p, q)] *)
Fixpoint strcmp (p q : Z) (fuel : nat) (m : mem) : option Z :=
  match fuel with
  | O => None
  | S fuel' =>
      if negb (m p =? 0) && (m p =? m q) then strcmp (p +u 1) (q +u 1) fuel' m
      else Some (m p - m q)
  end.

(** [strlen(s)], the loop of string.c again *)
Definition user_strlen (s : Z) (fuel : nat) (m : mem) : option Z := strlen_loop s 0 fuel m.

(** [memset(dst, c, n)] *)
Definition user_memset (dst c n : Z) (m : mem) : mem := stosb dst c (Z.to_nat n) m.

(** [strchr(s, c)]: the address, 0 when there is none *)
Fixpoint user_strchr (s c : Z) (fuel : nat) (m : mem) : option Z :=
  match fuel with
  | O => None
  | S fuel' =>
      if m s =? 0 then Some 0
      else if m s =? u8 c then Some s
      else user_strchr (s +u 1) c fuel' m
  end.

(** [gets(buf, max)]: the calls of read that are left, and the memory *)
Fixpoint gets_loop (buf i max : Z) (reads : list (option Z)) (m : mem) : Z * list (option Z) * mem :=
  if i + 1 <? max then
    match reads with
    | Some c :: reads' =>
        let m := store8 m (buf +u i) c in
        if (c =? 10) || (c =? 13) then (i + 1, reads', m) else gets_loop buf (i + 1) max reads' m
    | None :: reads' => (i, reads', m)
    | [] => (i, [], m)
    end
  else (i, reads, m).
Definition user_gets (buf max : Z) (reads : list (option Z)) (m : mem) : list (option Z) * mem :=
  let '(i, reads, m) := gets_loop buf 0 max reads m in
  (reads, store8 m (buf +u i) 0).

(** [atoi(s)] *)
Fixpoint atoi_loop (s n : Z) (fuel : nat) (m : mem) : option Z :=
  match fuel with
  | O => None
  | S fuel' =>
      if (48 <=? m s) && (m s <=? 57) then atoi_loop (s +u 1) (i32 (n * 10 + m s - 48)) fuel' m
      else Some n
  end.
Definition atoi (s : Z) (fuel : nat) (m : mem) : option Z := atoi_loop s 0 fuel m.

(** [memmove(vdst, vsrc, n)]: always upwards *)
Definition user_memmove (vdst vsrc n : Z) (m : mem) : mem := copy_up vdst vsrc (Z.to_nat n) m.

(** ** Formatted output *)

Definition upper_digit (d : Z) : Z := nthZ 0 [48; 49; 50; 51; 52; 53; 54; 55; 56; 57; 65; 66; 67; 68; 69; 70] d.

(** [do { buf[i++] = digits[x % base]; } while((x /= base) != 0)] *)
Fixpoint upper_loop (fuel : nat) (x base : Z) : list Z :=
  match fuel with
  | O => []
  | S fuel' => upper_digit (x mod base) :: (if x / base =? 0 then [] else upper_loop fuel' (x / base) base)
  end.
(** [buf] of [printint] when it is printed, and the bytes printed *)
Definition user_buf (xx base : Z) (sgn : bool) : list Z :=
  let neg := sgn && (xx <? 0) in
  let x := if neg then u32 (- xx) else u32 xx in
  upper_loop 32 x base ++ (if neg then [45] else []).
Definition user_printint (xx base : Z) (sgn : bool) : list Z := rev (user_buf xx base sgn).

#[global] Arguments user_printint : simpl never.
#[global] Arguments user_buf : simpl never.

(** The loop of [printf] in its [state] 0 or [%]; [None] when a conversion
    has no argument of its kind *)
Fixpoint printf_loop (fmt : list Z) (state : Z) (args : list fmt_arg) : option (list Z) :=
  match fmt with
  | [] => Some []
  | c :: fmt' =>
      if state =? 0 then
        if c =? 37 then printf_loop fmt' 37 args
        else o ← printf_loop fmt' state args; Some (c :: o)
      else
        if c =? 100 then
          match args with
          | IntArg x :: args' => o ← printf_loop fmt' 0 args'; Some (user_printint (i32 x) 10 true ++ o)
          | _ => None
          end
        else if (c =? 120) || (c =? 112) then
          match args with
          | IntArg x :: args' => o ← printf_loop fmt' 0 args'; Some (user_printint (i32 x) 16 false ++ o)
          | _ => None
          end
        else if c =? 115 then
          match args with
          | StrArg s :: args' =>
              o ← printf_loop fmt' 0 args';
              Some (match s with Some l => l | None => [40; 110; 117; 108; 108; 41] end ++ o)
          | _ => None
          end
        else if c =? 99 then
          match args with
          | IntArg x :: args' => o ← printf_loop fmt' 0 args'; Some (u8 x :: o)
          | _ => None
          end
        else if c =? 37 then o ← printf_loop fmt' 0 args; Some (c :: o)
        else o ← printf_loop fmt' 0 args; Some (37 :: c :: o)
  end.
Definition printf (fmt : list Z) (args : list fmt_arg) : option (list Z) := printf_loop fmt 0 args.

(** ** Specifications *)

(** The C string [l] is at address [s]. *)
Definition cstr_at (m : mem) (s : Z) (l : list Z) : Prop :=
  0 <= s /\ s + Z.of_nat (length l) < 4294967296 /\ Forall (fun c => is_u8 c /\ c <> 0) l /\
  forall j, 0 <= j <= Z.of_nat (length l) -> m (s + j) = nthZ 0 l j.

(** The line [user_gets] takes: at most [n] bytes, the newline included. *)
Fixpoint read_line (n : nat) (reads : list (option Z)) : list Z * list (option Z) :=
  match n, reads with
  | S n', Some c :: reads' =>
      if (c =? 10) || (c =? 13) then ([c], reads')
      else let '(l, r) := read_line n' reads' in (c :: l, r)
  | S n', None :: reads' => ([], reads')
  | _, _ => ([], reads)
  end.

(** ** Strings in memory *)

Lemma nthZ_nonneg {A} (d : A) l i : 0 <= i -> nthZ d l i = nth (Z.to_nat i) l d.
Proof. intros H. unfold nthZ. by zcases; [lia|]. Qed.

Lemma cstr_cons m s c l : cstr_at m s (c :: l) -> m s = c /\ c <> 0 /\ s + 1 < 4294967296 /\ cstr_at m (s + 1) l.
Proof.
  intros (H0&Hb&Hf&Hm). apply Forall_cons in Hf as [[Hc Hn] Hf]. simpl length in *.
  assert (E : m s = c) by (specialize (Hm 0 ltac:(lia)); by rewrite Z.add_0_r in Hm).
  split_and!; [done|done|lia|]. split_and!; [lia|lia|done|]. intros j Hj. replace (s + 1 + j) with (s + (1 + j)) by lia.
  rewrite Hm, !nthZ_nonneg by lia. by replace (Z.to_nat (1 + j)) with (S (Z.to_nat j)) by lia.
Qed.
Lemma cstr_nil m s : cstr_at m s [] -> 0 <= s < 4294967296 /\ m s = 0.
Proof. intros (H0&Hb&_&Hm). simpl in Hb. split; [lia|]. specialize (Hm 0 ltac:(simpl; lia)). by rewrite Z.add_0_r in Hm. Qed.
Lemma cstr_in m s l : cstr_at m s l -> 0 <= s < 4294967296.
Proof. intros (?&?&_). lia. Qed.
Lemma cstr_stored m s l : 0 <= s -> s + Z.of_nat (length l) < 4294967296 -> Forall (fun c => is_u8 c /\ c <> 0) l ->
  cstr_at (store_bytes m s (l ++ [0])) s l.
Proof.
  intros Hs Hb Hl. split_and!; [done|done|done|]. intros j Hj. rewrite store_bytes_at, length_app. simpl length.
  zcases; try lia. simpl. replace (s + j - s) with j by lia. rewrite !nthZ_nonneg by lia.
  destruct (decide (j = Z.of_nat (length l))) as [->|Hne].
  - rewrite Nat2Z.id, nth_middle, nth_overflow by lia. done.
  - rewrite app_nth1 by lia. apply u8_small. rewrite Forall_forall in Hl.
    apply (Hl (nth (Z.to_nat j) l 0)). apply list_elem_of_In, nth_In. lia.
Qed.

(** [strcpy] copies the string and its NUL, and nothing else is written. *)
Lemma strcpy_copies t l : forall m s fuel, cstr_at m t l -> (length l < fuel)%nat -> 0 <= s -> s + Z.of_nat (length l) < 4294967296 ->
  s + Z.of_nat (length l) < t \/ t + Z.of_nat (length l) < s ->
  exists m', strcpy s t fuel m = Some (s, m') /\ m' ≡ store_bytes m s (l ++ [0]).
Proof.
  intros m s fuel Ht Hf Hs Hb Hd. unfold strcpy.
  assert (H : exists m', strcpy_loop s t fuel m = Some m' /\ m' ≡ store_bytes m s (l ++ [0])); [|destruct H as (m'&E&?); exists m'; by rewrite E].
  revert t m s fuel Ht Hf Hs Hb Hd. induction l as [|c l IH]; intros t m s [|fuel] Ht Hf Hs Hb Hd; simpl in Hf; try lia; simpl strcpy_loop.
  - apply cstr_nil in Ht as [_ ->]. eexists. split; [done|]. done.
  - pose proof Ht as (Ht0&Htb&_). simpl length in *.
    destruct (cstr_cons _ _ _ _ Ht) as (->&Hc&Hlt&Hr). rewrite (proj2 (Z.eqb_neq _ _) Hc).
    rewrite !(u32_small (_ + 1)) by (unfold is_u32; lia).
    apply IH; [|lia..]. destruct Hr as (?&?&?&Hm). split_and!; [done|done|done|]. intros j Hj. rewrite store8_ne by lia. by apply Hm.
Qed.

(** [strcmp] compares the strings with their NULs. *)
Lemma strcmp_compares l : forall m p q l2 fuel, cstr_at m p l -> cstr_at m q l2 -> (length l < fuel)%nat ->
  strcmp p q fuel m = Some (bytes_cmp (l ++ [0]) (l2 ++ [0])).
Proof.
  induction l as [|c l IH]; intros m p q l2 [|fuel] Hp Hq Hf; simpl in Hf; try lia; simpl strcmp.
  - apply cstr_nil in Hp as [_ ->]. simpl. destruct l2 as [|d l2]; simpl.
    + apply cstr_nil in Hq as [_ ->]. done.
    + apply cstr_cons in Hq as (->&Hd&_). zcases; [congruence|]. done.
  - apply cstr_cons in Hp as (->&Hc&Hlt&Hr). rewrite (proj2 (Z.eqb_neq _ _) Hc). simpl. destruct l2 as [|d l2]; simpl.
    + apply cstr_nil in Hq as [_ ->]. zcases; [done|]. done.
    + apply cstr_cons in Hq as (->&Hd&Hlt2&Hr2). zcases; [|done]. rewrite !(u32_small (_ + 1)) by (unfold is_u32; apply cstr_in in Hr, Hr2; lia).
      apply IH; [done|done|lia].
Qed.

(** [user_strchr] finds the first place of a character. *)
Lemma strchr_finds l c : is_u8 c -> forall m s fuel, 0 < s -> cstr_at m s l -> (length l < fuel)%nat ->
  user_strchr s c fuel m = Some (match list_find (eq c) l with Some (i, _) => s + Z.of_nat i | None => 0 end).
Proof.
  intros Hc. induction l as [|d l IH]; intros m s [|fuel] Hs Hm Hf; simpl in Hf; try lia; simpl user_strchr.
  - by apply cstr_nil in Hm as [_ ->].
  - apply cstr_cons in Hm as (->&Hd&Hlt&Hr). rewrite (proj2 (Z.eqb_neq _ _) Hd), u8_small by done. simpl.
    destruct (Z.eqb_spec d c) as [->|Hne]; [rewrite decide_True by done; by rewrite Z.add_0_r|]. rewrite decide_False by congruence.
    rewrite u32_small by (unfold is_u32; lia). rewrite IH by (done || lia). simpl. destruct (list_find _ l) as [[i x]|]; simpl; f_equal; lia.
Qed.

(** [strlen] counts. *)
Lemma user_strlen_counts m s l fuel : cstr_at m s l -> (length l < fuel)%nat -> user_strlen s fuel m = Some (Z.of_nat (length l)).
Proof.
  intros (H0&Hb&Hl&Hm) Hf. apply (strlen_spec s (length l)); [done|done|done| |].
  - rewrite Hm, nthZ_nonneg, Nat2Z.id by lia. by apply nth_overflow.
  - intros j Hj. rewrite Hm by lia. rewrite Forall_forall in Hl. apply (Hl (nthZ 0 l j)). rewrite nthZ_nonneg by lia. apply list_elem_of_In, nth_In. lia.
Qed.

(** [gets] writes the line and a NUL into the buffer. *)
Lemma gets_loop_line reads : forall buf i max m, 0 <= buf -> 0 <= i < max -> buf + max <= 4294967296 ->
  let '(l, r) := read_line (Z.to_nat (max - 1 - i)) reads in
  gets_loop buf i max reads m = (i + Z.of_nat (length l), r, store_bytes m (buf + i) l) /\ i + Z.of_nat (length l) < max.
Proof.
  induction reads as [|c reads IH]; intros buf i max m Hb Hi Hm; simpl gets_loop.
  - destruct (Z.ltb_spec (i + 1) max).
    + replace (Z.to_nat (max - 1 - i)) with (S (Z.to_nat (max - 1 - (i + 1)))) by lia. simpl. rewrite Z.add_0_r. split; [done|lia].
    + replace (Z.to_nat (max - 1 - i)) with O by lia. simpl. rewrite Z.add_0_r. split; [done|lia].
  - destruct (Z.ltb_spec (i + 1) max).
    + replace (Z.to_nat (max - 1 - i)) with (S (Z.to_nat (max - 1 - (i + 1)))) by lia. simpl read_line. destruct c as [c|].
      * rewrite (u32_small (buf + i)) by (unfold is_u32; lia). destruct ((c =? 10) || (c =? 13)); [simpl; split; [done|lia]|].
        specialize (IH buf (i + 1) max (store8 m (buf + i) c) Hb ltac:(lia) Hm).
        destruct (read_line _ reads) as [l r]. destruct IH as [-> IH]. simpl length. simpl store_bytes. rewrite Z.add_assoc.
        replace (i + 1 + Z.of_nat (length l)) with (i + Z.of_nat (S (length l))) in * by lia. done.
      * simpl. rewrite Z.add_0_r. split; [done|lia].
    + replace (Z.to_nat (max - 1 - i)) with O by lia. simpl. rewrite Z.add_0_r. split; [done|lia].
Qed.
Lemma store_bytes_snoc l : forall m a c, store_bytes m a (l ++ [c]) = store8 (store_bytes m a l) (a + Z.of_nat (length l)) c.
Proof.
  induction l as [|b l IH]; intros m a c; simpl; [by rewrite Z.add_0_r|]. rewrite IH. f_equal. lia.
Qed.
Lemma user_gets_line buf max reads m : 0 <= buf -> 0 < max -> buf + max <= 4294967296 ->
  let '(l, r) := read_line (Z.to_nat (max - 1)) reads in
  user_gets buf max reads m = (r, store_bytes m buf (l ++ [0])) /\ Z.of_nat (length l) < max.
Proof.
  intros Hb Hx Hm. pose proof (gets_loop_line reads buf 0 max m Hb ltac:(lia) Hm) as H. rewrite Z.sub_0_r in H.
  destruct (read_line _ reads) as [l r]. destruct H as [E H]. unfold user_gets. rewrite E, Z.add_0_r, Z.add_0_l in *. split; [|lia].
  rewrite u32_small by (unfold is_u32; lia). by rewrite store_bytes_snoc.
Qed.

(** [memmove] copies when the ranges do not overlap or it moves downwards. *)
Lemma user_memmove_copies dst src n m : mem_wf m -> 0 <= dst -> 0 <= src -> 0 <= n ->
  dst + n <= 4294967296 -> src + n <= 4294967296 -> dst <= src \/ src + n <= dst ->
  user_memmove dst src n m ≡ copied m dst src n.
Proof.
  intros Hm Hd Hs Hn Hdn Hsn Hov. unfold user_memmove. rewrite <- (Z2Nat.id n Hn) at 2. apply copy_up_copied; [done|lia..].
Qed.

(** Moved upwards into itself, a range is overwritten before it is read: the
    first byte is repeated. *)
Lemma user_memmove_smears : exists m, mem_wf m /\ load_bytes m 100 4 = [1; 2; 3; 4] /\
  load_bytes (user_memmove 101 100 3 m) 100 4 = [1; 1; 1; 1] /\ load_bytes (memmove 101 100 3 m) 100 4 = [1; 1; 2; 3].
Proof.
  exists (store_bytes (fun _ => 0) 100 [1; 2; 3; 4]). split; [apply store_bytes_wf, zero_mem_wf|]. vm_compute. done.
Qed.

(** ** Numbers *)

Definition dec_val (n : Z) (ds : list Z) : Z := fold_left (fun a d => a * 10 + (d - 48)) ds n.
Definition is_dec (d : Z) : Prop := 48 <= d <= 57.

Lemma dec_digit d : 0 <= d < 10 -> upper_digit d = 48 + d /\ digit d = 48 + d.
Proof.
  intros Hd. assert (H : forallb (fun d => (upper_digit d =? 48 + d) && (digit d =? 48 + d)) (seqZ 0 10) = true) by (vm_compute; reflexivity).
  rewrite forallb_forall in H. specialize (H d). rewrite <- list_elem_of_In, elem_of_seqZ in H. specialize (H ltac:(lia)). lia.
Qed.
Lemma upper_loop_dec fuel : forall x, upper_loop fuel x 10 = digits_loop fuel x 10 /\ Forall is_dec (digits_loop fuel x 10).
Proof.
  induction fuel as [|fuel IH]; intros x; simpl; [done|]. destruct (dec_digit (x mod 10)) as [-> ->]; [apply Z.mod_pos_bound; lia|].
  destruct (IH (x / 10)) as [E Hd]. rewrite E. split; [done|]. constructor; [unfold is_dec; pose proof (Z.mod_pos_bound x 10); lia|]. by destruct (_ =? 0).
Qed.
Lemma read_digits_dec ds : Forall is_dec ds -> forall n, fold_left (fun a d => a * 10 + digit_val d) ds n = dec_val n ds.
Proof.
  induction 1 as [|d ds Hd Hds IH]; intros n; [done|]. simpl. rewrite IH. unfold dec_val. simpl. f_equal. unfold digit_val, is_dec in *. zcases; lia.
Qed.

Lemma i32_mod n : exists k, i32 n = n + k * 4294967296.
Proof. unfold i32. exists (- ((n + 2147483648) / 4294967296)). Z.div_mod_to_equations. lia. Qed.
Lemma i32_congr a b k : a = b + k * 4294967296 -> i32 a = i32 b.
Proof. intros ->. unfold i32. replace (b + k * 4294967296 + 2147483648) with (b + 2147483648 + k * 4294967296) by lia. by rewrite Z.mod_add by lia. Qed.
Lemma dec_val_wrap ds : forall n, i32 (dec_val (i32 n) ds) = i32 (dec_val n ds).
Proof.
  induction ds as [|d ds IH]; intros n; simpl.
  - destruct (i32_mod n) as [k E]. by apply (i32_congr _ _ k).
  - rewrite <- IH, <- (IH (n * 10 + (d - 48))). do 2 f_equal. destruct (i32_mod n) as [k E]. apply (i32_congr _ _ (k * 10)). lia.
Qed.

(** [atoi] is the value of the digits before the first other character, at
    the width of int. *)
Lemma atoi_value ds : Forall is_dec ds -> forall rest, match rest with c :: _ => ~ is_dec c | [] => True end ->
  forall m s fuel, cstr_at m s (ds ++ rest) -> (length ds < fuel)%nat -> atoi s fuel m = Some (i32 (dec_val 0 ds)).
Proof.
  intros Hds rest Hr m s fuel Hm Hf. unfold atoi.
  assert (H : forall n, atoi_loop s (i32 n) fuel m = Some (i32 (dec_val n ds))); [|exact (H 0)].
  revert s fuel Hm Hf. induction Hds as [|d ds Hd Hds IH]; intros s [|fuel] Hm Hf n; simpl in Hf; try lia; simpl atoi_loop; rewrite ?app_nil_l in Hm.
  - destruct rest as [|c rest]; [apply cstr_nil in Hm as [_ ->]; done|]. apply cstr_cons in Hm as (->&_). unfold is_dec in *. zcases; try lia; done.
  - apply cstr_cons in Hm as (->&_&Hlt&Hm). unfold is_dec in Hd. zcases; try lia. simpl.
    rewrite u32_small by (unfold is_u32; apply cstr_in in Hm; lia).
    rewrite (IH (s + 1) fuel Hm) by lia. f_equal. rewrite <- dec_val_wrap. simpl. rewrite <- (dec_val_wrap ds (n * 10 + (d - 48))). do 2 f_equal.
    destruct (i32_mod n) as [k E]. apply (i32_congr _ _ (k * 10)). lia.
Qed.

(** Text of the format is printed as it is. *)
Lemma printf_text pre : Forall (fun c => c <> 37) pre -> forall f args, printf_loop (pre ++ f) 0 args = (o ← printf_loop f 0 args; Some (pre ++ o)).
Proof.
  induction 1 as [|c pre Hc Hp IH]; intros f args; simpl; [by destruct (printf_loop f 0 args)|].
  rewrite (proj2 (Z.eqb_neq _ _) Hc). rewrite IH. by destruct (printf_loop f 0 args).
Qed.

Lemma digits_nonempty fuel x base : (1 <= length (digits_loop (S fuel) x base))%nat.
Proof. simpl. lia. Qed.

(** The characters of a decimal number: a sign, and digits that have its
    value. *)
Lemma user_decimal x : is_i32 x -> exists ds, user_printint x 10 true = (if x <? 0 then [45] else []) ++ ds /\
  Forall is_dec ds /\ (1 <= length ds <= 10)%nat /\ dec_val 0 ds = Z.abs x.
Proof.
  intros Hx. exists (rev (digits_loop 32 (Z.abs x) 10)). unfold user_printint, user_buf. cbn [andb].
  assert (E : (if x <? 0 then u32 (- x) else u32 x) = Z.abs x) by (unfold is_i32 in Hx; destruct (Z.ltb_spec x 0); rewrite u32_small by (unfold is_u32; lia); lia).
  rewrite E. destruct (upper_loop_dec 32 (Z.abs x)) as [-> Hd].
  assert (Hb : 0 <= Z.abs x < 10 ^ Z.of_nat 10) by (unfold is_i32 in Hx; change (10 ^ Z.of_nat 10) with 10000000000; lia).
  pose proof (digits_loop_length 10 ltac:(lia) 32 10 (Z.abs x) Hb ltac:(lia)) as Hl.
  pose proof (digits_loop_val 10 ltac:(lia) 32 (Z.abs x)) as Hv.
  assert (H32 : 0 <= Z.abs x < 10 ^ Z.of_nat 32) by (split; [lia|]; eapply Z.lt_le_trans; [apply Hb|]; apply Z.pow_le_mono_r; lia).
  specialize (Hv H32). pose proof (digits_nonempty 31 (Z.abs x) 10) as H1.
  set (ds := digits_loop 32 (Z.abs x) 10) in *. clearbody ds. rewrite rev_app_distr, length_rev. split_and!; [by destruct (x <? 0)|by apply Forall_rev|lia|lia|].
  rewrite <- (rev_involutive ds), fold_left_rev_right in Hv. rewrite <- Hv. symmetry. apply read_digits_dec. by apply Forall_rev.
Qed.

(** A number that printf prints with %d, in a text without digits behind
    it, is read back by atoi when it is not negative; the characters fit the
    16-byte buffer of printint also for the least integer, and atoi reads a
    negative number, whose sign it does not know, as 0. *)
Theorem printf_atoi_roundtrip x post m s fuel : is_i32 x -> Forall (fun c => is_u8 c /\ c <> 0 /\ c <> 37 /\ ~ is_dec c) post ->
  exists l, printf ([37; 100] ++ post) [IntArg x] = Some l /\ (length (user_buf x 10 true) <= 11)%nat /\
    (cstr_at m s l -> (length l < fuel)%nat -> atoi s fuel m = Some (Z.max 0 x)).
Proof.
  intros Hx Hp. destruct (user_decimal x Hx) as (ds&E&Hds&Hl&Hv).
  assert (Hf : printf_loop post 0 [] = Some post).
  { rewrite <- (app_nil_r post) at 1. rewrite printf_text; [simpl; by rewrite app_nil_r|]. eapply Forall_impl; [exact Hp|]. naive_solver. }
  assert (Hpost : match post with c :: _ => ~ is_dec c | [] => True end) by (destruct post as [|c post]; [done|]; apply Forall_cons in Hp as [(_&_&_&Hc) _]; exact Hc).
  assert (Hi : i32 x = x) by (unfold is_i32, i32 in *; rewrite Z.mod_small; lia).
  exists (user_printint x 10 true ++ post). split_and!.
  - unfold printf. simpl. by rewrite Hf, Hi.
  - assert (Hb : length (user_buf x 10 true) = length (user_printint x 10 true)) by (unfold user_printint; symmetry; apply length_rev).
    rewrite Hb, E, length_app. destruct (x <? 0); simpl; lia.
  - intros Hm Hfu. rewrite E in Hm, Hfu. rewrite !length_app in Hfu. destruct (Z.ltb_spec x 0).
    + rewrite <- app_assoc in Hm. rewrite Z.max_l by lia. apply (atoi_value [] (Forall_nil_2 _) ([45] ++ ds ++ post)); [simpl; unfold is_dec; lia|exact Hm|simpl; lia].
    + simpl in Hm. rewrite (atoi_value ds Hds post Hpost m s fuel Hm) by (simpl in Hfu; lia). rewrite Hv. f_equal.
      unfold is_i32, i32 in *. rewrite Z.mod_small; lia.
Qed.
Lemma printf_atoi_roundtrip_witness : exists l, printf ([37; 100] ++ [10]) [IntArg 2147483647] = Some l /\
  (length (user_buf 2147483647 10 true) <= 11)%nat /\ atoi 100 20 (store_bytes (fun _ => 0) 100 (l ++ [0])) = Some 2147483647.
Proof.
  set (txt := [50; 49; 52; 55; 52; 56; 51; 54; 52; 55; 10]).
  assert (Hx : is_i32 2147483647) by (unfold is_i32; lia).
  assert (Hp : Forall (fun c => is_u8 c /\ c <> 0 /\ c <> 37 /\ ~ is_dec c) [10]) by (repeat constructor; unfold is_dec; lia).
  destruct (printf_atoi_roundtrip 2147483647 [10] (store_bytes (fun _ => 0) 100 (txt ++ [0])) 100 20 Hx Hp) as (l&E&Hl&Ha).
  assert (l = txt) as -> by (vm_compute in E; injection E as <-; reflexivity).
  exists txt. split; [exact E|]. split; [exact Hl|]. apply Ha; [|simpl; lia].
  apply cstr_stored; [lia|simpl; lia|]. repeat constructor; unfold is_u8; lia.
Defined.
