(* ===== verification/ShRun.v ===== *)
(** * sh.c: running commands

    A process of the shell is its descriptor table, the memory of [main], the
    results its calls of read still give, and the log of what it did.  A call
    the kernel may refuse is numbered within its process, and [refused] says
    whether it was; a process is named by the numbers of the forks that lead
    to it, a pipe by the process and number of its call.  Descriptors are
    allotted as fdalloc of sysfile.c does: the lowest free one of sixteen.
    [exit], a successful [exec] and [panic] end a process, so [runcmd] has no
    result; a fork puts the whole run of the child into the parent's log. *)
From stdpp Require Import base numbers list strings.
From S2P Require Import Prelude Memory StringC Console Ulib Sh ShProps.
Open Scope Z_scope.

Definition bytes_of (s : string) : list Z := map (fun a => Z.of_N (Ascii.N_of_ascii a)) (String.list_ascii_of_string s).
Definition newline : list Z := [10].
#[global] Arguments bytes_of : simpl never.

(** What a descriptor refers to *)
Inductive obj :=
| Inherited (n : Z)
| Opened (path : list Z) (mode : Z)
| ReadEnd (pipe : list nat)
| WriteEnd (pipe : list nat).
Abbreviation table := (list (option obj)).

(** How a process leaves the code of sh.c *)
Inductive ending :=
| Exits
| Execs (argv : list (list Z)) (t : table)
| Faults
| OutOfFuel.

Inductive event :=
| Opens (path : list Z) (mode fd : Z)
| Pipes (r w : Z)
| Forks (child : list event * ending)
| Waits (t : table)
| Says (to : option obj) (text : list Z)
| Chdirs (path : list Z).

Record uproc := Uproc { me : list nat; calls : nat; tab : table; log : list event; reads : list (option Z); umem : mem }.
Definition set_calls (x : nat) (s : uproc) : uproc := Uproc (me s) x (tab s) (log s) (reads s) (umem s).
Definition set_tab (x : table) (s : uproc) : uproc := Uproc (me s) (calls s) x (log s) (reads s) (umem s).
Definition add_log (x : event) (s : uproc) : uproc := Uproc (me s) (calls s) (tab s) (log s ++ [x]) (reads s) (umem s).
Definition set_input (r : list (option Z)) (m : mem) (s : uproc) : uproc := Uproc (me s) (calls s) (tab s) (log s) r m.

(** Code of a process: it goes on with a value or the process has ended. *)
Definition U (A : Type) : Type := uproc -> (A + ending) * uproc.
#[global] Instance u_ret : MRet U := fun A a s => (inl a, s).
#[global] Instance u_bind : MBind U := fun A B k m s =>
  match m s with
  | (inl a, s') => k a s'
  | (inr e, s') => (inr e, s')
  end.
Definition ends {A} (e : ending) : U A := fun s => (inr e, s).
Definition reads_of {A} (f : uproc -> A) : U A := fun s => (inl (f s), s).
Definition updates (f : uproc -> uproc) : U unit := fun s => (inl tt, f s).

Section shell_run.
Context (refused : list nat -> nat -> bool).

(** ** System calls *)

(** Number the call, and ask *)
Definition ask : U (nat * bool) := fun s => (inl (calls s, refused (me s) (calls s)), set_calls (S (calls s)) s).

Definition table_size : nat := 16.
Definition free_fd (t : table) : option nat := fst <$> list_find (eq None) t.
Definition slot (fd : Z) (t : table) : option obj := if fd <? 0 then None else mjoin (t !! Z.to_nat fd).

Definition u_open (path : list Z) (mode : Z) : U Z :=
  '(_, no) ← ask; t ← reads_of tab;
  match free_fd t with
  | Some fd =>
      if (no : bool) then mret (-1)
      else
        _ ← updates (set_tab (<[fd := Some (Opened path mode)]> t));
        _ ← updates (add_log (Opens path mode (Z.of_nat fd)));
        mret (Z.of_nat fd)
  | None => mret (-1)
  end.
Definition u_close (fd : Z) : U unit :=
  t ← reads_of tab;
  if fd <? 0 then mret tt else updates (set_tab (<[Z.to_nat fd := None]> t)).
Definition u_dup (fd : Z) : U Z :=
  t ← reads_of tab;
  match slot fd t, free_fd t with
  | Some o, Some n => _ ← updates (set_tab (<[n := Some o]> t)); mret (Z.of_nat n)
  | _, _ => mret (-1)
  end.
(** [pipe(p)]: [p[0]] and [p[1]], or [None] for a negative result *)
Definition u_pipe : U (option (Z * Z)) :=
  '(k, no) ← ask; t ← reads_of tab; who ← reads_of me;
  match free_fd t with
  | Some r =>
      let t := <[r := Some (ReadEnd (k :: who))]> t in
      match free_fd t with
      | Some w =>
          if (no : bool) then mret None
          else
            _ ← updates (set_tab (<[w := Some (WriteEnd (k :: who))]> t));
            _ ← updates (add_log (Pipes (Z.of_nat r) (Z.of_nat w)));
            mret (Some (Z.of_nat r, Z.of_nat w))
      | None => mret None
      end
  | None => mret None
  end.
(** [exec(path, argv)] returns only when it is refused *)
Definition u_exec (argv : list (list Z)) : U unit :=
  '(_, no) ← ask; t ← reads_of tab;
  if (no : bool) then mret tt else ends (Execs argv t).
Definition u_wait : U unit := t ← reads_of tab; updates (add_log (Waits t)).
Definition u_exit {A} : U A := ends Exits.
Definition say (fmt : list Z) (args : list fmt_arg) : U unit :=
  t ← reads_of tab; updates (add_log (Says (slot 2 t) (default [] (printf fmt args)))).

(** ** runcmd *)

(** [panic] of sh.c *)
Definition sh_panic {A} (s : list Z) : U A :=
  _ ← say (bytes_of "%s" ++ newline) [StrArg (Some s)]; u_exit.

(** The child of a fork: its own name, log and call numbers *)
Definition born (k : nat) (s : uproc) : uproc := Uproc (k :: me s) 0 (tab s) [] (reads s) (umem s).
Definition run_of (r : (Empty_set + ending) * uproc) : list event * ending :=
  (log r.2, match r.1 with inl x => match x with end | inr e => e end).
(** [if(fork1() == 0) child] *)
Definition fork1 (child : U Empty_set) : U unit :=
  '(k, no) ← ask;
  if (no : bool) then sh_panic (bytes_of "fork")
  else s ← reads_of id; updates (add_log (Forks (run_of (child (born k s))))).

(** [runcmd(cmd)] on the nodes [N] of the parser, the words in [b] *)
Fixpoint runcmd (N : list node) (b : list Z) (fuel : nat) (cmd : nat) : U Empty_set :=
  match fuel with
  | O => ends OutOfFuel
  | S fuel' =>
      match N !! cmd with
      | None => ends Faults
      | Some (NExec []) => u_exit
      | Some (NExec (((q, _) :: _) as argv)) =>
          _ ← u_exec (map (fun a => cstring b a.1) argv);
          _ ← say (bytes_of "exec %s failed" ++ newline) [StrArg (Some (cstring b q))];
          u_exit
      | Some (NRedir c file _ mode fd) =>
          _ ← u_close fd;
          r ← u_open (cstring b file) mode;
          if r <? 0 then _ ← say (bytes_of "open %s failed" ++ newline) [StrArg (Some (cstring b file))]; u_exit
          else runcmd N b fuel' c
      | Some (NList l1 l2) =>
          _ ← fork1 (runcmd N b fuel' l1);
          _ ← u_wait;
          runcmd N b fuel' l2
      | Some (NPipe l1 l2) =>
          p ← u_pipe;
          match p with
          | None => sh_panic (bytes_of "pipe")
          | Some (p0, p1) =>
              _ ← fork1 (_ ← u_close 1; _ ← u_dup p1; _ ← u_close p0; _ ← u_close p1; runcmd N b fuel' l1);
              _ ← fork1 (_ ← u_close 0; _ ← u_dup p0; _ ← u_close p0; _ ← u_close p1; runcmd N b fuel' l2);
              _ ← u_close p0; _ ← u_close p1;
              _ ← u_wait; _ ← u_wait;
              u_exit
          end
      | Some (NBack c) => _ ← fork1 (runcmd N b fuel' c); u_exit
      end
  end.

(** ** main *)

(** The address of [buf], a static array of [main] *)
Context (buf : Z).
Definition BUFSIZE : Z := 100.
Definition O_RDWR : Z := 2.

(** The first loop of [main]; a fourth descriptor ends it *)
Fixpoint open_console (fuel : nat) : U unit :=
  match fuel with
  | O => ends OutOfFuel
  | S fuel' =>
      fd ← u_open (bytes_of "console") O_RDWR;
      if fd <? 0 then mret tt
      else if 3 <=? fd then u_close fd
      else open_console fuel'
  end.

(** [getcmd(buf, nbuf)] *)
Definition getcmd (nbuf : Z) : U Z :=
  _ ← say (bytes_of "$ ") [];
  s ← reads_of id;
  let '(r, m) := user_gets buf nbuf (reads s) (user_memset buf 0 nbuf (umem s)) in
  _ ← updates (set_input r m);
  if m buf =? 0 then mret (-1) else mret 0.

(** The C string at an address of the buffer *)
Definition buf_string (m : mem) (a : Z) : list Z := cstring (load_bytes m a (Z.to_nat (buf + BUFSIZE - a))) 0.

(** [runcmd(parsecmd(buf))] *)
Definition run_line (m : mem) : U Empty_set :=
  let txt := buf_string m buf in
  match parsecmd txt (sh_start txt) with
  | Ret p s => runcmd (nodes s) (line s) (S p) p
  | Stop (Panicked msg) _ => sh_panic (bytes_of msg)
  | Stop _ _ => ends Faults
  end.

(** [chdir(path)] *)
Definition u_chdir (path : list Z) : U Z :=
  '(_, no) ← ask; if (no : bool) then mret (-1) else _ ← updates (add_log (Chdirs path)); mret 0.

(** The loop of [main] *)
Fixpoint main_loop (fuel : nat) : U Empty_set :=
  match fuel with
  | O => ends OutOfFuel
  | S fuel' =>
      r ← getcmd BUFSIZE;
      if r <? 0 then u_exit
      else
        m ← reads_of umem;
        if (m buf =? 99) && (m (buf +u 1) =? 100) && (m (buf +u 2) =? 32) then
          match user_strlen buf (Z.to_nat BUFSIZE) m with
          | None => ends Faults
          | Some n =>
              let m := store8 m (buf +u n -u 1) 0 in
              _ ← updates (fun s => set_input (reads s) m s);
              c ← u_chdir (buf_string m (buf +u 3));
              _ ← (if c <? 0 then say (bytes_of "cannot cd %s" ++ newline) [StrArg (Some (buf_string m (buf +u 3)))] else mret tt);
              main_loop fuel'
          end
        else
          _ ← fork1 (run_line m);
          _ ← u_wait;
          main_loop fuel'
  end.
(** [main()]; every line takes one of the calls of read *)
Definition sh_main : U Empty_set :=
  _ ← open_console (S table_size);
  r ← reads_of reads;
  main_loop (S (length r)).
End shell_run.
