(* ===== verification/ShRunProps.v ===== *)
(** * What the shell runs

    The meaning of a command says which programs are started, with which
    descriptors, and in which order the shell waits for them; it knows three
    standard descriptors and no table.  [runcmd] has this meaning whatever
    calls the kernel refuses, and [main] reads lines and runs their meaning. *)
From stdpp Require Import base numbers list strings.
From S2P Require Import Prelude Memory StringC Console Sysfile Ulib Sh ShProps ShRun.
Open Scope Z_scope.

(** The descriptor a process gets is the one fdalloc of the kernel finds in a
    table of the same shape. *)
Lemma free_fd_fdalloc (t : table) ofile : length t = table_size ->
  (forall k : nat, (k < table_size)%nat -> t !! k = Some None <-> nthZ Fs.NULL ofile (Z.of_nat k) = Fs.NULL) ->
  free_fd t = Z.to_nat <$> find_fd (seqZ 0 (Z.of_nat table_size)) ofile.
Proof.
  intros Hl H. rewrite <- Hl in *. clear Hl. unfold free_fd.
  assert (G : forall (u : table) b, (forall k : nat, (k < length u)%nat -> u !! k = Some None <-> nthZ Fs.NULL ofile (Z.of_nat (b + k)) = Fs.NULL) ->
    (fun x => (b + x)%nat) <$> (fst <$> list_find (eq None) u) = Z.to_nat <$> find_fd (seqZ (Z.of_nat b) (Z.of_nat (length u))) ofile).
  { induction u as [|x u IH]; intros b Hu; [done|]. simpl length. rewrite Nat2Z.inj_succ, seqZ_cons by lia. simpl find_fd.
    pose proof (Hu 0%nat ltac:(simpl; lia)) as H0. rewrite Nat.add_0_r in H0. simpl in H0. simpl list_find.
    destruct (Z.eqb_spec (nthZ Fs.NULL ofile (Z.of_nat b)) Fs.NULL) as [E|E].
    - apply H0 in E as [= ->]. rewrite decide_True by done. simpl. f_equal. lia.
    - rewrite decide_False by (intros <-; tauto). replace (Z.succ (Z.of_nat b)) with (Z.of_nat (S b)) by lia.
      replace (Z.pred (Z.succ (Z.of_nat (length u)))) with (Z.of_nat (length u)) by lia. rewrite <- (IH (S b)).
      + destruct (list_find (eq None) u) as [[k y]|]; simpl; [|done]. f_equal. lia.
      + intros k Hk. specialize (Hu (S k) ltac:(simpl; lia)). simpl in Hu. by replace (S b + k)%nat with (b + S k)%nat by lia. }
  etransitivity; [|exact (G t 0%nat H)]. by destruct (list_find (eq None) t) as [[k y]|].
Qed.

Section meaning.
Context (refused : list nat -> nat -> bool).

(** Descriptors 0, 1 and 2 and no other *)
Definition std (i o e : obj) : table := [Some i; Some o; Some e] ++ replicate 13 None.
Definition after (l : list event) (r : list event * ending) : list event * ending := (l ++ r.1, r.2).
Definition complain (e : obj) (text : list Z) : list event * ending := ([Says (Some e) text], Exits).

(** The run of process [who], from its call number [k] on, for a command with
    standard input [i], output [o] and error output [e] *)
Fixpoint meaning (c : cmd) (who : list nat) (k : nat) (i o e : obj) : list event * ending :=
  match c with
  | Exec [] => ([], Exits)
  | Exec ((w :: _) as ws) =>
      if refused who k then complain e (bytes_of "exec " ++ w ++ bytes_of " failed" ++ newline) else ([], Execs ws (std i o e))
  | Redir c r f =>
      if refused who k then complain e (bytes_of "open " ++ f ++ bytes_of " failed" ++ newline)
      else after [Opens f (rmode r) (rfd r)]
        (match r with
         | RIn => meaning c who (S k) (Opened f (rmode r)) o e
         | _ => meaning c who (S k) i (Opened f (rmode r)) e
         end)
  | Pipe l r =>
      if refused who k then complain e (bytes_of "pipe" ++ newline)
      else after [Pipes 3 4]
        (if refused who (S k) then complain e (bytes_of "fork" ++ newline)
         else after [Forks (meaning l (S k :: who) 0 i (WriteEnd (k :: who)) e)]
           (if refused who (S (S k)) then complain e (bytes_of "fork" ++ newline)
            else ([Forks (meaning r (S (S k) :: who) 0 (ReadEnd (k :: who)) o e); Waits (std i o e); Waits (std i o e)], Exits)))
  | Seq l r =>
      if refused who k then complain e (bytes_of "fork" ++ newline)
      else after [Forks (meaning l (k :: who) 0 i o e); Waits (std i o e)] (meaning r who (S k) i o e)
  | Back c =>
      if refused who k then complain e (bytes_of "fork" ++ newline)
      else ([Forks (meaning c (k :: who) 0 i o e)], Exits)
  end.

(** ** Steps *)

Lemma run_bind {A} (m : U A) (k : A -> U Empty_set) s a s' : m s = (inl a, s') -> run_of ((m ≫= k) s) = run_of (k a s').
Proof. unfold mbind, u_bind. by intros ->. Qed.
Lemma run_end {A} (m : U A) (k : A -> U Empty_set) s e s' : m s = (inr e, s') -> run_of ((m ≫= k) s) = (log s', e).
Proof. unfold mbind, u_bind. by intros ->. Qed.

Lemma panic_run {A} (msg : list Z) w k t e lg rd m : slot 2 t = Some e ->
  sh_panic (A := A) msg (Uproc w k t lg rd m) = (inr Exits, Uproc w k t (lg ++ [Says (Some e) (msg ++ newline)]) rd m).
Proof. intros E. unfold sh_panic, say, mbind, u_bind, reads_of, updates, add_log. cbn. by rewrite E. Qed.

(** A fork and what follows it *)
Lemma run_fork child k' w k t e lg rd m : slot 2 t = Some e ->
  run_of ((_ ← fork1 refused child; k') (Uproc w k t lg rd m)) =
  if refused w k then after lg (complain e (bytes_of "fork" ++ newline))
  else run_of (k' (Uproc w (S k) t (lg ++ [Forks (run_of (child (Uproc (k :: w) 0 t [] rd m)))]) rd m)).
Proof.
  intros E. unfold fork1, mbind, u_bind, ask, set_calls. cbn [calls me tab log reads umem]. destruct (refused w k); [|done].
  by rewrite (panic_run _ _ _ _ e _ _ _ E).
Qed.
Lemma open_run f mode w k t lg rd m fd : free_fd t = Some fd ->
  u_open refused f mode (Uproc w k t lg rd m) =
  if refused w k then (inl (-1), Uproc w (S k) t lg rd m)
  else (inl (Z.of_nat fd), Uproc w (S k) (<[fd := Some (Opened f mode)]> t) (lg ++ [Opens f mode (Z.of_nat fd)]) rd m).
Proof. intros E. unfold u_open, mbind, u_bind, ask, reads_of. cbn [me calls tab set_calls]. rewrite E. by destruct (refused w k). Qed.

(** A redirection of descriptor 0 or 1 *)
Lemma run_redir r f k' w k i o e lg rd m :
  run_of ((_ ← u_close (rfd r); n ← u_open refused f (rmode r); k' n) (Uproc w k (std i o e) lg rd m)) =
  if refused w k then run_of (k' (-1) (Uproc w (S k) (<[Z.to_nat (rfd r) := None]> (std i o e)) lg rd m))
  else run_of (k' (rfd r) (Uproc w (S k) (match r with RIn => std (Opened f (rmode r)) o e | _ => std i (Opened f (rmode r)) e end)
     (lg ++ [Opens f (rmode r) (rfd r)]) rd m)).
Proof.
  assert (Ef : free_fd (<[Z.to_nat (rfd r) := None]> (std i o e)) = Some (Z.to_nat (rfd r))) by (by destruct r).
  pose proof (open_run f (rmode r) w k _ lg rd m _ Ef) as E.
  assert (Ec : u_close (rfd r) (Uproc w k (std i o e) lg rd m) = (inl tt, Uproc w k (<[Z.to_nat (rfd r) := None]> (std i o e)) lg rd m)) by (by destruct r).
  rewrite (run_bind _ _ _ _ _ Ec). destruct (refused w k); rewrite (run_bind _ _ _ _ _ E); by destruct r.
Qed.

(** The table between pipe and the closing of its ends *)
Definition with_pipe (i o e : obj) (id : list nat) : table :=
  [Some i; Some o; Some e; Some (ReadEnd id); Some (WriteEnd id)] ++ replicate 11 None.
Lemma pipe_run w k i o e lg rd m : u_pipe refused (Uproc w k (std i o e) lg rd m) =
  if refused w k then (inl None, Uproc w (S k) (std i o e) lg rd m)
  else (inl (Some (3, 4)), Uproc w (S k) (with_pipe i o e (k :: w)) (lg ++ [Pipes 3 4]) rd m).
Proof. unfold u_pipe, mbind, u_bind, ask. cbn [me calls]. by destruct (refused w k). Qed.
Lemma run_left (k' : U Empty_set) id w k i o e lg rd m :
  run_of ((_ ← u_close 1; _ ← u_dup 4; _ ← u_close 3; _ ← u_close 4; k') (Uproc w k (with_pipe i o e id) lg rd m)) =
  run_of (k' (Uproc w k (std i (WriteEnd id) e) lg rd m)).
Proof. reflexivity. Qed.
Lemma run_right (k' : U Empty_set) id w k i o e lg rd m :
  run_of ((_ ← u_close 0; _ ← u_dup 3; _ ← u_close 3; _ ← u_close 4; k') (Uproc w k (with_pipe i o e id) lg rd m)) =
  run_of (k' (Uproc w k (std (ReadEnd id) o e) lg rd m)).
Proof. reflexivity. Qed.
Lemma run_ends id w k i o e lg rd m :
  run_of ((_ ← u_close 3; _ ← u_close 4; _ ← u_wait; _ ← u_wait; u_exit) (Uproc w k (with_pipe i o e id) lg rd m)) =
  after lg ([Waits (std i o e); Waits (std i o e)], Exits).
Proof. unfold after. cbn [fst snd]. change ([Waits (std i o e); Waits (std i o e)]) with ([Waits (std i o e)] ++ [Waits (std i o e)]). rewrite app_assoc. reflexivity. Qed.
Lemma args_strings b a ws : args_at (fun q _ w => cstring b q = w) a ws -> map (fun x => cstring b x.1) a = ws.
Proof. induction 1 as [|[q x] w a ws Hw Ha IH]; simpl in *; congruence. Qed.

Context (N : list node) (b : list Z).
Definition means (c : cmd) : Prop := forall fuel p w k i o e lg rd m, tree (fun q _ w => cstring b q = w) N p c -> (p < fuel)%nat ->
  run_of (runcmd refused N b fuel p (Uproc w k (std i o e) lg rd m)) = after lg (meaning c w k i o e).

Lemma means_exec ws : means (Exec ws).
Proof.
  intros [|fuel] p w k i o e lg rd m (a&Hp&Ha) Hf; [lia|]. simpl runcmd. rewrite Hp. apply args_strings in Ha as <-.
  destruct a as [|[q x] a]; simpl meaning; [unfold after; by rewrite app_nil_r|].
  destruct (refused w k) eqn:Er.
  - erewrite run_bind by (unfold u_exec, mbind, u_bind, ask; cbn [calls me]; by rewrite Er). reflexivity.
  - erewrite run_end by (unfold u_exec, mbind, u_bind, ask; cbn [calls me]; by rewrite Er). unfold after. by rewrite app_nil_r.
Qed.

Lemma means_redir c r f : means c -> means (Redir c r f).
Proof.
  intros IH [|fuel] p w k i o e lg rd m (j&q&x&Hp&Hj&Hw&Hc) Hf; [lia|]. simpl runcmd. rewrite Hp. simpl in Hw. rewrite Hw. cbn [meaning].
  rewrite run_redir. destruct (refused w k); [by destruct r|].
  replace (rfd r <? 0) with false by (by destruct r).
  destruct r; (etransitivity; [apply (IH fuel j w (S k)); [done|lia]|]); unfold after; cbn [fst snd]; by rewrite <- app_assoc.
Qed.

Lemma means_seq l r : means l -> means r -> means (Seq l r).
Proof.
  intros IHl IHr [|fuel] p w k i o e lg rd m (x&y&Hp&Hx&Hy&Hl&Hr) Hf; [lia|]. simpl runcmd. rewrite Hp. cbn [meaning].
  rewrite (run_fork _ _ _ _ _ e) by done. destruct (refused w k); [done|]. rewrite (run_bind _ _ _ tt (Uproc w (S k) (std i o e) ((lg ++ [Forks (run_of (runcmd refused N b fuel x (Uproc (k :: w) 0 (std i o e) [] rd m)))]) ++ [Waits (std i o e)]) rd m)) by done.
  etransitivity; [apply (IHr fuel y w (S k)); [done|lia]|]. 
  pose proof (IHl fuel x (k :: w) 0%nat i o e [] rd m Hl ltac:(lia)) as E. rewrite E.
  unfold after. cbn [fst snd app]. destruct (meaning l _ _ _ _ _). by rewrite <- !app_assoc.
Qed.
Lemma means_back c : means c -> means (Back c).
Proof.
  intros IH [|fuel] p w k i o e lg rd m (x&Hp&Hx&Hc) Hf; [lia|]. simpl runcmd. rewrite Hp. cbn [meaning].
  rewrite (run_fork _ _ _ _ _ e) by done. destruct (refused w k); [done|].
  pose proof (IH fuel x (k :: w) 0%nat i o e [] rd m Hc ltac:(lia)) as E. rewrite E.
  unfold after. cbn [fst snd app]. by destruct (meaning c _ _ _ _ _).
Qed.
Lemma means_pipe l r : means l -> means r -> means (Pipe l r).
Proof.
  intros IHl IHr [|fuel] p w k i o e lg rd m (x&y&Hp&Hx&Hy&Hl&Hr) Hf; [lia|]. simpl runcmd. rewrite Hp. cbn [meaning].
  pose proof (pipe_run w k i o e lg rd m) as E. destruct (refused w k); rewrite (run_bind _ _ _ _ _ E); [done|].
  rewrite (run_fork _ _ _ _ _ e) by done. destruct (refused w (S k)); [unfold after; cbn [fst snd]; by rewrite <- app_assoc|].
  rewrite (run_fork _ _ _ _ _ e), run_left by done.
  pose proof (IHl fuel x (S k :: w) 0%nat i (WriteEnd (k :: w)) e [] rd m Hl ltac:(lia)) as El. rewrite El.
  destruct (refused w (S (S k))); [unfold after; cbn [fst snd]; destruct (meaning l _ _ _ _ _); by rewrite <- !app_assoc|].
  rewrite run_right, run_ends.
  pose proof (IHr fuel y (S (S k) :: w) 0%nat (ReadEnd (k :: w)) o e [] rd m Hr ltac:(lia)) as Er. rewrite Er.
  unfold after. cbn [fst snd]. destruct (meaning l _ _ _ _ _), (meaning r _ _ _ _ _). by rewrite <- !app_assoc.
Qed.
Lemma runcmd_means c : means c.
Proof. induction c; eauto using means_exec, means_redir, means_pipe, means_seq, means_back. Qed.
End meaning.

(** ** Lines *)

(** The C string a line is once it is in the buffer *)
Definition text_of (l : list Z) : list Z := cstring l 0.
Definition is_cd (t : list Z) : bool :=
  match t with a :: b :: c :: _ => (a =? 99) && (b =? 100) && (c =? 32) | _ => false end.

Lemma text_cons c l : text_of (c :: l) = if c =? 0 then [] else c :: text_of l.
Proof. unfold text_of, cstring. simpl. by destruct (c =? 0). Qed.
Lemma text_nil : text_of [] = [].
Proof. done. Qed.
Lemma text_nonzero l : Forall (fun c => c <> 0) (text_of l).
Proof. induction l as [|c l IH]; [constructor|]. rewrite text_cons. destruct (Z.eqb_spec c 0); [constructor|]. by constructor. Qed.
Lemma text_length l : (length (text_of l) <= length l)%nat.
Proof. induction l as [|c l IH]; [done|]. rewrite text_cons. destruct (c =? 0); simpl; lia. Qed.
Lemma text_nth l j : (j <= length (text_of l))%nat -> nth j (text_of l) 0 = nth j l 0.
Proof.
  revert j. induction l as [|c l IH]; intros j Hj; [done|]. rewrite text_cons in *. destruct (Z.eqb_spec c 0) as [->|]; simpl in *.
  - by replace j with O by lia.
  - destruct j as [|j]; [done|]. apply IH. lia.
Qed.

Lemma cstring_load m t : forall a n, cstr_at m a t -> (length t < n)%nat -> cstring (load_bytes m a n) 0 = t.
Proof.
  induction t as [|c t IH]; intros a [|n] Ht Hn; simpl in Hn; try lia; rewrite load_bytes_S; change (cstring ?l 0) with (text_of l); rewrite text_cons.
  - apply cstr_nil in Ht as [_ ->]. done.
  - apply cstr_cons in Ht as (->&Hc&_&Ht). rewrite (proj2 (Z.eqb_neq _ _) Hc). f_equal. apply IH; [done|lia].
Qed.

Lemma read_line_less n reads l r : read_line n reads = (l, r) -> l <> [] -> (length r < length reads)%nat.
Proof.
  revert n l r. induction reads as [|[c|] reads IH]; intros [|n] l r; simpl; try (intros [= <- <-]; done).
  destruct ((c =? 10) || (c =? 13)); [intros [= <- <-] _; lia|]. destruct (read_line n reads) as [l' r'] eqn:E. intros [= <- <-] _.
  destruct l' as [|]; [|specialize (IH n _ _ E ltac:(done)); lia].
  destruct n as [|n], reads as [|[d|] reads]; simpl in E; try (injection E as <-; simpl; lia).
  destruct ((d =? 10) || (d =? 13)); [done|]. destruct (read_line n reads). done.
Qed.
Lemma read_line_bytes n reads l r : read_line n reads = (l, r) -> Forall (fun x => match x with Some c => is_u8 c | None => True end) reads ->
  Forall is_u8 l /\ Forall (fun x => match x with Some c => is_u8 c | None => True end) r.
Proof.
  intros E H. revert n l r E. induction H as [|[c|] reads Hc H IH]; intros [|n] l r; simpl; try (intros [= <- <-]; by auto).
  destruct ((c =? 10) || (c =? 13)); [intros [= <- <-]; by auto|]. destruct (read_line n reads) as [l' r'] eqn:E. intros [= <- <-].
  destruct (IH n _ _ E). by auto.
Qed.

(** ** The session *)

Section session.
Context (refused : list nat -> nat -> bool) (buf : Z) (Hbuf : 0 <= buf /\ buf + BUFSIZE <= 4294967296).

(** The child that runs a line of text: the meaning of the sentence it is, or
    a message and the end *)
Definition line_runs (t : list Z) (w : list nat) (i o e : obj) (child : list event * ending) : Prop :=
  (exists g, short_line g /\ tokens t = pr_line g /\ child = meaning refused (cmd_line g) w 0 i o e) \/
  ((forall g, short_line g -> tokens t <> pr_line g) /\ exists msg, child = complain e (bytes_of msg ++ newline)).

(** What the shell does with the results [rd] of its calls of read: prompt,
    take a line of at most 99 bytes, end at an empty one, change the directory
    itself, run any other line in a child and wait for it. *)
Inductive session (w : list nat) (i o e : obj) : nat -> list (option Z) -> list event -> Prop :=
| session_end k rd l r : read_line 99 rd = (l, r) -> text_of l = [] ->
    session w i o e k rd [Says (Some e) (bytes_of "$ ")]
| session_cd k rd l r path rest : read_line 99 rd = (l, r) -> is_cd (text_of l) = true -> path = drop 3 (removelast (text_of l)) ->
    session w i o e (S k) r rest ->
    session w i o e k rd (Says (Some e) (bytes_of "$ ") ::
      (if refused w k then Says (Some e) (bytes_of "cannot cd " ++ path ++ newline) else Chdirs path) :: rest)
| session_run k rd l r child rest : read_line 99 rd = (l, r) -> text_of l <> [] -> is_cd (text_of l) = false -> refused w k = false ->
    line_runs (text_of l) (k :: w) i o e child -> session w i o e (S k) r rest ->
    session w i o e k rd (Says (Some e) (bytes_of "$ ") :: Forks child :: Waits (std i o e) :: rest)
| session_no_fork k rd l r : read_line 99 rd = (l, r) -> text_of l <> [] -> is_cd (text_of l) = false -> refused w k = true ->
    session w i o e k rd [Says (Some e) (bytes_of "$ "); Says (Some e) (bytes_of "fork" ++ newline)].

(** The buffer holds the line, and zeros behind it. *)
Definition in_buf (m : mem) (l : list Z) : Prop :=
  (length l < 100)%nat /\ Forall is_u8 l /\ forall j, 0 <= j < BUFSIZE -> m (buf + j) = nthZ 0 l j.

Lemma in_buf_cstr m l : in_buf m l -> cstr_at m buf (text_of l).
Proof using Hbuf.
  intros (Hl&Hb&Hm). pose proof (text_length l) as Ht. unfold BUFSIZE in *. split_and!; [lia|lia| |].
  - apply Forall_and. split; [|apply text_nonzero]. unfold text_of, cstring. rewrite drop_0. by apply Forall_take.
  - intros j Hj. rewrite Hm by lia. rewrite !nthZ_nonneg by lia. symmetry. apply text_nth. lia.
Qed.
Lemma in_buf_cd m l : in_buf m l -> (m buf =? 99) && (m (buf +u 1) =? 100) && (m (buf +u 2) =? 32) = is_cd (text_of l).
Proof using Hbuf.
  intros (Hl&Hb&Hm). unfold BUFSIZE in *. rewrite !(u32_small (buf + _)) by (unfold is_u32; lia).
  rewrite <- (Z.add_0_r buf) at 1. rewrite !Hm by lia. destruct l as [|a [|b [|c l]]]; rewrite ?text_cons, ?text_nil;
    unfold nthZ; simpl; zcases; simpl; subst; try done; rewrite ?andb_false_r; try done; zcases; simpl; congruence || lia.
Qed.
Lemma in_buf_first m l : in_buf m l -> m buf = 0 <-> text_of l = [].
Proof using Hbuf.
  intros H. pose proof (in_buf_cstr m l H) as Hc. destruct (text_of l) as [|c t] eqn:E.
  - apply cstr_nil in Hc as [_ ->]. done.
  - apply cstr_cons in Hc as (->&Hn&_). split; [done|discriminate].
Qed.

Lemma getcmd_run w k t e lg rd m l r : slot 2 t = Some e -> Forall (fun x => match x with Some c => is_u8 c | None => True end) rd ->
  read_line 99 rd = (l, r) -> exists m', in_buf m' l /\
  getcmd buf BUFSIZE (Uproc w k t lg rd m) =
    (inl (if m' buf =? 0 then -1 else 0), Uproc w k t (lg ++ [Says (Some e) (bytes_of "$ ")]) r m').
Proof using Hbuf.
  intros Ht Hrd E. set (m0 := user_memset buf 0 BUFSIZE m).
  pose proof (user_gets_line buf BUFSIZE rd m0 ltac:(lia) ltac:(done) ltac:(lia)) as H. change (Z.to_nat (BUFSIZE - 1)) with 99%nat in H. rewrite E in H.
  destruct H as [Eg Hl]. exists (store_bytes m0 buf (l ++ [0])). split.
  - destruct (read_line_bytes _ _ _ _ E Hrd) as [Hb _]. split_and!; [unfold BUFSIZE in Hl; lia|done|]. intros j Hj. rewrite store_bytes_at, length_app. simpl length.
    destruct (Z.leb_spec buf (buf + j)); [|lia]. replace (buf + j - buf) with j by lia. rewrite !nthZ_nonneg by lia. simpl andb.
    destruct (Z.ltb_spec (buf + j) (buf + Z.of_nat (length l + 1))).
    + destruct (decide (j < Z.of_nat (length l))).
      * rewrite app_nth1 by lia. apply u8_small. rewrite Forall_forall in Hb. apply Hb, list_elem_of_In, nth_In. lia.
      * replace (Z.to_nat j) with (length l) by lia. by rewrite nth_middle, nth_overflow.
    + rewrite nth_overflow by lia. unfold m0, user_memset. rewrite stosb_fill by (unfold BUFSIZE in *; lia). by rewrite fill_in by (unfold BUFSIZE in *; lia).
  - unfold getcmd, say, mbind, u_bind, reads_of, updates, add_log, set_input. cbn [tab reads umem id me calls log]. fold m0. rewrite Eg, Ht. by destruct (_ =? 0).
Qed.

(** The path behind cd, once the last character is gone *)
Lemma cd_path m t : cstr_at m buf t -> is_cd t = true -> (length t < 100)%nat ->
  let m' := store8 m (buf +u Z.of_nat (length t) -u 1) 0 in buf_string buf m' (buf +u 3) = drop 3 (removelast t).
Proof using Hbuf.
  intros Ht Hcd Hl m'. pose proof Ht as (_&_&Hf&Hm). unfold BUFSIZE in *.
  assert (H3 : (3 <= length t)%nat) by (destruct t as [|? [|? [|? t]]]; simpl in *; try discriminate; lia).
  assert (Hrl : length (removelast t) = (length t - 1)%nat) by (rewrite removelast_firstn_len, length_take; lia).
  assert (Em : m' = store8 m (buf + Z.of_nat (length t) - 1) 0)
    by (unfold m'; rewrite (u32_small (buf + Z.of_nat (length t))), u32_small by (unfold is_u32; lia); done).
  clearbody m'. rewrite u32_small by (unfold is_u32; lia). unfold buf_string.
  assert (Hrt : forall j, (j < length t - 1)%nat -> nth j (removelast t) 0 = nth j t 0).
  { intros j Hj. assert (Et : t = removelast t ++ [List.last t 0]) by (apply app_removelast_last; by destruct t).
    rewrite Et at 2. by rewrite app_nth1 by lia. }
  apply cstring_load; [|rewrite length_drop; unfold BUFSIZE; lia]. split_and!; [lia|rewrite length_drop; lia| |].
  - apply Forall_drop. rewrite removelast_firstn_len. by apply Forall_take.
  - intros j Hj. rewrite length_drop, Hrl in Hj. rewrite nthZ_nonneg, Em by lia.
    destruct (decide (buf + 3 + j = buf + Z.of_nat (length t) - 1)) as [Ej|Hne].
    + rewrite Ej, store8_eq. symmetry. apply nth_overflow. rewrite length_drop, Hrl. lia.
    + rewrite store8_ne by done. rewrite nth_skipn. replace (buf + 3 + j) with (buf + (3 + j)) by lia. rewrite Hm, nthZ_nonneg by lia.
      replace (Z.to_nat (3 + j)) with (3 + Z.to_nat j)%nat by lia.
      destruct (decide (3 + Z.to_nat j < length t - 1)%nat); [by rewrite Hrt|]. rewrite !nth_overflow by lia. done.
Qed.

(** The child of a line *)
Lemma run_line_runs m l w i o e rd : in_buf m l ->
  line_runs (text_of l) w i o e (run_of (run_line refused buf m (Uproc w 0 (std i o e) [] rd m))).
Proof using Hbuf.
  intros Hm. unfold run_line. pose proof (in_buf_cstr m l Hm) as Ht. pose proof (text_length l) as Hl. destruct Hm as (Hl2&_).
  assert (E : buf_string buf m buf = text_of l) by (apply cstring_load; [done|unfold BUFSIZE; lia]). rewrite E.
  pose proof (text_nonzero l) as Hnz. destruct (grammar_decided (text_of l) Hnz) as [(g&Hs&Hg)|Hno].
  - left. exists g. split_and!; [done|done|]. destruct (parsecmd_run (text_of l) Hnz g Hs Hg) as (p&s'&Ep&Htr). rewrite Ep.
    etransitivity; [apply (runcmd_means refused (nodes s') (line s') (cmd_line g)); [done|lia]|]. unfold after. by destruct (meaning _ _ _ _ _ _).
  - right. split; [done|]. destruct (parsecmd_rejects (text_of l) Hnz Hno) as (msg&s'&->). exists msg. done.
Qed.

(** A change of directory and what follows it *)
Lemma run_chdir path (k' : U Empty_set) w k i o e lg rd m :
  run_of ((c ← u_chdir refused path;
           _ ← (if c <? 0 then say (bytes_of "cannot cd %s" ++ newline) [StrArg (Some path)] else mret tt); k')
          (Uproc w k (std i o e) lg rd m)) =
  run_of (k' (Uproc w (S k) (std i o e)
    (lg ++ [if refused w k then Says (Some e) (bytes_of "cannot cd " ++ path ++ newline) else Chdirs path]) rd m)).
Proof. unfold u_chdir, mbind, u_bind, ask. cbn [me calls]. destruct (refused w k); reflexivity. Qed.

Lemma main_loop_session w i o e fuel : forall k lg rd m, Forall (fun x => match x with Some c => is_u8 c | None => True end) rd -> (length rd < fuel)%nat ->
  exists l, run_of (main_loop refused buf fuel (Uproc w k (std i o e) lg rd m)) = (lg ++ l, Exits) /\ session w i o e k rd l.
Proof using Hbuf.
  induction fuel as [|fuel IH]; intros k lg rd m Hrd Hf; [lia|]. destruct (read_line 99 rd) as [l r] eqn:El.
  destruct (read_line_bytes _ _ _ _ El Hrd) as [_ Hr].
  destruct (getcmd_run w k (std i o e) e lg rd m l r eq_refl Hrd El) as (m'&Hm&E). cbn [main_loop]. rewrite (run_bind _ _ _ _ _ E).
  pose proof (in_buf_first m' l Hm) as H0. destruct (Z.eqb_spec (m' buf) 0) as [Ez|Ez].
  - eexists. split; [done|]. eapply session_end; [done|tauto].
  - assert (Htx : text_of l <> []) by tauto. assert (Hln : l <> []) by (intros ->; done).
    pose proof (read_line_less _ _ _ _ El Hln) as Hlt.
    change (0 <? 0) with false. cbv iota. erewrite run_bind by reflexivity. cbn [umem]. rewrite (in_buf_cd m' l Hm).
    pose proof (text_length l) as Hl1. destruct (is_cd (text_of l)) eqn:Ecd.
    + pose proof (in_buf_cstr m' l Hm) as Hc. destruct Hm as (Hl2&_).
      rewrite (user_strlen_counts _ _ _ _ Hc) by (unfold BUFSIZE; lia). erewrite run_bind by reflexivity. unfold set_input. cbn [me calls tab log reads umem].
      rewrite run_chdir, (cd_path m' (text_of l) Hc Ecd) by lia.
      destruct (IH (S k) ((lg ++ [Says (Some e) (bytes_of "$ ")]) ++ [if refused w k then Says (Some e) (bytes_of "cannot cd " ++ drop 3 (removelast (text_of l)) ++ newline) else Chdirs (drop 3 (removelast (text_of l)))]) r
        (store8 m' (buf +u Z.of_nat (length (text_of l)) -u 1) 0) Hr ltac:(lia)) as (l2&E2&Hs2). rewrite E2.
      eexists. split; [by rewrite <- !app_assoc|]. simpl. eapply session_cd; done.
    + rewrite (run_fork _ _ _ _ _ _ e) by done. destruct (refused w k) eqn:Er.
      * eexists. split; [unfold after, complain; cbn [fst snd]; by rewrite <- app_assoc|]. eapply session_no_fork; done.
      * pose proof (run_line_runs m' l (k :: w) i o e r Hm) as Hch.
        set (child := run_of (run_line refused buf m' (Uproc (k :: w) 0 (std i o e) [] r m'))) in *. clearbody child.
        erewrite run_bind by reflexivity.
        destruct (IH (S k) (((lg ++ [Says (Some e) (bytes_of "$ ")]) ++ [Forks child]) ++ [Waits (std i o e)]) r m' Hr ltac:(lia)) as (l2&E2&Hs2).
        eexists. split; [etransitivity; [exact E2|]; by rewrite <- !app_assoc|]. simpl. eapply session_run; done.
Qed.
End session.

(** ** Standard descriptors *)

Definition console : obj := Opened (bytes_of "console") O_RDWR.
Definition opens_console (ev : event) : Prop := exists fd, ev = Opens (bytes_of "console") O_RDWR fd.

Lemma console_step refused f w k t lg rd m fd : free_fd t = Some fd -> refused w k = false ->
  open_console refused (S f) (Uproc w k t lg rd m) =
  let s := Uproc w (S k) (<[fd := Some console]> t) (lg ++ [Opens (bytes_of "console") O_RDWR (Z.of_nat fd)]) rd m in
  if 3 <=? Z.of_nat fd then (inl tt, set_tab (<[fd := None]> (tab s)) s) else open_console refused f s.
Proof.
  intros Hf Hr. cbn [open_console]. pose proof (open_run refused (bytes_of "console") O_RDWR w k t lg rd m fd Hf) as E. rewrite Hr in E.
  unfold mbind, u_bind at 1. rewrite E. unfold u_close, reads_of, updates, mbind, u_bind. zcases; try lia; try done. simpl. by rewrite Nat2Z.id.
Qed.
Lemma console_low refused f w k t lg rd m fd t' : free_fd t = Some fd -> refused w k = false -> (fd < 3)%nat -> <[fd := Some console]> t = t' ->
  open_console refused (S f) (Uproc w k t lg rd m) =
  open_console refused f (Uproc w (S k) t' (lg ++ [Opens (bytes_of "console") O_RDWR (Z.of_nat fd)]) rd m).
Proof. intros Hf Hr Hl <-. rewrite (console_step _ _ _ _ _ _ _ _ fd) by done. cbv zeta. destruct (Z.leb_spec 3 (Z.of_nat fd)); [lia|done]. Qed.

Lemma console_opened refused x0 x1 x2 rd m : (forall n, (n < 4)%nat -> refused [] n = false) ->
  exists k lg, open_console refused (S table_size) (Uproc [] 0 ([x0; x1; x2] ++ replicate 13 None) [] rd m) =
    (inl tt, Uproc [] k (std (default console x0) (default console x1) (default console x2)) lg rd m) /\ Forall opens_console lg.
Proof.
  intros Hr. assert (H0 := Hr 0%nat ltac:(lia)). assert (H1 := Hr 1%nat ltac:(lia)). assert (H2 := Hr 2%nat ltac:(lia)). assert (H3 := Hr 3%nat ltac:(lia)).
  unfold table_size. destruct x0, x1, x2; repeat (erewrite console_low; [|reflexivity|eassumption|by apply Nat.ltb_lt|reflexivity]);
    (erewrite console_step; [|reflexivity|eassumption]); eexists _, _; (split; [reflexivity|]);
    repeat (apply Forall_cons; split; [by eexists|]); constructor.
Qed.


(** [ls|wc >f], then [cd d], with the error output missing at the start *)
Definition w_input : list (option Z) := map Some (bytes_of "ls|wc >f" ++ newline ++ bytes_of "cd d" ++ newline).
Definition w_proc : uproc := Uproc [] 0 ([Some (Inherited 0); Some (Inherited 1); None] ++ replicate 13 None) [] w_input (fun _ => 7).
Definition w_std : table := std (Inherited 0) (Inherited 1) console.

