(* ===== verification/Uprog.v ===== *)
(** * wc.c, cat.c, echo.c and the names of ls.c

    A file is the results its calls of read give: the bytes of a call, none at
    the end of the file, or [None] for an error.  A program is the bytes it
    prints on descriptor 1 and whether it went on or left by exit. *)
From stdpp Require Import base numbers list strings.
From S2P Require Import Prelude Console Ulib Sh ShRun.
Open Scope Z_scope.

Abbreviation file_reads := (list (option (list Z))).
Definition print (fmt : list Z) (args : list fmt_arg) : list Z := default [] (printf fmt args).

(** ** wc.c *)

Record counts := Counts { lines : Z; words : Z; chars : Z; inword : bool }.
Definition spaces : list Z := [32; 13; 9; 10; 11].

(** The body of the loop over the buffer *)
Definition wc_char (s : counts) (b : Z) : counts :=
  let c := i32 (chars s + 1) in
  let l := if b =? 10 then i32 (lines s + 1) else lines s in
  if among spaces b then Counts l (words s) c false
  else if negb (inword s) then Counts l (i32 (words s + 1)) c true
  else Counts l (words s) c true.
(** The loop over the calls of read *)
Fixpoint wc_loop (rd : file_reads) (s : counts) : option counts :=
  match rd with
  | [] | Some [] :: _ => Some s
  | None :: _ => None
  | Some buf :: rd' => wc_loop rd' (fold_left wc_char buf s)
  end.
(** [wc(fd, name)]; [false] when it left by exit *)
Definition wc (rd : file_reads) (name : list Z) : list Z * bool :=
  match wc_loop rd (Counts 0 0 0 false) with
  | None => (print (bytes_of "wc: read error" ++ newline) [], false)
  | Some s => (print (bytes_of "%d %d %d %s" ++ newline) [IntArg (lines s); IntArg (words s); IntArg (chars s); StrArg (Some name)], true)
  end.

(** ** cat.c *)

(** [cat(fd)]; [wr n] is what the n-th call of write returns for so many bytes *)
Fixpoint cat_loop (wr : nat -> Z -> Z) (k : nat) (rd : file_reads) : list Z * bool :=
  match rd with
  | [] | Some [] :: _ => ([], true)
  | None :: _ => (print (bytes_of "cat: read error" ++ newline) [], false)
  | Some buf :: rd' =>
      let n := Z.of_nat (length buf) in
      if negb (wr k n =? n) then (take (Z.to_nat (wr k n)) buf ++ print (bytes_of "cat: write error" ++ newline) [], false)
      else let '(o, b) := cat_loop wr (S k) rd' in (buf ++ o, b)
  end.
Definition cat (wr : nat -> Z -> Z) (rd : file_reads) : list Z * bool := cat_loop wr 0 rd.

(** The loop of [main] over the arguments, the same in both programs: [run] is
    what is done with an open file, [msg] begins the message for a file that
    does not open *)
Fixpoint each_file (open : list Z -> option file_reads) (run : file_reads -> list Z -> list Z * bool) (msg : list Z) (args : list (list Z)) : list Z :=
  match args with
  | [] => []
  | a :: args' =>
      match open a with
      | None => print (msg ++ bytes_of "%s" ++ newline) [StrArg (Some a)]
      | Some rd => let '(o, b) := run rd a in o ++ (if b then each_file open run msg args' else [])
      end
  end.
Definition wc_main (stdin : file_reads) (open : list Z -> option file_reads) (args : list (list Z)) : list Z :=
  match args with
  | [] => (wc stdin []).1
  | _ => each_file open wc (bytes_of "wc: cannot open ") args
  end.
Definition cat_main (wr : nat -> Z -> Z) (stdin : file_reads) (open : list Z -> option file_reads) (args : list (list Z)) : list Z :=
  match args with
  | [] => (cat wr stdin).1
  | _ => each_file open (fun rd _ => cat wr rd) (bytes_of "cat: cannot open ") args
  end.

(** ** echo.c *)

(** The loop of [main] *)
Fixpoint echo_main (args : list (list Z)) : list Z :=
  match args with
  | [] => []
  | a :: args' =>
      print (bytes_of "%s%s") [StrArg (Some a); StrArg (Some (match args' with [] => newline | _ => bytes_of " " end))] ++ echo_main args'
  end.

(** ** ls.c *)

Definition NAMESIZ : Z := 14.
Definition SLASH : Z := 47.
(** [for(p = path + strlen(path); p >= path && *p != '/'; p--) ; p++]: what is
    behind the last slash *)
Fixpoint last_part (rpath acc : list Z) : list Z :=
  match rpath with
  | [] => acc
  | c :: rpath' => if c =? SLASH then acc else last_part rpath' (c :: acc)
  end.
(** [fmtname(path)] *)
Definition fmtname (path : list Z) : list Z :=
  let p := last_part (rev path) [] in
  let n := Z.of_nat (length p) in
  if NAMESIZ <=? n then p else p ++ replicate (Z.to_nat (NAMESIZ - n)) 32.

(** ** What they print *)

(** The bytes of a file that is read without an error *)
Fixpoint text_read (rd : file_reads) : option (list Z) :=
  match rd with
  | [] | Some [] :: _ => Some []
  | None :: _ => None
  | Some buf :: rd' => t ← text_read rd'; Some (buf ++ t)
  end.
(** The words of a text: its longest runs of bytes that are no spaces *)
Fixpoint split_words (t : list Z) (cur : list Z) : list (list Z) :=
  match t with
  | [] => match cur with [] => [] | _ => [cur] end
  | b :: t' => if among spaces b then match cur with [] => split_words t' [] | _ => cur :: split_words t' [] end else split_words t' (cur ++ [b])
  end.
Definition words_of (t : list Z) : list (list Z) := split_words t [].
Definition newlines (t : list Z) : list Z := filter (eq 10) t.

Lemma wc_loop_text rd : forall t s, text_read rd = Some t -> wc_loop rd s = Some (fold_left wc_char t s).
Proof.
  induction rd as [|[[|b buf]|] rd IH]; intros t s E; simpl in E; [by injection E as <-|by injection E as <-| |done].
  destruct (text_read rd) as [t'|] eqn:Et; [|done]. injection E as <-. cbn [wc_loop]. rewrite (IH t') by done.
  by rewrite app_comm_cons, fold_left_app.
Qed.
Lemma split_words_cons t : forall c cur, length (split_words t (c :: cur)) = length (split_words t [c]).
Proof.
  induction t as [|b t IH]; intros c cur; cbn [split_words]; [done|]. destruct (among spaces b); [done|].
  cbn [app]. by rewrite (IH c (cur ++ [b])), (IH c [b]).
Qed.
Lemma i32_id x : 0 <= x < 2147483648 -> i32 x = x.
Proof. intros Hx. unfold i32. rewrite Z.mod_small; lia. Qed.

(** The counts after a text; [cur] is the word the text begins in *)
Lemma wc_counts t : forall l w c cur, 0 <= l -> 0 <= w -> 0 <= c -> l + Z.of_nat (length t) < 2147483648 -> w + Z.of_nat (length t) < 2147483648 ->
  c + Z.of_nat (length t) < 2147483648 ->
  let s := fold_left wc_char t (Counts l w c (negb (bool_decide (cur = [])))) in
  lines s = l + Z.of_nat (length (newlines t)) /\ chars s = c + Z.of_nat (length t) /\
  words s + (if bool_decide (cur = []) then 0 else 1) = w + Z.of_nat (length (split_words t cur)).
Proof.
  induction t as [|b t IH]; intros l w c cur Hl Hw Hc H1 H2 H3; [destruct cur; simpl; lia|]. cbn [length] in *. cbn [fold_left].
  assert (E : wc_char (Counts l w c (negb (bool_decide (cur = [])))) b =
    Counts (if b =? 10 then l + 1 else l) (if among spaces b || negb (bool_decide (cur = [])) then w else w + 1) (c + 1) (negb (among spaces b))).
  { unfold wc_char. cbn [lines words chars inword]. rewrite !i32_id by lia. by destruct (among spaces b), (bool_decide (cur = [])). }
  rewrite E. assert (En : Z.of_nat (length (newlines (b :: t))) = (if b =? 10 then 1 else 0) + Z.of_nat (length (newlines t))).
  { unfold newlines. rewrite filter_cons. destruct (Z.eqb_spec b 10); [rewrite decide_True by done; simpl; lia|by rewrite decide_False by done]. }
  rewrite En. cbn [split_words]. destruct (among spaces b) eqn:Eb; cbn [negb orb].
  - destruct (IH (if b =? 10 then l + 1 else l) w (c + 1) []) as (G1&G2&G3); try (destruct (b =? 10); lia). rewrite bool_decide_true in G1, G2, G3 by done. cbn [negb] in *.
    rewrite G1, G2. split_and!; [destruct (b =? 10); lia|lia|]. destruct cur as [|z cur]; [by rewrite bool_decide_true by done|]. rewrite bool_decide_false by done. cbn [length]. lia.
  - destruct (IH (if b =? 10 then l + 1 else l) (if negb (bool_decide (cur = [])) then w else w + 1) (c + 1) (cur ++ [b])) as (G1&G2&G3);
      try (destruct (b =? 10), (negb _); lia).
    rewrite (bool_decide_false (cur ++ [b] = [])) in G1, G2, G3 by (by destruct cur). cbn [negb] in *. rewrite G1, G2.
    split_and!; [destruct (b =? 10); lia|lia|]. destruct cur as [|z cur].
    + rewrite bool_decide_true in * by done. cbn [negb app] in *. lia.
    + rewrite (bool_decide_false (z :: cur = [])) in * by done. cbn [negb] in *. lia.
Qed.

(** However the calls of read cut a file up, wc prints the number of
    newlines, of words (longest runs of bytes that are no spaces) and of bytes
    of its text. *)
Theorem wc_counts_text rd t name : text_read rd = Some t -> Z.of_nat (length t) < 2147483648 ->
  wc rd name = (print (bytes_of "%d %d %d %s" ++ newline)
    [IntArg (Z.of_nat (length (newlines t))); IntArg (Z.of_nat (length (words_of t))); IntArg (Z.of_nat (length t)); StrArg (Some name)], true).
Proof.
  intros E Hl. unfold wc. rewrite (wc_loop_text _ _ _ E).
  destruct (wc_counts t 0 0 0 [] ltac:(lia) ltac:(lia) ltac:(lia)) as (G1&G2&G3); [lia..|]. rewrite bool_decide_true in G1, G2, G3 by done. cbn [negb] in *.
  rewrite G1, G2, !Z.add_0_l. rewrite Z.add_0_r, Z.add_0_l in G3. by rewrite G3.
Qed.
Lemma wc_counts_text_witness : wc [Some (bytes_of "a b"); Some (bytes_of "c d" ++ newline)] (bytes_of "f") = (bytes_of "1 3 7 f" ++ newline, true).
Proof.
  rewrite (wc_counts_text [Some (bytes_of "a b"); Some (bytes_of "c d" ++ newline)] (bytes_of "a bc d" ++ newline) (bytes_of "f") eq_refl ltac:(vm_compute; reflexivity)).
  vm_compute. reflexivity.
Defined.

(** cat prints the text of a file when its writes are complete. *)
Lemma cat_copies wr rd t : (forall k n, wr k n = n) -> text_read rd = Some t -> cat wr rd = (t, true).
Proof.
  intros Hw. unfold cat. generalize 0%nat. revert t. induction rd as [|[[|b buf]|] rd IH]; intros t k E; simpl in E; [by injection E as <-|by injection E as <-| |done].
  destruct (text_read rd) as [t'|] eqn:Et; [|done]. injection E as <-. cbn [cat_loop]. rewrite Hw, Z.eqb_refl. cbn [negb]. by rewrite (IH t').
Qed.

(** echo prints its arguments with a blank between them and a newline. *)
Fixpoint joined (a : list Z) (args : list (list Z)) : list Z :=
  match args with [] => a ++ newline | a' :: args' => a ++ bytes_of " " ++ joined a' args' end.
Lemma echo_joins args : forall a, echo_main (a :: args) = joined a args.
Proof.
  assert (Hp : forall a b, print (bytes_of "%s%s") [StrArg (Some a); StrArg (Some b)] = a ++ b ++ []) by done.
  induction args as [|a' args IH]; intros a; cbn [echo_main joined] in *; rewrite Hp; [by rewrite !app_nil_r|]. rewrite app_nil_r, <- app_assoc. by rewrite <- IH.
Qed.

(** The name in a listing is what is behind the last slash, in at least 14
    columns. *)
Lemma last_part_split r : forall acc, ~ In SLASH r -> last_part r acc = rev r ++ acc.
Proof.
  induction r as [|c r IH]; intros acc Hn; simpl in *; [done|]. destruct (Z.eqb_spec c SLASH) as [->|]; [tauto|].
  rewrite IH by tauto. by rewrite <- app_assoc.
Qed.
Lemma last_part_slash r : forall acc q, ~ In SLASH r -> last_part (r ++ SLASH :: q) acc = rev r ++ acc.
Proof.
  induction r as [|c r IH]; intros acc q Hn; simpl in *; [done|]. destruct (Z.eqb_spec c SLASH) as [->|]; [tauto|].
  rewrite IH by tauto. by rewrite <- app_assoc.
Qed.
Lemma fmtname_pads dir name : ~ In SLASH name -> (length name <= 14)%nat ->
  fmtname (dir ++ [SLASH] ++ name) = name ++ replicate (14 - length name) 32 /\ fmtname name = name ++ replicate (14 - length name) 32.
Proof.
  intros Hn Hl. assert (Hr : ~ In SLASH (rev name)) by (by rewrite <- in_rev).
  assert (E1 : last_part (rev (dir ++ [SLASH] ++ name)) [] = name).
  { rewrite !rev_app_distr, <- app_assoc. simpl. rewrite last_part_slash by done. by rewrite rev_involutive, app_nil_r. }
  assert (E2 : last_part (rev name) [] = name) by (rewrite last_part_split by done; by rewrite rev_involutive, app_nil_r).
  unfold fmtname. rewrite E1, E2. unfold NAMESIZ. replace (Z.to_nat (14 - Z.of_nat (length name))) with (14 - length name)%nat by lia.
  destruct (Z.leb_spec 14 (Z.of_nat (length name))); [|done]. replace (14 - length name)%nat with 0%nat by lia. by rewrite app_nil_r.
Qed.
