(* ===== verification/Devices.v ===== *)
(** * mp_uefi.c, lapic.c, ioapic.c, picirq.c and the start of uart.c

    The firmware's table of processors is bytes in memory.  A device is what
    its registers show: the local APIC and the clock answer the n-th read of
    the machine with a value the sections take as a parameter, and what is
    written to them is logged; the I/O APIC keeps what is written to it. *)
From stdpp Require Import base numbers list gmap sets strings.
From S2P Require Import Prelude Memory Mmu Console Proc Trap.
Open Scope Z_scope.

(** ** mp_uefi.c: the processors *)

(** [lapic], [cpus[i].apicid], [ncpu] and [ioapicid] *)
Record mpstate := Mpstate { lapic_addr : Z; apicid : Z -> Z; ncpu : Z; ioapicid : Z }.
Definition BOOTPARAM : Z := 0x50000.
Definition P2V_WO (x : Z) : Z := x +u KERNBASE.
(** [sizeof(struct uefi_madt)] and the fields read *)
Definition MADT_SIZE : Z := 44.
Definition madt_len (m : mem) (madt : Z) : Z := load32 m (madt +u 4).
Definition madt_lapic_addr (m : mem) (madt : Z) : Z := load32 m (madt +u 36).
Definition record_len (m : mem) (e : Z) : Z := m (e +u 1).

(** A local APIC entry *)
Definition add_cpu (id : Z) (s : mpstate) : mpstate :=
  if ncpu s <? NCPU then Mpstate (lapic_addr s) (fupd (apicid s) (ncpu s) id) (ncpu s + 1) (ioapicid s) else s.
Definition set_ioapicid (id : Z) (s : mpstate) : mpstate := Mpstate (lapic_addr s) (apicid s) (ncpu s) id.

(** The loop over the entries *)
Fixpoint madt_loop (m : mem) (madt : Z) (fuel : nat) (i : Z) (s : mpstate) : option mpstate :=
  match fuel with
  | O => None
  | S fuel' =>
      if i <? madt_len m madt then
        let e := madt +u i in
        if m e =? 0 then madt_loop m madt fuel' (i +u record_len m e) (add_cpu (m (e +u 3)) s)
        else if m e =? 1 then madt_loop m madt fuel' (i +u record_len m e) (set_ioapicid (m (e +u 2)) s)
        else if m e =? 2 then madt_loop m madt fuel' (i +u record_len m e) s
        else if m e =? 4 then madt_loop m madt fuel' (i +u record_len m e) s
        else if m e =? 5 then madt_loop m madt fuel' (i +u 12) s
        else madt_loop m madt fuel' i s
      else Some s
  end.
(** [mpinit_uefi()] *)
Definition mpinit_uefi (m : mem) (fuel : nat) (s : mpstate) : option mpstate :=
  let madt := P2V_WO (load32 m (P2V_WO BOOTPARAM +u 8)) in
  madt_loop m madt fuel MADT_SIZE (Mpstate (madt_lapic_addr m madt) (apicid s) 0 (ioapicid s)).

(** ** lapic.c *)

Definition ID : Z := 8.
Definition VER : Z := 12.
Definition TPR : Z := 32.
Definition EOI : Z := 44.
Definition SVR : Z := 60.
Definition ESR : Z := 160.
Definition ICRLO : Z := 192.
Definition ICRHI : Z := 196.
Definition TIMER : Z := 200.
Definition PCINT : Z := 208.
Definition LINT0 : Z := 212.
Definition LINT1 : Z := 216.
Definition ERROR : Z := 220.
Definition TICR : Z := 224.
Definition TDCR : Z := 248.
Definition ENABLE : Z := 0x100.
Definition INIT : Z := 0x500.
Definition STARTUP : Z := 0x600.
Definition DELIVS : Z := 0x1000.
Definition ASSERT : Z := 0x4000.
Definition LEVEL : Z := 0x8000.
Definition BCAST : Z := 0x80000.
Definition X1 : Z := 0xB.
Definition PERIODIC : Z := 0x20000.
Definition MASKED : Z := 0x10000.
Definition IRQ_ERROR : Z := 19.
Definition CMOS_PORT : Z := 0x70.

(** What a processor did to the devices: [lapic], the writes to the local APIC
    by register, the reads so far, the bytes sent to ports, low memory *)
Record devs := Devs { lapic : Z; lwrites : list (Z * Z); nreads : nat; ports : list (Z * Z); low : mem }.
Abbreviation DM := (M devs).
Definition port_out (port data : Z) : DM unit := modify (fun s => Devs (lapic s) (lwrites s) (nreads s) (ports s ++ [(port, u8 data)]) (low s)).

Section devices.
(** The values of the registers of the local APIC and of the clock at the
    n-th read *)
Context (lreg : nat -> Z -> Z) (cmos : nat -> Z -> Z).

Definition lapic_read (index : Z) : DM Z :=
  let! n := gets nreads in
  modify (fun s => Devs (lapic s) (lwrites s) (S (nreads s)) (ports s) (low s)) ;; ret (lreg n index).
Definition lapicw (index value : Z) : DM unit :=
  modify (fun s => Devs (lapic s) (lwrites s ++ [(index, u32 value)]) (nreads s) (ports s) (low s)) ;;
  lapic_read ID ;; ret tt.

(** [while(lapic[ICRLO] & DELIVS)] *)
Fixpoint wait_delivered (fuel : nat) : DM unit :=
  match fuel with
  | O => stop_with NoFuel
  | S fuel' => let! x := lapic_read ICRLO in if Z.land x DELIVS =? 0 then ret tt else wait_delivered fuel'
  end.

(** [lapicinit()] *)
Definition lapicinit (fuel : nat) : DM unit :=
  let! l := gets lapic in
  if l =? 0 then ret tt
  else
    lapicw SVR (Z.lor ENABLE (T_IRQ0 + IRQ_SPURIOUS)) ;;
    lapicw TDCR X1 ;;
    lapicw TIMER (Z.lor PERIODIC (T_IRQ0 + IRQ_TIMER)) ;;
    lapicw TICR 10000000 ;;
    lapicw LINT0 MASKED ;;
    lapicw LINT1 MASKED ;;
    let! ver := lapic_read VER in
    when (4 <=? Z.land (Z.shiftr ver 16) 0xFF) (lapicw PCINT MASKED) ;;
    lapicw ERROR (T_IRQ0 + IRQ_ERROR) ;;
    lapicw ESR 0 ;;
    lapicw ESR 0 ;;
    lapicw EOI 0 ;;
    lapicw ICRHI 0 ;;
    lapicw ICRLO (Z.lor (Z.lor BCAST INIT) LEVEL) ;;
    wait_delivered fuel ;;
    lapicw TPR 0.

(** [lapicid()] *)
Definition lapicid : DM Z :=
  let! l := gets lapic in
  if l =? 0 then ret 0 else let! x := lapic_read ID in ret (Z.shiftr x 24).

(** [lapiceoi()] *)
Definition lapiceoi : DM unit := let! l := gets lapic in when (negb (l =? 0)) (lapicw EOI 0).

(** [lapicstartap(apicid, addr)]; microdelay does nothing *)
Definition startup_ipi (apicid addr : Z) : DM unit :=
  lapicw ICRHI (Z.shiftl apicid 24) ;;
  lapicw ICRLO (Z.lor STARTUP (Z.shiftr addr 12)).
Definition lapicstartap (apicid addr : Z) : DM unit :=
  port_out CMOS_PORT 0xF ;;
  port_out (CMOS_PORT + 1) 0x0A ;;
  let wrv := P2V_WO (Z.lor (Z.shiftl 0x40 4) 0x67) in
  modify (fun s => Devs (lapic s) (lwrites s) (nreads s) (ports s) (store16 (low s) wrv 0)) ;;
  modify (fun s => Devs (lapic s) (lwrites s) (nreads s) (ports s) (store16 (low s) (wrv +u 2) (Z.shiftr addr 4))) ;;
  lapicw ICRHI (Z.shiftl apicid 24) ;;
  lapicw ICRLO (Z.lor (Z.lor INIT LEVEL) ASSERT) ;;
  lapicw ICRLO (Z.lor INIT LEVEL) ;;
  startup_ipi apicid addr ;;
  startup_ipi apicid addr.

(** ** The clock *)

Record rtcdate := Rtcdate { second : Z; minute : Z; hour : Z; day : Z; month : Z; year : Z }.
#[global] Instance rtcdate_eq_dec : EqDecision rtcdate.
Proof. solve_decision. Defined.
Definition CMOS_STATA : Z := 0x0a.
Definition CMOS_STATB : Z := 0x0b.
Definition CMOS_UIP : Z := 128.

(** [cmos_read(reg)] *)
Definition cmos_read (reg : Z) : DM Z :=
  port_out CMOS_PORT reg ;;
  let! n := gets nreads in
  modify (fun s => Devs (lapic s) (lwrites s) (S (nreads s)) (ports s) (low s)) ;; ret (cmos n reg).
(** [fill_rtcdate(r)] *)
Definition fill_rtcdate : DM rtcdate :=
  let! s := cmos_read 0 in
  let! m := cmos_read 2 in
  let! h := cmos_read 4 in
  let! d := cmos_read 7 in
  let! o := cmos_read 8 in
  let! y := cmos_read 9 in
  ret (Rtcdate s m h d o y).
(** [CONV(x)] *)
Definition conv (x : Z) : Z := u32 (Z.shiftr x 4 * 10 + Z.land x 0xf).
Definition conv_date (d : rtcdate) : rtcdate :=
  Rtcdate (conv (second d)) (conv (minute d)) (conv (hour d)) (conv (day d)) (conv (month d)) (conv (year d)).

(** The loop of [cmostime] *)
Fixpoint read_stable (fuel : nat) : DM rtcdate :=
  match fuel with
  | O => stop_with NoFuel
  | S fuel' =>
      let! t1 := fill_rtcdate in
      let! a := cmos_read CMOS_STATA in
      if negb (Z.land a CMOS_UIP =? 0) then read_stable fuel'
      else
        let! t2 := fill_rtcdate in
        if decide (t1 = t2) then ret t1 else read_stable fuel'
  end.
(** [cmostime(r)] *)
Definition cmostime (fuel : nat) : DM rtcdate :=
  let! sb := cmos_read CMOS_STATB in
  let bcd := Z.land sb 4 =? 0 in
  let! t1 := read_stable fuel in
  let t1 := if bcd then conv_date t1 else t1 in
  ret (Rtcdate (second t1) (minute t1) (hour t1) (day t1) (month t1) (year t1 +u 2000)).
End devices.

(** ** ioapic.c and picirq.c *)

(** The register selected and the registers behind it *)
Record ioapic := Ioapic { io_reg : Z; io_data : Z -> Z }.
Abbreviation IM := (M ioapic).
Definition REG_ID : Z := 0.
Definition REG_VER : Z := 1.
Definition REG_TABLE : Z := 0x10.
Definition INT_DISABLED : Z := 0x10000.

Definition ioapicread (reg : Z) : IM Z :=
  modify (fun d => Ioapic reg (io_data d)) ;;
  gets (fun d => io_data d (io_reg d)).
Definition ioapicwrite (reg data : Z) : IM unit :=
  modify (fun d => Ioapic reg (io_data d)) ;;
  modify (fun d => Ioapic (io_reg d) (fupd (io_data d) (io_reg d) (u32 data))).
(** [ioapicinit()] *)
Definition ioapicinit : IM unit :=
  let! v := ioapicread REG_VER in
  let maxintr := Z.land (Z.shiftr v 16) 0xFF in
  ioapicread REG_ID ;;
  mfor (seqZ 0 (maxintr + 1)) (fun i =>
    ioapicwrite (REG_TABLE + 2 * i) (Z.lor INT_DISABLED (T_IRQ0 + i)) ;;
    ioapicwrite (REG_TABLE + 2 * i + 1) 0).
(** [ioapicenable(irq, cpunum)] *)
Definition ioapicenable (irq cpunum : Z) : IM unit :=
  ioapicwrite (REG_TABLE + 2 * irq) (T_IRQ0 + irq) ;;
  ioapicwrite (REG_TABLE + 2 * irq + 1) (Z.shiftl cpunum 24).

Definition IO_PIC1 : Z := 0x20.
Definition IO_PIC2 : Z := 0xA0.
(** [picinit()] *)
Definition picinit : DM unit :=
  port_out (IO_PIC1 + 1) 0xFF ;;
  port_out (IO_PIC2 + 1) 0xFF.

(** ** uart.c and graphic.c at boot *)

Definition COM1 : Z := 0x3f8.
Definition set_uart (x : Z) (s : cstate) : cstate :=
  CState (input s) (panicked s) x (serial s) (console_pos s) (vram s) (wakeups s).
(** The bytes [uartinit] sends to the port first *)
Definition uart_setup : list (Z * Z) :=
  [(COM1 + 2, 0); (COM1 + 3, 0x80); (COM1 + 0, 115200 / 9600); (COM1 + 1, 0); (COM1 + 3, 0x03); (COM1 + 4, 0); (COM1 + 1, 0x01)].
(** [uartinit()]: [lsr] is the line status read *)
Definition uartinit (lsr : Z) : M (devs * ioapic * cstate) unit := fun '(d, io, s) =>
  match mfor uart_setup (fun p => port_out p.1 p.2) d with
  | Stop e d => Stop e (d, io, s)
  | Ret _ d =>
      if lsr =? 0xFF then Ret tt (d, io, s)
      else
        match ioapicenable IRQ_COM1 0 io with
        | Stop e io => Stop e (d, io, s)
        | Ret _ io =>
            match mfor [120; 118; 54; 46; 46; 46; 10] uartputc (set_uart 1 s) with
            | Stop e s => Stop e (d, io, s)
            | Ret _ s => Ret tt (d, io, s)
            end
        end
  end.

(** [graphic_init()]: the low words of the 64-bit fields behind the first four
    words of the boot parameters; [pvram_addr] comes first *)
Definition graphic_init (m : mem) : Z * gpu :=
  let cfg := P2V_WO BOOTPARAM +u 16 in
  let size := load32 m (cfg +u 8) in
  (load32 m cfg, Gpu (DEVSPACE -u size) size (load32 m (cfg +u 16)) (load32 m (cfg +u 24)) (load32 m (cfg +u 32))).

(** ** The table of processors *)

(** An entry: its type and the bytes behind type and length *)
Abbreviation mentry := (Z * list Z)%type.
Definition enc (e : mentry) : list Z := e.1 :: (2 + Z.of_nat (length e.2)) :: e.2.
(** The entries the code knows, of the lengths the format gives them *)
Definition known (e : mentry) : Prop :=
  (length e.2 < 254)%nat /\
  (e.1 = 0 /\ (2 <= length e.2)%nat \/ e.1 = 1 /\ (1 <= length e.2)%nat \/ e.1 = 2 \/ e.1 = 4 \/ e.1 = 5 /\ length e.2 = 10%nat).
Definition ids_of (es : list mentry) : list Z := flat_map (fun e => if e.1 =? 0 then [nthZ 0 e.2 1] else []) es.
Definition ioapic_of (d : Z) (es : list mentry) : Z := fold_left (fun x e => if e.1 =? 1 then nthZ 0 e.2 0 else x) es d.
Definition holds (m : mem) (a : Z) (l : list Z) : Prop := forall j, 0 <= j < Z.of_nat (length l) -> m (a + j) = nthZ 0 l j.

Lemma holds_app m a l1 l2 : holds m a (l1 ++ l2) -> holds m a l1 /\ holds m (a + Z.of_nat (length l1)) l2.
Proof.
  unfold holds. rewrite length_app. intros H. split; intros j Hj.
  - rewrite H by lia. unfold nthZ. zcases; [lia|]. rewrite app_nth1 by lia. done.
  - replace (a + Z.of_nat (length l1) + j) with (a + (Z.of_nat (length l1) + j)) by lia. rewrite H by lia. unfold nthZ. zcases; try lia.
    rewrite app_nth2 by lia. f_equal. lia.
Qed.

Definition found (es : list mentry) (s : mpstate) : mpstate :=
  fold_left (fun s e => if e.1 =? 0 then add_cpu (nthZ 0 e.2 1) s else if e.1 =? 1 then set_ioapicid (nthZ 0 e.2 0) s else s) es s.

Lemma madt_loop_found m madt es : forall fuel i s, Forall known es -> (length es < fuel)%nat -> 0 <= madt -> 0 <= i ->
  madt_len m madt = i + Z.of_nat (length (flat_map enc es)) -> madt + madt_len m madt < 4294967292 ->
  holds m (madt + i) (flat_map enc es) -> madt_loop m madt fuel i s = Some (found es s).
Proof.
  induction es as [|e es IH]; intros [|fuel] i s Hk Hf Hm Hi Hl Hb Hh; simpl in Hf; try lia; cbn [madt_loop].
  - simpl in Hl. destruct (Z.ltb_spec i (madt_len m madt)); [lia|done].
  - apply Forall_cons in Hk as [Hk Hks]. simpl in Hl, Hh. change (e.1 :: _ :: e.2 ++ flat_map enc es) with (enc e ++ flat_map enc es) in Hh.
    apply holds_app in Hh as [He Hh]. unfold enc in He. simpl length in Hh. rewrite length_app in Hl.
    assert (Hlt : i < madt_len m madt) by lia. destruct (Z.ltb_spec i (madt_len m madt)) as [_|]; [|lia].
    set (n := length e.2) in *. set (r := length (flat_map enc es)) in *.
    rewrite (u32_small (madt + i)) by (unfold is_u32; lia). unfold record_len. rewrite !(u32_small (madt + i + _)) by (unfold is_u32; lia).
    assert (E0 : m (madt + i) = e.1) by (rewrite <- (Z.add_0_r (madt + i)); apply He; simpl; lia).
    assert (E1 : m (madt + i + 1) = 2 + Z.of_nat n) by (apply He; simpl; lia).
    assert (E2 : (1 <= n)%nat -> m (madt + i + 2) = nthZ 0 e.2 0) by (intros; apply He; simpl; fold n; lia).
    assert (E3 : (2 <= n)%nat -> m (madt + i + 3) = nthZ 0 e.2 1) by (intros; apply He; simpl; fold n; lia).
    rewrite E0, E1, (u32_small (i + (2 + Z.of_nat n))) by (unfold is_u32; lia).
    assert (Hnext : forall s', madt_loop m madt fuel (i + (2 + Z.of_nat n)) s' = Some (found es s')).
    { intros s'. apply IH; [done|lia|lia|lia|fold r; lia|lia|]. rewrite Z.add_assoc. replace (2 + Z.of_nat n) with (Z.of_nat (S (S n))) by lia.
      by rewrite <- Z.add_assoc in Hh |- *. }
    change (found (e :: es) s) with (found es (if e.1 =? 0 then add_cpu (nthZ 0 e.2 1) s else if e.1 =? 1 then set_ioapicid (nthZ 0 e.2 0) s else s)).
    destruct Hk as [_ Hk]. fold n in Hk. destruct Hk as [[Et Hn]|[[Et Hn]|[Et|[Et|[Et Hn]]]]]; rewrite Et; zcases; try lia.
    + by rewrite E3, Hnext.
    + by rewrite E2, Hnext.
    + apply Hnext.
    + apply Hnext.
    + replace (i +u 12) with (i + (2 + Z.of_nat n)) by (rewrite u32_small by (unfold is_u32; lia); lia). apply Hnext.
Qed.

Definition cpus_are (ids : list Z) (s : mpstate) : Prop :=
  ncpu s = Z.min NCPU (Z.of_nat (length ids)) /\ forall i, 0 <= i < ncpu s -> apicid s i = nthZ 0 ids i.

Lemma add_cpu_are ids id s : cpus_are ids s -> cpus_are (ids ++ [id]) (add_cpu id s).
Proof.
  intros [Hn Hi]. unfold add_cpu, cpus_are. rewrite length_app. simpl length. destruct (Z.ltb_spec (ncpu s) NCPU); simpl.
  - split; [lia|]. intros i Hir. rewrite fupd_at. destruct (Z.eqb_spec i (ncpu s)) as [->|Hne].
    + rewrite Hn, Z.min_r by lia. unfold nthZ. zcases; [lia|]. by rewrite Nat2Z.id, nth_middle.
    + rewrite Hi by lia. unfold nthZ. zcases; [lia|]. rewrite app_nth1 by lia. done.
  - split; [lia|]. intros i Hir. rewrite Hi by lia. unfold nthZ. zcases; [lia|]. rewrite app_nth1 by lia. done.
Qed.
Lemma found_are es : forall ids s, cpus_are ids s ->
  cpus_are (ids ++ ids_of es) (found es s) /\ ioapicid (found es s) = ioapic_of (ioapicid s) es /\ lapic_addr (found es s) = lapic_addr s.
Proof.
  induction es as [|e es IH]; intros ids s H; [simpl; by rewrite app_nil_r|].
  change (found (e :: es) s) with (found es (if e.1 =? 0 then add_cpu (nthZ 0 e.2 1) s else if e.1 =? 1 then set_ioapicid (nthZ 0 e.2 0) s else s)).
  unfold ids_of. cbn [flat_map]. fold (ids_of es). unfold ioapic_of. cbn [fold_left]. change (fold_left _ es ?d) with (ioapic_of d es).
  destruct (Z.eqb_spec e.1 0) as [E0|E0].
  - destruct (IH (ids ++ [nthZ 0 e.2 1]) (add_cpu (nthZ 0 e.2 1) s) (add_cpu_are _ _ _ H)) as (H1&H2&H3).
    rewrite <- app_assoc in H1. rewrite E0. split_and!; [done| |].
    + rewrite H2. f_equal. unfold add_cpu. by destruct (_ <? _).
    + rewrite H3. unfold add_cpu. by destruct (_ <? _).
  - destruct (Z.eqb_spec e.1 1); [|by apply IH]. exact (IH ids (set_ioapicid (nthZ 0 e.2 0) s) H).
Qed.

(** The boot parameters name a table of the entries [es]. *)
Definition madt_at (m : mem) : Z := P2V_WO (load32 m (P2V_WO BOOTPARAM +u 8)).
Definition describes (m : mem) (es : list mentry) : Prop :=
  madt_len m (madt_at m) = MADT_SIZE + Z.of_nat (length (flat_map enc es)) /\
  madt_at m + madt_len m (madt_at m) < 4294967292 /\ holds m (madt_at m + MADT_SIZE) (flat_map enc es).

(** C36. Given a table of entries of the kinds it knows, in any order, the scan
    of the firmware's table ends; the processors are those of the local APIC
    entries in the order of the table, at most NCPU of them, with their APIC
    numbers, the I/O APIC is the last one listed, and the local APIC is where
    the table says. *)
Theorem mpinit_finds_cpus m es s fuel : describes m es -> Forall known es -> (length es < fuel)%nat ->
  exists s', mpinit_uefi m fuel s = Some s' /\ lapic_addr s' = madt_lapic_addr m (madt_at m) /\
    ncpu s' = Z.min NCPU (Z.of_nat (length (ids_of es))) /\ (forall i, 0 <= i < ncpu s' -> apicid s' i = nthZ 0 (ids_of es) i) /\
    ioapicid s' = ioapic_of (ioapicid s) es.
Proof.
  intros (Hl&Hb&Hh) Hk Hf. unfold mpinit_uefi. fold (madt_at m).
  rewrite (madt_loop_found m (madt_at m) es fuel MADT_SIZE); [|done|done|apply u32_range|done|done|done|done].
  destruct (found_are es [] (Mpstate (madt_lapic_addr m (madt_at m)) (apicid s) 0 (ioapicid s))) as ([H1 H2]&H3&H4).
  { split; [done|]. simpl. lia. }
  eexists. split; [done|]. rewrite app_nil_l in *. done.
Qed.

(** Three processors, an I/O APIC and an override between them *)
Definition w_entries : list mentry :=
  [(0, [0; 0; 1; 0; 0; 0]); (1, [7; 0; 0; 0; 192; 254; 0; 0; 0; 0]); (0, [1; 4; 1; 0; 0; 0]); (2, [0; 0; 2; 0; 0; 0; 0; 0]); (0, [2; 9; 1; 0; 0; 0])].
Definition w_madt_mem : mem :=
  store_bytes (store32 (store32 (store32 (fun _ => 0) (P2V_WO BOOTPARAM + 8) 0x1000) (P2V_WO 0x1000 + 4) (44 + 46)) (P2V_WO 0x1000 + 36) 0xFEE00000)
    (P2V_WO 0x1000 + 44) (flat_map enc w_entries).
Lemma mpinit_finds_cpus_witness : exists s', mpinit_uefi w_madt_mem 10 (Mpstate 0 (fun _ => 0) 0 0) = Some s' /\
  lapic_addr s' = 0xFEE00000 /\ ncpu s' = 3 /\ map (apicid s') [0; 1; 2] = [0; 4; 9] /\ ioapicid s' = 7.
Proof.
  assert (Hd : describes w_madt_mem w_entries).
  { split_and!; [vm_compute; reflexivity|vm_compute; reflexivity|]. intros j Hj.
    assert (H : forallb (fun j => w_madt_mem (madt_at w_madt_mem + MADT_SIZE + j) =? nthZ 0 (flat_map enc w_entries) j) (seqZ 0 46) = true)
      by (vm_compute; reflexivity).
    rewrite forallb_forall in H. apply Z.eqb_eq, H, list_elem_of_In, elem_of_seqZ. change (Z.of_nat _) with 46 in Hj. lia. }
  assert (Hk : Forall known w_entries) by (repeat (apply Forall_cons; split; [unfold known; simpl; lia|]); constructor).
  destruct (mpinit_finds_cpus w_madt_mem w_entries (Mpstate 0 (fun _ => 0) 0 0) 10 Hd Hk ltac:(simpl; lia)) as (s'&E&Hl&Hn&Hi&Ho).
  exists s'. change (ids_of w_entries) with [0; 4; 9] in *. change (Z.min NCPU _) with 3 in Hn. rewrite Hn in Hi. split_and!; [exact E| |done| |exact Ho].
  - rewrite Hl. vm_compute. reflexivity.
  - simpl. rewrite !Hi by lia. reflexivity.
Defined.

(** An entry of any other kind is never passed. *)
Lemma madt_unknown_spins m madt i s fuel : i < madt_len m madt -> ~ In (m (madt +u i)) [0; 1; 2; 4; 5] -> madt_loop m madt fuel i s = None.
Proof.
  intros Hi Hn. revert s. induction fuel as [|fuel IH]; intros s; [done|]. cbn [madt_loop]. simpl in Hn.
  destruct (Z.ltb_spec i (madt_len m madt)); [|lia]. zcases; try (exfalso; apply Hn; lia). apply IH.
Qed.

(** ** Interrupts *)

(** The redirection of interrupt [i]: both registers *)
Definition redirection (d : ioapic) (i : Z) : Z * Z := (io_data d (REG_TABLE + 2 * i), io_data d (REG_TABLE + 2 * i + 1)).
Definition max_intr (d : ioapic) : Z := Z.land (Z.shiftr (io_data d REG_VER) 16) 0xFF.

Lemma ioapicwrite_run reg x d : ioapicwrite reg x d = Ret tt (Ioapic reg (fupd (io_data d) reg (u32 x))).
Proof. reflexivity. Qed.
Lemma mask_loop l : forall d, exists d', mfor l (fun i => ioapicwrite (REG_TABLE + 2 * i) (Z.lor INT_DISABLED (T_IRQ0 + i)) ;; ioapicwrite (REG_TABLE + 2 * i + 1) 0) d = Ret tt d' /\
  forall i, redirection d' i = if bool_decide (i ∈ l) then (u32 (Z.lor INT_DISABLED (T_IRQ0 + i)), 0) else redirection d i.
Proof.
  induction l as [|j l IH]; intros d; [exists d; by split|]. 
  destruct (IH (Ioapic (REG_TABLE + 2 * j + 1) (fupd (fupd (io_data d) (REG_TABLE + 2 * j) (u32 (Z.lor INT_DISABLED (T_IRQ0 + j)))) (REG_TABLE + 2 * j + 1) (u32 0)))) as (d'&E&H).
  exists d'. split; [exact E|]. intros i. rewrite H. case_bool_decide as Hi; case_bool_decide as Hc; try done; try set_solver.
  - assert (i = j) as -> by set_solver. unfold redirection. simpl. rewrite fupd_ne, !fupd_eq by lia. done.
  - assert (i <> j) by set_solver. unfold redirection. simpl. by rewrite !fupd_ne by lia.
Qed.
(** After [ioapicinit] every interrupt is masked, goes to no processor and has
    the vector the trap table gives it. *)
Lemma ioapicinit_masks d : exists d', ioapicinit d = Ret tt d' /\
  forall i, 0 <= i <= max_intr d -> redirection d' i = (u32 (Z.lor INT_DISABLED (T_IRQ0 + i)), 0).
Proof.
  destruct (mask_loop (seqZ 0 (max_intr d + 1)) (Ioapic REG_ID (io_data d))) as (d'&E&H). exists d'. split; [exact E|].
  intros i Hi. rewrite H. case_bool_decide as Hn; [done|]. exfalso. apply Hn, elem_of_seqZ. lia.
Qed.
(** [ioapicenable] opens one interrupt and leaves the others. *)
Lemma ioapicenable_opens irq cpunum d : exists d', ioapicenable irq cpunum d = Ret tt d' /\
  redirection d' irq = (u32 (T_IRQ0 + irq), u32 (Z.shiftl cpunum 24)) /\ forall i, i <> irq -> redirection d' i = redirection d i.
Proof.
  eexists. split; [reflexivity|]. unfold redirection. simpl. split.
  - rewrite fupd_ne, !fupd_eq by lia. done.
  - intros i Hi. by rewrite !fupd_ne by lia.
Qed.

Section lapic_runs.
Context (lreg : nat -> Z -> Z).

Lemma lapicw_run i v a l n p w : lapicw lreg i v (Devs a l n p w) = Ret tt (Devs a (l ++ [(i, u32 v)]) (S n) p w).
Proof. reflexivity. Qed.
Lemma wait_delivered_run B fuel : forall s, (forall n, (B <= n)%nat -> Z.land (lreg n ICRLO) DELIVS = 0) -> (B < nreads s + fuel)%nat -> (0 < fuel)%nat ->
  exists n, wait_delivered lreg fuel s = Ret tt (Devs (lapic s) (lwrites s) n (ports s) (low s)).
Proof.
  induction fuel as [|fuel IH]; intros s Hd Hf H0; [lia|]. cbn [wait_delivered]. unfold lapic_read at 1. rewrite bind_assoc, bind_gets, bind_assoc, bind_modify, bind_ret_l.
  destruct (Z.eqb_spec (Z.land (lreg (nreads s) ICRLO) DELIVS) 0) as [E|E]; [by eexists|].
  destruct (decide (B <= nreads s)%nat); [by rewrite Hd in E|].
  destruct (IH (Devs (lapic s) (lwrites s) (S (nreads s)) (ports s) (low s)) Hd) as [n' E']; [simpl; lia|lia|]. by exists n'.
Qed.

(** The registers [lapicinit] programs, in order: the timer and the error
    interrupt get the vectors of the trap table, the other lines are masked.
    It ends once the interrupt command is delivered. *)
Definition lapic_program (pc : bool) : list (Z * Z) :=
  [(SVR, 0x13F); (TDCR, 0xB); (TIMER, 0x20020); (TICR, 10000000); (LINT0, 0x10000); (LINT1, 0x10000)] ++
  (if pc then [(PCINT, 0x10000)] else []) ++
  [(ERROR, 51); (ESR, 0); (ESR, 0); (EOI, 0); (ICRHI, 0); (ICRLO, 0x88500); (TPR, 0)].
Lemma lapicinit_programs B fuel s : lapic s <> 0 -> (forall n, (B <= n)%nat -> Z.land (lreg n ICRLO) DELIVS = 0) -> (B < fuel)%nat ->
  exists n, lapicinit lreg fuel s = Ret tt (Devs (lapic s)
    (lwrites s ++ lapic_program (4 <=? Z.land (Z.shiftr (lreg (nreads s + 6)%nat VER) 16) 0xFF)) n (ports s) (low s)).
Proof.
  intros Hl Hd Hf. destruct s as [a l n p w]. cbn [lapic lwrites nreads ports low] in *. unfold lapicinit. rewrite bind_gets. cbn [lapic]. rewrite (proj2 (Z.eqb_neq _ _) Hl).
  rewrite !(bind_run _ _ _ _ _ (lapicw_run _ _ _ _ _ _ _)). unfold lapic_read at 1. rewrite bind_assoc, bind_gets, bind_assoc, bind_modify, bind_ret_l.
  cbn [lapic lwrites nreads ports low]. replace (S (S (S (S (S (S n)))))) with (n + 6)%nat by lia.
  destruct (4 <=? _); cbn [when]; [rewrite (bind_run _ _ _ _ _ (lapicw_run _ _ _ _ _ _ _))|rewrite bind_ret_l]; rewrite !(bind_run _ _ _ _ _ (lapicw_run _ _ _ _ _ _ _));
    (match goal with |- exists n, bind (wait_delivered lreg fuel) _ ?st = _ =>
       destruct (wait_delivered_run B fuel st Hd) as [n' En]; [simpl; lia|lia|]; rewrite (bind_run _ _ _ _ _ En) end);
    rewrite lapicw_run; eexists; cbn [lapic lwrites nreads ports low]; rewrite <- !app_assoc; reflexivity.
Qed.
End lapic_runs.

(** ** The time *)

Section time.
Context (cmos : nat -> Z -> Z).

Definition snapshot (n : nat) : rtcdate := Rtcdate (cmos n 0) (cmos (n + 1) 2) (cmos (n + 2) 4) (cmos (n + 3) 7) (cmos (n + 4) 8) (cmos (n + 5) 9).
Definition with_reads (n : nat) (p : list (Z * Z)) (s : devs) : devs := Devs (lapic s) (lwrites s) n p (low s).
Lemma cmos_read_run r n p s : exists p', cmos_read cmos r (with_reads n p s) = Ret (cmos n r) (with_reads (S n) p' s).
Proof. eexists. reflexivity. Qed.
Lemma fill_rtcdate_run n p s : exists p', fill_rtcdate cmos (with_reads n p s) = Ret (snapshot n) (with_reads (n + 6) p' s).
Proof.
  unfold fill_rtcdate, snapshot. rewrite !Nat.add_succ_r, Nat.add_0_r.
  destruct (cmos_read_run 0 n p s) as [p1 E1]. destruct (cmos_read_run 2 (S n) p1 s) as [p2 E2]. destruct (cmos_read_run 4 (S (S n)) p2 s) as [p3 E3].
  destruct (cmos_read_run 7 (S (S (S n))) p3 s) as [p4 E4]. destruct (cmos_read_run 8 (S (S (S (S n)))) p4 s) as [p5 E5].
  destruct (cmos_read_run 9 (S (S (S (S (S n))))) p5 s) as [p6 E6].
  rewrite (bind_run _ _ _ _ _ E1), (bind_run _ _ _ _ _ E2), (bind_run _ _ _ _ _ E3), (bind_run _ _ _ _ _ E4), (bind_run _ _ _ _ _ E5), (bind_run _ _ _ _ _ E6).
  by exists p6.
Qed.
Lemma with_reads_self s : with_reads (nreads s) (ports s) s = s.
Proof. by destruct s. Qed.

(** One round of the loop *)
Lemma read_stable_round fuel n p s : exists p1 p2, read_stable cmos (S fuel) (with_reads n p s) =
  if negb (Z.land (cmos (n + 6) CMOS_STATA) CMOS_UIP =? 0) then read_stable cmos fuel (with_reads (n + 7) p1 s)
  else if decide (snapshot n = snapshot (n + 7)) then Ret (snapshot n) (with_reads (n + 13) p2 s) else read_stable cmos fuel (with_reads (n + 13) p2 s).
Proof.
  cbn [read_stable]. destruct (fill_rtcdate_run n p s) as [p1 E1]. rewrite (bind_run _ _ _ _ _ E1).
  destruct (cmos_read_run CMOS_STATA (n + 6) p1 s) as [p2 E2]. rewrite (bind_run _ _ _ _ _ E2).
  replace (S (n + 6)) with (n + 7)%nat by lia. destruct (fill_rtcdate_run (n + 7) p2 s) as [p3 E3]. exists p2, p3.
  destruct (negb _); [done|]. rewrite (bind_run _ _ _ _ _ E3). replace (n + 7 + 6)%nat with (n + 13)%nat by lia. by destruct (decide _).
Qed.

(** What the loop returns was read twice, with no update in progress in between. *)
Lemma read_stable_agrees fuel : forall m p s d s', read_stable cmos fuel (with_reads m p s) = Ret d s' ->
  exists n, d = snapshot n /\ snapshot (n + 7) = d /\ Z.land (cmos (n + 6) CMOS_STATA) CMOS_UIP = 0.
Proof.
  induction fuel as [|fuel IH]; intros m p s d s' E; [done|]. destruct (read_stable_round fuel m p s) as (p1&p2&Er). rewrite Er in E.
  destruct (Z.eqb_spec (Z.land (cmos (m + 6) CMOS_STATA) CMOS_UIP) 0) as [Eu|Eu]; cbn [negb] in E; [|by eapply IH].
  destruct (decide _) as [Ed|]; [|by eapply IH]. injection E as <- _. by exists m.
Qed.
(** Once the clock stands still between updates the loop ends. *)
Lemma read_stable_ends c k : forall fuel m p s, (forall n, (k + m <= n)%nat -> cmos n = c) -> Z.land (c CMOS_STATA) CMOS_UIP = 0 -> (k < fuel)%nat ->
  exists d s', read_stable cmos fuel (with_reads m p s) = Ret d s'.
Proof.
  induction k as [|k IH]; intros [|fuel] m p s Hc Hu Hf; try lia; destruct (read_stable_round fuel m p s) as (p1&p2&->).
  - rewrite (Hc (m + 6)%nat), Hu by lia. change (negb (0 =? 0)) with false. cbv iota. rewrite decide_True; [by eexists _, _|].
    unfold snapshot. by rewrite !Hc by lia.
  - destruct (negb _); [apply IH; [intros; apply Hc; lia|done|lia]|]. destruct (decide _); [by eexists _, _|]. apply IH; [intros; apply Hc; lia|done|lia].
Qed.
End time.

(** A clock that counts in decimal shows two digits in a byte. *)
Definition bcd (x : Z) : Z := x / 10 * 16 + x mod 10.
Lemma conv_bcd x : 0 <= x < 100 -> conv (bcd x) = x.
Proof.
  intros Hx. assert (H : forallb (fun x => conv (bcd x) =? x) (seqZ 0 100) = true) by (vm_compute; reflexivity).
  rewrite forallb_forall in H. apply Z.eqb_eq, H, list_elem_of_In, elem_of_seqZ. lia.
Qed.

(** The date as read from the [n]-th read on, when the clock has the date
    [D n] at read [n] *)
Definition read_date (D : nat -> rtcdate) (n : nat) : rtcdate :=
  Rtcdate (second (D n)) (minute (D (n + 1)%nat)) (hour (D (n + 2)%nat)) (day (D (n + 3)%nat)) (month (D (n + 4)%nat)) (year (D (n + 5)%nat)).
Definition two_digits (d : rtcdate) : Prop :=
  0 <= second d < 100 /\ 0 <= minute d < 100 /\ 0 <= hour d < 100 /\ 0 <= day d < 100 /\ 0 <= month d < 100 /\ 0 <= year d < 100.
(** The registers show the date, in the coding the status register tells *)
Definition shows (cmos : nat -> Z -> Z) (f : Z -> Z) (D : nat -> rtcdate) : Prop := forall n, two_digits (D n) /\
  cmos n 0 = f (second (D n)) /\ cmos n 2 = f (minute (D n)) /\ cmos n 4 = f (hour (D n)) /\
  cmos n 7 = f (day (D n)) /\ cmos n 8 = f (month (D n)) /\ cmos n 9 = f (year (D n)).

Lemma read_date_digits D n : (forall n, two_digits (D n)) -> two_digits (read_date D n).
Proof. intros H. unfold two_digits, read_date. cbn [second minute hour day month year]. split_and!; apply H. Qed.
Lemma snapshot_shows cmos f D n : shows cmos f D ->
  snapshot cmos n = let d := read_date D n in Rtcdate (f (second d)) (f (minute d)) (f (hour d)) (f (day d)) (f (month d)) (f (year d)).
Proof.
  intros H. unfold snapshot, read_date. cbv zeta. cbn [second minute hour day month year].
  destruct (H n) as (_&->&_), (H (n + 1)%nat) as (_&_&->&_), (H (n + 2)%nat) as (_&_&_&->&_), (H (n + 3)%nat) as (_&_&_&_&->&_),
    (H (n + 4)%nat) as (_&_&_&_&_&->&_), (H (n + 5)%nat) as (_&_&_&_&_&_&->). done.
Qed.

(** cmostime, on a clock that comes to stand still between updates,
    returns a date that it read from the clock twice in the same way, with no
    update in progress in between, with 2000 added to the year, whether the
    clock counts in binary or in decimal digits. *)
Theorem cmostime_tells_time cmos D s c k fuel :
  let f := if Z.land (cmos (nreads s) CMOS_STATB) 4 =? 0 then bcd else id in
  shows cmos f D -> (forall n, (k <= n)%nat -> cmos n = c) -> Z.land (c CMOS_STATA) CMOS_UIP = 0 -> (k < fuel)%nat ->
  exists n d s', cmostime cmos fuel s = Ret d s' /\ Z.land (cmos (n + 6)%nat CMOS_STATA) CMOS_UIP = 0 /\
    read_date D n = read_date D (n + 7) /\
    d = Rtcdate (second (read_date D n)) (minute (read_date D n)) (hour (read_date D n)) (day (read_date D n)) (month (read_date D n)) (2000 + year (read_date D n)).
Proof.
  intros f Hsh Hc Hu Hf. rewrite <- (with_reads_self s). unfold cmostime. destruct (cmos_read_run cmos CMOS_STATB (nreads s) (ports s) s) as [p1 E1].
  rewrite (bind_run _ _ _ _ _ E1).
  destruct (read_stable_ends cmos c k fuel (S (nreads s)) p1 s) as (d&s'&E2); [intros; apply Hc; lia|done|done|]. rewrite (bind_run _ _ _ _ _ E2).
  destruct (read_stable_agrees cmos fuel _ _ _ _ _ E2) as (n&Ed&Eq&En). exists n. eexists _, _. split; [reflexivity|]. split; [done|].
  assert (Hd : forall n, two_digits (read_date D n)) by (intros j; apply read_date_digits; intros j'; apply Hsh).
  assert (Hg : exists g, forall x, 0 <= x < 100 -> g (f x) = x).
  { subst f. destruct (_ =? 0); [exists conv; apply conv_bcd|by exists id]. }
  rewrite Ed, !(snapshot_shows cmos f D _ Hsh) in Eq. rewrite Ed, (snapshot_shows cmos f D _ Hsh). cbv zeta in *. split.
  - destruct Hg as [g Hg], (Hd n) as (B1&B2&B3&B4&B5&B6), (Hd (n + 7)%nat) as (C1&C2&C3&C4&C5&C6). injection Eq as Q1 Q2 Q3 Q4 Q5 Q6.
    assert (G : forall x y, 0 <= x < 100 -> 0 <= y < 100 -> f x = f y -> x = y) by (intros x y Hx Hy Exy; rewrite <- (Hg x Hx), Exy; auto).
    unfold read_date in *. cbn [second minute hour day month year] in *. f_equal; (apply G; [done|done|by symmetry]).
  - destruct (Hd n) as (B1&B2&B3&B4&B5&B6). subst f. destruct (_ =? 0); unfold conv_date; cbn [second minute hour day month year id];
      rewrite ?conv_bcd by done; f_equal; unfold id; rewrite u32_small by (unfold is_u32; lia); lia.
Qed.

(** A decimal clock at 23:59:58 on 31 December 2024, an update in progress
    during the first reading *)
Definition w_clock (n : nat) (reg : Z) : Z :=
  if reg =? CMOS_STATA then (if (n <? 10)%nat then 128 else 0)
  else if reg =? CMOS_STATB then 2
  else bcd (if reg =? 0 then 58 else if reg =? 2 then 59 else if reg =? 4 then 23 else if reg =? 7 then 31 else if reg =? 8 then 12 else 24).
Lemma cmostime_tells_time_witness : exists s', cmostime w_clock 20 (Devs 0 [] 0 [] (fun _ => 0)) = Ret (Rtcdate 58 59 23 31 12 2024) s'.
Proof.
  assert (Hs : shows w_clock bcd (fun _ => Rtcdate 58 59 23 31 12 24)).
  { intros n. split; [unfold two_digits; simpl; lia|]. split_and!; reflexivity. }
  assert (Hc : forall n, (10 <= n)%nat -> w_clock n = w_clock 10).
  { intros n Hn. unfold w_clock. destruct (Nat.ltb_spec n 10); [lia|]. reflexivity. }
  destruct (cmostime_tells_time w_clock (fun _ => Rtcdate 58 59 23 31 12 24) (Devs 0 [] 0 [] (fun _ => 0)) (w_clock 10) 10 20 Hs Hc eq_refl ltac:(lia))
    as (n&d&s'&E&_&_&->).
  exists s'. exact E.
Defined.
