(* ===== verification/Tables.v ===== *)
(** * mmu.h, vm.c and trap.c: segment and interrupt descriptors

    The descriptors with their bit fields cut to width, the tables seginit and
    tvinit fill, and how the processor reads them: the base and limit of a
    segment, and what an interrupt or an int instruction does with a gate. *)
From stdpp Require Import base numbers list gmap sets strings.
From S2P Require Import Prelude Mmu Proc Trap.
Open Scope Z_scope.

(** A value stored into a field of [w] bits *)
Definition field (w x : Z) : Z := x mod 2 ^ w.

Record segdesc := Segdesc {
  lim_15_0 : Z; base_15_0 : Z; base_23_16 : Z; sd_type : Z; sd_s : Z; sd_dpl : Z; sd_p : Z; lim_19_16 : Z;
  sd_avl : Z; sd_rsv1 : Z; sd_db : Z; sd_g : Z; base_31_24 : Z }.
Record gatedesc := Gatedesc {
  off_15_0 : Z; gd_cs : Z; gd_args : Z; gd_rsv1 : Z; gd_type : Z; gd_s : Z; gd_dpl : Z; gd_p : Z; off_31_16 : Z }.

Definition SEG_KCODE : Z := 1.
Definition SEG_KDATA : Z := 2.
Definition STA_X : Z := 8.
Definition STA_W : Z := 2.
Definition STA_R : Z := 2.
Definition STS_IG32 : Z := 14.
Definition STS_TG32 : Z := 15.

(** [SEG(type, base, lim, dpl)] and [SEG16] *)
Definition SEG (type base lim dpl : Z) : segdesc :=
  Segdesc (field 16 (Z.land (Z.shiftr lim 12) 0xffff)) (field 16 (Z.land (u32 base) 0xffff))
    (field 8 (Z.land (Z.shiftr (u32 base) 16) 0xff)) (field 4 type) 1 (field 2 dpl) 1
    (field 4 (Z.shiftr (u32 lim) 28)) 0 0 1 1 (field 8 (Z.shiftr (u32 base) 24)).
Definition SEG16 (type base lim dpl : Z) : segdesc :=
  Segdesc (field 16 (Z.land lim 0xffff)) (field 16 (Z.land (u32 base) 0xffff))
    (field 8 (Z.land (Z.shiftr (u32 base) 16) 0xff)) (field 4 type) 1 (field 2 dpl) 1
    (field 4 (Z.shiftr (u32 lim) 16)) 0 0 1 0 (field 8 (Z.shiftr (u32 base) 24)).

(** [SETGATE(gate, istrap, sel, off, d)] *)
Definition SETGATE (istrap sel off d : Z) : gatedesc :=
  Gatedesc (field 16 (Z.land (u32 off) 0xffff)) (field 16 sel) 0 0 (if istrap =? 0 then STS_IG32 else STS_TG32) 0 (field 2 d) 1
    (field 16 (Z.shiftr (u32 off) 16)).

(** [seginit()] on the table of this processor *)
Definition seginit (gdt : Z -> segdesc) : Z -> segdesc :=
  let gdt := fupd gdt SEG_KCODE (SEG (Z.lor STA_X STA_R) 0 0xffffffff 0) in
  let gdt := fupd gdt SEG_KDATA (SEG STA_W 0 0xffffffff 0) in
  let gdt := fupd gdt SEG_UCODE (SEG (Z.lor STA_X STA_R) 0 0xffffffff DPL_USER) in
  fupd gdt SEG_UDATA (SEG STA_W 0 0xffffffff DPL_USER).

(** [tvinit()]; [vectors] is the table of entry points in vectors.S *)
Definition tvinit (vectors : Z -> Z) (idt : Z -> gatedesc) : Z -> gatedesc :=
  let idt := fold_left (fun idt i => fupd idt i (SETGATE 0 (Z.shiftl SEG_KCODE 3) (vectors i) 0)) (seqZ 0 256) idt in
  fupd idt T_SYSCALL (SETGATE 1 (Z.shiftl SEG_KCODE 3) (vectors T_SYSCALL) DPL_USER).

(** ** What the processor reads *)

Definition seg_base (d : segdesc) : Z := base_15_0 d + 65536 * base_23_16 d + 16777216 * base_31_24 d.
(** The last address of a segment: the limit counts pages when [g] is set *)
Definition seg_limit (d : segdesc) : Z :=
  let l := lim_15_0 d + 65536 * lim_19_16 d in if sd_g d =? 0 then l else l * 4096 + 4095.
Definition gate_offset (g : gatedesc) : Z := off_15_0 g + 65536 * off_31_16 g.

(** An entry into the kernel: where to, in which segment, and whether
    interrupts are turned off *)
Record kentry := Kentry { to_offset : Z; to_segment : segdesc; masks : bool }.
(** Vector [v] at privilege level [cpl]; [software] for an int instruction,
    which needs a gate of its own level or an outer one.  [None] is a
    protection fault. *)
Definition enter (idt : Z -> gatedesc) (gdt : Z -> segdesc) (cpl v : Z) (software : bool) : option kentry :=
  let g := idt v in
  if (gd_p g =? 0) || negb (gd_s g =? 0) || negb ((gd_type g =? STS_IG32) || (gd_type g =? STS_TG32)) then None
  else if software && (gd_dpl g <? cpl) then None
  else Some (Kentry (gate_offset g) (gdt (Z.shiftr (gd_cs g) 3)) (gd_type g =? STS_IG32)).

Lemma land_low x k : 0 <= k -> Z.land x (2 ^ k - 1) = x mod 2 ^ k.
Proof. intros Hk. rewrite <- Z.land_ones by done. f_equal. rewrite Z.ones_equiv. lia. Qed.

(** A descriptor made by [SEG] has the base it was given, and its limit is
    filled up to a page. *)
Lemma SEG_reads type base lim dpl : is_u32 base -> is_u32 lim ->
  seg_base (SEG type base lim dpl) = base /\ seg_limit (SEG type base lim dpl) = lim / 4096 * 4096 + 4095.
Proof.
  intros Hb Hl. unfold seg_base, seg_limit, SEG, field. cbn [base_15_0 base_23_16 base_31_24 lim_15_0 lim_19_16 sd_g].
  rewrite !u32_small by done. change 0xffff with (2 ^ 16 - 1). change 0xff with (2 ^ 8 - 1). rewrite !land_low, !Z.shiftr_div_pow2 by lia.
  change (2 ^ 16) with 65536. change (2 ^ 8) with 256. change (2 ^ 12) with 4096. change (2 ^ 24) with 16777216. change (2 ^ 28) with 268435456. change (2 ^ 4) with 16.
  unfold is_u32 in *. change (1 =? 0) with false. cbv iota. split; Z.div_mod_to_equations; lia.
Qed.
Lemma SETGATE_reads istrap sel off d : is_u32 off -> gate_offset (SETGATE istrap sel off d) = off.
Proof.
  intros Ho. unfold gate_offset, SETGATE, field. cbn [off_15_0 off_31_16]. rewrite !u32_small by done.
  change 0xffff with (2 ^ 16 - 1). rewrite land_low, Z.shiftr_div_pow2 by lia. change (2 ^ 16) with 65536. unfold is_u32 in *. Z.div_mod_to_equations; lia.
Qed.

Lemma idt_filled vectors l : forall idt v, fold_left (fun idt i => fupd idt i (SETGATE 0 (Z.shiftl SEG_KCODE 3) (vectors i) 0)) l idt v =
  if bool_decide (v ∈ l) then SETGATE 0 (Z.shiftl SEG_KCODE 3) (vectors v) 0 else idt v.
Proof.
  induction l as [|i l IH]; intros idt v; [done|]. cbn [fold_left]. rewrite IH. case_bool_decide as H1; case_bool_decide as H2; try done; try set_solver.
  - assert (v = i) as -> by set_solver. apply fupd_eq.
  - apply fupd_ne. set_solver.
Qed.
Lemma tvinit_at vectors idt v : 0 <= v < 256 -> tvinit vectors idt v =
  if v =? T_SYSCALL then SETGATE 1 8 (vectors v) DPL_USER else SETGATE 0 8 (vectors v) 0.
Proof.
  intros Hv. unfold tvinit. rewrite fupd_at. destruct (Z.eqb_spec v T_SYSCALL) as [->|]; [done|].
  rewrite idt_filled. rewrite bool_decide_true by (apply elem_of_seqZ; lia). done.
Qed.

