(* ===== verification/Loader.v ===== *)
(** * relocate.c of the UEFI loader: loading the kernel file

    Memory is that of the machine at its physical addresses.  LoadFile leaves
    the file in a buffer, AllocatePages of the firmware grants a range or
    refuses it, CopyMem and SetMem are the firmware library's; they are
    parameters, the last two with the behaviour they are documented to have. *)
From stdpp Require Import base numbers list.
From S2P Require Import Prelude Memory.
Open Scope Z_scope.

Definition u64 (z : Z) : Z := z mod 18446744073709551616.

(** [Elf32_Ehdr] and [Elf32_Phdr], the fields used *)
Record ehdr := Ehdr { e_entry : Z; e_phoff : Z; e_phnum : Z }.
Record phdr := Phdr { p_type : Z; p_offset : Z; p_paddr : Z; p_filesz : Z; p_memsz : Z; p_align : Z }.
Definition PT_LOAD : Z := 1.
Definition ehdr_at (m : mem) (a : Z) : ehdr := Ehdr (load32 m (a + 24)) (load32 m (a + 28)) (load16 m (a + 44)).
Definition phdr_at (m : mem) (a : Z) : phdr :=
  Phdr (load32 m a) (load32 m (a + 4)) (load32 m (a + 12)) (load32 m (a + 16)) (load32 m (a + 20)) (load32 m (a + 28)).
(** [Phdr[i]] of the file at [b] *)
Definition nth_phdr (m : mem) (b i : Z) : phdr := phdr_at m (b + e_phoff (ehdr_at m b) + 32 * i).

(** [end_address], rounded up *)
Definition seg_end (p : phdr) : Z :=
  let mask := u32 (p_align p - 1) in
  Z.land (u64 (p_paddr p + p_memsz p + mask)) (u64 (Z.lnot mask)).

(** The first loop: the range all segments lie in, [None] before the first *)
Definition widen (r : option (Z * Z)) (p : phdr) : option (Z * Z) :=
  if p_type p =? PT_LOAD then
    match r with
    | None => Some (p_paddr p, seg_end p)
    | Some (s, e) => Some (if p_paddr p <? s then p_paddr p else s, if e <? seg_end p then seg_end p else e)
    end
  else r.
Definition load_range (m : mem) (b : Z) : option (Z * Z) :=
  fold_left (fun r i => widen r (nth_phdr m b i)) (seqZ 0 (e_phnum (ehdr_at m b))) None.
Definition page_size (s e : Z) : Z := u64 (e - s) / 4096 + 1.

Inductive relocated :=
| Loaded (entry : Z) (m : mem)
| LoadFailed
| AllocFailed
| Unset.

Section relocate.
Context (CopyMem : Z -> Z -> Z -> mem -> mem) (SetMem : Z -> Z -> Z -> mem -> mem).

(** The second loop, for one header *)
Definition place (b : Z) (m : mem) (i : Z) : mem :=
  let p := nth_phdr m b i in
  if p_type p =? PT_LOAD then
    let m := CopyMem (p_paddr p) (b + p_offset p) (p_filesz p) m in
    if p_filesz p <? p_memsz p then SetMem (p_paddr p + p_filesz p) (p_memsz p - p_filesz p) 0 m else m
  else m.
(** [RelocateELF]; [Unset] when no header gives the range to allocate.  The
    buffer goes back to the firmware at the end. *)
Definition RelocateELF (LoadFile : option Z) (AllocatePages : Z -> Z -> bool) (m : mem) : relocated :=
  match LoadFile with
  | None => LoadFailed
  | Some b =>
      match load_range m b with
      | None => Unset
      | Some (s, e) =>
          if AllocatePages s (page_size s e) then
            let m := fold_left (place b) (seqZ 0 (e_phnum (ehdr_at m b))) m in
            Loaded (e_entry (ehdr_at m b)) m
          else AllocFailed
      end
  end.
End relocate.

(** ** Ranges *)

Lemma land_lnot_ones x k : 0 <= k -> 0 <= x < 18446744073709551616 -> 2 ^ k - 1 < 18446744073709551616 ->
  Z.land x (u64 (Z.lnot (2 ^ k - 1))) = x / 2 ^ k * 2 ^ k.
Proof.
  intros Hk Hx Hm. unfold u64. change 18446744073709551616 with (2 ^ 64) in *.
  rewrite <- (Z.land_ones (Z.lnot (2 ^ k - 1)) 64), (Z.land_comm (Z.lnot _)), Z.land_assoc, Z.land_ones, Z.mod_small by lia.
  replace (2 ^ k - 1) with (Z.ones k) by (rewrite Z.ones_equiv; lia).
  rewrite <- Z.ldiff_land, Z.ldiff_ones_r, Z.shiftr_div_pow2, Z.shiftl_mul_pow2 by lia. done.
Qed.
(** The alignment is a power of two, or 0. *)
Definition aligned_by (p : phdr) (k : Z) : Prop := 0 <= k <= 32 /\ u32 (p_align p - 1) = 2 ^ k - 1.
Lemma pow32 k : 0 <= k <= 32 -> 1 <= 2 ^ k <= 4294967296.
Proof. intros Hk. change 4294967296 with (2 ^ 32). split; [|apply Z.pow_le_mono_r; lia]. pose proof (Z.pow_pos_nonneg 2 k). lia. Qed.
Lemma seg_end_above p k : aligned_by p k -> is_u32 (p_paddr p) -> is_u32 (p_memsz p) ->
  p_paddr p + p_memsz p <= seg_end p < 12884901888.
Proof.
  intros [Hk Ha] Hp Hm. unfold seg_end. rewrite Ha. pose proof (pow32 k Hk) as Hw. unfold is_u32 in *.
  assert (E : u64 (p_paddr p + p_memsz p + (2 ^ k - 1)) = p_paddr p + p_memsz p + (2 ^ k - 1)) by (unfold u64; apply Z.mod_small; lia).
  rewrite E, land_lnot_ones by lia. pose proof (Z.div_mod (p_paddr p + p_memsz p + (2 ^ k - 1)) (2 ^ k) ltac:(lia)).
  pose proof (Z.mod_pos_bound (p_paddr p + p_memsz p + (2 ^ k - 1)) (2 ^ k) ltac:(lia)). lia.
Qed.

(** ** What the loader assumes of the file *)

Section loading.
Context (m : mem) (b fsize : Z) (Hwf : mem_wf m).
Definition nseg : Z := e_phnum (ehdr_at m b).
Definition seg (i : Z) : phdr := nth_phdr m b i.
Definition loads (i : Z) : Prop := 0 <= i < nseg /\ p_type (seg i) = PT_LOAD.
Definition in_seg (i x : Z) : Prop := p_paddr (seg i) <= x < p_paddr (seg i) + p_memsz (seg i).

(** The headers and the bytes of the segments are in the buffer, alignments
    are powers of two, and no segment overlaps another or the buffer. *)
Record loadable : Prop := {
  l_head : 0 <= b /\ 52 <= fsize /\ forall i, 0 <= i < nseg -> 52 <= e_phoff (ehdr_at m b) + 32 * i /\ e_phoff (ehdr_at m b) + 32 * i + 32 <= fsize;
  l_seg : forall i, loads i -> p_filesz (seg i) <= p_memsz (seg i) /\ p_offset (seg i) + p_filesz (seg i) <= fsize /\ exists k, aligned_by (seg i) k;
  l_buf : forall i x, loads i -> in_seg i x -> ~ b <= x < b + fsize;
  l_apart : forall i j x, loads i -> loads j -> in_seg i x -> in_seg j x -> i = j
}.
Context (HL : loadable).

Lemma seg_u32 i : is_u32 (p_paddr (seg i)) /\ is_u32 (p_memsz (seg i)) /\ is_u32 (p_filesz (seg i)) /\ is_u32 (p_offset (seg i)).
Proof using Hwf. unfold seg, nth_phdr, phdr_at. simpl. split_and!; by apply load32_range. Qed.

(** The range covers every segment *)
Lemma widen_covers l : forall r, (forall s e, r = Some (s, e) -> 0 <= s /\ 0 <= e < 12884901888) -> (forall i, i ∈ l -> 0 <= i < nseg) ->
  forall s e, fold_left (fun r i => widen r (seg i)) l r = Some (s, e) -> 0 <= s /\ 0 <= e < 12884901888 /\
    (forall s0 e0, r = Some (s0, e0) -> s <= s0 /\ e0 <= e) /\
    (forall i, i ∈ l -> p_type (seg i) = PT_LOAD -> s <= p_paddr (seg i) /\ p_paddr (seg i) + p_memsz (seg i) <= e).
Proof using HL Hwf.
  induction l as [|i l IH]; intros r Hr Hl s e E; simpl in E.
  - destruct (Hr s e E) as [? ?]. split_and!; [lia|lia|lia|intros s0 e0 E2; assert (s0 = s /\ e0 = e) as [-> ->] by (split; congruence); lia|]. intros i Hi. by apply not_elem_of_nil in Hi.
  - assert (Hi : 0 <= i < nseg) by (apply Hl; left). destruct (seg_u32 i) as (Hp&Hm&_).
    assert (Hl' : forall j, j ∈ l -> 0 <= j < nseg) by (intros j Hj; apply Hl; by right).
    unfold widen in E at 2. destruct (Z.eqb_spec (p_type (seg i)) PT_LOAD) as [Et|Et].
    + destruct (l_seg HL i (conj Hi Et)) as (_&_&k&Hk). pose proof (seg_end_above _ _ Hk Hp Hm) as Hs. unfold is_u32 in *.
      destruct r as [[s0 e0]|].
      * destruct (Hr s0 e0 eq_refl). apply IH in E as (H1&H2&H3&H4); [|intros s1 e1 E1; apply (inj Some), pair_eq in E1 as [<- <-]; zcases; lia|done].
        destruct (H3 _ _ eq_refl) as [G1 G2]. split_and!; [lia..| |].
        -- intros s1 e1 E1. apply (inj Some), pair_eq in E1 as [<- <-]. revert G1 G2. zcases; lia.
        -- intros j Hj Hjt. apply elem_of_cons in Hj as [->|Hj]; [|by apply H4]. revert G1 G2. zcases; lia.
      * apply IH in E as (H1&H2&H3&H4); [|intros s1 e1 E1; apply (inj Some), pair_eq in E1 as [<- <-]; lia|done]. destruct (H3 _ _ eq_refl) as [G1 G2]. split_and!; [lia..|done|].
        intros j Hj Hjt. apply elem_of_cons in Hj as [->|Hj]; [lia|by apply H4].
    + apply IH in E as (H1&H2&H3&H4); [|done|done]. split_and!; [lia..|done|]. intros j Hj Hjt. apply elem_of_cons in Hj as [->|Hj]; [done|by apply H4].
Qed.
Lemma widen_some l : forall r, (r <> None \/ exists i, i ∈ l /\ p_type (seg i) = PT_LOAD) -> fold_left (fun r i => widen r (seg i)) l r <> None.
Proof.
  induction l as [|i l IH]; intros r Hr; cbn [fold_left].
  - destruct Hr as [Hr|(i&Hi&_)]; [done|]. by apply not_elem_of_nil in Hi.
  - apply IH. unfold widen. destruct (Z.eqb_spec (p_type (seg i)) PT_LOAD) as [Et|Et]; [left; by destruct r as [[]|]|].
    destruct Hr as [Hr|(j&Hj&Hjt)]; [by left|]. right. exists j. apply elem_of_cons in Hj as [->|Hj]; done.
Qed.

(** ** The copy *)

Context (CopyMem : Z -> Z -> Z -> mem -> mem) (SetMem : Z -> Z -> Z -> mem -> mem).
Context (HC : forall d s n m x, CopyMem d s n m x = copied m d s n x) (HS : forall d n c m x, SetMem d n c m x = fill m d n c x).

(** Memory when the first [k] headers are done *)
Definition placed (k : Z) (m' : mem) : Prop :=
  (forall i j, loads i -> i < k -> 0 <= j < p_memsz (seg i) ->
     m' (p_paddr (seg i) + j) = if j <? p_filesz (seg i) then m (b + p_offset (seg i) + j) else 0) /\
  (forall x, (forall i, loads i -> i < k -> ~ in_seg i x) -> m' x = m x).

Lemma placed_buffer k m' x : placed k m' -> b <= x < b + fsize -> m' x = m x.
Proof using HL. intros [_ H] Hx. apply H. intros i Hi _ Hs. by apply (l_buf HL i x). Qed.
Lemma placed_ehdr k m' : placed k m' -> ehdr_at m' b = ehdr_at m b.
Proof using HL.
  intros H. destruct (l_head HL) as (Hb&Hf&_). unfold ehdr_at, load16. f_equal; [apply load32_ext|apply load32_ext|f_equal; apply load_bytes_ext];
    intros x Hx; apply (placed_buffer k); done || lia.
Qed.
Lemma placed_phdr k m' i : placed k m' -> 0 <= i < nseg -> nth_phdr m' b i = seg i.
Proof using HL.
  intros H Hi. destruct (l_head HL) as (Hb&Hf&Hh). specialize (Hh i Hi). unfold seg, nth_phdr. rewrite (placed_ehdr k) by done. unfold phdr_at.
  f_equal; apply load32_ext; intros x Hx; apply (placed_buffer k); done || lia.
Qed.

Lemma place_next k m' : placed k m' -> 0 <= k < nseg -> placed (k + 1) (place CopyMem SetMem b m' k).
Proof using HL HC HS Hwf.
  intros H Hk. pose proof (seg_u32 k) as (Hu1&Hu2&Hu3&Hu4). unfold is_u32 in *. unfold place. rewrite (placed_phdr k) by done. cbv zeta.
  destruct (Z.eqb_spec (p_type (seg k)) PT_LOAD) as [Et|Et].
  - assert (Hlk : loads k) by done. destruct (l_seg HL k Hlk) as (Hfm&Hof&_). set (q := seg k) in *.
    set (m2 := if _ <? _ then _ else _).
    assert (Em : forall x, m2 x = if (p_paddr q <=? x) && (x <? p_paddr q + p_memsz q) then
        (if x <? p_paddr q + p_filesz q then m (b + p_offset q + (x - p_paddr q)) else 0) else m' x).
    { intros x. assert (Hsrc : p_paddr q <= x < p_paddr q + p_filesz q -> m' (b + p_offset q + (x - p_paddr q)) = m (b + p_offset q + (x - p_paddr q)))
        by (intros Hx; apply (placed_buffer k); [done|lia]).
      unfold m2. destruct (Z.ltb_spec (p_filesz q) (p_memsz q)); rewrite ?HS; unfold fill; rewrite ?HC; unfold copied; zcases; cbn [andb]; try lia; try (rewrite Hsrc by lia); done. }
    split.
    + intros i j Hi Hik Hj. rewrite Em. destruct (decide (i = k)) as [->|Hne].
      * fold q. fold q in Hj. zcases; cbn [andb]; try lia; f_equal; lia.
      * assert (Hns : ~ in_seg k (p_paddr (seg i) + j)).
        { intros Hs. apply Hne. apply (l_apart HL i k (p_paddr (seg i) + j)); [done|done|unfold in_seg; lia|done]. }
        unfold in_seg in Hns. fold q in Hns. destruct H as [H _]. rewrite <- (H i j Hi ltac:(lia) Hj).
        destruct (Z.leb_spec (p_paddr q) (p_paddr (seg i) + j)), (Z.ltb_spec (p_paddr (seg i) + j) (p_paddr q + p_memsz q)); cbn [andb]; try done. lia.
    + intros x Hx. rewrite Em. pose proof (Hx k Hlk ltac:(lia)) as Hns. unfold in_seg in Hns. fold q in Hns. destruct H as [_ H].
      destruct (Z.leb_spec (p_paddr q) x), (Z.ltb_spec x (p_paddr q + p_memsz q)); cbn [andb]; try lia; apply H; intros i Hi Hik; apply Hx; done || lia.
  - destruct H as [H1 H2]. split.
    + intros i j Hi Hik Hj. apply H1; [done| |done]. destruct Hi as [_ Hi]. destruct (decide (i = k)) as [->|]; [done|lia].
    + intros x Hx. apply H2. intros i Hi Hik. apply Hx; [done|lia].
Qed.
Lemma place_all n : forall k m', 0 <= k -> placed k m' -> k + Z.of_nat n <= nseg ->
  placed (k + Z.of_nat n) (fold_left (place CopyMem SetMem b) (seqZ k (Z.of_nat n)) m').
Proof using HL HC HS Hwf.
  induction n as [|n IH]; intros k m' Hk H Hn; [by rewrite Z.add_0_r|]. rewrite seqZ_cons by lia. cbn [fold_left].
  replace (Z.pred (Z.of_nat (S n))) with (Z.of_nat n) by lia. replace (k + Z.of_nat (S n)) with (Z.succ k + Z.of_nat n) by lia.
  apply IH; [lia| |lia]. rewrite <- Z.add_1_r. apply place_next; [done|lia].
Qed.
End loading.


(** A file of one segment of four bytes, filled up to eight, and a header of
    another kind *)
Definition w_file : mem :=
  store_bytes (store32 (store32 (store32 (store32 (store32 (store32 (store16 (store32 (store32 (fun _ => 0)
    (0x100000 + 24) 0x1000) (0x100000 + 28) 52) (0x100000 + 44) 2)
    (0x100000 + 52) 1) (0x100000 + 56) 116) (0x100000 + 64) 0x1000) (0x100000 + 68) 4) (0x100000 + 72) 8) (0x100000 + 80) 0x1000)
    (0x100000 + 116) [1; 2; 3; 4].
Definition w_seg : phdr := Phdr 1 116 0x1000 4 8 0x1000.

